(* ===== verification/_CoqProject ===== *)
-Q . S2P
Prelude.v
Errors.v
GoStrings.v
Panics.v
Logging.v
Types.v
Encoder.v
Bridge.v
Builder.v
EthState.v
Retry.v
SendState.v
TxMgr.v
ConcurrentSends.v
Disseminator.v
Recovery.v
Pipeline.v
Validator.v
MemoryDB.v
FeeHook.v
Storage.v
Solc.v
Predeploys.v
Genesis.v
GenesisPlan.v
GenesisFees.v
GenesisCommand.v
Canonicalize.v
Bindings.v
CacheValidations.v
Broker.v
EthSync.v
EthHeads.v
SidecarConfig.v
Flags.v
BridgeClient.v
Sidecar.v
Prover.v
SimulatedBackend.v
SimulatedReaders.v
