(* ===== verification/Prelude.v ===== *)
(** * Specular: a verification development of the Go services

    The development models the Go code of the rollup: the sidecar (services/sidecar), which
    posts L2 blocks to L1 in batches and asserts the L2 state there; the fee hook that the
    execution client calls (lib/el_golang_lib); and the tools that generate the bindings of
    the contracts and build the L2 genesis (ops).  File names below are under src/.

    ** The program and the files

    The disseminator asks the L2 node for blocks, gives them to the batch builder, and sends
    the batches that come out through the bridge and the transaction manager.  The validator
    asserts the safe L2 head on L1 and confirms assertions.  Both read the L1 heads that the
    syncer keeps up to date, and both run in one group of goroutines.

    Shared:
    - [Prelude]: machine integers, panics ([go]), the tactics and hint databases, and the
      recording of calls (below).
    - [Errors]: services/sidecar/utils/fmt/error.go, utils/errors.go.  An error is its
      dynamic type and its chain of wrapped errors, so that [errors_Is] and [errors_As] are the
      standard library's walks; [result] is Go's pair of a value and an error.
    - [GoStrings]: packages strings and strconv, with the lemmas of the parsers and printers.
    - [Panics]: utils/fmt/parse_panic.go and stackframe.go.  The parser is compared with a
      declarative grammar of traces.
    - [Logging]: utils/log, the prefix that go-ethereum's loggers are given.
    - [Types]: rollup/types, and the parts of headers, blocks and transactions that are read.
    - [Retry]: utils/retry.

    The sidecar (services/sidecar/rollup):
    - [Encoder]: derivation/batch_v0_encoder.go.  [BatchV0Encoder] is the struct;
      [ProcessBlock], [GetBatch], [Reset] its methods.
    - [Builder]: derivation/batch_builder.go, over the interface [VersionedDataEncoder].  Its
      abstract specification is the log of the accepted blocks.
    - [Bridge], [BridgeClient]: rpc/bridge, with the ABI coder as a parameter and its
      round-trip law for a method of one [bytes] argument.
    - [EthState], [Broker], [EthSync]: rpc/eth/eth_state.go, utils/map.go, utils/broker.go,
      eth_syncer.go, utils.go, eth_client.go.  The broker, the goroutine of
      [SubscribeMappedToMany] and the syncer are transition systems whose steps are the
      goroutines' channel operations.  [EthHeads] composes them, from the polls to the heads.
    - [SendState], [TxMgr]: rpc/eth/txmgr.  Sending is a transition system: the main loop of
      sendTx, the publishing goroutines and their receipts interleave freely, and each call
      to publish, for a receipt or for the height is recorded.  A transaction's hash is the
      backend's [s_hash] of it.
      [ConcurrentSends]: any number of calls of Send over one manager, whose nonce field
      they share; the sequential [Sends] is the case of one call.
    - [Disseminator], [Validator]: services.  Their clients are type classes (the batch
      builder, the L1 and L2 clients) with contracts where a theorem needs one.
      [Recovery]: what follows a reorganization of L2.
    - [Pipeline]: disseminator, builder, encoder, bridge and transaction manager composed: it
      discharges the contracts, and defines the specification of what is posted.  Its state
      ([spec]) is the log of appended blocks, the batch made of it, and the posts; a post
      comes with its [delivery], what the transaction manager was given and the record of the
      calls by which it was published and confirmed.
    - [SidecarConfig], [Flags]: services/rollup_config.go, config.go and flags.go,
      rpc/eth/txmgr/config.go.
    - [Sidecar]: cmd/sidecar/main.go and services/api/service.go: the wiring, the two
      services' loops cut into steps that interleave with a changing world, and the shutdown.
    - [Prover]: services/sidecar/proof.

    The tools and the hook:
    - [MemoryDB]: ops/state/memory_db.go, and the interface [StateDB] with the contract its
      users rely on.
    - [FeeHook]: lib/el_golang_lib/hook/fee_hook.go, over any [StateDB] with the contract.
    - [Storage], [Solc]: ops/state/encoding.go and state.go, ops/bindings/solc and
      ops/bindings/bindings.
    - [SimulatedBackend], [SimulatedReaders]: ops/backends/simulated.go, the chain the
      predeploys are deployed on, and the two backends of ops/deployer.
    - [Predeploys], [Genesis], [GenesisCommand]: ops/predeploys, ops/deployer, ops/genesis,
      ops/cmd/genesis.  [GenesisPlan] has the abstract specification, a plan of accounts, and
      shows that [BuildL2Genesis] carries it out; [GenesisFees] composes the genesis with the
      fee hook.
    - [Canonicalize], [Bindings], [CacheValidations]: ops/bindings/ast, ops/bindings/gen.

    ** Calls and their record

    What a component does to the outside is stated over the calls it makes, not over the world
    they leave.  A world [W] with a list of calls, [W * list O], has the operations of [W]
    again, each of them adding its call and its answer to the list ([logged], [logged_go]) or
    adding nothing ([silent]); the code is run over that world unchanged, and a theorem speaks
    of the part [tr] of the list that a run adds.  [TxMgr] records the publishing of
    transactions, their receipts and the heights ([io]); [Validator] its calls to L1, the
    contracts and L2 ([vcall]); [Sidecar] those of the validator among the others' steps.

    ** What the theorems show

    - The whole sidecar: from its start, whatever the interleaving of the services and the
      outside world, the confirmed sends of the disseminator are the posts of an abstract log,
      in order, each sending its batch to the sequencer inbox ([Sidecar.sidecar_refines_spec]);
      assertions are tried for the safe head only, above those made before
      ([Sidecar.group_assertions_increase]); the steps of a service make up its loop
      ([Sidecar.dis_steps_equal_iteration]); what is running after the start
      ([Sidecar.startServices_correct]), and when the group ends.
    - Batches: nothing accepted by the builder is lost or reordered between two resets
      ([Builder.builder_refines_log]); the encoder on every branch
      ([Encoder.ProcessBlock_correct]); batches go out one at a time and the builder advances
      after a confirmed one and not after a failed one ([Disseminator.disseminateBatches_correct]); after a
      reorganization the chain on the safe head is appended ([Recovery.reorg_recovers]).
    - Sending: whatever the interleaving, all that is published is the caller's call under one
      nonce, and a receipt that is returned was given under the hash of such a transaction
      after it was accepted, and before a height that confirms it; a confirmed
      receipt is enough to return, and the wait for the goroutines can end
      ([TxMgr.sendTx_result], [sendTx_one_nonce], [sendTx_can_finish], [Send_correct]); the fees
      of resubmissions are bounded.  Concurrent calls take consecutive nonces, each call
      publishes under its own, and only a failed one resets the counter
      ([ConcurrentSends.concurrent_sends]).
    - Assertions: over any run of the validator one is tried exactly when the safe head is above
      the last one made, the first of which is the one its account is staked on
      ([Validator.start_correct]).
    - Logging: the prefix of a message tells the function, line and file that logged it.
    - L1 heads: they do not go back; messages reach each subscriber in order; a head is what
      its handler makes of the polled headers, in order and at most eleven behind; a handler
      that fails is not called again, and its head freezes, as it does on a genesis block
      ([EthState], [Broker], [EthHeads], [EthSync]).
    - Execution states: the sequence that is generated for a range of blocks, and that the
      generation ends ([Prover.GenerateStates_sequence], [GenerateStates_terminates]).
    - Panics: the parser accepts exactly the traces of the grammar and reads back what is
      printed, but for the name of a method that created the goroutine
      ([Panics.ParsePanic_grammar], [ParsePanic_roundtrip]).
    - Fees: the formula, the rounding of the float scaling for products below 2^50, and the
      conservation of balances.
    - The simulated backend: the pending block refines the list of accepted transactions, a
      transaction's life from pending to found, the least gas that works within an allowance
      below 2^63 and the search that does not end at 2^64-1, subscriptions.
    - Bindings: the canonical layout does not depend on the order of Go's ranges, under the
      conditions stated there, and a layout that is canonicalized, written into a Go file and
      loaded computes the same slots ([Canonicalize.canonical_deterministic],
      [Bindings.generated_layout_slots]).
    - Genesis: packing of storage fields, merging, the in-memory database as a store, the
      refinement of the genesis by its plan, with the deployed code and the whole storage of
      each account, the fee of the first transaction on it, and the files the command writes.
    - Where the code does not do what it means to, a theorem says what it does: the
      transactions missing from an encoded batch, the resubmission that a strict node refuses,
      the nonce that is taken twice after a reset, the proxies without code, the pointer that [errors.As] does not find, and others.

    ** Conventions, bounds and fuel

    A Go [uint64] is a [Z] reduced by [u64] after each operation; [*big.Int] is a [Z], with
    [option] where nil matters.  A function that can panic returns [go]; one that returns an
    error returns [result].  Code that is not in the repository (RLP and ABI coders, JSON, the
    L1 and L2 nodes, the EVM and its database, signers, clocks, key parsing, keccak, hexadecimal
    parsers, files) is a type class or a section variable, with named laws where a theorem uses
    them, and each theorem with hypotheses is applied at a concrete instance in the file's
    [Sample] module.  The order of a range over a Go map is a parameter, or the list given to
    the function.  Structural recursion is used throughout: service loops run over the list of
    events they receive, which is arbitrary; [disseminateBatches] takes fuel, one unit for a
    batch, and its theorem says what every amount of fuel gives; [append_loop] and
    [GenerateStates] have a unit for each block of the range, the second shown to need no more;
    the gas search takes 64 steps, shown to be enough for an allowance below 2^63; the genesis loop runs over its 2049 indices.

    ** Not modelled

    The one-line forwarding of utils/fmt/fmt.go, the parsing of command lines and the usage
    texts of the flags, the generated contract bindings and the Solidity
    contracts, interface declarations without code, go:generate directives, and the text
    encoding of 32-byte values, which is go-ethereum's.  Time enters as an input where the code
    reads the clock, and a timer may fire at any step.  Locks are not modelled: the operations
    they protect are single steps. *)

From stdpp Require Export base gmap strings list fin_maps relations.
From Stdlib Require Export ZArith Lia Bool.

#[export] Set Default Goal Selector "!".

Open Scope Z_scope.

(** ** Machine integers

    A Go [uint64] is a [Z] in [0, 2^64); every arithmetic operation of the source is
    followed by the reduction written out as [u64].  A Go [int] or [int64] is a [Z] in
    [-2^63, 2^63), reduced by [s64].  [*big.Int] is an unbounded [Z]. *)

Definition two64 : Z := 18446744073709551616.
Definition two63 : Z := 9223372036854775808.

Definition u64 (x : Z) : Z := x mod two64.

Definition s64 (x : Z) : Z := (x + two63) mod two64 - two63.

Definition is_u64 (x : Z) : Prop := 0 <= x < two64.

Definition is_s64 (x : Z) : Prop := - two63 <= x < two63.

#[export] Instance is_u64_dec x : Decision (is_u64 x).
Proof. unfold is_u64. apply _. Defined.

#[export] Instance is_s64_dec x : Decision (is_s64 x).
Proof. unfold is_s64. apply _. Defined.

(** ** Outcomes of a Go call

    [go A] is what a Go call does: it returns, or it panics (a nil dereference, an index
    out of range, an explicit [panic]).  The message is the panic's kind. *)

Inductive go (A : Type) : Type :=
| Ret (a : A)
| Panic (why : string).
Arguments Ret {A} a.
Arguments Panic {A} why.

#[export] Instance go_ret : MRet go := fun A a => Ret a.

#[export] Instance go_bind : MBind go := fun A B f m =>
  match m with
  | Ret a => f a
  | Panic w => Panic w
  end.

Definition nil_deref : string := "invalid memory address or nil pointer dereference".
Definition index_out_of_range : string := "index out of range".

(** ** Recording

    The code acts on the outside world through operations whose behaviour is a parameter.
    To say which of them it called, an operation is run on the world and a record of the
    calls, to which it adds its own call with the answer ([logged]) or nothing ([silent]).
    The code is not changed: it is run over other operations.  Others may change the world,
    but not the record ([keeps]). *)

Section Recording.
Context {W O A : Type}.

Definition silent (f : W → A * W) (w : W * list O) : A * (W * list O) :=
  let '(r, w1) := f w.1 in (r, (w1, w.2)).

Definition logged (o : A → O) (f : W → A * W) (w : W * list O) : A * (W * list O) :=
  let '(r, w1) := f w.1 in (r, (w1, w.2 ++ [o r])).

Definition silent_go (f : W → go (A * W)) (w : W * list O) : go (A * (W * list O)) :=
  '(r, w1) ← f w.1; Ret (r, (w1, w.2)).

Definition logged_go (o : A → O) (f : W → go (A * W)) (w : W * list O) : go (A * (W * list O)) :=
  '(r, w1) ← f w.1; Ret (r, (w1, w.2 ++ [o r])).

Definition keeps (w w' : W * list O) : Prop := w'.2 = w.2.

End Recording.

(** ** Service loops

    What the select of a service's loop receives: a tick, before which the outside world
    may have changed, or the end of the context. *)
Inductive event (W : Type) : Type :=
| ev_tick (env : W → W)
| ev_done.
Arguments ev_tick {W} env.
Arguments ev_done {W}.

(** ** Byte strings *)

Abbreviation bytes := (list Byte.byte).

#[export] Instance byte_eq_dec : EqDecision Byte.byte := Byte.byte_eq_dec.

(** ** The development's tactics and hint databases *)

Create HintDb specular.
Create Rewrite HintDb specular.

(** Split the first [match] or [if] of the goal, keeping the equation. *)
Ltac split_match :=
  match goal with
  | |- context [match ?x with _ => _ end] => destruct x eqn:?
  end.

(** The same in a hypothesis. *)
Ltac split_match_in H :=
  match type of H with
  | context [match ?x with _ => _ end] => destruct x eqn:?
  end.

(** Turn boolean comparisons of [Z] into propositions. *)
Ltac zbool :=
  repeat match goal with
  | H : (_ <? _) = true |- _ => apply Z.ltb_lt in H
  | H : (_ <? _) = false |- _ => apply Z.ltb_ge in H
  | H : (_ <=? _) = true |- _ => apply Z.leb_le in H
  | H : (_ <=? _) = false |- _ => apply Z.leb_gt in H
  | H : (_ >? _) = true |- _ => rewrite Z.gtb_ltb in H
  | H : (_ >? _) = false |- _ => rewrite Z.gtb_ltb in H
  | H : (_ >=? _) = true |- _ => rewrite Z.geb_leb in H
  | H : (_ >=? _) = false |- _ => rewrite Z.geb_leb in H
  | H : (_ =? _) = true |- _ => apply Z.eqb_eq in H
  | H : (_ =? _) = false |- _ => apply Z.eqb_neq in H
  | H : _ && _ = true |- _ => apply andb_true_iff in H; destruct H
  | H : _ || _ = false |- _ => apply orb_false_iff in H; destruct H
  | H : negb _ = true |- _ => apply negb_true_iff in H
  | H : negb _ = false |- _ => apply negb_false_iff in H
  end.

(** Arithmetic with the word sizes unfolded. *)
Ltac word :=
  unfold u64, s64, is_u64, is_s64, two64, two63 in *;
  Z.div_mod_to_equations; lia.

(** ** Lemmas on machine integers *)

Lemma u64_range x : is_u64 (u64 x).
Proof. word. Qed.

Lemma u64_small x : is_u64 x → u64 x = x.
Proof. intros H. apply Z.mod_small. exact H. Qed.

Lemma u64_idem x : u64 (u64 x) = u64 x.
Proof. apply u64_small, u64_range. Qed.

Lemma u64_add_l x y : u64 (u64 x + y) = u64 (x + y).
Proof. unfold u64. apply Zplus_mod_idemp_l. Qed.

Lemma s64_range x : is_s64 (s64 x).
Proof. word. Qed.

Lemma s64_small x : is_s64 x → s64 x = x.
Proof. intros H. word. Qed.

#[export] Hint Resolve u64_range s64_range : specular.

(** ** Lemmas on lists *)

Lemma last_snoc_inv {A} (l : list A) x : last l = Some x → ∃ l', l = l' ++ [x].
Proof. apply last_Some. Qed.

Lemma Forall_snoc {A} (P : A → Prop) l x : Forall P (l ++ [x]) ↔ Forall P l ∧ P x.
Proof. rewrite Forall_app, Forall_singleton. done. Qed.

Lemma last_cons_default {A} (l : list A) a d : List.last (a :: l) d = List.last l a.
Proof.
  revert a d. induction l as [|x l IH]; intros a d; [done|].
  change (List.last (x :: l) d = List.last (x :: l) a). by rewrite !IH.
Qed.
