(* ===== verification/Errors.v ===== *)
(** * Go errors: values, chains, [errors.Is] / [errors.As], and the sidecar's wrappers

    The services classify failures with [errors.Is] and [errors.As], so an error is
    modelled by its dynamic Go type and its [Unwrap] chain, not by its text alone.
    Models services/sidecar/utils/fmt/error.go (the [Error] type with a stack, [New],
    [Wrap], [Errorf]) and services/sidecar/utils/errors.go ([AsAny],
    [CategorizedError]).  Stack traces are not modelled: [StackError] keeps the wrapped
    error only. *)

From S2P Require Import Prelude.

(** ** Error values

    - [ErrorString n]: the pointer a package-level [errors.New] variable holds; two of
      them are equal when they are the same variable, named by [n];
    - [FmtError t]: a fresh error of [fmt.Errorf] without [%w], or an error of a
      library; no other error is equal to it;
    - [WrapError t e]: the standard library's [fmt.Errorf] with [%w];
    - [StackError e]: the [*Error] of utils/fmt;
    - the struct errors of the services; [AddrOf e] is a pointer to one. *)
Inductive error : Type :=
| ErrorString (name : string)
| FmtError (text : string)
| WrapError (text : string) (err : error)
| StackError (Err : error)
| InvalidBlockError (Msg : string)
| L2ReorgDetectedError (err : error)
| UnexpectedSystemStateError (msg : string)
| ErrFailedPermanently (attempts : Z) (LastErr : error)
| DecodeTxBatchError (msg : string)
| CategorizedError (Cat : Z) (Err : error)
| AddrOf (e : error).

(** The dynamic type of an error, as [reflect.TypeOf] gives it. *)
Inductive gotype : Type :=
| T_errorString
| T_wrapError
| T_Error
| T_InvalidBlockError
| T_L2ReorgDetectedError
| T_unexpectedSystemStateError
| T_ErrFailedPermanently
| T_DecodeTxBatchError
| T_CategorizedError
| T_ptr (t : gotype).

#[export] Instance gotype_eq_dec : EqDecision gotype.
Proof. solve_decision. Defined.

Fixpoint type_of (e : error) : gotype :=
  match e with
  | ErrorString _ | FmtError _ => T_ptr T_errorString
  | WrapError _ _ => T_ptr T_wrapError
  | StackError _ => T_ptr T_Error
  | InvalidBlockError _ => T_InvalidBlockError
  | L2ReorgDetectedError _ => T_L2ReorgDetectedError
  | UnexpectedSystemStateError _ => T_unexpectedSystemStateError
  | ErrFailedPermanently _ _ => T_ErrFailedPermanently
  | DecodeTxBatchError _ => T_DecodeTxBatchError
  | CategorizedError _ _ => T_CategorizedError
  | AddrOf e => T_ptr (type_of e)
  end.

(** [x == y] on two error interfaces: same dynamic type and equal contents; pointers to
    structs allocated by the callee are equal to nothing the callers compare with. *)
Fixpoint iface_eqb (x y : error) : bool :=
  match x, y with
  | ErrorString n, ErrorString n' => String.eqb n n'
  | InvalidBlockError m, InvalidBlockError m' => String.eqb m m'
  | UnexpectedSystemStateError m, UnexpectedSystemStateError m' => String.eqb m m'
  | L2ReorgDetectedError e, L2ReorgDetectedError e' => iface_eqb e e'
  | _, _ => false
  end.

(** The [Is] method of the types that have one: [CategorizedError] compares categories
    (utils/errors.go).  It is declared on the pointer type. *)
Definition CategorizedError_Is (e target : error) : bool :=
  match e, target with
  | AddrOf (CategorizedError c _), AddrOf (CategorizedError c' _) => c =? c'
  | _, _ => false
  end.

(** [errors.Is(err, target)]: the chain of [Unwrap]s of [err] meets [target].
    [unwrapped e k] is the step of the walk: the error's own test, then what [Unwrap]
    returns ([L2ReorgDetectedError] has no [Unwrap] method; [ErrFailedPermanently] and
    [CategorizedError] have it on the pointer). *)
Fixpoint errors_Is (e target : error) : bool :=
  iface_eqb e target || CategorizedError_Is e target ||
  match e with
  | WrapError _ e' | StackError e' => errors_Is e' target
  | AddrOf (ErrFailedPermanently _ e') | AddrOf (CategorizedError _ e') => errors_Is e' target
  | _ => false
  end.

(** [errors.As(err, &T{})]: the chain holds an error whose dynamic type is [T]. *)
Fixpoint errors_As (e : error) (t : gotype) : bool :=
  bool_decide (type_of e = t) ||
  match e with
  | WrapError _ e' | StackError e' => errors_As e' t
  | AddrOf (ErrFailedPermanently _ e') | AddrOf (CategorizedError _ e') => errors_As e' t
  | _ => false
  end.

(** [utils.AsAny(err, targets...)]. *)
Definition AsAny (e : error) (targets : list gotype) : bool :=
  existsb (errors_As e) targets.

(** ** utils/fmt/error.go *)

(** The argument of [New] and [Wrap]: nil, an error, or any other value, of which only
    its [%v] text is used. *)
Inductive any_err : Type :=
| any_nil
| any_error (e : error)
| any_text (t : string).

(** [New]: the value itself when it is an error, a fresh [fmt.Errorf] otherwise. *)
Definition New (e : any_err) : error :=
  StackError
    match e with
    | any_error e => e
    | any_text t => FmtError t
    | any_nil => FmtError "<nil>"
    end.

(** [Wrap]: nil stays nil, an [*Error] is returned as it is. *)
Definition Wrap (e : any_err) (skip : nat) : option error :=
  match e with
  | any_nil => None
  | any_error (StackError e') => Some (StackError e')
  | any_error e => Some (StackError e)
  | any_text t => Some (StackError (FmtError t))
  end.

(** [Errorf(format, ...)] of utils/fmt with a [%w] verb for [e]: the standard library's
    wrapper inside the stack error. *)
Definition Errorf_w (text : string) (e : error) : error :=
  default (FmtError text) (Wrap (any_error (WrapError text e)) 1).

(** [Errorf(format, ...)] without [%w]. *)
Definition Errorf (text : string) : error :=
  default (FmtError text) (Wrap (any_error (FmtError text)) 1).

(** The [Unwrap] method of [*Error]. *)
Definition Error_Unwrap (e : error) : option error :=
  match e with StackError e' => Some e' | _ => None end.

(** ** Results: Go's [(T, error)] pairs, where the value is not read when the error is
    set. *)
Inductive result (A : Type) : Type :=
| Ok (a : A)
| Err (e : error).
Arguments Ok {A} a.
Arguments Err {A} e.

#[export] Instance result_ret : MRet result := fun A a => Ok a.

#[export] Instance result_bind : MBind result := fun A B f m =>
  match m with
  | Ok a => f a
  | Err e => Err e
  end.

(** [if err != nil { return ..., fmt.Errorf("text: %w", err) }] *)
Definition wrap_err {A} (text : string) (r : result A) : result A :=
  match r with
  | Ok a => Ok a
  | Err e => Err (Errorf_w text e)
  end.

(** The sentinel of package io. *)
Definition io_EOF : error := ErrorString "EOF".

(** A target of [errors.Is] that is a package-level variable. *)
Definition is_sentinel (e : error) : Prop := ∃ n, e = ErrorString n.

(** ** Lemmas *)

Lemma Errorf_w_eq t e : Errorf_w t e = StackError (WrapError t e).
Proof. reflexivity. Qed.

Lemma Errorf_eq t : Errorf t = StackError (FmtError t).
Proof. reflexivity. Qed.

(** Wrapping with [%w] keeps what [errors.Is] finds, for any target that is a package
    variable. *)
Lemma errors_Is_Errorf_w t e n :
  errors_Is (Errorf_w t e) (ErrorString n) = errors_Is e (ErrorString n).
Proof. reflexivity. Qed.

Lemma errors_Is_Errorf t n : errors_Is (Errorf t) (ErrorString n) = false.
Proof. reflexivity. Qed.

(** ... and what [errors.As] finds, for any type that is not one of the wrappers. *)
Lemma errors_As_Errorf_w t e ty :
  ty ≠ T_ptr T_Error → ty ≠ T_ptr T_wrapError →
  errors_As (Errorf_w t e) ty = errors_As e ty.
Proof.
  intros H1 H2. rewrite Errorf_w_eq. cbn.
  rewrite !bool_decide_eq_false_2 by congruence. done.
Qed.

Lemma errors_As_Errorf t ty :
  ty ≠ T_ptr T_Error → ty ≠ T_ptr T_errorString → errors_As (Errorf t) ty = false.
Proof.
  intros H1 H2. rewrite Errorf_eq. cbn.
  rewrite !bool_decide_eq_false_2 by congruence. done.
Qed.

#[export] Hint Rewrite errors_Is_Errorf_w errors_Is_Errorf : specular.

(** [errors.As] compares the dynamic type, so a pointer is never found through its
    struct type. *)
Lemma errors_As_AddrOf_struct m :
  errors_As (AddrOf (UnexpectedSystemStateError m)) T_unexpectedSystemStateError = false.
Proof. reflexivity. Qed.
