(* ===== verification/GoStrings.v ===== *)
(** * Go strings

    The operations of packages strings and strconv that the code uses, on byte strings
    ([string] is a list of bytes), with the lemmas about concatenations that the parsers and
    printers share. *)

From S2P Require Import Prelude Errors.
From Stdlib Require Import Ascii String.

Open Scope string_scope.

#[local] Arguments String.append : simpl nomatch.

(** ** Slices *)

(** [s[:n]] and [s[n:]], for [n] within the length. *)
Fixpoint stake (n : nat) (s : string) : string :=
  match n, s with
  | S n, String c s => String c (stake n s)
  | _, _ => ""
  end.

Fixpoint sdrop (n : nat) (s : string) : string :=
  match n, s with
  | S n, String _ s => sdrop n s
  | O, s => s
  | _, "" => ""
  end.

(** ** Package strings *)

Definition HasPrefix (s prefix : string) : bool := String.prefix prefix s.

Definition TrimPrefix (s prefix : string) : string :=
  if HasPrefix s prefix then sdrop (String.length prefix) s else s.

Definition HasSuffix (s suffix : string) : bool :=
  (String.length suffix <=? String.length s)%nat &&
  String.eqb (sdrop (String.length s - String.length suffix) s) suffix.

(** The first and the last occurrence of a substring; [None] for -1. *)
Fixpoint Index (s sub : string) : option nat :=
  if HasPrefix s sub then Some O
  else match s with "" => None | String _ s => S <$> Index s sub end.

Fixpoint LastIndex (s sub : string) : option nat :=
  match s with
  | "" => if HasPrefix "" sub then Some O else None
  | String _ r =>
      match LastIndex r sub with
      | Some i => Some (S i)
      | None => if HasPrefix s sub then Some O else None
      end
  end.

Definition Contains (s sub : string) : bool := match Index s sub with Some _ => true | None => false end.

(** [strings.Replace(s, old, new, 1)]. *)
Definition Replace1 (s old new : string) : string :=
  match Index s old with
  | None => s
  | Some i => stake i s ++ new ++ sdrop (i + String.length old) s
  end.

(** [strings.Replace(s, old, new, -1)] for a non-empty [old]; [skip] counts the bytes of a
    replaced occurrence still to be passed over. *)
Fixpoint replace_all (old new : string) (skip : nat) (s : string) : string :=
  match s with
  | "" => ""
  | String c r =>
      match skip with
      | S skip => replace_all old new skip r
      | O => if HasPrefix s old then new ++ replace_all old new (pred (String.length old)) r
             else String c (replace_all old new 0 r)
      end
  end.

Definition ReplaceAll (s old new : string) : string := replace_all old new 0 s.

(** [strings.Split(s, sep)] for a separator of one byte. *)
Fixpoint Split (s : string) (sep : Ascii.ascii) : list string :=
  match s with
  | "" => [""]
  | String c r =>
      if Ascii.eqb c sep then "" :: Split r sep
      else match Split r sep with
           | l :: ls => String c l :: ls
           | [] => [String c ""]
           end
  end.

Fixpoint Join (ls : list string) (sep : Ascii.ascii) : string :=
  match ls with
  | [] => ""
  | [l] => l
  | l :: ls => l ++ String sep (Join ls sep)
  end.

(** [bytes.Trim(s, cutset)]: the characters of the set removed at both ends. *)
Fixpoint trim_left (cut : Ascii.ascii → bool) (s : string) : string :=
  match s with
  | "" => ""
  | String c r => if cut c then trim_left cut r else s
  end.

Fixpoint trim_right (cut : Ascii.ascii → bool) (s : string) : string :=
  match s with
  | "" => ""
  | String c r => match trim_right cut r with "" => if cut c then "" else String c "" | r' => String c r' end
  end.

Definition Trim (cut : Ascii.ascii → bool) (s : string) : string := trim_right cut (trim_left cut s).

(** ** Package strconv *)

Definition digit (c : Ascii.ascii) : option Z :=
  let n := Z.of_nat (Ascii.nat_of_ascii c) in
  if ((48 <=? n) && (n <=? 57))%Z then Some (n - 48)%Z else None.

Definition is_digit (c : Ascii.ascii) : bool := match digit c with Some _ => true | None => false end.

Fixpoint parse_digits (acc : Z) (s : string) : option Z :=
  match s with
  | "" => Some acc
  | String c s => d ← digit c; parse_digits (acc * 10 + d)%Z s
  end.

(** A non-empty string of decimal digits. *)
Definition parse_nat (s : string) : option Z :=
  match s with "" => None | _ => parse_digits 0%Z s end.

(** [strconv.ParseInt(s, 10, bits)]: an optional sign and digits, in the range of the type. *)
Definition ParseInt (s : string) (bits : Z) : result Z :=
  let '(neg, digits) :=
    match s with
    | String "+"%char r => (false, r)
    | String "-"%char r => (true, r)
    | _ => (false, s)
    end in
  match parse_nat digits with
  | None => Err (FmtError ("strconv.ParseInt: parsing " ++ s ++ ": invalid syntax"))
  | Some v =>
      if (if neg : bool then v <=? 2 ^ (bits - 1) else v <? 2 ^ (bits - 1))%Z
      then Ok (if neg then - v else v)%Z
      else Err (FmtError ("strconv.ParseInt: parsing " ++ s ++ ": value out of range"))
  end.

(** [strconv.Itoa]: the digits from the last one; a number has no more digits than bits. *)
Definition digit_char (d : Z) : Ascii.ascii := Ascii.ascii_of_nat (48 + Z.to_nat d).

Fixpoint itoa_loop (fuel : nat) (n : Z) (acc : string) : string :=
  let acc := String (digit_char (n mod 10)) acc in
  if (n <? 10)%Z then acc
  else match fuel with O => acc | S fuel => itoa_loop fuel (n / 10) acc end.

Definition Itoa (n : Z) : string :=
  (if n <? 0 then "-" else "")%Z ++ itoa_loop (Z.to_nat (Z.log2 (Z.abs n))) (Z.abs n) "".

(** ** Characters *)

Fixpoint all_chars (p : Ascii.ascii → bool) (s : string) : bool :=
  match s with "" => true | String c s => p c && all_chars p s end.

(** The byte [c] does not occur in [s]. *)
Definition no_char (c : Ascii.ascii) (s : string) : bool := all_chars (fun x => negb (Ascii.eqb x c)) s.

(** ** Lemmas: slices and searches of concatenations *)

Lemma app_nil_r_s (s : string) : s ++ "" = s.
Proof. induction s as [|c s IH]; [done|]. cbn. by rewrite IH. Qed.

Lemma app_assoc_s (a b c : string) : (a ++ b) ++ c = a ++ b ++ c.
Proof. induction a as [|x a IH]; [done|]. cbn. by rewrite IH. Qed.

Lemma length_app_s (a b : string) : String.length (a ++ b) = (String.length a + String.length b)%nat.
Proof. induction a as [|x a IH]; [done|]. cbn. by rewrite IH. Qed.

Lemma stake_app a b : stake (String.length a) (a ++ b) = a.
Proof. induction a as [|x a IH]; [by destruct b|]. cbn. by rewrite IH. Qed.

Lemma sdrop_app a b : sdrop (String.length a) (a ++ b) = b.
Proof. induction a as [|x a IH]; [by destruct b|]. cbn. by rewrite IH. Qed.

Lemma sdrop_app_S a c b : sdrop (S (String.length a)) (a ++ String c b) = b.
Proof. induction a as [|x a IH]; [by destruct b|]. cbn. apply IH. Qed.

Lemma HasPrefix_app a b : HasPrefix (a ++ b) a = true.
Proof.
  unfold HasPrefix. induction a as [|x a IH]; [by destruct b|]. cbn.
  destruct (Ascii.ascii_dec x x); [exact IH|done].
Qed.

Lemma HasPrefix_ok s p : HasPrefix s p = true ↔ ∃ r, s = p ++ r.
Proof.
  split; [|intros [r ->]; apply HasPrefix_app]. unfold HasPrefix. revert s.
  induction p as [|x p IH]; intros s H; [by exists s|]. destruct s as [|y s]; [done|]. cbn in H.
  destruct (Ascii.ascii_dec x y) as [->|]; [|done]. apply IH in H as [r ->]. by exists r.
Qed.

Lemma TrimPrefix_app a b : TrimPrefix (a ++ b) a = b.
Proof. unfold TrimPrefix. by rewrite HasPrefix_app, sdrop_app. Qed.

Lemma HasSuffix_app a b : HasSuffix (a ++ b) b = true.
Proof.
  unfold HasSuffix. rewrite length_app_s, (proj2 (Nat.leb_le _ _)) by lia.
  replace (String.length a + String.length b - String.length b)%nat with (String.length a) by lia.
  rewrite sdrop_app. apply String.eqb_refl.
Qed.

Lemma all_chars_app p a b : all_chars p (a ++ b) = all_chars p a && all_chars p b.
Proof. induction a as [|x a IH]; [done|]. cbn. by rewrite IH, andb_assoc. Qed.

Lemma no_char_app c a b : no_char c (a ++ b) = no_char c a && no_char c b.
Proof. apply all_chars_app. Qed.

Lemma no_char_cons c x s : no_char c (String x s) = true ↔ x ≠ c ∧ no_char c s = true.
Proof.
  unfold no_char. cbn. by rewrite andb_true_iff, negb_true_iff, Ascii.eqb_neq.
Qed.

Lemma prefix_char c x s : HasPrefix (String x s) (String c "") = Ascii.eqb x c.
Proof.
  unfold HasPrefix. cbn. destruct (Ascii.ascii_dec c x) as [->|Hne]; [rewrite Ascii.eqb_refl; by destruct s|].
  symmetry. apply Ascii.eqb_neq. congruence.
Qed.

(** The last occurrence of a byte. *)
Lemma LastIndex_none c s : no_char c s = true → LastIndex s (String c "") = None.
Proof.
  induction s as [|x s IH]; [done|]. intros [Hx Hs]%no_char_cons. cbn [LastIndex].
  by rewrite (IH Hs), prefix_char, (proj2 (Ascii.eqb_neq _ _) Hx).
Qed.

Lemma LastIndex_last c a b : no_char c b = true → LastIndex (a ++ String c b) (String c "") = Some (String.length a).
Proof.
  intros Hb. induction a as [|x a IH]; cbn [append LastIndex String.length].
  - by rewrite (LastIndex_none _ _ Hb), prefix_char, Ascii.eqb_refl.
  - by rewrite IH.
Qed.

(** The first occurrence of a byte, and of a string that begins with it. *)
Lemma HasPrefix_first c sub x s : x ≠ c → HasPrefix (String x s) (String c sub) = false.
Proof. intros Hne. unfold HasPrefix. cbn. by destruct (Ascii.ascii_dec c x). Qed.

Lemma Index_none c sub s : no_char c s = true → Index s (String c sub) = None.
Proof.
  induction s as [|x s IH]; [done|]. intros [Hx Hs]%no_char_cons. cbn [Index].
  by rewrite (HasPrefix_first _ _ _ _ Hx), (IH Hs).
Qed.

Lemma Index_first c sub a b :
  no_char c a = true → Index (a ++ String c (sub ++ b)) (String c sub) = Some (String.length a).
Proof.
  intros Ha. induction a as [|x a IH].
  - pose proof (HasPrefix_app (String c sub) b) as H. cbn in H |- *. by rewrite H.
  - apply no_char_cons in Ha as [Hx Ha]. cbn [append Index String.length].
    rewrite (HasPrefix_first _ _ _ _ Hx). by rewrite (IH Ha).
Qed.

Lemma Index_byte c a b : no_char c a = true → Index (a ++ String c b) (String c "") = Some (String.length a).
Proof. intros Ha. exact (Index_first c "" a b Ha). Qed.

Lemma Index_ok s sub i : Index s sub = Some i → s = stake i s ++ sub ++ sdrop (i + String.length sub) s.
Proof.
  revert i. induction s as [|x s IH]; intros i H; cbn [Index] in H.
  - destruct (HasPrefix "" sub) eqn:Hp; [|done]. injection H as <-. apply HasPrefix_ok in Hp as [r Hr].
    rewrite Hr at 1. rewrite Hr at 2. cbn [stake append Nat.add]. by rewrite sdrop_app.
  - destruct (HasPrefix (String x s) sub) eqn:Hp.
    + injection H as <-. apply HasPrefix_ok in Hp as [r Hr]. rewrite Hr. cbn [stake Nat.add].
      rewrite sdrop_app. by destruct (sub ++ r).
    + destruct (Index s sub) as [j|] eqn:Hj; [|done]. injection H as <-.
      rewrite (IH j eq_refl) at 1. reflexivity.
Qed.

Lemma ReplaceAll_none c old new s : no_char c s = true → ReplaceAll s (String c old) new = s.
Proof.
  unfold ReplaceAll. induction s as [|x s IH]; [done|]. intros [Hx Hs]%no_char_cons. cbn [replace_all].
  by rewrite (HasPrefix_first _ _ _ _ Hx), (IH Hs).
Qed.

(** Two ways of cutting a string. *)
Lemma app_cut (a b c d : string) : a ++ b = c ++ d →
  (∃ x, c = a ++ x ∧ b = x ++ d) ∨ (∃ x, x ≠ "" ∧ a = c ++ x ∧ d = x ++ b).
Proof.
  revert c. induction a as [|x a IH]; intros c H; [left; by exists c|].
  destruct c as [|y c]; [right; exists (String x a); by cbn in H|]. cbn in H. injection H as -> H.
  destruct (IH c H) as [(z & -> & ->)|(z & Hz & -> & ->)]; [left|right]; by exists z.
Qed.

Lemma HasSuffix_ok s w : HasSuffix s w = true ↔ ∃ r, s = r ++ w.
Proof.
  split; [|intros [r ->]; apply HasSuffix_app]. unfold HasSuffix. intros [_ H]%andb_true_iff.
  apply String.eqb_eq in H. exists (stake (String.length s - String.length w) s).
  rewrite <- H at 2. generalize (String.length s - String.length w)%nat as n. clear H.
  induction s as [|x s IH]; intros [|n]; try done. cbn. by rewrite <- IH.
Qed.

Lemma HasSuffix_cons x s w : HasSuffix (String x s) w = String.eqb (String x s) w || HasSuffix s w.
Proof.
  apply eq_true_iff_eq. rewrite orb_true_iff, String.eqb_eq, !HasSuffix_ok. split.
  - intros [[|y r] H]; [by left|right]. exists r. cbn in H. by injection H.
  - intros [<-|[r ->]]; [by exists ""|by exists (String x r)].
Qed.

(** A prefix that reaches a separator, and one without it. *)
Lemma prefix_cut c a b r q : no_char c a = true → no_char c b = true →
  HasPrefix (a ++ String c r) (b ++ String c q) = String.eqb a b && HasPrefix r q.
Proof.
  unfold HasPrefix. revert b. induction a as [|x a IH]; intros [|y b] Ha Hb; cbn [append String.prefix String.eqb].
  - cbn. by destruct (Ascii.ascii_dec c c).
  - apply no_char_cons in Hb as [Hy _]. by destruct (Ascii.ascii_dec y c).
  - apply no_char_cons in Ha as [Hx _]. by destruct (Ascii.ascii_dec c x).
  - apply no_char_cons in Ha as [_ Ha], Hb as [_ Hb]. destruct (Ascii.ascii_dec y x) as [->|Hne].
    + rewrite Ascii.eqb_refl. by apply IH.
    + by rewrite (proj2 (Ascii.eqb_neq _ _)) by congruence.
Qed.

Lemma prefix_before c a r q : no_char c q = true → HasPrefix (a ++ String c r) q = HasPrefix a q.
Proof.
  unfold HasPrefix. revert a. induction q as [|y q IH]; intros a Hq; [by destruct a|].
  apply no_char_cons in Hq as [Hy Hq]. destruct a as [|x a]; cbn [append String.prefix].
  - by destruct (Ascii.ascii_dec y c).
  - destruct (Ascii.ascii_dec y x); [by apply IH|done].
Qed.

Lemma Index_sep_none c s w q : no_char c s = true → Index s (w ++ String c q) = None.
Proof.
  assert (Hp : ∀ s, no_char c s = true → HasPrefix s (w ++ String c q) = false).
  { intros s' Hs. apply not_true_iff_false. intros [r ->]%HasPrefix_ok. revert Hs.
    rewrite !no_char_app. unfold no_char at 2. cbn. by rewrite Ascii.eqb_refl, andb_false_r. }
  induction s as [|x s IH]; intros Hs; cbn [Index]; rewrite Hp by done; [done|].
  apply no_char_cons in Hs as [_ Hs]. by rewrite IH.
Qed.

(** The first occurrence of a text with one separator, in a string cut at its first one. *)
Lemma Index_cut c p r w q : no_char c p = true → no_char c w = true → w ≠ "" →
  Index (p ++ String c r) (w ++ String c q) =
  if HasSuffix p w && HasPrefix r q then Some (String.length p - String.length w)%nat
  else (λ i, String.length p + S i)%nat <$> Index r (w ++ String c q).
Proof.
  intros Hp Hw Hne. induction p as [|x p IH].
  - destruct w as [|y w]; [done|]. apply no_char_cons in Hw as [Hy _]. cbn [append Index].
    rewrite HasPrefix_first by done. change (HasSuffix "" (String y w)) with false. cbn [andb].
    by destruct (Index r _).
  - pose proof (prefix_cut c (String x p) w r q Hp Hw) as Hcut. apply no_char_cons in Hp as [_ Hp].
    cbn [append] in Hcut |- *. cbn [Index]. rewrite Hcut, (IH Hp), HasSuffix_cons.
    destruct (String.eqb_spec (String x p) w) as [<-|Hxw]; cbn [orb andb].
    + destruct (HasPrefix r q) eqn:Hq; [by rewrite Nat.sub_diag|].
      rewrite !andb_false_r. destruct (Index r _); done.
    + destruct (HasSuffix p w) eqn:Hs; cbn [andb]; [|by destruct (Index r _)].
      destruct (HasPrefix r q); [|by destruct (Index r _)].
      apply HasSuffix_ok in Hs as [z ->]. cbn [fmap option_fmap option_map String.length].
      rewrite length_app_s. f_equal. cbn. lia.
Qed.

(** Replacing behind a part without occurrences, and at an occurrence. *)
Lemma Replace1_shift a b old new :
  Index (a ++ b) old = (λ i, String.length a + i)%nat <$> Index b old → Replace1 (a ++ b) old new = a ++ Replace1 b old new.
Proof.
  unfold Replace1. intros ->. destruct (Index b old) as [i|]; [|done]. cbn [fmap option_fmap option_map].
  rewrite <- Nat.add_assoc. generalize (i + String.length old)%nat as n. intros n.
  induction a as [|x a IH]; [done|]. cbn. by rewrite IH.
Qed.

Lemma Replace1_at a b old new : Index (a ++ old ++ b) old = Some (String.length a) →
  Replace1 (a ++ old ++ b) old new = a ++ new ++ b.
Proof.
  unfold Replace1. intros ->. rewrite stake_app, <- length_app_s. rewrite <- (app_assoc_s a old b) at 1.
  by rewrite sdrop_app.
Qed.

Lemma Replace1_none s old new : Contains s old = false → Replace1 s old new = s.
Proof. unfold Contains, Replace1. by destruct (Index s old). Qed.

(** Splitting what was joined. *)
Lemma Split_line c s : no_char c s = true → Split s c = [s].
Proof.
  induction s as [|x s IH]; [done|]. intros [Hx Hs]%no_char_cons. cbn.
  by rewrite (proj2 (Ascii.eqb_neq _ _) Hx), (IH Hs).
Qed.

Lemma Split_app c s r : no_char c s = true → Split (s ++ String c r) c = s :: Split r c.
Proof.
  induction s as [|x s IH]; [cbn; by rewrite Ascii.eqb_refl|]. intros [Hx Hs]%no_char_cons. cbn.
  by rewrite (proj2 (Ascii.eqb_neq _ _) Hx), (IH Hs).
Qed.

Lemma Split_Join c ls : ls ≠ [] → Forall (λ l, no_char c l = true) ls → Split (Join ls c) c = ls.
Proof.
  intros Hne Hls. induction Hls as [|l ls Hl Hls IH]; [done|]. destruct ls as [|l' ls].
  - by apply Split_line.
  - change (Join (l :: l' :: ls) c) with (l ++ String c (Join (l' :: ls) c))%string.
    rewrite Split_app by done. by rewrite IH.
Qed.

Lemma Split_pieces s c : Split s c ≠ [] ∧ Forall (λ l, no_char c l = true) (Split s c) ∧ Join (Split s c) c = s.
Proof.
  induction s as [|x s (Hne & Hf & Hj)]; [repeat constructor; done|]. cbn [Split].
  destruct (Ascii.eqb_spec x c) as [->|Hx].
  - split_and!; [done|by constructor|]. destruct (Split s c) as [|l ls]; [done|].
    change (String c (Join (l :: ls) c) = String c s). by rewrite Hj.
  - destruct (Split s c) as [|l ls]; [done|]. apply Forall_cons in Hf as [Hl Hf].
    split_and!; [done|constructor; [by apply no_char_cons|done]|].
    destruct ls; cbn in Hj |- *; by rewrite Hj.
Qed.

(** ** Lemmas: numbers *)

Lemma digit_char_digit d : (0 <= d < 10)%Z → digit (digit_char d) = Some d.
Proof.
  intros H. assert (Hd : d = 0 ∨ d = 1 ∨ d = 2 ∨ d = 3 ∨ d = 4 ∨ d = 5 ∨ d = 6 ∨ d = 7 ∨ d = 8 ∨ d = 9) by lia.
  by repeat destruct Hd as [->|Hd]; subst.
Qed.

Lemma itoa_loop_parse fuel : ∀ n s,
  (0 <= n < 10 ^ Z.of_nat (S fuel))%Z → parse_digits 0 (itoa_loop fuel n s) = parse_digits n s.
Proof.
  induction fuel as [|fuel IH]; intros n s Hn; cbn [itoa_loop].
  - change (10 ^ Z.of_nat 1)%Z with 10%Z in Hn. rewrite (proj2 (Z.ltb_lt _ _)) by lia. cbn [parse_digits].
    rewrite digit_char_digit by (apply Z.mod_pos_bound; lia). cbn. by rewrite Z.mod_small.
  - destruct (n <? 10)%Z eqn:Hlt; zbool.
    + cbn [parse_digits]. rewrite digit_char_digit by (apply Z.mod_pos_bound; lia). cbn. by rewrite Z.mod_small by lia.
    + rewrite IH.
      * cbn [parse_digits]. rewrite digit_char_digit by (apply Z.mod_pos_bound; lia). cbn.
        f_equal. rewrite (Z.div_mod n 10) at 3 by done. lia.
      * replace (Z.of_nat (S (S fuel))) with (1 + Z.of_nat (S fuel))%Z in Hn by lia.
        rewrite Z.pow_add_r in Hn by lia. split; [apply Z.div_pos; lia|apply Z.div_lt_upper_bound; lia].
Qed.

Lemma itoa_loop_shape fuel : ∀ n s, (0 <= n)%Z → all_chars is_digit s = true →
  all_chars is_digit (itoa_loop fuel n s) = true ∧ itoa_loop fuel n s ≠ "".
Proof.
  induction fuel as [|fuel IH]; intros n s Hn Hs; cbn [itoa_loop].
  - assert (Hd : is_digit (digit_char (n mod 10)) = true)
      by (unfold is_digit; by rewrite digit_char_digit by (apply Z.mod_pos_bound; lia)).
    destruct (n <? 10)%Z; cbn; by rewrite Hd, Hs.
  - assert (Hd : is_digit (digit_char (n mod 10)) = true)
      by (unfold is_digit; by rewrite digit_char_digit by (apply Z.mod_pos_bound; lia)).
    destruct (n <? 10)%Z; [cbn; by rewrite Hd, Hs|].
    apply IH; [apply Z.div_pos; lia|]. cbn. by rewrite Hd, Hs.
Qed.

Lemma Itoa_digits n : (0 <= n)%Z → all_chars is_digit (Itoa n) = true ∧ Itoa n ≠ "".
Proof.
  intros Hn. unfold Itoa. rewrite (proj2 (Z.ltb_ge _ _)) by done. cbn. by apply itoa_loop_shape; [lia|].
Qed.

Lemma parse_nat_Itoa n : (0 <= n)%Z → parse_nat (Itoa n) = Some n.
Proof.
  intros Hn. pose proof (Itoa_digits n Hn) as [_ Hne]. unfold parse_nat.
  destruct (Itoa n) as [|c s] eqn:Hi; [done|]. rewrite <- Hi. unfold Itoa.
  rewrite (proj2 (Z.ltb_ge _ _)) by done. cbn [append]. rewrite itoa_loop_parse; [cbn; by rewrite Z.abs_eq|].
  rewrite Z.abs_eq by done. split; [done|]. destruct (Z.eq_dec n 0) as [->|Hn0]; [done|].
  rewrite Nat2Z.inj_succ, Z2Nat.id by apply Z.log2_nonneg.
  pose proof (Z.log2_spec n) as [_ Hlog]; [lia|]. eapply Z.lt_le_trans; [exact Hlog|].
  apply Z.pow_le_mono_l. lia.
Qed.

Lemma digit_not c x : is_digit x = true → is_digit c = false → x ≠ c.
Proof. intros Hx Hc ->. by rewrite Hx in Hc. Qed.

Lemma digits_no_char c s : is_digit c = false → all_chars is_digit s = true → no_char c s = true.
Proof.
  intros Hc. induction s as [|x s IH]; [done|]. cbn [all_chars]. intros [Hx Hs]%andb_true_iff.
  apply no_char_cons. split; [by eapply digit_not|by apply IH].
Qed.

(** A number that fits is read back. *)
Lemma ParseInt_Itoa n bits : (0 <= n < 2 ^ (bits - 1))%Z → ParseInt (Itoa n) bits = Ok n.
Proof.
  intros Hn. destruct (Itoa_digits n) as [Hd Hne]; [lia|]. pose proof (parse_nat_Itoa n) as Hp.
  unfold ParseInt. destruct (Itoa n) as [|c s] eqn:Hi; [done|]. cbn [all_chars] in Hd.
  apply andb_true_iff in Hd as [Hc _].
  assert (c ≠ "+"%char) by (by eapply digit_not). assert (c ≠ "-"%char) by (by eapply digit_not).
  assert (Hm : match String c s with String "+"%char r => (false, r) | String "-"%char r => (true, r) | _ => (false, String c s) end
    = (false, String c s)).
  { destruct c as [[] [] [] [] [] [] [] []]; done. }
  rewrite Hm, Hp by lia. by rewrite (proj2 (Z.ltb_lt _ _)) by lia.
Qed.
