(* ===== verification/Panics.v ===== *)
(** * Stack frames and the parsing of panics

    Models services/sidecar/utils/fmt: parse_panic.go (the parser of a Go panic's output),
    stackframe.go (frames and how they print) and the parts of error.go that print an error
    with its stack.  The Go runtime's function table and the file system are parameters. *)

From S2P Require Import Prelude Errors GoStrings.
From Stdlib Require Import Ascii String.

Open Scope string_scope.
#[local] Arguments String.append : simpl nomatch.

Definition nl : ascii := "010".
Definition tab : ascii := "009".

(** ** stackframe.go *)

Record StackFrame := mkFrame {
  File : string;
  LineNumber : Z;
  Name : string;
  Package : string;
  ProgramCounter : Z
}.

(** [runtime.Func]: the name, and the file and line of a program counter. *)
Record Func := mkFunc { fn_Name : string; fn_FileLine : Z → string * Z }.

(** The Go runtime, and a file as [bufio.Scanner] gives it: its lines, and the error that
    stops the scan, if any. *)
Class Runtime := {
  FuncForPC : Z → option Func;
  os_Open : string → result (list string * option error)
}.

(** The separator of compiled names, U+00B7 in UTF-8. *)
Definition middle_dot : string := String "194" (String "183" "").

(** The last path element is split from the package's path, and the package at its first dot. *)
Definition splitName (name : string) : string * string :=
  let '(pkg, name) :=
    match LastIndex name "/" with
    | Some lastslash => (stake lastslash name ++ "/", sdrop (lastslash + 1) name)
    | None => ("", name)
    end in
  let '(pkg, name) :=
    match Index name "." with
    | Some period => (pkg ++ stake period name, sdrop (period + 1) name)
    | None => (pkg, name)
    end in
  (pkg, ReplaceAll name middle_dot ".").

Definition packageAndName (fn : Func) : string * string := splitName (fn_Name fn).

Section Frames.
Context `{RT : Runtime}.

Definition frame_Func (frame : StackFrame) : option Func :=
  if (ProgramCounter frame =? 0)%Z then None else FuncForPC (ProgramCounter frame).

(** The line is that of the call before the return address. *)
Definition NewStackFrame (pc : Z) : StackFrame :=
  let frame := mkFrame "" 0 "" "" pc in
  match frame_Func frame with
  | None => frame
  | Some fn =>
      let '(pkg, name) := packageAndName fn in
      let '(file, line) := fn_FileLine fn (u64 (pc - 1)) in
      mkFrame file line name pkg pc
  end.

(** The scan of [sourceLine], from line [currentLine]. *)
Fixpoint scan_to (lines : list string) (err : option error) (lineNumber currentLine : Z) : result string :=
  match lines with
  | [] => match err with Some e => Err e | None => Ok "???" end
  | l :: lines =>
      if (currentLine =? lineNumber)%Z
      then Ok (Trim (fun c => Ascii.eqb c " " || Ascii.eqb c tab) l)
      else scan_to lines err lineNumber (currentLine + 1)
  end.

Definition sourceLine (frame : StackFrame) : result string :=
  if (LineNumber frame <=? 0)%Z then Ok "???"
  else
    match os_Open (File frame) with
    | Err e => Err e
    | Ok (lines, err) => scan_to lines err (LineNumber frame) 1
    end.

Definition SourceLine (frame : StackFrame) : result string :=
  match sourceLine frame with
  | Err e => Err (New (any_error e))
  | Ok source => Ok source
  end.

(** [%x] of a number. *)
Definition hex_char (d : Z) : ascii := ascii_of_nat (if (d <? 10)%Z then 48 + Z.to_nat d else 87 + Z.to_nat d).

Fixpoint hex_loop (fuel : nat) (n : Z) (acc : string) : string :=
  let acc := String (hex_char (n mod 16)) acc in
  if (n <? 16)%Z then acc
  else match fuel with O => acc | S fuel => hex_loop fuel (n / 16) acc end.

Definition hex (n : Z) : string := hex_loop (Z.to_nat (Z.log2 n)) n "".

Definition frame_String (frame : StackFrame) : string :=
  let str := File frame ++ ":" ++ Itoa (LineNumber frame) ++ " (0x" ++ hex (ProgramCounter frame) ++ ")" ++ String nl "" in
  match sourceLine frame with
  | Err _ => str
  | Ok source => str ++ String tab "" ++ Name frame ++ ": " ++ source ++ String nl ""
  end.

(** ** error.go: an error with its stack

    [er_text] is the text of the wrapped error; [frames] is nil when empty. *)
Record StackedError := mkStacked {
  er_text : string;
  stack : list Z;
  frames : list StackFrame
}.

(** The frames are computed from the program counters the first time. *)
Definition StackFrames (err : StackedError) : list StackFrame * StackedError :=
  match frames err with
  | [] => let fs := map NewStackFrame (stack err) in (fs, mkStacked (er_text err) (stack err) fs)
  | fs => (fs, err)
  end.

Definition Callers (err : StackedError) : list Z := stack err.

(** Only the first frame is printed; an empty list panics. *)
Definition Stack (err : StackedError) : go (string * StackedError) :=
  let '(fs, err) := StackFrames err in
  match fs with
  | [] => Panic index_out_of_range
  | frame :: _ => Ret (frame_String frame, err)
  end.

Definition Error_Error (err : StackedError) : go (string * StackedError) :=
  '(s, err) ← Stack err; Ret (er_text err ++ String nl "" ++ s, err).

End Frames.

(** ** parse_panic.go *)

(** [Errorf] of this package, by its text. *)
Definition invalid (what line : string) : error := Errorf ("bugsnag.panicParser: Invalid line (" ++ what ++ "): " ++ line).

Definition parsePanicFrame (name line : string) (createdBy : bool) : result StackFrame :=
  let idx := LastIndex name "(" in
  if match idx with None => negb createdBy | Some _ => false end then Err (invalid "no call" name)
  else
    let '(pkg, name) := splitName (match idx with Some i => stake i name | None => name end) in
    if negb (HasPrefix line (String tab "")) then Err (invalid "no tab" line)
    else
      match LastIndex line ":" with
      | None => Err (invalid "no line number" line)
      | Some idx =>
          let file := sdrop 1 (stake idx line) in
          let number := sdrop (idx + 1) line in
          let number := match Index number " +" with Some i => stake i number | None => number end in
          match ParseInt number 32 with
          | Err _ => Err (invalid "bad line number" line)
          | Ok lno => Ok (mkFrame file lno name pkg 0)
          end
      end.

Inductive pstate := ps_start | ps_seek | ps_parsing | ps_done.

(** The loop of [ParsePanic] over the remaining lines. *)
Fixpoint parse_loop (lines : list string) (state : pstate) (message : string) (stack : list StackFrame)
    : result (pstate * string * list StackFrame) :=
  match lines with
  | [] => Ok (state, message, stack)
  | line :: rest =>
      match state with
      | ps_start =>
          if HasPrefix line "panic: " then parse_loop rest ps_seek (TrimPrefix line "panic: ") stack
          else Err (invalid "no prefix" line)
      | ps_seek =>
          if HasPrefix line "goroutine " && HasSuffix line "[running]:"
          then parse_loop rest ps_parsing message stack else parse_loop rest ps_seek message stack
      | ps_parsing =>
          if String.eqb line "" then Ok (ps_done, message, stack)
          else
            let createdBy := HasPrefix line "created by " in
            let line := if createdBy then TrimPrefix line "created by " else line in
            match rest with
            | [] => Err (invalid "unpaired" line)
            | next :: rest =>
                match parsePanicFrame line next createdBy with
                | Err e => Err e
                | Ok frame =>
                    if createdBy then Ok (ps_done, message, (stack ++ [frame])%list)
                    else parse_loop rest ps_parsing message (stack ++ [frame])%list
                end
            end
      | ps_done => parse_loop rest ps_done message stack
      end
  end.

Definition ParsePanic (text : string) : result StackedError :=
  match parse_loop (Split text nl) ps_start "" [] with
  | Err e => Err e
  | Ok (state, message, stack) =>
      match state with
      | ps_done | ps_parsing => Ok (mkStacked message [] stack)
      | _ => Err (Errorf ("could not parse panic: " ++ text))
      end
  end.

(** ** The grammar of the parser

    What is accepted, without a state machine: the line with the message, any lines, the line
    of the running goroutine, pairs of lines for the frames, up to the end of the text, an
    empty line, or the pair of the creating goroutine. *)

Definition goroutine_line (l : string) : bool := HasPrefix l "goroutine " && HasSuffix l "[running]:".

Inductive frame_lines : list string → list StackFrame → Prop :=
| fl_end : frame_lines [] []
| fl_blank rest : frame_lines ("" :: rest) []
| fl_frame name line rest f fs :
    name ≠ "" → HasPrefix name "created by " = false → parsePanicFrame name line false = Ok f →
    frame_lines rest fs → frame_lines (name :: line :: rest) (f :: fs)
| fl_created name line rest f :
    parsePanicFrame name line true = Ok f → frame_lines (("created by " ++ name) :: line :: rest) [f].

Inductive panic_lines : list string → string → list StackFrame → Prop :=
| pl_intro message noise g rest fs :
    Forall (λ l, goroutine_line l = false) noise → goroutine_line g = true → frame_lines rest fs →
    panic_lines (("panic: " ++ message)%string :: noise ++ g :: rest)%list message fs.

(** The two states in which the loop may end well. *)
Definition accepting (s : pstate) : Prop := s = ps_done ∨ s = ps_parsing.

Lemma parse_frames_sound n : ∀ lines m acc st m' fs,
  (List.length lines < n)%nat → parse_loop lines ps_parsing m acc = Ok (st, m', fs) →
  m' = m ∧ accepting st ∧ ∃ new, fs = (acc ++ new)%list ∧ frame_lines lines new.
Proof.
  induction n as [|n IH]; intros lines m acc st m' fs Hn; [lia|].
  destruct lines as [|line rest]; cbn [parse_loop].
  { intros [= <- <- <-]. split; [done|]. split; [by right|]. exists []. rewrite app_nil_r. split; [done|constructor]. }
  destruct (String.eqb_spec line "") as [->|Hne].
  { intros [= <- <- <-]. split; [done|]. split; [by left|]. exists []. rewrite app_nil_r. split; [done|constructor]. }
  destruct rest as [|next rest]; [done|]. destruct (parsePanicFrame _ next _) as [f|e] eqn:Hf; [|done].
  destruct (HasPrefix line "created by ") eqn:Hc.
  - intros [= <- <- <-]. split; [done|]. split; [by left|]. exists [f]. split; [done|].
    apply HasPrefix_ok in Hc as [name ->]. rewrite TrimPrefix_app in Hf. by constructor.
  - intros H. apply IH in H as (-> & Hst & new & -> & Hfl); [|cbn in Hn; lia].
    split; [done|]. split; [done|]. exists (f :: new). rewrite <- app_assoc. split; [done|]. by constructor.
Qed.

Lemma parse_frames_complete lines new : frame_lines lines new →
  ∀ m acc, ∃ st, accepting st ∧ parse_loop lines ps_parsing m acc = Ok (st, m, (acc ++ new)%list).
Proof.
  induction 1 as [|rest|name line rest f fs Hne Hc Hf _ IH|name line rest f Hf]; intros m acc; cbn [parse_loop].
  - exists ps_parsing. rewrite app_nil_r. split; [by right|done].
  - exists ps_done. rewrite app_nil_r. split; [by left|done].
  - rewrite (proj2 (String.eqb_neq _ _) Hne), Hc, Hf. destruct (IH m (acc ++ [f])%list) as (st & Hst & ->).
    exists st. by rewrite <- app_assoc.
  - exists ps_done. split; [by left|]. rewrite HasPrefix_app, TrimPrefix_app, Hf. by destruct name.
Qed.

Lemma parse_seek_sound lines : ∀ m acc st m' fs,
  parse_loop lines ps_seek m acc = Ok (st, m', fs) → accepting st →
  m' = m ∧ ∃ noise g rest new, lines = (noise ++ g :: rest)%list ∧ Forall (λ l, goroutine_line l = false) noise ∧
    goroutine_line g = true ∧ fs = (acc ++ new)%list ∧ frame_lines rest new.
Proof.
  induction lines as [|line rest IH]; intros m acc st m' fs; cbn [parse_loop].
  { intros [= <- <- <-] [?|?]; done. }
  fold (goroutine_line line). destruct (goroutine_line line) eqn:Hg; intros H Hst.
  - apply (parse_frames_sound (S (List.length rest))) in H as (-> & _ & new & -> & Hfl); [|lia].
    split; [done|]. by exists [], line, rest, new.
  - apply IH in H as (-> & noise & g & rest' & new & -> & Hn & Hgg & -> & Hfl); [|done].
    split; [done|]. exists (line :: noise), g, rest', new. split_and!; try done. by constructor.
Qed.

Lemma parse_seek_complete noise g rest new m acc :
  Forall (λ l, goroutine_line l = false) noise → goroutine_line g = true → frame_lines rest new →
  ∃ st, accepting st ∧ parse_loop (noise ++ g :: rest)%list ps_seek m acc = Ok (st, m, (acc ++ new)%list).
Proof.
  intros Hn Hg Hfl. induction Hn as [|l noise Hl _ IH]; cbn [app parse_loop].
  - fold (goroutine_line g). rewrite Hg. by apply parse_frames_complete.
  - fold (goroutine_line l). by rewrite Hl.
Qed.

Lemma ParsePanic_lines text m fs :
  ParsePanic text = Ok (mkStacked m [] fs) ↔ panic_lines (Split text nl) m fs.
Proof.
  unfold ParsePanic. split.
  - destruct (parse_loop _ _ _ _) as [[[st m'] fs']|] eqn:Hp; [|done]. intros H.
    assert (Hst : accepting st ∧ m' = m ∧ fs' = fs) by (destruct st; simplify_eq; unfold accepting; auto).
    destruct Hst as (Hst & -> & ->). clear H. destruct (Split text nl) as [|line rest]; cbn [parse_loop] in Hp.
    { injection Hp as <- _ _. destruct Hst; done. }
    destruct (HasPrefix line "panic: ") eqn:Hl; [|done].
    apply HasPrefix_ok in Hl as [msg ->]. rewrite TrimPrefix_app in Hp.
    apply parse_seek_sound in Hp as (-> & noise & g & rest' & new & -> & Hn & Hg & -> & Hfl); [|done].
    by constructor.
  - intros [message noise g rest fs0 Hn Hg Hfl]. cbn [parse_loop]. rewrite HasPrefix_app, TrimPrefix_app.
    destruct (parse_seek_complete noise g rest fs0 message [] Hn Hg Hfl) as (st & Hst & ->).
    by destruct Hst as [-> | ->].
Qed.

(** C30: The state machine of [ParsePanic] accepts exactly the texts whose lines are in the grammar,
    and gives their message and frames: the message of the first line, and one frame for each
    pair of lines, in order. *)
Theorem ParsePanic_grammar text m fs :
  ParsePanic text = Ok (mkStacked m [] fs) ↔ panic_lines (Split text nl) m fs.
Proof. apply ParsePanic_lines. Qed.

(** ** Printing and parsing *)

(** A frame of a trace as the Go runtime prints it: the package is a directory and a base
    name, the name is qualified by it and followed by the arguments; the second line has the
    file, the line and the offset. *)
Record trace_frame := mkTrace {
  tf_dir : option string;
  tf_base : string;
  tf_name : string;
  tf_args : string;
  tf_file : string;
  tf_line : Z;
  tf_offset : string
}.

Definition tf_package (f : trace_frame) : string :=
  match tf_dir f with Some d => d ++ "/" ++ tf_base f | None => tf_base f end.

Definition tf_call (f : trace_frame) : string := tf_package f ++ "." ++ tf_name f.

Definition position_line (f : trace_frame) : string :=
  String tab (tf_file f) ++ ":" ++ Itoa (tf_line f) ++ " +" ++ tf_offset f.

Definition print_frame (f : trace_frame) : list string :=
  [tf_call f ++ "(" ++ tf_args f ++ ")"; position_line f].

Definition print_created (f : trace_frame) : list string :=
  ["created by " ++ tf_call f; position_line f].

Definition print_trace (message : string) (noise : list string) (goroutine : string) (fs : list trace_frame)
    (created : option trace_frame) : string :=
  Join ((("panic: " ++ message)%string :: noise ++ ("goroutine " ++ goroutine ++ " [running]:")%string ::
        List.concat (map print_frame fs) ++
        match created with Some f => print_created f | None => [] end ++ [""])%list) nl.

(** The frame that should be read back. *)
Definition frame_of (f : trace_frame) : StackFrame := mkFrame (tf_file f) (tf_line f) (tf_name f) (tf_package f) 0.

(** No component has the characters that the format uses as separators. *)
Record printable (f : trace_frame) : Prop := {
  pr_base : no_char "/" (tf_base f) = true ∧ no_char "." (tf_base f) = true;
  pr_name : no_char "/" (tf_name f) = true ∧ no_char "194" (tf_name f) = true;
  pr_args : no_char "(" (tf_args f) = true;
  pr_offset : no_char ":" (tf_offset f) = true;
  pr_line : (0 <= tf_line f < 2 ^ 31)%Z;
  pr_created : HasPrefix (tf_call f ++ "(" ++ tf_args f ++ ")") "created by " = false;
  pr_lines : no_char nl (tf_call f) = true ∧ no_char nl (tf_args f) = true ∧ no_char nl (tf_file f) = true ∧
             no_char nl (tf_offset f) = true
}.

Lemma splitName_call f :
  no_char "/" (tf_base f) = true → no_char "." (tf_base f) = true →
  no_char "/" (tf_name f) = true → no_char "194" (tf_name f) = true →
  splitName (tf_call f) = (tf_package f, tf_name f).
Proof.
  intros Hb1 Hb2 Hn1 Hn2. set (rest := tf_base f ++ String "." (tf_name f)).
  assert (Hrest : ∀ pkg, match Index rest "." with
    | Some period => (pkg ++ stake period rest, sdrop (period + 1) rest)
    | None => (pkg, rest)
    end = (pkg ++ tf_base f, tf_name f)).
  { intros pkg. unfold rest. by rewrite Index_byte, stake_app, Nat.add_1_r, sdrop_app_S. }
  assert (Hslash : no_char "/" rest = true).
  { unfold rest. rewrite no_char_app, Hb1. apply no_char_cons. by split. }
  unfold splitName, tf_call, tf_package, middle_dot. change ("." ++ tf_name f) with (String "." (tf_name f)).
  destruct (tf_dir f) as [d|].
  - rewrite app_assoc_s. change (d ++ ("/" ++ tf_base f) ++ String "." (tf_name f)) with (d ++ String "/" rest).
    rewrite LastIndex_last, stake_app, Nat.add_1_r, sdrop_app_S, Hrest, app_assoc_s by done.
    by rewrite ReplaceAll_none.
  - change (tf_base f ++ String "." (tf_name f)) with rest. rewrite LastIndex_none, Hrest by done.
    by rewrite ReplaceAll_none.
Qed.

(** The second line of a frame gives the file and the line; the first one is cut at its last
    parenthesis. *)
Lemma parsePanicFrame_position f s created pkg name :
  printable f →
  match LastIndex s "(" with None => created = true ∧ splitName s = (pkg, name) | Some i => splitName (stake i s) = (pkg, name) end →
  parsePanicFrame s (position_line f) created = Ok (mkFrame (tf_file f) (tf_line f) name pkg 0).
Proof.
  intros H Hs. unfold parsePanicFrame.
  assert (Hcut : match LastIndex s "(" with None => negb created | Some _ => false end = false ∧
    splitName match LastIndex s "(" with Some i => stake i s | None => s end = (pkg, name))
    by (destruct (LastIndex s "("); [done|by destruct Hs as [-> ?]]).
  destruct Hcut as [-> ->].
  assert (Hn : all_chars is_digit (Itoa (tf_line f)) = true) by (apply Itoa_digits; apply (pr_line _ H)).
  assert (Htail : no_char ":" (Itoa (tf_line f) ++ " +" ++ tf_offset f) = true).
  { rewrite no_char_app, (digits_no_char ":"%char _ eq_refl Hn). apply no_char_cons. split; [done|].
    apply no_char_cons. split; [done|]. apply (pr_offset _ H). }
  assert (Hline : position_line f = String tab (tf_file f) ++ String ":" (Itoa (tf_line f) ++ " +" ++ tf_offset f)) by done.
  rewrite Hline. replace (HasPrefix _ (String tab "")) with true by (symmetry; by destruct (tf_file f)).
  rewrite LastIndex_last by done. cbn [negb].
  rewrite stake_app, Nat.add_1_r, sdrop_app_S. cbn [sdrop].
  change (Itoa (tf_line f) ++ " +" ++ tf_offset f) with (Itoa (tf_line f) ++ String " " ("+" ++ tf_offset f)).
  rewrite (Index_first " " "+" (Itoa (tf_line f)) (tf_offset f)) by (by apply (digits_no_char " "%char _ eq_refl Hn)).
  rewrite stake_app, ParseInt_Itoa by apply (pr_line _ H). done.
Qed.

Lemma parsePanicFrame_call f : printable f →
  parsePanicFrame (tf_call f ++ "(" ++ tf_args f ++ ")") (position_line f) false = Ok (frame_of f).
Proof.
  intros H. apply parsePanicFrame_position; [done|]. destruct (pr_base _ H), (pr_name _ H).
  change ("(" ++ tf_args f ++ ")") with (String "(" (tf_args f ++ ")")).
  rewrite LastIndex_last by (by rewrite no_char_app, (pr_args _ H)). rewrite stake_app. by apply splitName_call.
Qed.

Lemma parsePanicFrame_created f : printable f → no_char "(" (tf_call f) = true →
  parsePanicFrame (tf_call f) (position_line f) true = Ok (frame_of f).
Proof.
  intros H Hp. apply parsePanicFrame_position; [done|]. destruct (pr_base _ H), (pr_name _ H).
  rewrite LastIndex_none by done. split; [done|]. by apply splitName_call.
Qed.

(** The lines of a frame have no newline, and the first one is neither empty nor that of a
    creating goroutine. *)
Lemma print_frame_lines f : printable f → Forall (λ l, no_char nl l = true) (print_frame f).
Proof.
  intros H. destruct (pr_lines _ H) as (H1 & H2 & H3 & H4).
  assert (Hn : all_chars is_digit (Itoa (tf_line f)) = true) by (apply Itoa_digits; apply (pr_line _ H)).
  repeat constructor.
  - by rewrite !no_char_app, H1, H2.
  - unfold position_line. rewrite !no_char_app, H4, (digits_no_char nl _ eq_refl Hn).
    change (no_char nl (String tab (tf_file f))) with (no_char nl (tf_file f)). by rewrite H3.
Qed.

Lemma print_created_lines f : printable f → Forall (λ l, no_char nl l = true) (print_created f).
Proof.
  intros H. pose proof (print_frame_lines f H) as Hl. apply Forall_cons in Hl as [_ Hl].
  constructor; [|done]. by rewrite no_char_app, (proj1 (pr_lines _ H)).
Qed.

(** A method with a pointer receiver, the one kind of name that has a parenthesis. *)
Definition pointer_method (name : string) : Prop :=
  ∃ recv meth, name = "(" ++ recv ++ ")." ++ meth ∧ no_char "(" recv = true ∧ no_char "(" meth = true.

(** The function that created the goroutine: its name has no parenthesis, or it is a method. *)
Definition printable_created (f : trace_frame) : Prop :=
  printable f ∧ (no_char "(" (tf_call f) = true ∨ pointer_method (tf_name f)).

(** What is read back for it: of a method with a pointer receiver the name is lost. *)
Definition created_frame_of (f : trace_frame) : StackFrame :=
  if no_char "(" (tf_call f) then frame_of f else mkFrame (tf_file f) (tf_line f) "" (tf_package f) 0.

(** The name of a creating function that is a method is lost: the line is cut at the
    receiver's parenthesis, which is taken for that of the arguments. *)
Lemma parsePanicFrame_created_method f : printable f → pointer_method (tf_name f) →
  parsePanicFrame (tf_call f) (position_line f) true = Ok (mkFrame (tf_file f) (tf_line f) "" (tf_package f) 0).
Proof.
  intros H (recv & meth & Hn & Hr & Hm). destruct (pr_base _ H) as [Hb1 Hb2]. apply parsePanicFrame_position; [done|].
  set (f' := mkTrace (tf_dir f) (tf_base f) "" "" (tf_file f) (tf_line f) (tf_offset f)).
  assert (Hcall : tf_call f = tf_call f' ++ String "(" (recv ++ ")." ++ meth)).
  { unfold tf_call. rewrite Hn. change (tf_package f') with (tf_package f). by rewrite app_assoc_s. }
  rewrite Hcall, LastIndex_last by (by rewrite !no_char_app, Hr, Hm). rewrite stake_app.
  by apply (splitName_call f').
Qed.

Lemma parsePanicFrame_creator f : printable_created f →
  parsePanicFrame (tf_call f) (position_line f) true = Ok (created_frame_of f).
Proof.
  intros [H Hc]. unfold created_frame_of. destruct (no_char "(" (tf_call f)) eqn:Hp; [by apply parsePanicFrame_created|].
  destruct Hc as [Hc|Hc]; [congruence|]. by apply parsePanicFrame_created_method.
Qed.

Definition created_frames (created : option trace_frame) : list StackFrame :=
  match created with Some f => [created_frame_of f] | None => [] end.

Definition created_lines (created : option trace_frame) : list string :=
  match created with Some f => print_created f | None => [] end.

Lemma frame_lines_print fs created :
  Forall printable fs → (∀ f, created = Some f → printable_created f) →
  frame_lines (List.concat (map print_frame fs) ++ created_lines created ++ [""])
    (map frame_of fs ++ created_frames created).
Proof.
  intros Hfs Hc. induction Hfs as [|f fs Hf _ IH]; cbn [map List.concat app].
  - destruct created as [f|]; [|constructor]. pose proof (Hc f eq_refl) as Hf. cbn [created_lines print_created app].
    apply fl_created. by apply parsePanicFrame_creator.
  - cbn [print_frame app]. apply fl_frame; [|apply (pr_created _ Hf)| |exact IH].
    + intros H. apply (f_equal String.length) in H. rewrite !length_app_s in H. cbn in H. lia.
    + by apply parsePanicFrame_call.
Qed.

(** C31: A trace in the runtime's format (before Go 1.21, which adds the number of the creating
    goroutine to its line) is read back: the message, and for each frame its file, its line,
    its function and its package, in order, the creating goroutine's last.  The parts of a
    frame are without the separators of the format: no slash or dot in the last element of
    the package, no slash (or middle dot) in the name, no parenthesis in the arguments.  Of a creating
    function that is a method with a pointer receiver the file, the line and the package are
    read back, and an empty name. *)
Theorem ParsePanic_roundtrip message noise goroutine fs created :
  no_char nl message = true → Forall (λ l, no_char nl l = true ∧ goroutine_line l = false) noise →
  no_char nl goroutine = true → Forall printable fs → (∀ f, created = Some f → printable_created f) →
  ParsePanic (print_trace message noise goroutine fs created) =
    Ok (mkStacked message [] (map frame_of fs ++ created_frames created)).
Proof.
  intros Hm Hno Hg Hfs Hc. apply ParsePanic_lines. unfold print_trace. fold (created_lines created).
  apply Forall_and in Hno as [Hno1 Hno2]. rewrite Split_Join; [|done|].
  - apply pl_intro; [done| |by apply frame_lines_print].
    unfold goroutine_line. rewrite HasPrefix_app.
    change " [running]:" with (" " ++ "[running]:"). rewrite <- !app_assoc_s. apply HasSuffix_app.
  - constructor; [by rewrite no_char_app, Hm|]. apply Forall_app. split; [done|].
    constructor; [by rewrite !no_char_app, Hg|]. apply Forall_app. split; [|apply Forall_app; split; [|by repeat constructor]].
    + induction Hfs as [|f fs Hf _ IH]; [constructor|]. apply Forall_app. split; [by apply print_frame_lines|done].
    + destruct created as [f|]; [|constructor]. apply print_created_lines. by apply Hc.
Qed.

(** In full, for a method that created a goroutine. *)
Theorem created_by_method_loses_name f : printable f → pointer_method (tf_name f) →
  ∃ frame, parsePanicFrame (tf_call f) (position_line f) true = Ok frame ∧ Name frame = "" ∧ tf_name f ≠ "".
Proof.
  intros H Hm. eexists. split; [by apply parsePanicFrame_created_method|]. split; [done|].
  by destruct Hm as (recv & meth & -> & _).
Qed.

(** An error parsed from a trace without frames cannot be printed: [Error] takes the first
    frame and panics; with frames it prints the message and the first one. *)
Theorem parsed_error_prints `{RT : Runtime} text e :
  ParsePanic text = Ok e →
  match frames e with
  | [] => Error_Error e = Panic index_out_of_range
  | f :: _ => Error_Error e = Ret (er_text e ++ String nl "" ++ frame_String f, e)
  end.
Proof.
  unfold ParsePanic. destruct (parse_loop _ _ _ _) as [[[st m] fs]|]; [|done].
  intros H. assert (He : e = mkStacked m [] fs) by (destruct st; by simplify_eq). subst e. cbn [frames].
  unfold Error_Error, Stack, StackFrames. cbn [frames stack er_text map]. by destruct fs as [|f fs].
Qed.

(** The scan of a source file gives its line, trimmed, and otherwise the error of the scan. *)
Lemma scan_to_spec lines err n : ∀ k, (k <= n)%Z →
  scan_to lines err n k =
  match lines !! Z.to_nat (n - k) with
  | Some l => Ok (Trim (fun c => Ascii.eqb c " " || Ascii.eqb c tab) l)
  | None => match err with Some e => Err e | None => Ok "???" end
  end.
Proof.
  induction lines as [|l lines IH]; intros k Hk; [done|]. cbn [scan_to].
  destruct (Z.eqb_spec k n) as [->|Hne]; [by rewrite Z.sub_diag|].
  rewrite IH by lia. replace (Z.to_nat (n - k)) with (S (Z.to_nat (n - (k + 1)))) by lia. done.
Qed.

Theorem sourceLine_correct `{RT : Runtime} frame lines err :
  (0 < LineNumber frame)%Z → os_Open (File frame) = Ok (lines, err) →
  sourceLine frame =
  match lines !! Z.to_nat (LineNumber frame - 1) with
  | Some l => Ok (Trim (fun c => Ascii.eqb c " " || Ascii.eqb c tab) l)
  | None => match err with Some e => Err e | None => Ok "???" end
  end.
Proof.
  intros Hn Ho. unfold sourceLine. rewrite (proj2 (Z.leb_gt _ _)) by done. rewrite Ho. apply scan_to_spec. lia.
Qed.

(** ** Concrete traces *)
Module PanicsSample.

Definition frame : trace_frame :=
  mkTrace (Some "github.com/specularL2/specular") "sidecar" "(*Service).step" "0xc208067e98" "/src/main.go" 22 "0x151".
Definition creator : trace_frame := mkTrace None "main" "main" "" "/src/main.go" 7 "0x20".
Definition method_creator : trace_frame := mkTrace None "main" "(*Service).Start" "" "/src/main.go" 9 "0x20".

Lemma frame_printable f : In f [frame; creator; method_creator] → printable f.
Proof. intros [<-|[<-|[<-|[]]]]; split; by vm_compute. Qed.

Lemma ParsePanic_roundtrip_witness :
  ParsePanic (print_trace "boom" ["[signal SIGSEGV]"; ""] "1" [frame] (Some creator)) =
    Ok (mkStacked "boom" []
      [mkFrame "/src/main.go" 22 "(*Service).step" "github.com/specularL2/specular/sidecar" 0;
       mkFrame "/src/main.go" 7 "main" "main" 0]) ∧
  ParsePanic (print_trace "boom" [] "1" [frame] (Some method_creator)) =
    Ok (mkStacked "boom" []
      [mkFrame "/src/main.go" 22 "(*Service).step" "github.com/specularL2/specular/sidecar" 0;
       mkFrame "/src/main.go" 9 "" "main" 0]).
Proof.
  assert (Hf : Forall printable [frame]) by (constructor; [apply frame_printable; left; reflexivity|constructor]).
  split.
  - apply (ParsePanic_roundtrip "boom" ["[signal SIGSEGV]"; ""] "1" [frame] (Some creator));
      [reflexivity|repeat constructor|reflexivity|exact Hf|].
    intros f [= <-]. split; [apply frame_printable; right; left; reflexivity|left; reflexivity].
  - apply (ParsePanic_roundtrip "boom" [] "1" [frame] (Some method_creator));
      [reflexivity|repeat constructor|reflexivity|exact Hf|].
    intros f [= <-]. split; [apply frame_printable; right; right; left; reflexivity|right].
    exists "*Service", "Start". split; [reflexivity|split; reflexivity].
Defined.

Lemma created_by_method_loses_name_witness :
  ∃ frame, parsePanicFrame "main.(*Service).Start" (position_line method_creator) true = Ok frame ∧ Name frame = "".
Proof.
  destruct (created_by_method_loses_name method_creator) as (g & H1 & H2 & _).
  - apply frame_printable. right. right. left. reflexivity.
  - exists "*Service", "Start". split; [reflexivity|split; reflexivity].
  - exists g. exact (conj H1 H2).
Defined.

Definition no_files : Runtime := {| FuncForPC _ := None; os_Open _ := Err (FmtError "no such file") |}.

Definition no_frames : string := "panic: boom" ++ String nl (String nl "goroutine 1 [running]:").

Lemma parsed_error_prints_witness :
  ParsePanic no_frames = Ok (mkStacked "boom" [] []) ∧
  Error_Error (RT := no_files) (mkStacked "boom" [] []) = Panic index_out_of_range.
Proof.
  split; [vm_compute; reflexivity|].
  apply (parsed_error_prints (RT := no_files) no_frames (mkStacked "boom" [] [])). vm_compute. reflexivity.
Defined.

Definition file : Runtime := {| FuncForPC _ := None; os_Open _ := Ok (["package main"; "  x := 1 "], None) |}.

Lemma sourceLine_correct_witness : sourceLine (RT := file) (mkFrame "main.go" 2 "" "" 0) = Ok "x := 1".
Proof.
  rewrite (sourceLine_correct (RT := file) (mkFrame "main.go" 2 "" "" 0) ["package main"; "  x := 1 "] None eq_refl eq_refl).
  reflexivity.
Defined.

End PanicsSample.
