(* ===== verification/Logging.v ===== *)
(** * Logging

    Models services/sidecar/utils/log: the wrapper of go-ethereum's logger that puts the name
    of the calling function and its line before every message, and the file's name before
    errors.  The loggers below, the Go runtime's function table and the text of a formatted
    error are parameters. *)

From S2P Require Import Prelude Errors GoStrings Panics.
From Stdlib Require Import Ascii String.

Open Scope string_scope.
#[local] Arguments String.append : simpl nomatch.

Inductive Lvl : Type := LvlCrit | LvlError | LvlWarn | LvlInfo | LvlDebug | LvlTrace.

#[export] Instance Lvl_eq_dec : EqDecision Lvl.
Proof. solve_decision. Defined.

(** ** Call stacks

    A frame as [runtime.Caller] reports it; the innermost call comes first. *)

Record caller_frame := mkCaller { cf_pc : Z; cf_file : string; cf_line : Z }.

(** Beyond the outermost call all results are zero. *)
Definition Caller (stack : list caller_frame) (skip : nat) : caller_frame :=
  default (mkCaller 0 "" 0) (stack !! skip).

(** ** Calls to go-ethereum's loggers

    A value of [log.Logger] below the wrapper is a name [L] for it; [V] is what is passed as
    context.  A call is recorded with its logger, level, message and context. *)
Class GethLog (L V H : Type) := {
  geth_Root : L;
  geth_New : list V → L;
  geth_child : L → list V → L;
  geth_GetHandler : L → H;
  fmt_Errorf : string → option error → string   (* the text of the error that is made *)
}.

Inductive log_call (L V H : Type) : Type :=
| c_log (l : L) (lvl : Lvl) (msg : string) (ctx : list V)
| c_set_handler (l : L) (h : H).
Arguments c_log {L V H}.
Arguments c_set_handler {L V H}.

Section Log.
Context {L V H : Type} `{G : GethLog L V H} `{RT : Runtime}.

(** The method [Name] of [runtime.Func]: a nil function has an empty name. *)
Definition func_Name (f : option Func) : string := from_option fn_Name "" f.

(** The last element of a [strings.Split]. *)
Definition last_part (s : string) (sep : ascii) : string := List.last (Split s sep) "".

Definition caller_name (c : caller_frame) : string := last_part (func_Name (FuncForPC (cf_pc c))) ".".

(** [getLogPrefix] and [getFullLogPrefix] are called with the stack of their caller; their own
    frame is the innermost. *)
Definition getLogPrefix (own : caller_frame) (stack : list caller_frame) : string :=
  let c := Caller (own :: stack) 2 in
  caller_name c ++ ":" ++ Itoa (cf_line c) ++ " | ".

Definition getFullLogPrefix (own : caller_frame) (stack : list caller_frame) : string :=
  let c := Caller (own :: stack) 2 in
  last_part (cf_file c) "/" ++ ":" ++ caller_name c ++ ":" ++ Itoa (cf_line c) ++ " | ".

(** ** log.go: the methods

    Each runs on a stack whose first frame is its own. *)

Record logger := mkLogger { l_l : L }.

Definition New (ctx : list V) : logger := mkLogger (geth_New ctx).
Definition logger_New (l : logger) (ctx : list V) : logger := mkLogger (geth_child (l_l l) ctx).
Definition GetHandler (l : logger) : H := geth_GetHandler (l_l l).
Definition SetHandler (l : logger) (h : H) : log_call L V H := c_set_handler (l_l l) h.

Section Methods.
Variables (own : caller_frame) (stack : list caller_frame).

Definition logger_Trace (l : logger) (msg : string) (ctx : list V) : log_call L V H :=
  c_log (l_l l) LvlTrace (getLogPrefix own stack ++ msg) ctx.
Definition logger_Debug (l : logger) (msg : string) (ctx : list V) : log_call L V H :=
  c_log (l_l l) LvlDebug (getLogPrefix own stack ++ msg) ctx.
Definition logger_Info (l : logger) (msg : string) (ctx : list V) : log_call L V H :=
  c_log (l_l l) LvlInfo (getLogPrefix own stack ++ msg) ctx.
Definition logger_Warn (l : logger) (msg : string) (ctx : list V) : log_call L V H :=
  c_log (l_l l) LvlWarn (getLogPrefix own stack ++ msg) ctx.
Definition logger_Error (l : logger) (msg : string) (ctx : list V) : log_call L V H :=
  c_log (l_l l) LvlError (getFullLogPrefix own stack ++ msg) ctx.
Definition logger_Crit (l : logger) (msg : string) (ctx : list V) : log_call L V H :=
  c_log (l_l l) LvlCrit (getFullLogPrefix own stack ++ msg) ctx.

(** The method formats with the short prefix and logs to the root logger. *)
Definition logger_Errorf (l : logger) (msg : string) (err : option error) (args : list V) : log_call L V H :=
  c_log geth_Root LvlError (fmt_Errorf (getLogPrefix own stack ++ msg) err) args.

(** ** root.go: the package's functions *)

Definition Trace (msg : string) (args : list V) : log_call L V H := c_log geth_Root LvlTrace (getLogPrefix own stack ++ msg) args.
Definition Debug (msg : string) (args : list V) : log_call L V H := c_log geth_Root LvlDebug (getLogPrefix own stack ++ msg) args.
Definition Info (msg : string) (args : list V) : log_call L V H := c_log geth_Root LvlInfo (getLogPrefix own stack ++ msg) args.
Definition Warn (msg : string) (args : list V) : log_call L V H := c_log geth_Root LvlWarn (getLogPrefix own stack ++ msg) args.
Definition Error (msg : string) (args : list V) : log_call L V H := c_log geth_Root LvlError (getFullLogPrefix own stack ++ msg) args.
Definition Crit (msg : string) (args : list V) : log_call L V H := c_log geth_Root LvlCrit (getFullLogPrefix own stack ++ msg) args.

Definition Errorf (msg : string) (err : option error) (args : list V) : log_call L V H :=
  c_log geth_Root LvlError (fmt_Errorf (getFullLogPrefix own stack ++ msg) err) args.

End Methods.

Definition Root : logger := mkLogger geth_Root.

(** ** Reading a message back

    The position that a prefix holds, and the message after it. *)

Definition read_line (s : string) : option (Z * string) :=
  match Index s " | " with
  | Some i => match parse_nat (stake i s) with Some n => Some (n, sdrop (i + 3) s) | None => None end
  | None => None
  end.

Definition read_short (s : string) : option (string * Z * string) :=
  match Index s ":" with
  | Some i => match read_line (sdrop (i + 1) s) with Some (n, msg) => Some (stake i s, n, msg) | None => None end
  | None => None
  end.

Definition read_full (s : string) : option (string * string * Z * string) :=
  match Index s ":" with
  | Some i => match read_short (sdrop (i + 1) s) with Some (f, n, msg) => Some (stake i s, f, n, msg) | None => None end
  | None => None
  end.

(** ** Lemmas *)

(** What follows the last separator. *)
Lemma Split_last a c b : no_char c b = true → List.last (Split (a ++ String c b) c) "" = b.
Proof.
  intros Hb. destruct (Split_pieces a c) as (Hne & Hp & Hj). rewrite <- Hj. clear Hj.
  induction Hp as [|x l Hx Hl IH]; [done|]. destruct l as [|y l].
  - cbn [Join]. by rewrite Split_app, Split_line.
  - change (Join (x :: y :: l) c) with (x ++ String c (Join (y :: l) c)).
    rewrite app_assoc_s. cbn [String.append]. rewrite Split_app by done.
    specialize (IH ltac:(done)). destruct (Split _ c) as [|z r] eqn:Hs; [by destruct (Split_pieces (Join (y :: l) c ++ String c b) c)|].
    done.
Qed.

Lemma last_part_after a c b : no_char c b = true → last_part (a ++ String c b) c = b.
Proof. apply Split_last. Qed.

Lemma sdrop_app_plus a b n : sdrop (String.length a + n) (a ++ b) = sdrop n b.
Proof. by induction a. Qed.

Lemma read_line_back n msg : (0 <= n)%Z → read_line (Itoa n ++ " | " ++ msg) = Some (n, msg).
Proof.
  intros Hn. unfold read_line.
  assert (Hd : no_char " " (Itoa n) = true) by (apply digits_no_char; [done|]; by apply Itoa_digits).
  change (" | " ++ msg) with (String " " ("| " ++ msg)). rewrite (Index_first " " "| " (Itoa n) msg Hd).
  rewrite stake_app, sdrop_app_plus, parse_nat_Itoa by done. done.
Qed.

Lemma read_short_back f n msg : no_char ":" f = true → (0 <= n)%Z →
  read_short (f ++ ":" ++ Itoa n ++ " | " ++ msg) = Some (f, n, msg).
Proof.
  intros Hf Hn. unfold read_short. change (f ++ ":" ++ ?s) with (f ++ String ":" s). rewrite Index_byte by done.
  rewrite stake_app, sdrop_app_plus. pose proof (read_line_back n msg Hn) as H'. cbn in H' |- *. by rewrite H'.
Qed.

Lemma read_full_back file f n msg : no_char ":" file = true → no_char ":" f = true → (0 <= n)%Z →
  read_full (file ++ ":" ++ f ++ ":" ++ Itoa n ++ " | " ++ msg) = Some (file, f, n, msg).
Proof.
  intros Hfile Hf Hn. unfold read_full.
  change (file ++ ":" ++ ?s) with (file ++ String ":" s). rewrite Index_byte by done.
  rewrite stake_app, sdrop_app_plus. pose proof (read_short_back f n msg Hf Hn) as H'. cbn in H' |- *. by rewrite H'.
Qed.

(** ** Theorems *)

(** The message of a call, and the logger that gets it. *)
Definition call_to (l : L) (lvl : Lvl) (read : string → Prop) (ctx : list V) (c : log_call L V H) : Prop :=
  match c with c_log l' lvl' msg ctx' => l' = l ∧ lvl' = lvl ∧ read msg ∧ ctx' = ctx | c_set_handler _ _ => False end.

(** Every level's method passes its level and context to the logger below, and the text it
    passes holds the name and line of the function that called it, for errors its file too,
    and the message: they can be read back from it. *)
Theorem messages_tell_position (l : logger) own caller rest (fn : Func) pkg name dir file msg ctx :
  FuncForPC (cf_pc caller) = Some fn → fn_Name fn = pkg ++ "." ++ name → no_char "." name = true → no_char ":" name = true →
  cf_file caller = dir ++ "/" ++ file → no_char "/" file = true → no_char ":" file = true → (0 <= cf_line caller)%Z →
  ∀ frame, let stack := frame :: caller :: rest in
  let short := λ text, read_short text = Some (name, cf_line caller, msg) in
  let full := λ text, read_full text = Some (file, name, cf_line caller, msg) in
  call_to (l_l l) LvlTrace short ctx (logger_Trace own stack l msg ctx) ∧
  call_to (l_l l) LvlDebug short ctx (logger_Debug own stack l msg ctx) ∧
  call_to (l_l l) LvlInfo short ctx (logger_Info own stack l msg ctx) ∧
  call_to (l_l l) LvlWarn short ctx (logger_Warn own stack l msg ctx) ∧
  call_to (l_l l) LvlError full ctx (logger_Error own stack l msg ctx) ∧
  call_to (l_l l) LvlCrit full ctx (logger_Crit own stack l msg ctx).
Proof.
  intros Hfn Hname Hd Hc Hfile Hs Hfc Hl frame stack short full.
  assert (Hcn : caller_name caller = name).
  { unfold caller_name. rewrite Hfn. cbn. rewrite Hname. by apply last_part_after. }
  assert (Hpre : short (getLogPrefix own stack ++ msg)).
  { unfold short, getLogPrefix, Caller, stack. cbn [lookup list_lookup default from_option id]. rewrite Hcn, !app_assoc_s.
    by apply read_short_back. }
  assert (Hfull : full (getFullLogPrefix own stack ++ msg)).
  { unfold full, getFullLogPrefix, Caller, stack. cbn [lookup list_lookup default from_option id]. rewrite Hcn, !app_assoc_s, Hfile.
    change (dir ++ "/" ++ file) with (dir ++ String "/" file). rewrite last_part_after by done. by apply read_full_back. }
  split_and!; done.
Qed.

(** The wrapper of the root logger and the package's functions say the same, at every level. *)
Theorem Root_is_package own stack msg ctx :
  logger_Trace own stack Root msg ctx = Trace own stack msg ctx ∧
  logger_Debug own stack Root msg ctx = Debug own stack msg ctx ∧
  logger_Info own stack Root msg ctx = Info own stack msg ctx ∧
  logger_Warn own stack Root msg ctx = Warn own stack msg ctx ∧
  logger_Error own stack Root msg ctx = Error own stack msg ctx ∧
  logger_Crit own stack Root msg ctx = Crit own stack msg ctx.
Proof. done. Qed.

(** The method [Errorf] does not use its logger: the context that was given to [New] is lost,
    and the file's name, which the other errors have, is missing. *)
Theorem logger_Errorf_ignores_logger own stack (l l' : logger) msg err args :
  logger_Errorf own stack l msg err args = logger_Errorf own stack l' msg err args ∧
  logger_Errorf own stack l msg err args = c_log geth_Root LvlError (fmt_Errorf (getLogPrefix own stack ++ msg) err) args.
Proof. done. Qed.

(** In a generic function the runtime's name ends in [[...]], and all that is left of it is the
    closing bracket. *)
Theorem generic_function_prefix own frame caller rest (fn : Func) pkg name :
  FuncForPC (cf_pc caller) = Some fn → fn_Name fn = pkg ++ "." ++ name ++ "[...]" →
  getLogPrefix own (frame :: caller :: rest) = "]:" ++ Itoa (cf_line caller) ++ " | ".
Proof.
  intros Hfn Hname. unfold getLogPrefix, Caller. cbn [lookup list_lookup default from_option id].
  assert (Hcn : caller_name caller = "]").
  { unfold caller_name. rewrite Hfn. cbn. rewrite Hname.
    assert (Hs : pkg ++ "." ++ name ++ "[...]" = (pkg ++ "." ++ name ++ "[..") ++ String "." "]") by (by rewrite !app_assoc_s).
    rewrite Hs. by apply last_part_after. }
  by rewrite Hcn.
Qed.

End Log.

Arguments logger : clear implicits.

(** ** A concrete call *)
Module LoggingSample.

#[export] Instance geth : GethLog nat string unit := {
  geth_Root := 0%nat;
  geth_New _ := 1%nat;
  geth_child l _ := S l;
  geth_GetHandler _ := tt;
  fmt_Errorf s _ := s
}.

Definition sync : Func := mkFunc "github.com/specularL2/specular/services/sidecar/rollup/rpc/eth.(*EthState).OnLatest" (λ _, ("", 0%Z)).

#[export] Instance runtime : Runtime := {|
  FuncForPC pc := if (pc =? 77)%Z then Some sync else None;
  os_Open _ := Err (FmtError "no such file")
|}.

Definition own : caller_frame := mkCaller 1 "/repo/utils/log/log.go" 58.
Definition info : caller_frame := mkCaller 2 "/repo/utils/log/log.go" 43.
Definition caller : caller_frame := mkCaller 77 "/repo/rollup/rpc/eth/eth_state.go" 40.

Lemma messages_tell_position_witness :
  logger_Info (H := unit) own [info; caller] (New (G := geth) ["service"]) "new head" ["n"] = c_log 1%nat LvlInfo "OnLatest:40 | new head" ["n"] ∧
  call_to (V := string) (H := unit) 1%nat LvlError (λ s, read_full s = Some ("eth_state.go", "OnLatest", 40%Z, "bad")) []
    (logger_Error (V := string) (H := unit) own [info; caller] (New (G := geth) ["service"]) "bad" []).
Proof.
  split; [reflexivity|].
  destruct (messages_tell_position (V := string) (H := unit) (RT := runtime) (New (G := geth) ["service"]) own caller [] sync
    "github.com/specularL2/specular/services/sidecar/rollup/rpc/eth.(*EthState)" "OnLatest" "/repo/rollup/rpc/eth" "eth_state.go" "bad" [])
    with (frame := info) as (_ & _ & _ & _ & H & _);
    [reflexivity|reflexivity|reflexivity|reflexivity|reflexivity|reflexivity|reflexivity|vm_compute; discriminate|exact H].
Defined.

End LoggingSample.
