(* ===== verification/Types.v ===== *)
(** * Data shared by the services

    Models services/sidecar/rollup/types/block_id.go and assertion.go, and the parts of
    go-ethereum's [types.Header], [types.Block] and [types.Transaction] that the services
    read.  Hashes (32 bytes) and addresses (20 bytes) are represented by the number whose
    big-endian bytes they are; the zero value is [0]. *)

From S2P Require Import Prelude.

Abbreviation Hash := Z (only parsing).
Abbreviation Address := Z (only parsing).

Definition zero_hash : Hash := 0.
Definition zero_address : Address := 0.

(** A header as far as the services read it.  [Header.Hash] is computed by go-ethereum;
    it is a field here. *)
Record Header := mkHeader {
  h_Number : Z;             (* *big.Int *)
  h_Hash : Hash;
  h_ParentHash : Hash;
  h_BaseFee : option Z      (* nil before London *)
}.

(** A (dynamic fee) transaction. *)
Record Transaction := mkTx {
  tx_ChainID : Z;
  tx_Nonce : Z;
  tx_GasTipCap : Z;
  tx_GasFeeCap : Z;
  tx_Gas : Z;
  tx_To : option Address;   (* nil: contract creation *)
  tx_Value : option Z;      (* nil is encoded as zero *)
  tx_Data : bytes
}.

Record Block := mkBlock {
  blk_Header : Header;
  blk_Transactions : list Transaction
}.

(** [(x *big.Int) Uint64]: the low 64 bits of the magnitude. *)
Definition big_Uint64 (x : Z) : Z := u64 (Z.abs x).

Definition NumberU64 (b : Block) : Z := big_Uint64 (h_Number (blk_Header b)).
Definition block_Hash (b : Block) : Hash := h_Hash (blk_Header b).
Definition block_ParentHash (b : Block) : Hash := h_ParentHash (blk_Header b).

(** ** types.BlockID and types.BlockRef *)

Record BlockID := mkBlockID {
  bid_Number : Z;
  bid_Hash : Hash
}.

#[export] Instance BlockID_eq_dec : EqDecision BlockID.
Proof. solve_decision. Defined.

Definition EmptyBlockID : BlockID := mkBlockID 0 zero_hash.

Definition NewBlockID (number : Z) (hash : Hash) : BlockID := mkBlockID number hash.

Definition NewBlockIDFromHeader (header : Header) : BlockID :=
  NewBlockID (big_Uint64 (h_Number header)) (h_Hash header).

Definition GetNumber (id : BlockID) : Z := bid_Number id.
Definition GetHash (id : BlockID) : Hash := bid_Hash id.

Record BlockRef := mkBlockRef {
  ref_BlockID : BlockID;
  ref_ParentHash : Hash
}.

Definition EmptyBlockRef : BlockRef := mkBlockRef EmptyBlockID zero_hash.

Definition NewBlockRef (number : Z) (hash parentHash : Hash) : BlockRef :=
  mkBlockRef (NewBlockID number hash) parentHash.

Definition NewBlockRefFromHeader (header : Header) : BlockRef :=
  mkBlockRef (NewBlockIDFromHeader header) (h_ParentHash header).

Definition GetParentHash (ref : BlockRef) : Hash := ref_ParentHash ref.

(** ** types.Assertion *)

Record Assertion := mkAssertion {
  as_ID : Z;
  as_VmHash : Hash;
  as_BlockNum : Z;
  as_Deadline : Z;
  as_StartBlock : Z;
  as_EndBlock : Z
}.

(** [Copy] allocates new [big.Int]s for the three numeric fields and copies the rest. *)
Definition Assertion_Copy (a : Assertion) : Assertion :=
  mkAssertion (as_ID a) (as_VmHash a) (as_BlockNum a) (as_Deadline a)
              (as_StartBlock a) (as_EndBlock a).

(** ** Lemmas *)

Lemma big_Uint64_range x : is_u64 (big_Uint64 x).
Proof. apply u64_range. Qed.

Lemma big_Uint64_small x : is_u64 x → big_Uint64 x = x.
Proof.
  intros H. unfold big_Uint64. rewrite Z.abs_eq by (unfold is_u64 in H; lia).
  by apply u64_small.
Qed.

Lemma NewBlockIDFromHeader_number h : is_u64 (GetNumber (NewBlockIDFromHeader h)).
Proof. apply big_Uint64_range. Qed.

#[export] Hint Resolve big_Uint64_range NewBlockIDFromHeader_number : specular.
