(* ===== verification/Encoder.v ===== *)
(** * The V0 batch encoder

    Models services/sidecar/rollup/derivation/batch_v0_encoder.go: the sub-batches a
    batch is made of, [ProcessBlock], [GetBatch], [Reset] and their helpers.

    The RLP package and the transaction encoding are go-ethereum's: they are the
    operations of the class [RLP], and [RLPLaws] states what their documentation says of
    them and the theorems use. *)

From S2P Require Import Prelude Errors Types.

(** [type rawTxBlock []hexutil.Bytes] *)
Definition rawTxBlock : Type := list bytes.

(** [contentSize] is tagged [rlp:"-"]. *)
Record subBatch := mkSubBatch {
  firstL2BlockNum : Z;
  txBlocks : list rawTxBlock;
  contentSize : Z
}.

(** What the encoder calls in go-ethereum. *)
Class RLP := {
  rlp_ListSize : Z → Z;                          (* rlp.ListSize *)
  rlp_IntSize : Z → Z;                           (* rlp.IntSize *)
  rlp_Encode : list subBatch → result bytes;     (* rlp.Encode of a []*subBatch *)
  rlp_Decode : bytes → result (list subBatch);   (* rlp.Decode into a []subBatch *)
  MarshalBinary : Transaction → result bytes     (* tx.MarshalBinary *)
}.

(** [rlp.ListSize]: "the encoded size of an RLP list with the given content size": the
    content and a header of one to nine bytes.  [rlp.IntSize]: the encoded size of an
    integer, one to nine bytes. *)
Class RLPLaws (R : RLP) := {
  rlp_ListSize_header : ∀ n, is_u64 n → n + 9 < two64 → n < rlp_ListSize n <= n + 9;
  rlp_IntSize_bounds : ∀ n, is_u64 n → 1 <= rlp_IntSize n <= 9
}.

Definition errBatchFull : error := ErrorString "batch full".
Definition errBatchTooSmall : error := ErrorString "batch too small".

(** [V0]: the version byte. *)
Definition V0 : Byte.byte := Byte.x00.

(** The encoder's state; [targetBatchSize] is [cfg.GetTargetBatchSize()]. *)
Record BatchV0Encoder := mkEncoder {
  targetBatchSize : Z;
  subBatches : list subBatch;
  runningLen : Z
}.

Definition set_subBatches (l : list subBatch) (e : BatchV0Encoder) : BatchV0Encoder :=
  mkEncoder (targetBatchSize e) l (runningLen e).

Definition set_runningLen (n : Z) (e : BatchV0Encoder) : BatchV0Encoder :=
  mkEncoder (targetBatchSize e) (subBatches e) n.

Section Encoder.
Context `{R : RLP}.

(** ** Sub-batches *)

Definition newSubBatch : subBatch := mkSubBatch 0 [] 0.

Definition size (s : subBatch) : Z := rlp_ListSize (contentSize s).

(** [marshallTxs]: the loop over the transactions; [numBytes] is an [int]. *)
Fixpoint marshallTxs_loop (txs : list Transaction) (rawTxs : rawTxBlock) (numBytes : Z)
    : result (rawTxBlock * Z) :=
  match txs with
  | [] => Ok (rawTxs, numBytes)
  | tx :: txs =>
      match MarshalBinary tx with
      | Err e => Err (Errorf_w "could not marshall tx" e)
      | Ok rawTx =>
          marshallTxs_loop txs (rawTxs ++ [rawTx]) (s64 (numBytes + Z.of_nat (length rawTx)))
      end
  end.

Definition marshallTxs (txs : list Transaction) : result (rawTxBlock * Z) :=
  marshallTxs_loop txs [] 0.

(** [appendTxBlock]: the first block number and its size are recorded before the
    transactions are marshalled, so they stay when marshalling fails. *)
Definition appendTxBlock (blockNum : Z) (txs : list Transaction) (s : subBatch)
    : result unit * subBatch :=
  let s1 :=
    if (length (txBlocks s) =? 0)%nat
    then mkSubBatch blockNum (txBlocks s) (u64 (contentSize s + rlp_IntSize blockNum))
    else s in
  match marshallTxs txs with
  | Err e => (Err (Errorf_w "could not marshall txs" e), s1)
  | Ok (marshalled, numBytes) =>
      (Ok tt, mkSubBatch (firstL2BlockNum s1) (txBlocks s1 ++ [marshalled])
                         (u64 (contentSize s1 + u64 numBytes)))
  end.

(** ** The encoder *)

Definition NewBatchV0Encoder (target : Z) : BatchV0Encoder :=
  mkEncoder target [newSubBatch] 0.

(** [e.subBatches[len(e.subBatches)-1]]: panics on an empty slice. *)
Definition currSubBatch (e : BatchV0Encoder) : go subBatch :=
  match last (subBatches e) with
  | Some s => Ret s
  | None => Panic index_out_of_range
  end.

(** The sub-batches are pointers: a change through [currSubBatch] changes the last
    element. *)
Definition set_currSubBatch (s : subBatch) (e : BatchV0Encoder) : BatchV0Encoder :=
  set_subBatches (removelast (subBatches e) ++ [s]) e.

Definition shouldCloseBatch (e : BatchV0Encoder) : go bool :=
  curr ← currSubBatch e;
  Ret (u64 (runningLen e + size curr) >? targetBatchSize e).

(** Closes the current sub-batch. *)
Definition closeSubBatch (e : BatchV0Encoder) : go BatchV0Encoder :=
  curr ← currSubBatch e;
  Ret (if size curr =? 0 then e
       else set_subBatches (subBatches e ++ [newSubBatch])
              (set_runningLen (u64 (runningLen e + size curr)) e)).

(** [GetBatch]: the encoded batch, or an error; writing the version byte to a
    [bytes.Buffer] never fails. *)
Definition GetBatch (force : bool) (e : BatchV0Encoder)
    : go (result bytes * BatchV0Encoder) :=
  curr ← currSubBatch e;
  let totalLen := u64 (runningLen e + contentSize curr) in
  if negb force && (totalLen <? targetBatchSize e) then Ret (Err errBatchTooSmall, e)
  else
    close ← shouldCloseBatch e;
    e' ← (if close : bool then closeSubBatch e else Ret e);
    match rlp_Encode (removelast (subBatches e')) with
    | Err err => Ret (Err (Errorf_w "failed to encode batch" err), e')
    | Ok data => Ret (Ok (V0 :: data), e')
    end.

(** [ProcessBlock]. *)
Definition ProcessBlock (block : Block) (isNewEpoch : bool) (e : BatchV0Encoder)
    : go (result unit * BatchV0Encoder) :=
  let shouldSkipBlock := (length (blk_Transactions block) =? 0)%nat in
  shouldClose ← shouldCloseBatch e;
  let shouldCloseSubBatch := shouldClose || shouldSkipBlock || isNewEpoch in
  e1 ← (if shouldCloseSubBatch then closeSubBatch e else Ret e);
  if shouldClose : bool then Ret (Err errBatchFull, e1)
  else if shouldSkipBlock then Ret (Ok tt, e1)
  else
    curr ← currSubBatch e1;
    let '(r, curr') := appendTxBlock (NumberU64 block) (blk_Transactions block) curr in
    Ret (match r with
         | Err err => Err (Errorf_w "could not append block of txs" err)
         | Ok _ => Ok tt
         end, set_currSubBatch curr' e1).

Definition Reset (e : BatchV0Encoder) : BatchV0Encoder :=
  mkEncoder (targetBatchSize e) [newSubBatch] 0.

(** [decodeV0]. *)
Definition decodeV0 (data : bytes) : result (list subBatch) := rlp_Decode data.

(** [DecodeBatch] (batch_builder.go): dispatch on the version byte. *)
Definition DecodeBatch (data : bytes) : result (list subBatch) :=
  match data with
  | [] => Err (AddrOf (DecodeTxBatchError "empty batch data"))
  | v :: rest =>
      if bool_decide (v = V0) then decodeV0 rest
      else Err (AddrOf (DecodeTxBatchError "invalid batch version"))
  end.

End Encoder.

(** ** Abstraction: what the encoder has buffered

    [buffered e] is the sequence of blocks of raw transactions held by the encoder, in
    the order they were processed, whatever sub-batch they are in.  This is what a batch
    has to carry. *)

Definition buffered_in (l : list subBatch) : list rawTxBlock := concat (map txBlocks l).

Definition buffered (e : BatchV0Encoder) : list rawTxBlock := buffered_in (subBatches e).

#[global] Arguments buffered_in : simpl never.

(** The raw form of a block's transactions, when every one of them marshals. *)
Definition marshal_block `{RLP} (b : Block) : result rawTxBlock :=
  mapM MarshalBinary (blk_Transactions b).

(** What a processed block adds to the buffer: nothing when it has no transaction (such a
    block is derivable without data). *)
Definition block_payload `{RLP} (b : Block) : list rawTxBlock :=
  match blk_Transactions b with
  | [] => []
  | _ => match marshal_block b with Ok raw => [raw] | Err _ => [] end
  end.

(** The encoder always has a current sub-batch. *)
Definition wf (e : BatchV0Encoder) : Prop := subBatches e ≠ [].

Section EncoderFacts.
Context `{R : RLP}.
Implicit Types (e : BatchV0Encoder) (s : subBatch) (b : Block).

Lemma wf_shape e : wf e → ∃ l s, subBatches e = l ++ [s].
Proof.
  unfold wf. destruct (subBatches e) as [|x l] using rev_ind; [done|]. eauto.
Qed.

Lemma currSubBatch_snoc e l s : subBatches e = l ++ [s] → currSubBatch e = Ret s.
Proof. intros H. unfold currSubBatch. by rewrite H, last_snoc. Qed.

Lemma shouldCloseBatch_snoc e l s :
  subBatches e = l ++ [s] →
  shouldCloseBatch e = Ret (u64 (runningLen e + size s) >? targetBatchSize e).
Proof. intros H. unfold shouldCloseBatch. by rewrite (currSubBatch_snoc _ _ _ H). Qed.

Lemma buffered_in_app l1 l2 : buffered_in (l1 ++ l2) = buffered_in l1 ++ buffered_in l2.
Proof. unfold buffered_in. by rewrite map_app, concat_app. Qed.

Lemma buffered_in_singleton s : buffered_in [s] = txBlocks s.
Proof. unfold buffered_in. cbn. apply app_nil_r. Qed.

(** [closeSubBatch] never panics on a well-formed encoder and only adds an empty
    sub-batch. *)
Lemma closeSubBatch_spec e :
  wf e → ∃ e', closeSubBatch e = Ret e' ∧ wf e' ∧ buffered e' = buffered e ∧
               targetBatchSize e' = targetBatchSize e.
Proof.
  intros (l & s & Hl)%wf_shape. unfold closeSubBatch.
  rewrite (currSubBatch_snoc _ _ _ Hl). cbn.
  destruct (size s =? 0); eexists; (split; [reflexivity|]).
  - unfold wf. rewrite Hl. repeat split. by destruct l.
  - unfold wf, buffered. cbn. repeat split.
    + by destruct (subBatches e).
    + rewrite buffered_in_app, buffered_in_singleton. apply app_nil_r.
Qed.

Lemma marshallTxs_loop_ok txs raw n raw' n' :
  marshallTxs_loop txs raw n = Ok (raw', n') →
  ∃ new, mapM MarshalBinary txs = Ok new ∧ raw' = raw ++ new.
Proof.
  revert raw n. induction txs as [|tx txs IH]; intros raw n H; cbn in *.
  - injection H as <- <-. exists []. split; [done|]. by rewrite app_nil_r.
  - destruct (MarshalBinary tx) as [r|]; [|done]. cbn.
    apply IH in H as (new & -> & ->). cbn. eexists. split; [done|].
    by rewrite <- app_assoc.
Qed.

Lemma marshallTxs_ok txs raw n :
  marshallTxs txs = Ok (raw, n) → mapM MarshalBinary txs = Ok raw.
Proof. intros (new & -> & ->)%marshallTxs_loop_ok. done. Qed.

Lemma marshallTxs_loop_complete txs new :
  mapM MarshalBinary txs = Ok new →
  ∀ raw n, ∃ n', marshallTxs_loop txs raw n = Ok (raw ++ new, n').
Proof.
  revert new. induction txs as [|tx txs IH]; intros new H raw n; cbn in *.
  - injection H as <-. rewrite app_nil_r. eauto.
  - destruct (MarshalBinary tx) as [r|]; [|done]. cbn in H.
    destruct (mapM MarshalBinary txs) as [new'|]; [|done]. cbn in H. injection H as <-.
    destruct (IH new' eq_refl (raw ++ [r]) (s64 (n + Z.of_nat (length r)))) as (n' & ->).
    exists n'. by rewrite <- app_assoc.
Qed.

Lemma marshallTxs_complete txs new :
  mapM MarshalBinary txs = Ok new → ∃ n, marshallTxs txs = Ok (new, n).
Proof. intros H. apply (marshallTxs_loop_complete _ _ H [] 0). Qed.

Lemma appendTxBlock_txBlocks num txs s :
  txBlocks (appendTxBlock num txs s).2 =
  txBlocks s ++ (match marshallTxs txs with Ok (raw, _) => [raw] | Err _ => [] end).
Proof.
  unfold appendTxBlock.
  destruct (marshallTxs txs) as [[raw n]|];
    destruct (length (txBlocks s) =? 0)%nat; cbn; by rewrite ?app_nil_r.
Qed.

Lemma buffered_set_curr e l s s' :
  subBatches e = l ++ [s] →
  buffered (set_currSubBatch s' e) = buffered_in l ++ txBlocks s'.
Proof.
  intros H. unfold buffered, set_currSubBatch. cbn. rewrite H, removelast_last.
  by rewrite buffered_in_app, buffered_in_singleton.
Qed.

Lemma wf_set_curr s e : wf (set_currSubBatch s e).
Proof. unfold wf, set_currSubBatch. cbn. by destruct (removelast (subBatches e)). Qed.

End EncoderFacts.

#[export] Hint Resolve wf_set_curr : specular.

(** ** The encoder's contract *)

Section EncoderTheorems.
Context `{R : RLP}.
Implicit Types (e : BatchV0Encoder) (s : subBatch) (b : Block).

(** What [ProcessBlock] does when it is past the closing of the sub-batch. *)
Lemma ProcessBlock_append e1 b :
  wf e1 → blk_Transactions b ≠ [] →
  ∃ l s, subBatches e1 = l ++ [s] ∧
  let '(r, s') := appendTxBlock (NumberU64 b) (blk_Transactions b) s in
  buffered (set_currSubBatch s' e1) =
    buffered e1 ++ match r with Ok _ => block_payload b | Err _ => [] end.
Proof.
  intros (l & s & Hl)%wf_shape Htx. exists l, s. split; [done|].
  pose proof (appendTxBlock_txBlocks (NumberU64 b) (blk_Transactions b) s) as Htb.
  destruct (appendTxBlock _ _ _) as [r s'] eqn:Happ. cbn in Htb.
  rewrite (buffered_set_curr _ _ _ _ Hl), Htb. unfold buffered.
  rewrite Hl, buffered_in_app, buffered_in_singleton, <- app_assoc. f_equal. f_equal.
  unfold appendTxBlock in Happ. unfold block_payload, marshal_block.
  destruct (marshallTxs (blk_Transactions b)) as [[raw n]|err] eqn:Hm;
    injection Happ as <- _; [|done].
  rewrite (marshallTxs_ok _ _ _ Hm). by destruct (blk_Transactions b).
Qed.

(** [ProcessBlock] on every branch: it never panics, it reports a full batch exactly when
    the running length and the current sub-batch exceed the target, it adds the block's
    transactions and nothing else when it succeeds, and it leaves the buffered data alone
    when it fails. *)
Lemma ProcessBlock_spec e l s b ne :
  subBatches e = l ++ [s] →
  ∃ r e', ProcessBlock b ne e = Ret (r, e') ∧ wf e' ∧
    targetBatchSize e' = targetBatchSize e ∧
    buffered e' = buffered e ++ match r with Ok _ => block_payload b | Err _ => [] end ∧
    (r = Err errBatchFull ↔ targetBatchSize e < u64 (runningLen e + size s)).
Proof.
  intros Hl. assert (Hwf : wf e) by (unfold wf; rewrite Hl; by destruct l).
  unfold ProcessBlock. rewrite (shouldCloseBatch_snoc _ _ _ Hl). cbn.
  destruct (closeSubBatch_spec e Hwf) as (ec & Hc & Hwfc & Hbc & Htc).
  destruct (_ >? _) eqn:Hclose; rewrite Z.gtb_ltb in Hclose; zbool; cbn.
  { rewrite Hc. cbn. do 2 eexists. split; [reflexivity|]. rewrite app_nil_r. done. }
  assert (Hno : ¬ targetBatchSize e < u64 (runningLen e + size s)) by lia.
  destruct (blk_Transactions b) as [|tx txs] eqn:Htx; cbn.
  { rewrite Hc. cbn. do 2 eexists. split; [reflexivity|].
    unfold block_payload. rewrite Htx, app_nil_r. repeat split; try done. }
  set (e1 := if ne then ec else e).
  assert (He1 : wf e1 ∧ buffered e1 = buffered e ∧ targetBatchSize e1 = targetBatchSize e)
    by (unfold e1; destruct ne; auto).
  assert ((if ne then closeSubBatch e else Ret e) = Ret e1) as ->
    by (unfold e1; destruct ne; done).
  destruct He1 as (Hwf1 & Hb1 & Ht1). cbn.
  destruct (ProcessBlock_append e1 b Hwf1) as (l1 & s1 & Hl1 & Happ); [by rewrite Htx|].
  rewrite (currSubBatch_snoc _ _ _ Hl1). cbn. rewrite Htx in Happ.
  destruct (appendTxBlock _ _ _) as [r s'] eqn:Hr. cbn.
  do 2 eexists. split; [reflexivity|]. rewrite Happ, Hb1.
  split; [apply wf_set_curr|]. split; [done|]. split; [by destruct r|].
  split; [|done]. by destruct r.
Qed.

(** The shape of [GetBatch]. *)
Lemma GetBatch_unfold e l s force :
  subBatches e = l ++ [s] →
  GetBatch force e =
  if negb force && (u64 (runningLen e + contentSize s) <? targetBatchSize e)
  then Ret (Err errBatchTooSmall, e)
  else
    e' ← (if u64 (runningLen e + size s) >? targetBatchSize e
          then closeSubBatch e else Ret e);
    match rlp_Encode (removelast (subBatches e')) with
    | Err err => Ret (Err (Errorf_w "failed to encode batch" err), e')
    | Ok data => Ret (Ok (V0 :: data), e')
    end.
Proof.
  intros Hl. unfold GetBatch.
  rewrite (currSubBatch_snoc _ _ _ Hl). cbn.
  by rewrite (shouldCloseBatch_snoc _ _ _ Hl).
Qed.

(** Closing when the current sub-batch is not of size zero. *)
Lemma closeSubBatch_nonzero e l s :
  subBatches e = l ++ [s] → size s ≠ 0 →
  closeSubBatch e = Ret (mkEncoder (targetBatchSize e) (subBatches e ++ [newSubBatch])
                                   (u64 (runningLen e + size s))).
Proof.
  intros Hl Hs. unfold closeSubBatch. rewrite (currSubBatch_snoc _ _ _ Hl). cbn.
  by rewrite (proj2 (Z.eqb_neq _ _) Hs).
Qed.

Context `{L : !RLPLaws R}.

(** The encoder's counters fit in 64 bits with room for the next header. *)
Definition fits e s : Prop :=
  0 <= runningLen e ∧ 0 <= contentSize s ∧ runningLen e + contentSize s + 9 < two64.

Lemma fits_size e s :
  fits e s → contentSize s < size s <= contentSize s + 9 ∧
             u64 (runningLen e + size s) = runningLen e + size s ∧
             u64 (runningLen e + contentSize s) = runningLen e + contentSize s.
Proof.
  intros (H1 & H2 & H3).
  assert (Hs : contentSize s < size s <= contentSize s + 9).
  { apply rlp_ListSize_header; [unfold is_u64|]; lia. }
  split; [done|]. split; apply u64_small; unfold is_u64; lia.
Qed.

(** An unforced [GetBatch] on an encoder that reached its target closes the current
    sub-batch, so that everything buffered is encoded. *)
Lemma GetBatch_unforced e l s :
  subBatches e = l ++ [s] → fits e s →
  targetBatchSize e <= runningLen e + contentSize s →
  GetBatch false e =
  let e' := mkEncoder (targetBatchSize e) (subBatches e ++ [newSubBatch])
                      (runningLen e + size s) in
  Ret (match rlp_Encode (subBatches e) with
       | Err err => Err (Errorf_w "failed to encode batch" err)
       | Ok data => Ok (V0 :: data)
       end, e').
Proof.
  intros Hl Hf Ht. destruct (fits_size _ _ Hf) as (Hs & Hu & Hc).
  rewrite (GetBatch_unfold _ _ _ _ Hl), Hc, Hu. cbn.
  rewrite (proj2 (Z.ltb_ge _ _) Ht), Z.gtb_ltb, (proj2 (Z.ltb_lt _ _)) by lia.
  rewrite (closeSubBatch_nonzero _ _ _ Hl), Hu by (destruct Hf; lia). cbn.
  rewrite removelast_last. by destruct (rlp_Encode _).
Qed.

(** An encoder past its target refuses every block and only grows by an empty
    sub-batch. *)
Lemma ProcessBlock_full e l s b ne :
  subBatches e = l ++ [s] → fits e s → targetBatchSize e < runningLen e + size s →
  ProcessBlock b ne e =
  Ret (Err errBatchFull,
       mkEncoder (targetBatchSize e) (subBatches e ++ [newSubBatch])
                 (runningLen e + size s)).
Proof.
  intros Hl Hf Ht. destruct (fits_size _ _ Hf) as (Hs & Hu & Hc).
  unfold ProcessBlock. rewrite (shouldCloseBatch_snoc _ _ _ Hl), Hu. cbn.
  rewrite Z.gtb_ltb, (proj2 (Z.ltb_lt _ _) Ht). cbn.
  by rewrite (closeSubBatch_nonzero _ _ _ Hl), Hu by (destruct Hf; lia).
Qed.

End EncoderTheorems.

(** ** The sizes the encoder keeps

    [contentSize] and [runningLen] are determined by the contents of the sub-batches. *)

Section Sizes.
Context `{R : RLP}.
Implicit Types (e : BatchV0Encoder) (s : subBatch) (b : Block).

Definition raw_size (raw : rawTxBlock) : Z := foldr Z.add 0 (map (fun tx => Z.of_nat (length tx)) raw).
Definition raws_size (l : list rawTxBlock) : Z := foldr Z.add 0 (map raw_size l).

(** The content of a sub-batch: the number of its first block and its transactions. *)
Definition sized s : Prop :=
  contentSize s = match txBlocks s with
                  | [] => 0
                  | l => u64 (rlp_IntSize (firstL2BlockNum s) + raws_size l)
                  end.

(** The encoded size of closed sub-batches, on [uint64]s. *)
Definition total (l : list subBatch) : Z := fold_left (fun n s => u64 (n + size s)) l 0.

#[local] Arguments total : simpl never.

Record enc_ok e : Prop := {
  ok_wf : wf e;
  ok_sized : Forall sized (subBatches e);
  ok_len : runningLen e = total (removelast (subBatches e))
}.

Lemma total_snoc l s : total (l ++ [s]) = u64 (total l + size s).
Proof. unfold total. by rewrite fold_left_app. Qed.

Lemma total_u64 l : u64 (total l) = total l.
Proof. destruct l as [|s l _] using rev_ind; [done|]. by rewrite total_snoc, u64_idem. Qed.

Lemma raws_size_snoc l raw : raws_size (l ++ [raw]) = raws_size l + raw_size raw.
Proof. unfold raws_size. induction l as [|x l IH]; cbn in *; lia. Qed.

Lemma u64_s64 x : u64 (s64 x) = u64 x.
Proof. unfold u64, s64, two63, two64. Z.div_mod_to_equations. lia. Qed.

Lemma marshallTxs_loop_size txs : ∀ raw n raw' n',
  marshallTxs_loop txs raw n = Ok (raw', n') → u64 (n - raw_size raw) = u64 (n' - raw_size raw').
Proof.
  induction txs as [|tx txs IH]; intros raw n raw' n' H; cbn in H; [by simplify_eq|].
  destruct (MarshalBinary tx) as [r|]; [|done]. apply IH in H. rewrite <- H.
  assert (Hs : raw_size (raw ++ [r]) = raw_size raw + Z.of_nat (length r)).
  { unfold raw_size. clear. induction raw as [|x l IH]; cbn in *; lia. }
  rewrite Hs. pose proof (u64_s64 (n + Z.of_nat (length r))) as Hy.
  unfold u64, two64 in *. Z.div_mod_to_equations. lia.
Qed.

Lemma appendTxBlock_sized num txs s s' :
  sized s → appendTxBlock num txs s = (Ok tt, s') → sized s'.
Proof.
  unfold sized, appendTxBlock. intros Hs. destruct (marshallTxs txs) as [[raw n]|] eqn:Hm; [|done].
  apply marshallTxs_loop_size in Hm. change (raw_size []) with 0 in Hm.
  assert (Hn : ∀ x y, u64 x = u64 y → u64 (x + u64 n) = u64 (y + raw_size raw)).
  { intros x y Hxy. unfold u64, two64 in *. Z.div_mod_to_equations. lia. }
  destruct (txBlocks s) as [|x l] eqn:Hb; cbn [length Nat.eqb]; intros [= <-]; rewrite ?Hb in Hs; cbn [txBlocks contentSize firstL2BlockNum]; rewrite ?Hb.
  - cbn. rewrite Hs. replace (raw_size raw + 0) with (raw_size raw) by lia. apply Hn.
    by rewrite u64_idem.
  - cbn [app]. change (x :: l ++ [raw]) with ((x :: l) ++ [raw]). rewrite raws_size_snoc, Z.add_assoc. apply Hn. rewrite Hs. by rewrite u64_idem.
Qed.

Lemma newSubBatch_sized : sized newSubBatch.
Proof. done. Qed.

Lemma NewBatchV0Encoder_ok target : enc_ok (NewBatchV0Encoder target).
Proof. split; [done|by apply Forall_singleton|done]. Qed.

(** Closing: nothing, or an empty sub-batch after the current one. *)
Lemma closeSubBatch_ok e e' :
  enc_ok e → closeSubBatch e = Ret e' →
  enc_ok e' ∧ targetBatchSize e' = targetBatchSize e ∧
  (∀ l s, subBatches e = l ++ [s] → runningLen e' = u64 (runningLen e + size s)).
Proof.
  intros [(l & s & Hl)%wf_shape Hs Hr] Hc. unfold closeSubBatch in Hc.
  rewrite (currSubBatch_snoc _ _ _ Hl) in Hc. cbn in Hc. rewrite Hl, removelast_last in Hr.
  destruct (size s =? 0) eqn:Hz; zbool; injection Hc as <-.
  - split_and!; [split; [unfold wf; rewrite Hl; by destruct l|done|by rewrite Hl, removelast_last]|done|].
    intros l1 s1 H. rewrite Hl in H. apply app_inj_tail in H as [_ <-].
    by rewrite Hz, Z.add_0_r, Hr, total_u64.
  - split_and!; [|done|].
    + split; cbn; [by destruct (subBatches e)|apply Forall_snoc; done|].
      rewrite removelast_last, Hl, total_snoc. by rewrite Hr.
    + intros l1 s1 H. rewrite Hl in H. by apply app_inj_tail in H as [_ <-].
Qed.

(** A block whose transactions marshal keeps the sizes right, and is refused only when the
    closed sub-batches are beyond the target. *)
Lemma ProcessBlock_ok b ne e r e' :
  enc_ok e → (∃ raw, marshal_block b = Ok raw) → ProcessBlock b ne e = Ret (r, e') →
  enc_ok e' ∧ targetBatchSize e' = targetBatchSize e ∧
  (r = Err errBatchFull → targetBatchSize e < total (removelast (subBatches e'))).
Proof.
  intros He [raw Hraw] Hp. pose proof He as [Hwf _ _]. apply wf_shape in Hwf as (l & s & Hl).
  unfold ProcessBlock in Hp. rewrite (shouldCloseBatch_snoc _ _ _ Hl) in Hp. cbn in Hp.
  assert (Hclose : ∀ ec, closeSubBatch e = Ret ec → enc_ok ec ∧ targetBatchSize ec = targetBatchSize e)
    by (intros ec Hc; destruct (closeSubBatch_ok _ _ He Hc) as (?&?&_); done).
  destruct (_ >? _) eqn:Hfull; cbn in Hp.
  { destruct (closeSubBatch e) as [ec|] eqn:Hc; [|done]. cbn in Hp. simplify_eq.
    destruct (closeSubBatch_ok _ _ He Hc) as (Hok & Ht & Hrun). split_and!; [done..|]. intros _.
    rewrite <- (ok_len _ Hok), (Hrun _ _ Hl). rewrite Z.gtb_ltb in Hfull. by zbool. }
  assert (∃ e1, enc_ok e1 ∧ targetBatchSize e1 = targetBatchSize e ∧
    (if (length (blk_Transactions b) =? 0)%nat || ne then closeSubBatch e else Ret e) = Ret e1)
    as (e1 & He1 & Ht1 & Hc1).
  { destruct (closeSubBatch_spec e (ok_wf _ He)) as (ec & Hc & _).
    destruct (_ || ne); [|by exists e]. destruct (Hclose _ Hc). by exists ec. }
  rewrite Hc1 in Hp. cbn in Hp. clear Hc1.
  destruct (_ =? _)%nat; [by simplify_eq|].
  destruct (wf_shape _ (ok_wf _ He1)) as (l1 & s1 & Hl1).
  rewrite (currSubBatch_snoc _ _ _ Hl1) in Hp. cbn in Hp.
  assert (∃ s', appendTxBlock (NumberU64 b) (blk_Transactions b) s1 = (Ok tt, s')) as [s' Ha].
  { unfold appendTxBlock. destruct (marshallTxs_complete _ _ Hraw) as [n ->]. by eexists. }
  rewrite Ha in Hp. simplify_eq. destruct He1 as [_ Hs1 Hr1]. rewrite Hl1 in Hs1, Hr1.
  apply Forall_snoc in Hs1 as [Hs1 Hs2]. rewrite removelast_last in Hr1.
  split_and!; [|done|done]. split; cbn; [apply wf_set_curr|..]; rewrite Hl1, removelast_last.
  - apply Forall_snoc. split; [done|]. by eapply appendTxBlock_sized.
  - by rewrite removelast_last.
Qed.

(** What [GetBatch] encodes: the closed sub-batches, all of them; the current one stays out
    only when it would not take the batch over the target. *)
Lemma GetBatch_ok force e r e' :
  enc_ok e → GetBatch force e = Ret (r, e') →
  enc_ok e' ∧ targetBatchSize e' = targetBatchSize e ∧
  (targetBatchSize e < total (removelast (subBatches e)) →
     targetBatchSize e < total (removelast (subBatches e'))) ∧
  (∀ data, r = Ok data → ∃ closed open payload,
     subBatches e' = closed ++ [open] ∧ data = V0 :: payload ∧ rlp_Encode closed = Ok payload ∧
     (txBlocks open ≠ [] → u64 (total closed + size open) <= targetBatchSize e ∨ size open = 0)).
Proof.
  intros He Hg. destruct (wf_shape _ (ok_wf _ He)) as (l & s & Hl).
  rewrite (GetBatch_unfold _ _ _ _ Hl) in Hg. destruct (negb force && _); [by simplify_eq|].
  destruct (u64 (runningLen e + size s) >? targetBatchSize e) eqn:Hc; rewrite Z.gtb_ltb in Hc; zbool.
  - destruct (closeSubBatch e) as [e1|] eqn:Hclose; [|done]. cbn in Hg.
    destruct (closeSubBatch_ok _ _ He Hclose) as (He1 & Ht & Hrun). specialize (Hrun _ _ Hl).
    assert (e' = e1) as -> by (by destruct (rlp_Encode _); simplify_eq).
    split_and!; [done..|by rewrite <- (ok_len _ He1), Hrun|].
    intros data ->. destruct (rlp_Encode _) as [payload|] eqn:Henc; simplify_eq.
    unfold closeSubBatch in Hclose. rewrite (currSubBatch_snoc _ _ _ Hl) in Hclose. cbn in Hclose.
    destruct (size s =? 0) eqn:Hz; zbool; injection Hclose as <-.
    + exists l, s, payload. rewrite Hl, removelast_last in Henc. split_and!; [done..|]. by right.
    + cbn in *. rewrite removelast_last in Henc. exists (subBatches e), newSubBatch, payload.
      split_and!; done.
  - cbn in Hg. assert (e' = e) as -> by (by destruct (rlp_Encode _); simplify_eq).
    split_and!; [done..|]. intros data ->. destruct (rlp_Encode _) as [payload|] eqn:Henc; simplify_eq.
    exists l, s, payload. rewrite Hl, removelast_last in Henc. split_and!; [done..|]. left.
    pose proof (ok_len _ He) as Hr. rewrite Hl, removelast_last in Hr. by rewrite <- Hr.
Qed.

End Sizes.

(** ** Which fields of a sub-batch reach the encoding

    [rlp]'s documentation: a struct is encoded as the list of its public fields.  The
    fields of [subBatch] by name, and Go's rule that a field is exported when its name
    starts with an upper-case letter. *)

Inductive field_value : Type :=
| field_uint (n : Z)
| field_blocks (l : list rawTxBlock).

Definition subBatch_fields (s : subBatch) : list (string * field_value) :=
  [("firstL2BlockNum", field_uint (firstL2BlockNum s));
   ("txBlocks", field_blocks (txBlocks s));
   ("contentSize", field_uint (contentSize s))].

Definition exported (name : string) : bool :=
  match name with
  | EmptyString => false
  | String c _ =>
      (65 <=? Ascii.nat_of_ascii c)%nat &&
      (Ascii.nat_of_ascii c <=? 90)%nat
  end.

Definition public_fields (s : subBatch) : list (string * field_value) :=
  List.filter (fun f => exported f.1) (subBatch_fields s).

(** The same sub-batch with its block number and transactions erased. *)
Definition erase (s : subBatch) : subBatch := mkSubBatch 0 [] (contentSize s).

Definition erase_all (e : BatchV0Encoder) : BatchV0Encoder :=
  set_subBatches (map erase (subBatches e)) e.

(** ** A concrete RLP

    Instances for the examples: sizes as RLP defines them, a transaction marshalled to its
    data, and an encoding of a list of structs by their public fields. *)
Module Sample.

Definition int_bytes (n : Z) : Z := (Z.log2 n + 8) / 8.

Definition sample_rlp : RLP := {|
  rlp_ListSize n := if n <? 56 then n + 1 else n + 1 + int_bytes n;
  rlp_IntSize n := if n <? 128 then 1 else 1 + int_bytes n;
  rlp_Encode l := Ok (map (fun _ => Byte.xc0) l);
  rlp_Decode b := Ok (map (fun _ => mkSubBatch 0 [] 0) b);
  MarshalBinary tx := Ok (tx_Data tx)
|}.

Lemma int_bytes_bounds n : 56 <= n < two64 → 1 <= int_bytes n <= 8.
Proof.
  intros H. unfold int_bytes.
  assert (0 <= Z.log2 n) by apply Z.log2_nonneg.
  assert (Z.log2 n < 64) by (apply Z.log2_lt_pow2; unfold two64 in H; lia).
  split; [apply Z.div_le_lower_bound; lia|].
  enough ((Z.log2 n + 8) / 8 < 9) by lia. apply Z.div_lt_upper_bound; lia.
Qed.

Lemma sample_laws : RLPLaws sample_rlp.
Proof.
  split; cbn; intros n Hn; unfold is_u64 in *.
  - intros Hs. destruct (n <? 56) eqn:H; zbool; [lia|].
    pose proof (int_bytes_bounds n). lia.
  - destruct (n <? 128) eqn:H; zbool; [lia|]. pose proof (int_bytes_bounds n). lia.
Qed.

Definition tx (to : Address) (data : bytes) : Transaction := mkTx 1 0 0 0 0 (Some to) None data.

Definition block (num hash parent : Z) (txs : list Transaction) : Block :=
  mkBlock (mkHeader num hash parent None) txs.

(** An encoder with target 4, after one closed sub-batch and one open one. *)
Definition enc : BatchV0Encoder :=
  mkEncoder 4 [mkSubBatch 1 [[[Byte.x01]]] 2; mkSubBatch 2 [[[Byte.x02]]] 2] 3.

End Sample.

(** ** Theorems *)

Section EncoderClaims.
Context `{R : RLP}.

(** C3: [ProcessBlock] on every branch.  It never panics on an encoder with a current
    sub-batch; it returns [errBatchFull] exactly when the running length plus the current
    sub-batch's size (in 64-bit arithmetic) exceeds the target; when it succeeds, the
    encoder holds what it held plus the block's marshalled transactions, in that order
    (nothing for an empty block); when it fails, what is buffered does not change. *)
Theorem ProcessBlock_correct e l s b ne :
  subBatches e = l ++ [s] →
  ∃ r e', ProcessBlock b ne e = Ret (r, e') ∧ wf e' ∧
    targetBatchSize e' = targetBatchSize e ∧
    buffered e' = buffered e ++ match r with Ok _ => block_payload b | Err _ => [] end ∧
    (r = Err errBatchFull ↔ targetBatchSize e < u64 (runningLen e + size s)).
Proof. apply ProcessBlock_spec. Qed.

Context `{L : !RLPLaws R}.

(** An unforced [GetBatch] refuses with [errBatchTooSmall], changing nothing, exactly
    while the content collected is below the target; otherwise it closes the current
    sub-batch and encodes sub-batches that together hold every transaction buffered. *)
Theorem GetBatch_unforced_complete e l s :
  subBatches e = l ++ [s] → fits e s →
  if runningLen e + contentSize s <? targetBatchSize e
  then GetBatch false e = Ret (Err errBatchTooSmall, e)
  else ∃ sbs e', buffered_in sbs = buffered e ∧ buffered e' = buffered e ∧
         GetBatch false e =
         Ret (match rlp_Encode sbs with
              | Ok data => Ok (V0 :: data)
              | Err err => Err (Errorf_w "failed to encode batch" err)
              end, e').
Proof.
  intros Hl Hf. destruct (fits_size _ _ Hf) as (_ & _ & Hc).
  destruct (_ <? _) eqn:H.
  - rewrite (GetBatch_unfold _ _ _ _ Hl), Hc. cbn. by rewrite H.
  - zbool. rewrite (GetBatch_unforced _ _ _ Hl Hf H).
    exists (subBatches e). eexists. split; [done|]. split; [|by destruct (rlp_Encode _)].
    unfold buffered. cbn. rewrite buffered_in_app, buffered_in_singleton. apply app_nil_r.
Qed.

(** A forced [GetBatch] does not close a current sub-batch that fits under the target:
    it encodes the sub-batches closed before and leaves the open one, with its
    transactions, out of the batch. *)
Theorem GetBatch_forced_omits_current e l s :
  subBatches e = l ++ [s] → fits e s → runningLen e + size s <= targetBatchSize e →
  GetBatch true e =
  Ret (match rlp_Encode l with
       | Ok data => Ok (V0 :: data)
       | Err err => Err (Errorf_w "failed to encode batch" err)
       end, e).
Proof.
  intros Hl Hf Hs. destruct (fits_size _ _ Hf) as (_ & Hu & _).
  rewrite (GetBatch_unfold _ _ _ _ Hl), Hu. cbn.
  rewrite Z.gtb_ltb, (proj2 (Z.ltb_ge _ _) Hs). cbn.
  rewrite Hl, removelast_last. by destruct (rlp_Encode l).
Qed.

(** Under RLP's rule that a struct is encoded by its public fields, the batch bytes do
    not depend on the block numbers and transactions of the sub-batches, which are all in
    unexported fields: an encoder with them erased produces the same batch. *)
Theorem GetBatch_ignores_transactions e force r e' :
  (∀ l1 l2, map public_fields l1 = map public_fields l2 → rlp_Encode l1 = rlp_Encode l2) →
  GetBatch force e = Ret (r, e') →
  ∃ e'', GetBatch force (erase_all e) = Ret (r, e'').
Proof.
  intros Hpub Hg.
  destruct (subBatches e) as [|s l _] eqn:Hl using rev_ind.
  { unfold GetBatch, currSubBatch in Hg. by rewrite Hl in Hg. }
  assert (Hl' : subBatches (erase_all e) = map erase l ++ [erase s])
    by (cbn; by rewrite Hl, map_app).
  assert (Herase : ∀ l', rlp_Encode (map erase l') = rlp_Encode l').
  { intros l'. apply Hpub. by rewrite map_map. }
  pose proof (Herase (l ++ [s])) as Herase_all. rewrite map_app in Herase_all.
  cbn [map] in Herase_all.
  rewrite (GetBatch_unfold _ _ _ _ Hl) in Hg. rewrite (GetBatch_unfold _ _ _ _ Hl').
  cbn [erase_all set_subBatches runningLen targetBatchSize erase contentSize] in *.
  change (size (erase s)) with (size s).
  destruct (negb force && _); [injection Hg as <- _; by eauto|].
  unfold closeSubBatch in *.
  rewrite (currSubBatch_snoc _ _ _ Hl) in Hg. rewrite (currSubBatch_snoc _ _ _ Hl').
  cbn [mbind go_bind] in *. change (size (erase s)) with (size s).
  destruct (_ >? _), (size s =? 0); cbn [mbind go_bind] in *;
    cbn [subBatches set_subBatches set_runningLen] in *;
    rewrite Hl', ?removelast_last in *; rewrite Hl, ?removelast_last in Hg;
    rewrite ?Herase_all, ?Herase;
    destruct (rlp_Encode _); injection Hg as <- _; eauto.
Qed.

End EncoderClaims.

Lemma ProcessBlock_correct_witness :
  ∃ r e', ProcessBlock (R := Sample.sample_rlp) (Sample.block 3 30 20 [Sample.tx 9 [Byte.x07]])
            false (mkEncoder 100 [newSubBatch] 0) = Ret (r, e') ∧ r = Ok tt ∧
    buffered e' = [[[Byte.x07]]].
Proof.
  destruct (ProcessBlock_correct (R := Sample.sample_rlp) (mkEncoder 100 [newSubBatch] 0) [] newSubBatch
    (Sample.block 3 30 20 [Sample.tx 9 [Byte.x07]]) false eq_refl) as (r & e' & H & _).
  exists r, e'. split; [exact H|]. vm_compute in H. injection H as <- <-. split; reflexivity.
Defined.

Lemma GetBatch_unforced_complete_witness :
  ∃ sbs e', buffered_in sbs = [[[Byte.x01]]; [[Byte.x02]]] ∧
    GetBatch (R := Sample.sample_rlp) false Sample.enc = Ret (Ok (V0 :: map (fun _ => Byte.xc0) sbs), e').
Proof.
  destruct (GetBatch_unforced_complete (R := Sample.sample_rlp) (L := Sample.sample_laws) Sample.enc
    [mkSubBatch 1 [[[Byte.x01]]] 2] (mkSubBatch 2 [[[Byte.x02]]] 2) eq_refl
    ltac:(vm_compute; repeat split; discriminate)) as (sbs & e' & H1 & _ & H2).
  exists sbs, e'. split; [exact H1|exact H2].
Defined.

Lemma GetBatch_forced_omits_current_witness :
  buffered (mkEncoder 100 [mkSubBatch 1 [[[Byte.x01]]] 2] 0) = [[[Byte.x01]]] ∧
  GetBatch (R := Sample.sample_rlp) true (mkEncoder 100 [mkSubBatch 1 [[[Byte.x01]]] 2] 0) =
  Ret (Ok [V0], mkEncoder 100 [mkSubBatch 1 [[[Byte.x01]]] 2] 0).
Proof.
  split; [reflexivity|].
  apply (GetBatch_forced_omits_current (R := Sample.sample_rlp) (L := Sample.sample_laws)
    (mkEncoder 100 [mkSubBatch 1 [[[Byte.x01]]] 2] 0) [] (mkSubBatch 1 [[[Byte.x01]]] 2) eq_refl);
    vm_compute; repeat split; discriminate.
Defined.

Lemma GetBatch_ignores_transactions_witness :
  ∃ e'', GetBatch (R := Sample.sample_rlp) false (erase_all Sample.enc) = Ret (Ok [V0; Byte.xc0; Byte.xc0], e'').
Proof.
  apply (GetBatch_ignores_transactions (R := Sample.sample_rlp) Sample.enc false (Ok [V0; Byte.xc0; Byte.xc0])
    (mkEncoder 4 (subBatches Sample.enc ++ [newSubBatch]) 6)); [|reflexivity].
  intros l1 l2 H. cbn. f_equal.
  apply (f_equal (map (fun _ => Byte.xc0))) in H. by rewrite !map_map in H.
Defined.
