(* ===== verification/Bridge.v ===== *)
(** * Bindings of the L1 bridge contracts

    Models services/sidecar/rollup/rpc/bridge/serialization.go (packing and unpacking of
    contract inputs, with the lazily initialised ABI singleton) and
    services/sidecar/rollup/rpc/bridge/tx_mgr.go (one method per contract call, all of
    them going through the L1 transaction manager's [Send]).

    go-ethereum's [abi] package and the generated contract bindings are the operations of
    the class [ABI]. *)

From S2P Require Import Prelude Errors Types.

(** ** Names of serialization.go *)

Definition AppendTxBatchFnName : string := "appendTxBatch".
Definition StakeFnName : string := "stake".
Definition AdvanceStakeFnName : string := "advanceStake".
Definition CreateAssertionFnName : string := "createAssertion".
Definition ConfirmFirstUnresolvedAssertionFnName : string := "confirmFirstUnresolvedAssertion".
Definition RejectFirstUnresolvedAssertionFnName : string := "rejectFirstUnresolvedAssertion".
Definition bisectExecutionFn : string := "bisectExecution".
Definition SetL1OracleValues : string := "setL1OracleValues".

Definition NoUnresolvedAssertionErr : string :=
  "Error: VM Exception while processing transaction: reverted with custom error 'NoUnresolvedAssertion()'".
Definition ConfirmationPeriodPendingErr : string :=
  "Error: VM Exception while processing transaction: reverted with custom error 'ConfirmationPeriodPending()'".

Definition MethodNumBytes : nat := 4.

(** A value of an ABI argument list ([[]any]): the dynamic types the code asserts. *)
Inductive abi_value : Type :=
| abi_bytes (b : bytes)
| abi_BigInt (z : Z)
| abi_Hash (h : Hash)
| abi_Address (a : Address)
| abi_other.

(** The contracts whose ABI the code loads. *)
Inductive contract := ISequencerInbox | IRollup | ISymChallenge | L1Oracle.

(** go-ethereum's ABI coder and the generated metadata. *)
Class ABI := {
  abi : Type;
  GetAbi : contract → result abi;                               (* <X>MetaData.GetAbi *)
  abi_Pack : abi → string → list abi_value → result bytes;       (* ABI.Pack *)
  abi_Unpack : abi → string → bytes → result (list abi_value);   (* ABI.Unpack *)
  abi_Inputs_Unpack : abi → string → bytes → result (list abi_value) (* Methods[n].Inputs.Unpack *)
}.

(** A receipt, as far as it is read. *)
Record Receipt := mkReceipt {
  rc_Status : Z;
  rc_TxHash : Hash;
  rc_BlockNumber : Z
}.

Definition ReceiptStatusFailed : Z := 0.
Definition ReceiptStatusSuccessful : Z := 1.

(** [txmgr.TxCandidate]. *)
Record TxCandidate := mkCandidate {
  c_TxData : bytes;
  c_To : option Address;
  c_GasLimit : Z;
  c_Value : option Z
}.

Section Bridge.
Context `{A : ABI}.

(** ** The serialization singleton *)

Record bridgeSerializationUtil := mkUtil {
  inboxAbi : abi;
  rollupAbi : abi;
  challengeAbi : abi;
  l1OracleAbi : abi
}.

(** [ensureUtilInit]: loads the four ABIs once.  The global is an argument and a
    result. *)
Definition ensureUtilInit (util : option bridgeSerializationUtil)
    : result unit * option bridgeSerializationUtil :=
  match util with
  | Some _ => (Ok tt, util)
  | None =>
      match GetAbi ISequencerInbox with
      | Err e => (Err (Errorf_w "failed to get ISequencerInbox ABI" e), None)
      | Ok inbox =>
      match GetAbi IRollup with
      | Err e => (Err (Errorf_w "failed to get IRollup ABI" e), None)
      | Ok rollup =>
      match GetAbi ISymChallenge with
      | Err e => (Err (Errorf_w "failed to get ISymChallenge ABI" e), None)
      | Ok challenge =>
      match GetAbi L1Oracle with
      | Err e => (Err (Errorf_w "failed to get IL1Oracle ABI" e), None)
      | Ok oracle => (Ok tt, Some (mkUtil inbox rollup challenge oracle))
      end end end end
  end.

(** Using the singleton before it is initialised dereferences nil. *)
Definition with_util {B} (util : option bridgeSerializationUtil)
    (f : bridgeSerializationUtil → go B) : go B :=
  match util with
  | None => Panic nil_deref
  | Some u => f u
  end.

(** [tx.Data()[MethodNumBytes:]]: panics when the data is shorter. *)
Definition input_data (tx : Transaction) : go bytes :=
  if (length (tx_Data tx) <? MethodNumBytes)%nat then Panic "slice bounds out of range"
  else Ret (drop MethodNumBytes (tx_Data tx)).

Definition UnpackAppendTxBatchInput (util : option bridgeSerializationUtil)
    (tx : Transaction) : go (result (list abi_value)) :=
  with_util util (fun u =>
    data ← input_data tx;
    Ret (abi_Inputs_Unpack (inboxAbi u) AppendTxBatchFnName data)).

Definition UnpackBisectExecutionInput (util : option bridgeSerializationUtil)
    (tx : Transaction) : go (result (list abi_value)) :=
  with_util util (fun u =>
    data ← input_data tx;
    Ret (abi_Inputs_Unpack (challengeAbi u) bisectExecutionFn data)).

(** [in[i]] on a slice of ABI values. *)
Definition abi_index (vs : list abi_value) (i : nat) : go abi_value :=
  match vs !! i with
  | Some v => Ret v
  | None => Panic index_out_of_range
  end.

(** The type assertions [v.( *big.Int)] and [v.(common.Hash)], which panic. *)
Definition assert_BigInt (v : abi_value) : go Z :=
  match v with
  | abi_BigInt z => Ret z
  | _ => Panic "interface conversion"
  end.

Definition assert_Hash (v : abi_value) : go Hash :=
  match v with
  | abi_Hash h => Ret h
  | _ => Panic "interface conversion"
  end.

Definition UnpackCreateAssertionInput (util : option bridgeSerializationUtil)
    (tx : Transaction) : go (result (Hash * Z)) :=
  with_util util (fun u =>
    data ← input_data tx;
    match abi_Unpack (rollupAbi u) CreateAssertionFnName data with
    | Err e => Ret (Err e)
    | Ok vs =>
        v0 ← abi_index vs 0; vmHash ← assert_Hash v0;
        v1 ← abi_index vs 1; inboxSize ← assert_BigInt v1;
        Ret (Ok (vmHash, inboxSize))
    end).

(** [UnpackL1OracleInput]: number, timestamp, base fee, hash and state root. *)
Definition UnpackL1OracleInput (util : option bridgeSerializationUtil)
    (tx : Transaction) : go (result (Z * Z * Z * Hash * Hash)) :=
  with_util util (fun u =>
    data ← input_data tx;
    match abi_Unpack (l1OracleAbi u) SetL1OracleValues data with
    | Err e => Ret (Err e)
    | Ok vs =>
        v0 ← abi_index vs 0; number ← assert_BigInt v0;
        v1 ← abi_index vs 1; timestamp ← assert_BigInt v1;
        v2 ← abi_index vs 2; baseFee ← assert_BigInt v2;
        v3 ← abi_index vs 3; hash ← assert_Hash v3;
        v4 ← abi_index vs 4; stateRoot ← assert_Hash v4;
        Ret (Ok (big_Uint64 number, big_Uint64 timestamp, big_Uint64 baseFee, hash, stateRoot))
    end).

Definition packAppendTxBatchInput (u : bridgeSerializationUtil) (batch : bytes) : result bytes :=
  abi_Pack (inboxAbi u) AppendTxBatchFnName [abi_bytes batch].

Definition packStakeInput (u : bridgeSerializationUtil) : result bytes :=
  abi_Pack (rollupAbi u) StakeFnName [].

Definition packAdvanceStakeInput (u : bridgeSerializationUtil) (assertionID : Z) : result bytes :=
  abi_Pack (rollupAbi u) AdvanceStakeFnName [abi_BigInt assertionID].

Definition packCreateAssertionInput (u : bridgeSerializationUtil) (vmHash : Hash) (blockNum : Z)
    : result bytes :=
  abi_Pack (rollupAbi u) CreateAssertionFnName [abi_Hash vmHash; abi_BigInt blockNum].

Definition packConfirmFirstUnresolvedAssertionInput (u : bridgeSerializationUtil) : result bytes :=
  abi_Pack (rollupAbi u) ConfirmFirstUnresolvedAssertionFnName [].

Definition packRejectFirstUnresolvedAssertionInput (u : bridgeSerializationUtil) (staker : Address)
    : result bytes :=
  abi_Pack (rollupAbi u) RejectFirstUnresolvedAssertionFnName [abi_Address staker].

End Bridge.

Arguments bridgeSerializationUtil {A}.

(** ** The bridge's transaction manager

    [W] is the state of the world a [Send] acts on; [Send] is the [EthTxManager] the
    bridge wraps. *)
Class EthTxManager (W : Type) := {
  Send : TxCandidate → W → go (result Receipt * W)
}.

Section BridgeTxManager.
Context `{A : ABI} {W : Type} `{T : EthTxManager W}.

Record TxManager := mkTxManager {
  bm_SequencerInboxAddr : Address;
  bm_RollupAddr : Address;
  bm_util : option bridgeSerializationUtil  (* the package's singleton *)
}.

(** [NewTxManager]: returns the manager and [ensureUtilInit]'s error. *)
Definition NewTxManager (inbox rollup : Address) (util : option bridgeSerializationUtil)
    : result unit * TxManager :=
  let '(r, util') := ensureUtilInit util in
  (r, mkTxManager inbox rollup util').

Lemma NewTxManager_ok inbox rollup util r m :
  NewTxManager inbox rollup util = (r, m) →
  bm_SequencerInboxAddr m = inbox ∧ bm_RollupAddr m = rollup ∧ (r = Ok tt → is_Some (bm_util m)).
Proof.
  unfold NewTxManager. destruct (ensureUtilInit util) as [r' u] eqn:He. intros [= <- <-].
  split; [done|]. split; [done|]. intros ->. cbn. unfold ensureUtilInit in He.
  repeat case_match; simplify_eq; by eexists.
Qed.

(** Each method packs its input and returns the packing error without sending. *)
Definition send_packed (m : TxManager) (pack : bridgeSerializationUtil → result bytes)
    (k : bytes → W → go (result Receipt * W)) (w : W) : go (result Receipt * W) :=
  with_util (bm_util m) (fun u =>
    match pack u with
    | Err e => Ret (Err e, w)
    | Ok data => k data w
    end).

Definition sendRollupTx (m : TxManager) (data : bytes) (value : Z) (w : W)
    : go (result Receipt * W) :=
  Send (mkCandidate data (Some (bm_RollupAddr m)) 0 (Some value)) w.

Definition AppendTxBatch (m : TxManager) (batch : bytes) (w : W) : go (result Receipt * W) :=
  send_packed m (fun u => packAppendTxBatchInput u batch)
    (fun data => Send (mkCandidate data (Some (bm_SequencerInboxAddr m)) 0 None)) w.

(** The stake amount is truncated to 64 bits ([stakeAmount.Uint64()]). *)
Definition Stake (m : TxManager) (stakeAmount : Z) (w : W) : go (result Receipt * W) :=
  send_packed m packStakeInput (fun data => sendRollupTx m data (big_Uint64 stakeAmount)) w.

Definition AdvanceStake (m : TxManager) (assertionID : Z) (w : W) : go (result Receipt * W) :=
  send_packed m (fun u => packAdvanceStakeInput u assertionID)
    (fun data => sendRollupTx m data 0) w.

Definition CreateAssertion (m : TxManager) (vmHash : Hash) (blockNum : Z) (w : W)
    : go (result Receipt * W) :=
  send_packed m (fun u => packCreateAssertionInput u vmHash blockNum)
    (fun data => sendRollupTx m data 0) w.

Definition ConfirmFirstUnresolvedAssertion (m : TxManager) (w : W) : go (result Receipt * W) :=
  send_packed m packConfirmFirstUnresolvedAssertionInput
    (fun data => sendRollupTx m data 0) w.

Definition RejectFirstUnresolvedAssertion (m : TxManager) (staker : Address) (w : W)
    : go (result Receipt * W) :=
  send_packed m (fun u => packRejectFirstUnresolvedAssertionInput u staker)
    (fun data => sendRollupTx m data 0) w.

End BridgeTxManager.

Arguments TxManager {A}.

(** ** Theorems *)

(** The documented behaviour of the ABI coder: what [Pack] encodes after the four bytes of
    the selector, [Inputs.Unpack] of the same method decodes, here for a method with one
    argument of type [bytes]. *)
Class ABILaws (A : ABI) := {
  abi_Pack_bytes : ∀ a name b data, name ≠ "" → abi_Pack a name [abi_bytes b] = Ok data →
    (MethodNumBytes <= length data)%nat ∧
    abi_Inputs_Unpack a name (drop MethodNumBytes data) = Ok [abi_bytes b]
}.

(** [Unpack] decodes the {e outputs} of a method, so that it gives no value for a method
    without outputs, on any input made of 32-byte words. *)
Definition no_outputs `{A : ABI} (a : abi) (name : string) : Prop :=
  ∀ data k, length data = (32 * k)%nat → abi_Unpack a name data = Ok [].

Section BridgeTheorems.
Context `{A : ABI} {W : Type} `{T : EthTxManager W}.
Implicit Types m : TxManager.

(** What is packed for [AppendTxBatch] unpacks to the batch. *)
Lemma AppendTxBatch_decodes `{L : !ABILaws A} u batch data tx :
  packAppendTxBatchInput u batch = Ok data → tx_Data tx = data →
  UnpackAppendTxBatchInput (Some u) tx = Ret (Ok [abi_bytes batch]).
Proof.
  intros Hp Htx. unfold UnpackAppendTxBatchInput, input_data. rewrite Htx. cbn [with_util].
  apply abi_Pack_bytes in Hp as [Hlen Hun]; [|done].
  rewrite (proj2 (Nat.ltb_ge _ _) Hlen). cbn [mbind go_bind]. by rewrite Hun.
Qed.

(** The transaction of [AppendTxBatch] goes to the sequencer inbox without value, and
    its input decodes to the batch that was given: what the disseminator sends is what a
    reader of the inbox gets. *)
Theorem AppendTxBatch_roundtrip `{L : !ABILaws A} m u batch data w :
  bm_util m = Some u → packAppendTxBatchInput u batch = Ok data →
  AppendTxBatch m batch w =
    Send (mkCandidate data (Some (bm_SequencerInboxAddr m)) 0 None) w ∧
  ∀ tx, tx_Data tx = data → UnpackAppendTxBatchInput (Some u) tx = Ret (Ok [abi_bytes batch]).
Proof.
  intros Hu Hp. unfold AppendTxBatch, send_packed. rewrite Hu. cbn. rewrite Hp.
  split; [done|]. intros tx Htx. by eapply AppendTxBatch_decodes.
Qed.

(** [Stake] sends the required amount modulo 2^64 wei, so exactly the required amount
    when that is below 2^64 wei (about 18.4 ether) and less otherwise. *)
Theorem Stake_truncates m u data amount w :
  bm_util m = Some u → packStakeInput u = Ok data → 0 <= amount →
  Stake m amount w =
    Send (mkCandidate data (Some (bm_RollupAddr m)) 0 (Some (amount mod two64))) w ∧
  (amount mod two64 = amount ↔ amount < two64) ∧ (two64 <= amount → amount mod two64 < amount).
Proof.
  intros Hu Hp Ha. unfold Stake, send_packed, sendRollupTx. rewrite Hu. cbn. rewrite Hp.
  unfold big_Uint64. rewrite Z.abs_eq by done. split; [done|].
  pose proof (Z.mod_pos_bound amount two64 eq_refl). split; [split|]; intros; try lia.
  apply Z.mod_small. lia.
Qed.

(** [UnpackCreateAssertionInput] and [UnpackL1OracleInput] decode with the outputs of
    methods that have none, so they panic on every well-formed input. *)
Theorem unpack_inputs_panics u tx k :
  no_outputs (rollupAbi u) CreateAssertionFnName → no_outputs (l1OracleAbi u) SetL1OracleValues →
  length (tx_Data tx) = (4 + 32 * k)%nat →
  UnpackCreateAssertionInput (Some u) tx = Panic index_out_of_range ∧
  UnpackL1OracleInput (Some u) tx = Panic index_out_of_range.
Proof.
  intros Hr Ho Hlen.
  assert (Hd : input_data tx = Ret (drop MethodNumBytes (tx_Data tx))).
  { unfold input_data, MethodNumBytes. by rewrite (proj2 (Nat.ltb_ge _ _)) by lia. }
  assert (Hk : length (drop MethodNumBytes (tx_Data tx)) = (32 * k)%nat)
    by (rewrite length_drop; unfold MethodNumBytes; lia).
  unfold UnpackCreateAssertionInput, UnpackL1OracleInput. cbn [with_util]. rewrite Hd. cbn [mbind go_bind].
  by rewrite (Hr _ _ Hk), (Ho _ _ Hk).
Qed.

End BridgeTheorems.

(** ** A concrete ABI for the examples: an input is the concatenation of its byte
    arguments, and an oracle input is the epoch in one byte. *)
Module BridgeSample.

Definition oracle_values (b : bytes) : result (list abi_value) :=
  match b with
  | [] => Err (FmtError "abi: attempting to unmarshall an empty string")
  | x :: _ => Ok [abi_BigInt (Z.of_N (Byte.to_N x)); abi_BigInt 0; abi_BigInt 0; abi_Hash 0; abi_Hash 0]
  end.

Definition sample_abi : ABI := {|
  abi := unit;
  GetAbi _ := Ok tt;
  abi_Pack _ _ vs := Ok (concat (map (fun v => match v with abi_bytes b => b | _ => [] end) vs));
  abi_Unpack _ _ b := oracle_values b;
  abi_Inputs_Unpack _ _ b := Ok [abi_bytes b]
|}.

Definition util : option (bridgeSerializationUtil (A := sample_abi)) :=
  Some (mkUtil (A := sample_abi) tt tt tt tt).

(** An ABI with selectors, for one-argument methods, whose [Unpack] gives no output. *)
Definition selector_abi : ABI := {|
  abi := unit;
  GetAbi _ := Ok tt;
  abi_Pack _ _ vs :=
    match vs with
    | [abi_bytes b] => Ok ([Byte.xde; Byte.xad; Byte.xbe; Byte.xef; Byte.x01] ++ b)
    | [] => Ok [Byte.xde; Byte.xad; Byte.xbe; Byte.xef]
    | _ => Err (FmtError "unsupported")
    end;
  abi_Unpack _ _ _ := Ok [];
  abi_Inputs_Unpack _ _ b := Ok match b with [] => [] | _ :: b => [abi_bytes b] end
|}.

Lemma selector_laws : ABILaws selector_abi.
Proof. split. intros a name b data _ [= <-]. split; [unfold MethodNumBytes; cbn; lia|done]. Qed.

Definition selector_util : bridgeSerializationUtil (A := selector_abi) :=
  mkUtil (A := selector_abi) tt tt tt tt.

(** A manager whose world records the last candidate's value. *)
Definition recorder : EthTxManager Z := {|
  Send c _ := Ret (Ok (mkReceipt 1 0 0), default 0 (c_Value c))
|}.

Definition manager : TxManager (A := selector_abi) := mkTxManager 11 22 (Some selector_util).

Lemma AppendTxBatch_roundtrip_witness :
  UnpackAppendTxBatchInput (A := selector_abi) (Some selector_util)
    (mkTx 1 0 0 0 0 (Some 11) None
       [Byte.xde; Byte.xad; Byte.xbe; Byte.xef; Byte.x01; Byte.x0a; Byte.x0b]) =
    Ret (Ok [abi_bytes [Byte.x0a; Byte.x0b]]).
Proof.
  apply (AppendTxBatch_roundtrip (A := selector_abi) (T := recorder) (L := selector_laws)
    manager selector_util [Byte.x0a; Byte.x0b]
    [Byte.xde; Byte.xad; Byte.xbe; Byte.xef; Byte.x01; Byte.x0a; Byte.x0b] 0 eq_refl eq_refl).
  reflexivity.
Defined.

(** 32 ether are required, 13.55 are sent. *)
Lemma Stake_truncates_witness :
  Stake (A := selector_abi) (T := recorder) manager 32000000000000000000 0 =
    Ret (Ok (mkReceipt 1 0 0), 13553255926290448384).
Proof.
  destruct (Stake_truncates (A := selector_abi) (T := recorder) manager selector_util
    [Byte.xde; Byte.xad; Byte.xbe; Byte.xef] 32000000000000000000 0 eq_refl eq_refl ltac:(lia))
    as [H _].
  rewrite H. reflexivity.
Defined.

Definition oracle_tx : Transaction := mkTx 1 0 0 0 0 (Some 77) None (repeat Byte.x00 164).

Lemma unpack_inputs_panics_witness :
  UnpackL1OracleInput (A := selector_abi) (Some selector_util) oracle_tx = Panic index_out_of_range.
Proof.
  refine (proj2 (unpack_inputs_panics (A := selector_abi) selector_util oracle_tx 5 _ _ eq_refl));
    intros data k _; reflexivity.
Defined.

End BridgeSample.
