(* ===== verification/Builder.v ===== *)
(** * The batch builder

    Models services/sidecar/rollup/derivation/batch_builder.go: the queue of L2 blocks to
    batch, the incremental encoding of the queue, the batch cache and the timeout.

    The builder talks to its encoder through the interface [VersionedDataEncoder] (a class
    here); [EncoderContract] states what the interface's comments promise, and the
    builder's theorems are proved against it.  The V0 encoder's instances are at the end of
    the definitions and of the proofs. *)

From S2P Require Import Prelude Errors Types Encoder Bridge.

(** [VersionedDataEncoder]. *)
Class VersionedDataEncoder (E : Type) := {
  enc_GetBatch : bool → E → go (result bytes * E);
  enc_ProcessBlock : Block → bool → E → go (result unit * E);
  enc_Reset : E → E
}.

(** [derivation.Config], by the values of its getters. *)
Record Config := mkConfig {
  GetL1OracleAddr : Address;
  GetSeqWindowSize : Z;
  GetSubSafetyMargin : Z
}.

(** [batchBuilder].  [lastBuilt] is the cached slice, [None] when nil. *)
Record batchBuilder (E : Type) := mkBuilder {
  cfg : Config;
  encoder : E;
  pendingBlocks : list Block;
  lastEnqueued : BlockID;
  lastBuilt : option bytes;
  timeout : Z
}.
Arguments mkBuilder {E}.
Arguments cfg {E}.
Arguments encoder {E}.
Arguments pendingBlocks {E}.
Arguments lastEnqueued {E}.
Arguments lastBuilt {E}.
Arguments timeout {E}.

Section Builder.
Context `{A : ABI} {E : Type} `{V : VersionedDataEncoder E}.
(** The ABI singleton of package bridge. *)
Context (util : option bridgeSerializationUtil).
Implicit Types b : batchBuilder E.

Definition set_encoder (e : E) b : batchBuilder E :=
  mkBuilder (cfg b) e (pendingBlocks b) (lastEnqueued b) (lastBuilt b) (timeout b).
Definition set_pendingBlocks (l : list Block) b : batchBuilder E :=
  mkBuilder (cfg b) (encoder b) l (lastEnqueued b) (lastBuilt b) (timeout b).
Definition set_lastEnqueued (id : BlockID) b : batchBuilder E :=
  mkBuilder (cfg b) (encoder b) (pendingBlocks b) id (lastBuilt b) (timeout b).
Definition set_lastBuilt (o : option bytes) b : batchBuilder E :=
  mkBuilder (cfg b) (encoder b) (pendingBlocks b) (lastEnqueued b) o (timeout b).
Definition set_timeout (t : Z) b : batchBuilder E :=
  mkBuilder (cfg b) (encoder b) (pendingBlocks b) (lastEnqueued b) (lastBuilt b) t.

Definition NewBatchBuilder (c : Config) (e : E) : batchBuilder E :=
  mkBuilder c e [] EmptyBlockID None 0.

Definition LastEnqueued b : BlockID := lastEnqueued b.

(** Enqueues a block; the parent check is skipped while the last enqueued hash is zero. *)
Definition Enqueue (block : Block) b : result unit * batchBuilder E :=
  if negb (GetHash (lastEnqueued b) =? zero_hash)
     && negb (block_ParentHash block =? GetHash (lastEnqueued b))
  then (Err (InvalidBlockError "Appended block is not a child of the last appended block"), b)
  else (Ok tt,
        set_lastEnqueued (NewBlockID (NumberU64 block) (block_Hash block))
          (set_pendingBlocks (pendingBlocks b ++ [block]) b)).

(** Resets the builder, discarding all pending blocks. *)
Definition Reset (last : BlockID) b : batchBuilder E :=
  set_lastBuilt None
    (set_lastEnqueued last
      (set_pendingBlocks []
        (set_encoder (enc_Reset (encoder b)) b))).

(** Advances the builder, clearing the last built batch. *)
Definition Advance b : batchBuilder E := set_lastBuilt None b.

(** Updates the batch timeout if the given epoch's is earlier, in 64-bit arithmetic. *)
Definition updateTimeout (epoch : Z) b : batchBuilder E :=
  let timeout' := u64 (u64 (epoch + GetSeqWindowSize (cfg b)) - GetSubSafetyMargin (cfg b)) in
  if (timeout b =? 0) || (timeout b >? timeout') then set_timeout timeout' b else b.

(** The oracle transaction of a block, if its first transaction is one: its epoch. *)
Definition block_epoch (c : Config) (block : Block) : go (result (option Z)) :=
  match blk_Transactions block with
  | [] => Ret (Ok None)
  | firstTx :: _ =>
      match tx_To firstTx with
      | None => Panic nil_deref
      | Some to =>
          if to =? GetL1OracleAddr c then
            r ← UnpackL1OracleInput util firstTx;
            match r with
            | Err e => Ret (Err (Errorf_w "could not unpack oracle tx" e))
            | Ok (epoch, _, _, _, _) => Ret (Ok (Some epoch))
            end
          else Ret (Ok None)
      end
  end.

(** Processes a block, adding its data to the current batch. *)
Definition processBlock (block : Block) b : go (result unit * batchBuilder E) :=
  r ← block_epoch (cfg b) block;
  match r with
  | Err e => Ret (Err e, b)
  | Ok oracle =>
      let epoch := default 0 oracle in
      let b1 := match oracle with Some ep => updateTimeout ep b | None => b end in
      '(r, e') ← enc_ProcessBlock block (negb (epoch =? 0)) (encoder b1);
      Ret (r, set_encoder e' b1)
  end.

(** The loop of [encodePending] over the pending blocks; [n] is [numProcessed]. *)
Fixpoint encode_loop (blocks : list Block) (n : nat) b : go (result nat * batchBuilder E) :=
  match blocks with
  | [] => Ret (Ok n, b)
  | block :: rest =>
      '(r, b') ← processBlock block b;
      match r with
      | Err e =>
          if errors_Is e errBatchFull then Ret (Ok n, b')
          else Ret (Err (Errorf_w "failed to process block" e), b')
      | Ok _ => encode_loop rest (S n) b'
      end
  end.

(** Encodes pending blocks into a new batch; [io.EOF] when there is none. *)
Definition encodePending b : go (result unit * batchBuilder E) :=
  if (length (pendingBlocks b) =? 0)%nat then Ret (Err io_EOF, b)
  else
    '(r, b') ← encode_loop (pendingBlocks b) 0 b;
    match r with
    | Err e => Ret (Err e, b')
    | Ok numProcessed => Ret (Ok tt, set_pendingBlocks (drop numProcessed (pendingBlocks b')) b')
    end.

(** Whether the timeout forces the batch out. *)
Definition force_batch (l1Head : BlockID) b : bool :=
  negb (timeout b =? 0) && (GetNumber l1Head >=? timeout b).

(** Tries to get the current batch, and caches it. *)
Definition getBatch (l1Head : BlockID) b : go (result bytes * batchBuilder E) :=
  '(r, e') ← enc_GetBatch (force_batch l1Head b) (encoder b);
  let b' := set_encoder e' b in
  match r with
  | Err e =>
      if errors_Is e errBatchTooSmall then Ret (Err io_EOF, b')
      else Ret (Err (Errorf_w "failed to get batch" e), b')
  | Ok batch => Ret (Ok batch, set_lastBuilt (Some batch) b')
  end.

(** [Build]: the cached batch, or a new one. *)
Definition Build (l1Head : BlockID) b : go (result bytes * batchBuilder E) :=
  match lastBuilt b with
  | Some batch => Ret (Ok batch, b)
  | None =>
      '(r, b') ← encodePending b;
      match r with
      | Err e =>
          Ret (Err (Errorf_w "failed to encode pending blocks into a new batch" e), b')
      | Ok _ => getBatch l1Head b'
      end
  end.

End Builder.

(** ** The V0 encoder behind the interface *)

#[export] Instance V0_VersionedDataEncoder `{R : RLP} : VersionedDataEncoder BatchV0Encoder := {
  enc_GetBatch := Encoder.GetBatch;
  enc_ProcessBlock := Encoder.ProcessBlock;
  enc_Reset := Encoder.Reset
}.

(** ** What the builder needs of its encoder

    The encoder keeps a sequence of raw transaction blocks.  A processed block is added
    at the end, a refused one is not; a block whose transactions marshal is refused only
    because the batch is full; reading a batch does not lose what is buffered; a reset
    encoder is empty. *)
Class EncoderContract `{R : RLP} (E : Type) `{V : VersionedDataEncoder E} := {
  enc_wf : E → Prop;
  enc_buffered : E → list rawTxBlock;
  enc_ProcessBlock_ok : ∀ e b ne, enc_wf e →
    ∃ r e', enc_ProcessBlock b ne e = Ret (r, e') ∧ enc_wf e' ∧
      enc_buffered e' = enc_buffered e ++ match r with Ok _ => block_payload b | Err _ => [] end ∧
      ((∃ raw, marshal_block b = Ok raw) → r = Ok tt ∨ r = Err errBatchFull);
  enc_GetBatch_ok : ∀ e force, enc_wf e →
    ∃ r e', enc_GetBatch force e = Ret (r, e') ∧ enc_wf e' ∧ enc_buffered e' = enc_buffered e;
  enc_Reset_ok : ∀ e, enc_wf (enc_Reset e) ∧ enc_buffered (enc_Reset e) = []
}.

(** ** The V0 encoder keeps the contract *)

Lemma V0_ProcessBlock_contract `{R : RLP} (e : BatchV0Encoder) b ne :
  wf e →
  ∃ r e', Encoder.ProcessBlock b ne e = Ret (r, e') ∧ wf e' ∧
    buffered e' = buffered e ++ match r with Ok _ => block_payload b | Err _ => [] end ∧
    ((∃ raw, marshal_block b = Ok raw) → r = Ok tt ∨ r = Err errBatchFull).
Proof.
  intros (l & s & Hl)%wf_shape.
  destruct (ProcessBlock_spec e l s b ne Hl) as (r & e' & Hp & Hwf & _ & Hb & Hfull).
  exists r, e'. repeat (split; [done|]). intros (raw & Hraw).
  destruct r as [[]|err]; [by left|right].
  apply Hfull. destruct (decide (targetBatchSize e < u64 (runningLen e + size s))) as [?|Hno];
    [done|exfalso].
  unfold ProcessBlock in Hp. rewrite (shouldCloseBatch_snoc _ _ _ Hl) in Hp. cbn in Hp.
  assert ((targetBatchSize e <? u64 (runningLen e + size s)) = false) as Hlt
    by (apply Z.ltb_ge; lia).
  rewrite Z.gtb_ltb, Hlt in Hp. cbn in Hp.
  destruct (marshallTxs_complete _ _ Hraw) as (n & Hm).
  assert (Hwfe : wf e) by (unfold wf; rewrite Hl; by destruct l).
  destruct (closeSubBatch_spec e Hwfe) as (ec & Hc & Hwfc & _).
  destruct (length (blk_Transactions b) =? 0)%nat eqn:Hlen; cbn in Hp.
  { rewrite Hc in Hp. cbn in Hp. by injection Hp. }
  set (e1 := if ne then ec else e) in *.
  assert ((if ne then closeSubBatch e else Ret e) = Ret e1) as He1
    by (unfold e1; destruct ne; done).
  rewrite He1 in Hp. cbn in Hp.
  assert (wf e1) as (l1 & s1 & Hl1)%wf_shape by (unfold e1; by destruct ne).
  rewrite (currSubBatch_snoc _ _ _ Hl1) in Hp. cbn in Hp. unfold appendTxBlock in Hp.
  rewrite Hm in Hp. by injection Hp.
Qed.

Lemma NewBatchV0Encoder_wf target : wf (NewBatchV0Encoder target).
Proof. discriminate. Qed.

Lemma V0_GetBatch_contract `{R : RLP} (e : BatchV0Encoder) force :
  wf e → ∃ r e', Encoder.GetBatch force e = Ret (r, e') ∧ wf e' ∧ buffered e' = buffered e.
Proof.
  intros Hwf. destruct (wf_shape e Hwf) as (l & s & Hl).
  rewrite (GetBatch_unfold _ _ _ _ Hl).
  destruct (negb force && _); [by eauto 10|].
  destruct (closeSubBatch_spec e Hwf) as (ec & Hc & Hwfc & Hbc & _).
  destruct (_ >? _); [rewrite Hc|]; cbn; destruct (rlp_Encode _); eauto 10.
Qed.

#[export] Instance V0_EncoderContract `{R : RLP} : EncoderContract BatchV0Encoder := {
  enc_wf := wf;
  enc_buffered := buffered;
  enc_ProcessBlock_ok := V0_ProcessBlock_contract;
  enc_GetBatch_ok := V0_GetBatch_contract;
  enc_Reset_ok e := conj (NewBatchV0Encoder_wf (targetBatchSize e)) eq_refl
}.

(** ** The builder as a transition system

    The abstract state is the log of the blocks accepted since the last reset and the
    block the log starts after; the concrete state is the builder.  A step is one call of
    the builder's interface.  Blocks are [processable]: their transactions marshal and, if
    the first one is the oracle's, it unpacks. *)

Record log := mkLog {
  log_start : BlockID;
  log_blocks : list Block
}.

(** The block ids of a log follow one another; the check is not made after a zero hash. *)
Fixpoint chain (prev : BlockID) (l : list Block) : Prop :=
  match l with
  | [] => True
  | b :: l =>
      (GetHash prev = zero_hash ∨ block_ParentHash b = GetHash prev) ∧
      chain (NewBlockID (NumberU64 b) (block_Hash b)) l
  end.

Fixpoint tip (prev : BlockID) (l : list Block) : BlockID :=
  match l with
  | [] => prev
  | b :: l => tip (NewBlockID (NumberU64 b) (block_Hash b)) l
  end.

Definition payloads `{R : RLP} (l : list Block) : list rawTxBlock := concat (map block_payload l).

#[global] Arguments payloads : simpl never.

Section BuilderSystem.
Context `{A : ABI} `{R : RLP} {E : Type} `{V : VersionedDataEncoder E}.
Context (util : option bridgeSerializationUtil).
Implicit Types b : batchBuilder E.

Definition processable (c : Config) (block : Block) : Prop :=
  (∃ raw, marshal_block block = Ok raw) ∧ (∃ o, block_epoch util c block = Ret (Ok o)).

Inductive builder_step : batchBuilder E * log → batchBuilder E * log → Prop :=
| step_enqueue block b b' g :
    processable (cfg b) block →
    Enqueue block b = (Ok tt, b') →
    builder_step (b, g) (b', mkLog (log_start g) (log_blocks g ++ [block]))
| step_enqueue_refused block b b' g err :
    Enqueue block b = (Err err, b') →
    builder_step (b, g) (b', g)
| step_reset last b g :
    builder_step (b, g) (Reset last b, mkLog last [])
| step_build l1Head b b' r g :
    Build util l1Head b = Ret (r, b') →
    builder_step (b, g) (b', g)
| step_advance b g :
    builder_step (b, g) (Advance b, g).

Definition builder_reachable (c : Config) (e : E) (st : batchBuilder E * log) : Prop :=
  rtc builder_step (NewBatchBuilder c e, mkLog EmptyBlockID []) st.

End BuilderSystem.

Section BuilderFacts.
Context `{A : ABI} `{R : RLP} {E : Type} `{V : VersionedDataEncoder E} `{C : !EncoderContract E}.
Context (util : option bridgeSerializationUtil).
Implicit Types b : batchBuilder E.

Lemma payloads_app l1 l2 : payloads (l1 ++ l2) = payloads l1 ++ payloads l2.
Proof. unfold payloads. by rewrite map_app, concat_app. Qed.

Lemma payloads_cons x l : payloads (x :: l) = block_payload x ++ payloads l.
Proof. reflexivity. Qed.

Lemma chain_app prev l1 l2 : chain prev (l1 ++ l2) ↔ chain prev l1 ∧ chain (tip prev l1) l2.
Proof. revert prev. induction l1 as [|x l1 IH]; intros prev; cbn; [tauto|]. rewrite IH. tauto. Qed.

Lemma tip_app prev l1 l2 : tip prev (l1 ++ l2) = tip (tip prev l1) l2.
Proof. revert prev. induction l1 as [|x l1 IH]; intros prev; cbn; [done|]. apply IH. Qed.

(** [updateTimeout] changes nothing but the timeout. *)
Lemma updateTimeout_frame ep b : updateTimeout ep b = set_timeout (timeout (updateTimeout ep b)) b.
Proof. unfold updateTimeout. destruct b. cbn. by destruct (_ || _). Qed.

(** [processBlock] on a block whose epoch can be read. *)
Lemma processBlock_spec block b o :
  enc_wf (encoder b) → block_epoch util (cfg b) block = Ret (Ok o) →
  ∃ r b', processBlock util block b = Ret (r, b') ∧
    enc_wf (encoder b') ∧ cfg b' = cfg b ∧ pendingBlocks b' = pendingBlocks b ∧
    lastEnqueued b' = lastEnqueued b ∧ lastBuilt b' = lastBuilt b ∧
    enc_buffered (encoder b') =
      enc_buffered (encoder b) ++ match r with Ok _ => block_payload block | Err _ => [] end ∧
    ((∃ raw, marshal_block block = Ok raw) → r = Ok tt ∨ r = Err errBatchFull).
Proof.
  intros Hwf Hep. unfold processBlock. rewrite Hep. cbn.
  set (b1 := match o with Some ep => _ | None => b end).
  assert (b1 = set_timeout (timeout b1) b) as Hb1.
  { unfold b1. destruct o; [apply updateTimeout_frame|by destruct b]. }
  assert (encoder b1 = encoder b) as -> by (by rewrite Hb1).
  destruct (enc_ProcessBlock_ok (encoder b) block (negb (default 0 o =? 0)) Hwf)
    as (r & e' & Hp & Hwf' & Hbuf & Hok).
  rewrite Hp. cbn. exists r, (set_encoder e' b1). rewrite Hb1. by repeat split.
Qed.

(** The loop of [encodePending] on processable blocks: it takes a prefix of the queue, adds
    its payloads in order, and stops only at the end or on a full batch. *)
Lemma encode_loop_spec blocks : ∀ n b,
  enc_wf (encoder b) → Forall (processable util (cfg b)) blocks →
  ∃ k b', encode_loop util blocks n b = Ret (Ok (n + k)%nat, b') ∧ (k <= length blocks)%nat ∧
    enc_wf (encoder b') ∧ cfg b' = cfg b ∧ pendingBlocks b' = pendingBlocks b ∧
    lastEnqueued b' = lastEnqueued b ∧ lastBuilt b' = lastBuilt b ∧
    enc_buffered (encoder b') = enc_buffered (encoder b) ++ payloads (take k blocks).
Proof.
  induction blocks as [|x rest IH]; intros n b Hwf Hall; cbn [encode_loop].
  { exists 0%nat, b. rewrite Nat.add_0_r, app_nil_r. by repeat split. }
  apply Forall_cons in Hall as ((Hm & o & Ho) & Hrest).
  destruct (processBlock_spec x b o Hwf Ho)
    as (r & b1 & -> & Hwf1 & Hc1 & Hp1 & Hl1 & Hlb1 & Hb1 & Hr). cbn.
  destruct (Hr Hm) as [-> | ->].
  - destruct (IH (S n) b1 Hwf1) as (k & b2 & -> & Hk & Hwf2 & Hc2 & Hp2 & Hl2 & Hlb2 & Hb2);
      [by rewrite Hc1|].
    exists (S k), b2. rewrite Hb2, Hb1, <- app_assoc. cbn [take]. rewrite payloads_cons.
    split; [f_equal; f_equal; f_equal; lia|]. cbn [length].
    repeat split; try congruence. lia.
  - cbn. exists 0%nat, b1. rewrite Nat.add_0_r, Hb1. cbn. repeat split; try done. lia.
Qed.

(** [encodePending] moves a prefix of the queue into the encoder. *)
Lemma encodePending_spec b :
  enc_wf (encoder b) → Forall (processable util (cfg b)) (pendingBlocks b) →
  pendingBlocks b ≠ [] →
  ∃ taken rest b', encodePending util b = Ret (Ok tt, b') ∧
    pendingBlocks b = taken ++ rest ∧ pendingBlocks b' = rest ∧
    enc_wf (encoder b') ∧ cfg b' = cfg b ∧ lastEnqueued b' = lastEnqueued b ∧
    lastBuilt b' = lastBuilt b ∧
    enc_buffered (encoder b') = enc_buffered (encoder b) ++ payloads taken.
Proof.
  intros Hwf Hall Hne. unfold encodePending.
  destruct (pendingBlocks b) as [|x l] eqn:Hp; [done|]. cbn [length Nat.eqb].
  destruct (encode_loop_spec (x :: l) 0 b Hwf Hall)
    as (k & b' & -> & Hk & Hwf' & Hc & Hpend & Hl & Hlb & Hbuf). cbn.
  exists (take k (x :: l)), (drop k (x :: l)),
    (set_pendingBlocks (drop k (pendingBlocks b')) b').
  rewrite take_drop. cbn. rewrite Hpend, Hp. by repeat split.
Qed.

End BuilderFacts.

(** ** The invariant of the transition system *)

Section BuilderInvariant.
Context `{A : ABI} `{R : RLP} {E : Type} `{V : VersionedDataEncoder E} `{C : !EncoderContract E}.
Context (util : option bridgeSerializationUtil).
Implicit Types b : batchBuilder E.

Record builder_inv (c : Config) (st : batchBuilder E * log) : Prop := {
  inv_cfg : cfg st.1 = c;
  inv_wf : enc_wf (encoder st.1);
  inv_processable : Forall (processable util c) (pendingBlocks st.1);
  (* nothing is lost, duplicated or reordered *)
  inv_data : enc_buffered (encoder st.1) ++ payloads (pendingBlocks st.1)
             = payloads (log_blocks st.2);
  (* the queue is a suffix of the log *)
  inv_queue : ∃ done, log_blocks st.2 = done ++ pendingBlocks st.1;
  (* the log is a chain that ends at the last enqueued block *)
  inv_chain : chain (log_start st.2) (log_blocks st.2);
  inv_tip : lastEnqueued st.1 = tip (log_start st.2) (log_blocks st.2)
}.

Lemma builder_inv_init c e :
  enc_wf e → enc_buffered e = [] → builder_inv c (NewBatchBuilder c e, mkLog EmptyBlockID []).
Proof. intros Hwf Hb. split; cbn; rewrite ?Hb; auto. by exists []. Qed.

Lemma Enqueue_ok block b b' :
  Enqueue block b = (Ok tt, b') →
  b' = mkBuilder (cfg b) (encoder b) (pendingBlocks b ++ [block])
         (NewBlockID (NumberU64 block) (block_Hash block)) (lastBuilt b) (timeout b) ∧
  (GetHash (lastEnqueued b) = zero_hash ∨ block_ParentHash block = GetHash (lastEnqueued b)).
Proof.
  unfold Enqueue.
  destruct (GetHash (lastEnqueued b) =? zero_hash) eqn:H1,
    (block_ParentHash block =? GetHash (lastEnqueued b)) eqn:H2;
    cbn; intros H; try discriminate; injection H as <-; zbool; auto.
Qed.

Lemma builder_inv_enqueue c block b b' g :
  builder_inv c (b, g) → processable util (cfg b) block → Enqueue block b = (Ok tt, b') →
  builder_inv c (b', mkLog (log_start g) (log_blocks g ++ [block])).
Proof.
  intros [Hc Hw Hp Hd (done & Hq) Hch Ht] Hpr (-> & Hlink)%Enqueue_ok. cbn in *.
  split; cbn; [done|done| | | | |].
  - apply Forall_snoc. split; [done|by rewrite <- Hc].
  - by rewrite !payloads_app, <- Hd, app_assoc.
  - exists done. by rewrite Hq, app_assoc.
  - apply chain_app. cbn. rewrite <- Ht. auto.
  - by rewrite tip_app.
Qed.

Lemma builder_inv_reset c last b g : builder_inv c (b, g) → builder_inv c (Reset last b, mkLog last []).
Proof.
  intros [Hc Hw Hp Hd Hq Hch Ht]. destruct (enc_Reset_ok (encoder b)) as [Hwf Hb].
  split; cbn; rewrite ?Hb; auto. by exists [].
Qed.

(** What [Build] returns from a state that satisfies the invariant, and the state after. *)
Lemma Build_inv c l1Head b g :
  builder_inv c (b, g) →
  ∃ r b', Build util l1Head b = Ret (r, b') ∧ builder_inv c (b', g).
Proof.
  intros Hinv. pose proof Hinv as [Hc Hw Hp Hd (done & Hq) Hch Ht]. cbn in *.
  unfold Build. destruct (lastBuilt b) as [batch|] eqn:Hlb; [by eauto|].
  assert (pendingBlocks b = [] ∨ pendingBlocks b ≠ []) as [Hpend|Hne]
    by (destruct (pendingBlocks b); auto).
  { unfold encodePending. rewrite Hpend. cbn. eauto. }
  rewrite <- Hc in Hp.
  destruct (encodePending_spec util b Hw Hp) as
    (taken & rest & b1 & -> & Hsplit & Hrest & Hw1 & Hc1 & Hl1 & Hlb1 & Hb1); [done|].
  cbn. unfold getBatch.
  destruct (enc_GetBatch_ok (encoder b1) (force_batch l1Head b1) Hw1)
    as (r & e2 & -> & Hw2 & Hb2). cbn.
  assert (Hcommon : ∀ o, builder_inv c (set_lastBuilt o (set_encoder e2 b1), g)).
  { intros o. split; cbn; try congruence.
    - rewrite Hrest. rewrite Hsplit, Hc in Hp. by apply Forall_app in Hp as [_ Hp].
    - rewrite Hb2, Hb1, Hrest, <- app_assoc, <- payloads_app, <- Hsplit. done.
    - exists (done ++ taken). rewrite Hq, Hsplit, Hrest. by rewrite app_assoc. }
  destruct r as [batch|err]; [by eauto|].
  specialize (Hcommon (lastBuilt b1)).
  assert (set_lastBuilt (lastBuilt b1) (set_encoder e2 b1) = set_encoder e2 b1) as Hid
    by (by destruct b1).
  rewrite Hid in Hcommon. destruct (errors_Is err errBatchTooSmall); eauto.
Qed.

Lemma builder_inv_step c st st' :
  builder_inv c st → builder_step util st st' → builder_inv c st'.
Proof.
  intros Hinv Hstep. destruct Hstep.
  - eapply builder_inv_enqueue; eauto.
  - unfold Enqueue in *. destruct (_ && _); [|done]. by simplify_eq.
  - by eapply builder_inv_reset.
  - destruct (Build_inv c l1Head b g Hinv) as (r' & b2 & HB & Hinv').
    by assert (b' = b2) as -> by congruence.
  - by destruct Hinv as [Hc Hw Hp Hd Hq Hch Ht]; split.
Qed.

Lemma builder_inv_reachable c e st :
  enc_wf e → enc_buffered e = [] → builder_reachable util c e st → builder_inv c st.
Proof.
  intros Hwf Hb Hreach. unfold builder_reachable in Hreach.
  remember (NewBatchBuilder c e, mkLog EmptyBlockID []) as st0 eqn:H0.
  assert (builder_inv c st0) as Hinit by (subst; by apply builder_inv_init).
  clear H0. induction Hreach; [done|]. eauto using builder_inv_step.
Qed.

End BuilderInvariant.

(** ** Failures while the queue is encoded *)

Section BuilderFailure.
Context `{A : ABI} `{R : RLP} {E : Type} `{V : VersionedDataEncoder E} `{C : !EncoderContract E}.
Context (util : option bridgeSerializationUtil).
Implicit Types b : batchBuilder E.

Lemma processBlock_any block b r b' :
  enc_wf (encoder b) → processBlock util block b = Ret (r, b') →
  enc_wf (encoder b') ∧ pendingBlocks b' = pendingBlocks b ∧
  enc_buffered (encoder b') =
    enc_buffered (encoder b) ++ match r with Ok _ => block_payload block | Err _ => [] end.
Proof.
  intros Hwf Hp. destruct (block_epoch util (cfg b) block) as [[o|e]|w] eqn:Hep.
  - destruct (processBlock_spec util block b o Hwf Hep)
      as (r' & b1 & Hp' & Hwf1 & _ & Hpend & _ & _ & Hbuf & _).
    rewrite Hp in Hp'. injection Hp' as <- <-. done.
  - unfold processBlock in Hp. rewrite Hep in Hp. cbn in Hp. injection Hp as <- <-.
    by rewrite app_nil_r.
  - unfold processBlock in Hp. by rewrite Hep in Hp.
Qed.

Lemma encode_loop_failure blocks : ∀ n b e b',
  enc_wf (encoder b) → encode_loop util blocks n b = Ret (Err e, b') →
  ∃ k, (k < length blocks)%nat ∧ pendingBlocks b' = pendingBlocks b ∧
    enc_buffered (encoder b') = enc_buffered (encoder b) ++ payloads (take k blocks).
Proof.
  induction blocks as [|x rest IH]; intros n b e b' Hwf Hl; cbn [encode_loop] in Hl; [done|].
  destruct (processBlock util x b) as [[r b1]|w] eqn:Hp; [|done]. cbn in Hl.
  destruct (processBlock_any x b r b1 Hwf Hp) as (Hwf1 & Hp1 & Hb1).
  destruct r as [[]|err].
  - destruct (IH _ _ _ _ Hwf1 Hl) as (k & Hk & Hpend & Hbuf).
    exists (S k). cbn [length take]. rewrite payloads_cons, Hbuf, Hb1, Hpend, Hp1, <- app_assoc.
    repeat split. lia.
  - destruct (errors_Is err errBatchFull); [done|]. injection Hl as _ <-.
    exists 0%nat. cbn. rewrite Hb1. repeat split; [lia|done].
Qed.

End BuilderFailure.

(** ** The timeout is never cleared *)

Section BuilderTimeout.
Context `{A : ABI} `{R : RLP} {E : Type} `{V : VersionedDataEncoder E}.
Context (util : option bridgeSerializationUtil).
Implicit Types b : batchBuilder E.

(** The epochs announced by the pending blocks do not overflow the window arithmetic. *)
Definition sane_epoch (c : Config) (block : Block) : Prop :=
  ∀ ep, block_epoch util c block = Ret (Ok (Some ep)) →
        0 <= ep ∧ ep + GetSeqWindowSize c < two64.

Definition sane_config (c : Config) : Prop :=
  0 <= GetSubSafetyMargin c < GetSeqWindowSize c.

(** The timeout is set and not after L1 block [h]. *)
Definition expired (h : Z) b : Prop := 0 < timeout b <= h.

Lemma updateTimeout_value ep b :
  sane_config (cfg b) → 0 <= ep → ep + GetSeqWindowSize (cfg b) < two64 →
  timeout (updateTimeout ep b) =
  let t := ep + GetSeqWindowSize (cfg b) - GetSubSafetyMargin (cfg b) in
  if timeout b =? 0 then t else Z.min (timeout b) t.
Proof.
  intros [H1 H2] H3 H4. unfold updateTimeout.
  rewrite (u64_small (ep + _)) by (unfold is_u64; lia).
  rewrite u64_small by (unfold is_u64; lia). cbn.
  destruct (timeout b =? 0) eqn:Ht; [done|]. cbn [orb].
  destruct (_ >? _) eqn:Hg; zbool; cbn; lia.
Qed.

Lemma updateTimeout_expired h ep b :
  sane_config (cfg b) → 0 <= ep → ep + GetSeqWindowSize (cfg b) < two64 →
  expired h b → expired h (updateTimeout ep b).
Proof.
  intros Hc H1 H2 [H3 H4]. unfold expired. rewrite updateTimeout_value by done. cbn.
  destruct Hc. destruct (timeout b =? 0) eqn:Ht; zbool; lia.
Qed.

Lemma processBlock_expired h block b r b' :
  sane_config (cfg b) → sane_epoch (cfg b) block → expired h b →
  processBlock util block b = Ret (r, b') → expired h b' ∧ cfg b' = cfg b ∧
  pendingBlocks b' = pendingBlocks b.
Proof.
  intros Hc Hs Hx. unfold processBlock.
  destruct (block_epoch util (cfg b) block) as [[o|e]|w] eqn:Hep; cbn; [| |done].
  - set (b1 := match o with Some ep => _ | None => b end).
    assert (expired h b1 ∧ cfg b1 = cfg b ∧ pendingBlocks b1 = pendingBlocks b) as (H1 & H2 & H3).
    { unfold b1. destruct o as [ep|]; [|done]. destruct (Hs ep Hep).
      split; [by apply updateTimeout_expired|]. by rewrite updateTimeout_frame. }
    destruct (enc_ProcessBlock _ _ _) as [[r' e']|]; [|done].
    intros H. injection H as <- <-. done.
  - intros H. injection H as <- <-. done.
Qed.

Lemma encode_loop_expired h blocks : ∀ n b r b',
  sane_config (cfg b) → Forall (sane_epoch (cfg b)) blocks → expired h b →
  encode_loop util blocks n b = Ret (r, b') → expired h b' ∧ cfg b' = cfg b.
Proof.
  induction blocks as [|x rest IH]; intros n b r b' Hc Hs Hx Hl; cbn [encode_loop] in Hl.
  { by injection Hl as _ <-. }
  apply Forall_cons in Hs as [Hx1 Hs].
  destruct (processBlock util x b) as [[r1 b1]|] eqn:Hp; [|done]. cbn in Hl.
  destruct (processBlock_expired h x b r1 b1 Hc Hx1 Hx Hp) as (H1 & H2 & _).
  destruct r1 as [[]|err].
  - rewrite <- H2 in Hc, Hs. destruct (IH _ _ _ _ Hc Hs H1 Hl). by rewrite H2 in *.
  - destruct (errors_Is err errBatchFull); by injection Hl as _ <-.
Qed.

Lemma Build_expired h l1Head b r b' :
  sane_config (cfg b) → Forall (sane_epoch (cfg b)) (pendingBlocks b) → expired h b →
  Build util l1Head b = Ret (r, b') → expired h b' ∧ cfg b' = cfg b.
Proof.
  intros Hc Hs Hx. unfold Build. destruct (lastBuilt b); [by intros H; simplify_eq|].
  unfold encodePending. destruct (length _ =? 0)%nat; cbn; [by intros H; simplify_eq|].
  destruct (encode_loop util _ _ b) as [[r1 b1]|] eqn:Hl; [|done].
  destruct (encode_loop_expired h _ _ _ _ _ Hc Hs Hx Hl) as [H1 H2].
  cbn. destruct r1; cbn; [|intros H; by simplify_eq].
  unfold getBatch. destruct (enc_GetBatch _ _) as [[r2 e2]|]; [|done]. cbn.
  destruct r2 as [|err]; [by intros H; simplify_eq|].
  destruct (errors_Is err errBatchTooSmall); intros H; by simplify_eq.
Qed.

Lemma builder_step_expired h c st st' :
  sane_config c → builder_step util st st' → cfg st.1 = c →
  Forall (sane_epoch c) (pendingBlocks st.1) → expired h st.1 →
  expired h st'.1 ∧ cfg st'.1 = c.
Proof.
  intros Hc Hstep Hcfg Hs Hx. subst c. destruct Hstep; cbn in *; try done.
  - apply Enqueue_ok in H0 as [-> _]. done.
  - unfold Enqueue in H. destruct (_ && _); by simplify_eq.
  - by eapply Build_expired.
Qed.

End BuilderTimeout.

(** ** What building never touches *)

Section BuilderFrame.
Context `{A : ABI} {E : Type} `{V : VersionedDataEncoder E}.
Context (util : option bridgeSerializationUtil).
Implicit Types b : batchBuilder E.

(** The configuration, the queue, the last enqueued block and the cache. *)
Definition same_queue b b' : Prop :=
  cfg b' = cfg b ∧ pendingBlocks b' = pendingBlocks b ∧
  lastEnqueued b' = lastEnqueued b ∧ lastBuilt b' = lastBuilt b.

#[local] Instance same_queue_preorder : PreOrder same_queue.
Proof.
  split; [done|]. intros x y z (?&?&?&?) (?&?&?&?). unfold same_queue. by split_and!; etransitivity.
Qed.

Lemma processBlock_frame block b r b' : processBlock util block b = Ret (r, b') → same_queue b b'.
Proof.
  unfold processBlock. destruct (block_epoch util (cfg b) block) as [[o|e]|w]; cbn; [| |done].
  - set (b1 := match o with Some ep => _ | None => b end).
    assert (same_queue b b1) as H1 by (unfold b1; destruct o; [by rewrite updateTimeout_frame|done]).
    destruct (enc_ProcessBlock _ _ _) as [[r' e']|]; [|done]. intros [= <- <-]. exact H1.
  - by intros [= <- <-].
Qed.

Lemma encode_loop_frame blocks : ∀ n b r b',
  encode_loop util blocks n b = Ret (r, b') → same_queue b b'.
Proof.
  induction blocks as [|x rest IH]; intros n b r b' Hl; cbn [encode_loop] in Hl; [by simplify_eq|].
  destruct (processBlock util x b) as [[[[]|e] b1]|] eqn:Hp; [| |done]; cbn in Hl;
    apply processBlock_frame in Hp.
  - etransitivity; [exact Hp|]. by eapply IH.
  - destruct (errors_Is e errBatchFull); by simplify_eq.
Qed.

Lemma Build_frame l1Head b r b' :
  Build util l1Head b = Ret (r, b') → lastEnqueued b' = lastEnqueued b ∧ cfg b' = cfg b.
Proof.
  unfold Build. destruct (lastBuilt b); [by intros; simplify_eq|].
  unfold encodePending. destruct (length (pendingBlocks b) =? 0)%nat; cbn; [by intros; simplify_eq|].
  destruct (encode_loop util _ _ b) as [[r1 b1]|] eqn:Hl; [|done].
  apply encode_loop_frame in Hl as (Hc & _ & Hl & _).
  destruct r1; cbn; [|by intros; simplify_eq].
  unfold getBatch. destruct (enc_GetBatch _ _) as [[[data|e] e2]|]; cbn; [| |done].
  - by intros; simplify_eq.
  - destruct (errors_Is e errBatchTooSmall); by intros; simplify_eq.
Qed.

Lemma Build_sets_cache l1Head b batch b' :
  Build util l1Head b = Ret (Ok batch, b') → lastBuilt b' = Some batch.
Proof.
  intros H. unfold Build in H. destruct (lastBuilt b) eqn:Hlb; [by simplify_eq|].
  destruct (encodePending util b) as [[[[]|] b1]|]; try done. cbn in H.
  unfold getBatch in H. destruct (enc_GetBatch _ _) as [[r e']|]; [|done]. cbn in H.
  destruct r as [|err]; [by simplify_eq|]. by destruct (errors_Is err errBatchTooSmall).
Qed.

End BuilderFrame.

(** ** Theorems *)

Section BuilderClaims.
Context `{A : ABI} `{R : RLP} {E : Type} `{V : VersionedDataEncoder E} `{C : !EncoderContract E}.
Context (util : option bridgeSerializationUtil).
Implicit Types b : batchBuilder E.


(** Once [Build] has returned a batch it returns the same batch, whatever the L1 head,
    until [Advance] or [Reset] clears it. *)
Theorem Build_cached l1Head l1Head' b b' batch :
  Build util l1Head b = Ret (Ok batch, b') →
  Build util l1Head' b' = Ret (Ok batch, b') ∧
  lastBuilt (Advance b') = None ∧ ∀ id, lastBuilt (Reset id b') = None.
Proof.
  intros Hlb%Build_sets_cache.
  unfold Build. by rewrite Hlb.
Qed.

(** When a block of the queue cannot be processed, [encodePending] returns the error and
    leaves the whole queue in place although the blocks before the failing one are already
    in the encoder: a later attempt encodes them a second time. *)
Theorem encodePending_failure_keeps_queue b e b' :
  enc_wf (encoder b) → pendingBlocks b ≠ [] →
  encodePending util b = Ret (Err e, b') →
  ∃ k, (k < length (pendingBlocks b))%nat ∧ pendingBlocks b' = pendingBlocks b ∧
    enc_buffered (encoder b') ++ payloads (pendingBlocks b') =
      enc_buffered (encoder b) ++ payloads (take k (pendingBlocks b)) ++ payloads (pendingBlocks b).
Proof.
  intros Hwf Hne. unfold encodePending.
  destruct (length (pendingBlocks b) =? 0)%nat eqn:Hlen.
  { apply Nat.eqb_eq, nil_length_inv in Hlen. done. }
  destruct (encode_loop util _ _ b) as [[r b1]|] eqn:Hl; [|done]. cbn.
  destruct r; [done|]. intros H. injection H as <- <-.
  destruct (encode_loop_failure util _ _ _ _ _ Hwf Hl) as (k & Hk & Hp & Hb).
  exists k. by rewrite Hb, Hp, <- app_assoc.
Qed.

(** The batch timeout only ever moves earlier and neither [Reset], [Advance] nor a built
    batch clears it: once L1 has reached it, every later batch is forced, in every state
    that follows, for any later L1 head. *)
Theorem force_batch_forever c st st' head head' :
  sane_config c → cfg st.1 = c →
  rtc (λ s s', builder_step util s s' ∧ Forall (sane_epoch util c) (pendingBlocks s.1)) st st' →
  0 <= timeout st.1 → GetNumber head <= GetNumber head' →
  force_batch head st.1 = true → force_batch head' st'.1 = true.
Proof.
  intros Hc Hcfg Hrtc Hpos Hh Hf.
  assert (Hx : expired (GetNumber head) st.1).
  { unfold force_batch in Hf. zbool. unfold expired. lia. }
  clear Hf Hpos. revert Hcfg Hx.
  induction Hrtc as [st|st st1 st2 [Hstep Hs] _ IH]; intros Hcfg Hx.
  - unfold force_batch, expired in *. apply andb_true_iff. split.
    + apply negb_true_iff, Z.eqb_neq. lia.
    + rewrite Z.geb_leb. apply Z.leb_le. lia.
  - destruct (builder_step_expired util (GetNumber head) c st st1) as [? ?]; auto.
Qed.

(** A block whose first transaction sets the L1 oracle's values cannot be batched: its
    input is unpacked with the outputs of a method that has none, and [Build] panics as soon
    as such a block heads the queue. *)
Theorem Build_panics_on_oracle_block u head b block rest tx txs :
  util = Some u → no_outputs (l1OracleAbi u) SetL1OracleValues →
  lastBuilt b = None → pendingBlocks b = block :: rest → blk_Transactions block = tx :: txs →
  tx_To tx = Some (GetL1OracleAddr (cfg b)) → length (tx_Data tx) = 164%nat →
  Build util head b = Panic index_out_of_range.
Proof.
  intros -> Hno Hlb Hq Htxs Hto Hlen. unfold Build, encodePending. rewrite Hlb, Hq. cbn.
  unfold processBlock, block_epoch. rewrite Htxs, Hto, Z.eqb_refl.
  unfold UnpackL1OracleInput, input_data, MethodNumBytes. cbn [with_util].
  rewrite Hlen. cbn. by rewrite (Hno _ 5%nat) by (rewrite length_drop, Hlen; done).
Qed.

End BuilderClaims.

(** ** Concrete runs with the V0 encoder *)

Module BuilderSample.

#[local] Existing Instance Sample.sample_rlp.
#[local] Existing Instance BridgeSample.sample_abi.

Definition oracle_addr : Address := 77.

Definition c : Config := mkConfig oracle_addr 10 2.

Definition b0 : batchBuilder BatchV0Encoder := NewBatchBuilder c (NewBatchV0Encoder 3).

(** A child of block 10, and its child; the second carries an oracle transaction whose
    input announces epoch 5. *)
Definition blk1 : Block := Sample.block 11 110 100 [Sample.tx 9 [Byte.x01; Byte.x02]].
Definition blk2 : Block :=
  Sample.block 12 120 110 [Sample.tx oracle_addr [Byte.x00; Byte.x00; Byte.x00; Byte.x00; Byte.x05]].
(** An oracle transaction without data after the selector: it does not unpack. *)
Definition blk_bad : Block :=
  Sample.block 12 120 110 [Sample.tx oracle_addr [Byte.x00; Byte.x00; Byte.x00; Byte.x00]].

Definition start : BlockID := mkBlockID 10 100.

Definition b1 : batchBuilder BatchV0Encoder := (Enqueue blk1 (Reset start b0)).2.
Definition b2 : batchBuilder BatchV0Encoder := (Enqueue blk2 b1).2.
Definition b3 : batchBuilder BatchV0Encoder := (Enqueue blk_bad b1).2.

(** The state after the first [Build] of [b1]. *)
Definition b1' : batchBuilder BatchV0Encoder :=
  match Build BridgeSample.util (mkBlockID 1 1) b1 with Ret (_, b) => b | Panic _ => b1 end.

(** The state after [Build] of [b3] has failed on its second block. *)
Definition b3' : batchBuilder BatchV0Encoder :=
  match encodePending BridgeSample.util b3 with Ret (_, b) => b | Panic _ => b3 end.

(** A builder whose timeout is L1 block 13. *)
Definition bt : batchBuilder BatchV0Encoder := updateTimeout 5 b1.

Lemma b1_reachable :
  builder_reachable BridgeSample.util c (NewBatchV0Encoder 3) (b1', mkLog start [blk1]).
Proof.
  apply rtc_l with (Reset start b0, mkLog start []); [apply step_reset|].
  apply rtc_l with (b1, mkLog start [blk1]).
  { apply (step_enqueue BridgeSample.util blk1 (Reset start b0) b1 (mkLog start [])).
    - split; eexists; reflexivity.
    - reflexivity. }
  apply rtc_once. eapply (step_build BridgeSample.util (mkBlockID 1 1)). reflexivity.
Qed.


Lemma Build_cached_witness :
  Build BridgeSample.util (mkBlockID 1 1) b1 = Ret (Ok [V0; Byte.xc0], b1') ∧
  Build BridgeSample.util (mkBlockID 2 2) b1' = Ret (Ok [V0; Byte.xc0], b1').
Proof.
  split; [vm_compute; reflexivity|].
  apply (Build_cached BridgeSample.util (mkBlockID 1 1) (mkBlockID 2 2) b1 b1' [V0; Byte.xc0]).
  vm_compute. reflexivity.
Defined.

Lemma encodePending_failure_keeps_queue_witness :
  ∃ k, (k < 2)%nat ∧ pendingBlocks b3' = [blk1; blk_bad] ∧
    buffered (encoder b3') ++ payloads (pendingBlocks b3') =
    payloads (take k [blk1; blk_bad]) ++ payloads [blk1; blk_bad].
Proof.
  destruct (encodePending_failure_keeps_queue (C := V0_EncoderContract) BridgeSample.util b3
    (match encodePending BridgeSample.util b3 with Ret (Err e, _) => e | _ => io_EOF end) b3')
    as (k & H1 & H2 & H3).
  - vm_compute. discriminate.
  - vm_compute. discriminate.
  - vm_compute. reflexivity.
  - exists k. split; [exact H1|]. split; [exact H2|exact H3].
Defined.

Lemma force_batch_forever_witness :
  force_batch (mkBlockID 13 1) bt = true ∧ force_batch (mkBlockID 14 2) (Reset start bt) = true.
Proof.
  split; [reflexivity|].
  apply (force_batch_forever BridgeSample.util c (bt, mkLog start [blk1]) (Reset start bt, mkLog start [])
    (mkBlockID 13 1) (mkBlockID 14 2)).
  - vm_compute. split; discriminate || reflexivity.
  - reflexivity.
  - apply rtc_once. split; [apply step_reset|].
    apply Forall_cons. split; [|apply Forall_nil; exact I].
    intros ep H. vm_compute in H. discriminate.
  - vm_compute. discriminate.
  - vm_compute. discriminate.
  - reflexivity.
Defined.

(** A builder whose queue starts with an oracle transaction. *)
Definition b_oracle : batchBuilder BatchV0Encoder :=
  (Enqueue (Sample.block 11 110 100 [BridgeSample.oracle_tx]) (Reset start b0)).2.

Lemma Build_panics_on_oracle_block_witness :
  Build (A := BridgeSample.selector_abi) (Some BridgeSample.selector_util) EmptyBlockID b_oracle =
    Panic index_out_of_range.
Proof.
  apply (Build_panics_on_oracle_block (A := BridgeSample.selector_abi) (Some BridgeSample.selector_util)
    BridgeSample.selector_util EmptyBlockID b_oracle
    (Sample.block 11 110 100 [BridgeSample.oracle_tx]) [] BridgeSample.oracle_tx []);
    try reflexivity.
  intros data k _. reflexivity.
Defined.

End BuilderSample.
