(* ===== verification/EthState.v ===== *)
(** * The tracked state of L1

    Models services/sidecar/utils/map.go (the typed [sync.Map]) and
    services/sidecar/rollup/rpc/eth/eth_state.go (the latest, safe and finalized L1 heads,
    updated by the callbacks of the L1 syncer), with the tags of rpc/eth/tag.go. *)

From S2P Require Import Prelude Errors Types.

(** ** utils.Map

    A [sync.Map] is a finite map here; [zero] is the zero value of the element type, which
    [Load] returns for a missing key. *)
Section Map.
Context `{Countable K} {V : Type} (zero : V).
Implicit Types m : gmap K V.

Definition Load (key : K) m : V := default zero (m !! key).

Definition Store (key : K) (value : V) m : gmap K V := <[key := value]> m.

(** The value now in the map: the one present, or the one stored. *)
Definition LoadOrStore (key : K) (value : V) m : V * gmap K V :=
  match m !! key with
  | Some v => (v, m)
  | None => (value, <[key := value]> m)
  end.

Definition LoadAndStore (key : K) (value : V) m : V * gmap K V :=
  let v := Load key m in (v, Store key value m).

Definition LoadAndDelete (key : K) m : V * gmap K V :=
  match m !! key with
  | Some v => (v, delete key m)
  | None => (zero, m)
  end.

Definition Delete (key : K) m : gmap K V := delete key m.

(** [Range] calls [f] on the entries, in some order, until it returns false; the entries
    visited. *)
Fixpoint Range_loop (entries : list (K * V)) (f : K → V → bool) : list (K * V) :=
  match entries with
  | [] => []
  | (k, v) :: rest => if f k v then (k, v) :: Range_loop rest f else [(k, v)]
  end.

Definition Range (f : K → V → bool) m : list (K * V) := Range_loop (map_to_list m) f.

End Map.

#[global] Arguments Load : simpl never.
#[global] Arguments Store : simpl never.

(** ** Block tags *)

Definition Latest : string := "latest".
Definition Safe_tag : string := "safe".
Definition Finalized_tag : string := "finalized".

(** ** EthState *)

Record EthState := mkEthState { headers : gmap string BlockID }.

Definition NewEthState : EthState := mkEthState ∅.

Definition load_tag (tag : string) (s : EthState) : BlockID := Load EmptyBlockID tag (headers s).

Definition Head (s : EthState) : BlockID := load_tag Latest s.
Definition Safe (s : EthState) : BlockID := load_tag Safe_tag s.
Definition Finalized (s : EthState) : BlockID := load_tag Finalized_tag s.
Definition Tips (s : EthState) : BlockID * BlockID * BlockID := (Head s, Safe s, Finalized s).

(** [OnLatest]: always stores the header; an old one only causes a warning. *)
Definition OnLatest (header : Header) (s : EthState) : result unit * EthState :=
  let '(prev, m) := LoadAndStore EmptyBlockID Latest (NewBlockIDFromHeader header) (headers s) in
  (Ok tt, mkEthState m).

(** [OnSafe]: ignores an older header, refuses another hash at the same height. *)
Definition OnSafe (header : Header) (s : EthState) : result unit * EthState :=
  let prev := Safe s in
  if big_Uint64 (h_Number header) <? GetNumber prev then (Ok tt, s)
  else if (big_Uint64 (h_Number header) =? GetNumber prev) && negb (h_Hash header =? GetHash prev)
  then (Err (Errorf "received two safe headers"), s)
  else (Ok tt, mkEthState (Store Safe_tag (NewBlockIDFromHeader header) (headers s))).

(** [OnFinalized]: the same for the finalized head. *)
Definition OnFinalized (header : Header) (s : EthState) : result unit * EthState :=
  let prev := Finalized s in
  if big_Uint64 (h_Number header) <? GetNumber prev then (Ok tt, s)
  else if (big_Uint64 (h_Number header) =? GetNumber prev) && negb (h_Hash header =? GetHash prev)
  then (Err (Errorf "received two finalized headers"), s)
  else (Ok tt, mkEthState (Store Finalized_tag (NewBlockIDFromHeader header) (headers s))).

(** The handlers are called in any order, by three goroutines. *)
Inductive eth_step : EthState → EthState → Prop :=
| on_latest h s : eth_step s (OnLatest h s).2
| on_safe h s : eth_step s (OnSafe h s).2
| on_finalized h s : eth_step s (OnFinalized h s).2.

(** ** The L2 client

    The interface through which the services read the L2 node; [eth_client.go] implements
    it over RPC. *)
Class L2Client (W : Type) := {
  l2_EnsureDialed : W → option error * W;
  l2_BlockNumber : W → result Z * W;
  l2_BlockByNumber : Z → W → result Block * W;
  l2_HeaderByTag : string → W → result Header * W
}.

(** ** Lemmas *)

Section MapFacts.
Context `{Countable K} {V : Type} (zero : V).
Implicit Types m : gmap K V.

Lemma Load_Store_eq k v m : Load zero k (Store k v m) = v.
Proof. unfold Load, Store. by rewrite lookup_insert_eq. Qed.

Lemma Load_Store_ne k k' v m : k ≠ k' → Load zero k' (Store k v m) = Load zero k' m.
Proof. intros Hne. unfold Load, Store. by rewrite lookup_insert_ne. Qed.

Lemma Load_Delete_eq k m : Load zero k (Delete k m) = zero.
Proof. unfold Load, Delete. by rewrite lookup_delete_eq. Qed.

(** [LoadOrStore] returns what a [Load] after it returns, and does not overwrite. *)
Lemma LoadOrStore_spec k v m :
  let '(r, m') := LoadOrStore k v m in
  r = Load zero k m' ∧ r = default v (m !! k) ∧ ∀ k', k ≠ k' → m' !! k' = m !! k'.
Proof.
  unfold LoadOrStore, Load. destruct (m !! k) eqn:Hk; cbn.
  - by rewrite Hk.
  - rewrite lookup_insert_eq. split; [done|]. split; [done|].
    intros k' Hne. by rewrite lookup_insert_ne.
Qed.

Lemma LoadAndDelete_spec k m :
  let '(r, m') := LoadAndDelete zero k m in r = Load zero k m ∧ m' = delete k m.
Proof.
  unfold LoadAndDelete, Load. destruct (m !! k) eqn:Hk; cbn; [done|].
  by rewrite delete_id.
Qed.

(** [Range] visits a prefix of the entries, all of them when [f] keeps returning true. *)
Lemma Range_all f m : (∀ k v, f k v = true) → Range f m = map_to_list m.
Proof.
  intros Hf. unfold Range. induction (map_to_list m) as [|[k v] l IH]; cbn; [done|].
  by rewrite Hf, IH.
Qed.

Lemma Range_prefix f m : Range f m `prefix_of` map_to_list m.
Proof.
  unfold Range. induction (map_to_list m) as [|[k v] l IH]; cbn; [apply prefix_nil|].
  destruct (f k v); [by apply prefix_cons|]. exists l. done.
Qed.

End MapFacts.

Lemma tags_distinct : Latest ≠ Safe_tag ∧ Latest ≠ Finalized_tag ∧ Safe_tag ≠ Finalized_tag.
Proof. by repeat split. Qed.

(** A head that may follow another: higher, or the same. *)
Definition advances (x y : BlockID) : Prop := GetNumber x < GetNumber y ∨ x = y.

#[export] Instance advances_preorder : PreOrder advances.
Proof.
  split; [by right|]. intros x y z [H1|<-] [H2|<-]; unfold advances in *; auto; left; lia.
Qed.

(** What one handler does to one tag. *)
Lemma OnSafe_spec h s :
  let '(r, s') := OnSafe h s in
  advances (Safe s) (Safe s') ∧ Head s' = Head s ∧ Finalized s' = Finalized s ∧
  (r = Ok tt ∨ s' = s).
Proof.
  unfold OnSafe. destruct (_ <? _) eqn:H1; [repeat split; by auto; right|].
  destruct (_ && _) eqn:H2; [repeat split; by auto; right|].
  zbool. unfold Safe, Head, Finalized, load_tag. cbn.
  rewrite Load_Store_eq, !Load_Store_ne by done.
  repeat split; auto. apply andb_false_iff in H2.
  unfold Safe, load_tag in *. destruct (Load _ _ _) as [n hh]. cbn in *.
  destruct H2 as [H2|H2]; zbool; [left; cbn; lia|].
  destruct (Z.eq_dec n (big_Uint64 (h_Number h))) as [->|]; [right; by rewrite <- H2|].
  left. cbn. lia.
Qed.

Lemma OnFinalized_spec h s :
  let '(r, s') := OnFinalized h s in
  advances (Finalized s) (Finalized s') ∧ Head s' = Head s ∧ Safe s' = Safe s ∧
  (r = Ok tt ∨ s' = s).
Proof.
  unfold OnFinalized. destruct (_ <? _) eqn:H1; [repeat split; by auto; right|].
  destruct (_ && _) eqn:H2; [repeat split; by auto; right|].
  zbool. unfold Safe, Head, Finalized, load_tag. cbn.
  rewrite Load_Store_eq, !Load_Store_ne by done.
  repeat split; auto. apply andb_false_iff in H2.
  unfold Finalized, load_tag in *. destruct (Load _ _ _) as [n hh]. cbn in *.
  destruct H2 as [H2|H2]; zbool; [left; cbn; lia|].
  destruct (Z.eq_dec n (big_Uint64 (h_Number h))) as [->|]; [right; by rewrite <- H2|].
  left. cbn. lia.
Qed.

Lemma OnLatest_spec h s :
  let '(r, s') := OnLatest h s in
  r = Ok tt ∧ Head s' = NewBlockIDFromHeader h ∧ Safe s' = Safe s ∧ Finalized s' = Finalized s.
Proof.
  unfold OnLatest, Safe, Head, Finalized, load_tag. cbn.
  by rewrite Load_Store_eq, !Load_Store_ne by done.
Qed.

Lemma eth_step_advances s s' :
  eth_step s s' → advances (Safe s) (Safe s') ∧ advances (Finalized s) (Finalized s').
Proof.
  intros [h t|h t|h t].
  - pose proof (OnLatest_spec h t) as Hs. destruct (OnLatest h t) as [r t']. cbn.
    destruct Hs as (_ & _ & -> & ->). done.
  - pose proof (OnSafe_spec h t) as Hs. destruct (OnSafe h t) as [r t']. cbn.
    destruct Hs as (Ha & _ & -> & _). done.
  - pose proof (OnFinalized_spec h t) as Hs. destruct (OnFinalized h t) as [r t']. cbn.
    destruct Hs as (Ha & _ & -> & _). done.
Qed.

(** ** Theorems *)

(** C20: over any interleaving of the three handlers, from any state, the safe and the
    finalized head never go back: each is at a greater height than before, or is the very
    same block (a second hash at a height is never accepted). *)
Theorem heads_never_go_back s s' :
  rtc eth_step s s' → advances (Safe s) (Safe s') ∧ advances (Finalized s) (Finalized s').
Proof.
  induction 1 as [s|s1 s2 s3 Hstep _ [IH1 IH2]]; [by split|].
  destruct (eth_step_advances _ _ Hstep). split; by etransitivity.
Qed.

(** The handlers are independent and report conflicts: [OnLatest] always succeeds and
    sets the head to the header given, even an older one; [OnSafe] fails exactly when the
    header has the height of the safe head and another hash, and then changes nothing; a
    successful [OnSafe] at a height not below the safe head makes the header the safe head;
    no handler changes another handler's head. *)
Theorem handlers_correct h s :
  (OnLatest h s).1 = Ok tt ∧ Head (OnLatest h s).2 = NewBlockIDFromHeader h ∧
  Safe (OnLatest h s).2 = Safe s ∧ Finalized (OnLatest h s).2 = Finalized s ∧
  Head (OnSafe h s).2 = Head s ∧ Finalized (OnSafe h s).2 = Finalized s ∧
  Head (OnFinalized h s).2 = Head s ∧ Safe (OnFinalized h s).2 = Safe s ∧
  ((OnSafe h s).1 ≠ Ok tt ↔
     big_Uint64 (h_Number h) = GetNumber (Safe s) ∧ h_Hash h ≠ GetHash (Safe s)) ∧
  ((OnSafe h s).1 ≠ Ok tt → (OnSafe h s).2 = s) ∧
  ((OnSafe h s).1 = Ok tt → GetNumber (Safe s) <= big_Uint64 (h_Number h) →
     Safe (OnSafe h s).2 = NewBlockIDFromHeader h).
Proof.
  pose proof (OnLatest_spec h s) as HL. pose proof (OnSafe_spec h s) as HS.
  pose proof (OnFinalized_spec h s) as HF.
  destruct (OnLatest h s) as [rl sl], (OnFinalized h s) as [rf sf]. cbn.
  destruct HL as (HL1 & HL2 & HL3 & HL4), HF as (_ & HF2 & HF3 & _).
  destruct (OnSafe h s) as [r s'] eqn:HO. cbn. destruct HS as (_ & HS2 & HS3 & HS4).
  repeat (split; [done|]). split; [|split].
  - unfold OnSafe in HO. destruct (_ <? _) eqn:H1; zbool.
    { injection HO as <- <-. split; [done|lia]. }
    destruct (_ && _) eqn:H2; injection HO as <- <-; zbool; [done|].
    split; [done|]. intros [H3 H4]. apply andb_false_iff in H2 as [H2|H2]; zbool; done.
  - intros Hr. by destruct HS4.
  - intros -> Hge. unfold OnSafe in HO. destruct (_ <? _) eqn:H1; zbool; [lia|].
    destruct (_ && _); [done|]. injection HO as <-.
    unfold Safe, load_tag. cbn. apply Load_Store_eq.
Qed.

(** On a fresh state the safe head is the zero block id, so the genesis header (height
    zero, with its hash) is refused as a conflicting safe header, and likewise as a
    conflicting finalized header. *)
Theorem genesis_header_refused h :
  h_Number h = 0 → h_Hash h ≠ zero_hash →
  OnSafe h NewEthState = (Err (Errorf "received two safe headers"), NewEthState) ∧
  OnFinalized h NewEthState = (Err (Errorf "received two finalized headers"), NewEthState).
Proof.
  intros Hn Hh. unfold OnSafe, OnFinalized, Safe, Finalized, load_tag, Load. cbn.
  rewrite Hn, !lookup_empty. cbn. unfold zero_hash in *.
  by rewrite (proj2 (Z.eqb_neq _ _) Hh).
Qed.

Definition sample_header (n h : Z) : Header := mkHeader n h 0 None.

Lemma heads_never_go_back_witness :
  advances (Safe (OnSafe (sample_header 5 50) NewEthState).2)
           (Safe (OnSafe (sample_header 4 40) (OnSafe (sample_header 5 50) NewEthState).2).2).
Proof.
  apply (heads_never_go_back (OnSafe (sample_header 5 50) NewEthState).2
    (OnSafe (sample_header 4 40) (OnSafe (sample_header 5 50) NewEthState).2).2).
  apply rtc_once, on_safe.
Defined.

Lemma genesis_header_refused_witness :
  (OnSafe (sample_header 0 7) NewEthState).1 = Err (Errorf "received two safe headers").
Proof.
  destruct (genesis_header_refused (sample_header 0 7) eq_refl ltac:(discriminate)) as [H _].
  rewrite H. reflexivity.
Defined.
