(* ===== verification/Retry.v ===== *)
(** * Retrying an operation

    Models services/sidecar/utils/retry/operation.go ([Do]) and strategy.go (the fixed and
    the exponential strategies).  The operation acts on a world [W]; the world also answers
    whether the context is done and is advanced by a sleep. *)

From S2P Require Import Prelude Errors.

(** The context and the clock, as [Do] uses them. *)
Class Ctx (W : Type) := {
  ctx_Err : W → option error;      (* ctx.Err() *)
  sleep : Z → W → W                (* time.Sleep, in nanoseconds *)
}.

(** [Strategy]: the duration to wait after attempt [i]. *)
Definition Strategy : Type := Z → Z.

(** ** strategy.go *)

Definition millisecond : Z := 1000000.
Definition second : Z := 1000000000.

Record ExponentialStrategy := mkExponential {
  ex_Min : Z;
  ex_Max : Z;
  ex_MaxJitter : Z
}.

(** [int(math.Pow(2, attempt) * 1000)]: exact while it fits in an [int64]; beyond, the
    conversion is implementation-defined ([oob]). *)
Definition pow_1000 (oob attempt : Z) : Z :=
  if attempt <=? 53 then 2 ^ attempt * 1000 else oob.

(** [Duration] with the jitter drawn from [rand.Int63n]: [rand n] is in [0, n). *)
Definition Exponential_Duration (rand : Z → Z) (oob : Z) (e : ExponentialStrategy) (attempt : Z) : Z :=
  let jitter := if ex_MaxJitter e >? 0 then rand (ex_MaxJitter e) else 0 in
  let dur := s64 (ex_Min e + s64 (pow_1000 oob attempt * millisecond)) in
  let dur := s64 (dur + jitter) in
  if dur >? ex_Max e then ex_Max e else dur.

Definition Exponential : ExponentialStrategy :=
  mkExponential 0 (10000 * millisecond) (250 * millisecond).

Definition Fixed (dur : Z) : Strategy := fun _ => dur.

(** ** operation.go *)

Section Do.
Context {W T : Type} `{C : Ctx W}.
Context (strategy : Strategy) (op : W → go (result T * W)).

(** The loop from attempt [i] with [more] attempts to go; [err] is the last error. *)
Fixpoint Do_loop (maxAttempts : Z) (more : nat) (i : Z) (err : error) (w : W)
    : go (result T * W) :=
  match more with
  | O => Ret (Err (AddrOf (ErrFailedPermanently maxAttempts err)), w)
  | S more =>
      match ctx_Err w with
      | Some e => Ret (Err e, w)
      | None =>
          '(r, w1) ← op w;
          match r with
          | Ok v => Ret (Ok v, w1)
          | Err e =>
              let w2 := if i =? maxAttempts - 1 then w1 else sleep (strategy i) w1 in
              Do_loop maxAttempts more (i + 1) e w2
          end
      end
  end.

(** [Do]: at least one attempt is required.  The error before the first attempt is never
    read, since the loop then runs at least once. *)
Definition Do (maxAttempts : Z) (w : W) : go (result T * W) :=
  if maxAttempts <? 1
  then Ret (Err (Errorf "need at least 1 attempt to run op"), w)
  else Do_loop maxAttempts (Z.to_nat maxAttempts) 0 (FmtError "") w.

(** [n] consecutive attempts that all failed, with the sleeps between them ([max] is the
    number of attempts allowed: there is no sleep after the last). *)
Inductive failed (max : Z) : nat → W → W → error → Prop :=
| failed_one w w1 e :
    ctx_Err w = None → op w = Ret (Err e, w1) →
    failed max 1 w (if 0 =? max - 1 then w1 else sleep (strategy 0) w1) e
| failed_more n w w1 w2 e0 e :
    failed max n w w1 e0 → ctx_Err w1 = None → op w1 = Ret (Err e, w2) →
    failed max (S n) w
      (if Z.of_nat n =? max - 1 then w2 else sleep (strategy (Z.of_nat n)) w2) e.

(** [n] failed attempts, possibly none. *)
Definition failed_upto (max : Z) (n : nat) (w w1 : W) : Prop :=
  (n = 0%nat ∧ w1 = w) ∨ ∃ e, failed max n w w1 e.

Lemma failed_upto_snoc max n w w1 w2 e :
  failed_upto max n w w1 → ctx_Err w1 = None → op w1 = Ret (Err e, w2) →
  failed max (S n) w (if Z.of_nat n =? max - 1 then w2 else sleep (strategy (Z.of_nat n)) w2) e.
Proof.
  intros [[-> ->]|[e0 H]] Hc Hop; [by apply failed_one|]. by eapply failed_more.
Qed.

(** One iteration, by the outcome of the operation. *)
Lemma Do_loop_fail max more i err w e w1 :
  ctx_Err w = None → op w = Ret (Err e, w1) →
  Do_loop max (S more) i err w =
  Do_loop max more (i + 1) e (if i =? max - 1 then w1 else sleep (strategy i) w1).
Proof. intros Hc Ho. cbn [Do_loop]. by rewrite Hc, Ho. Qed.

Lemma Do_loop_ok max more i err w v w1 :
  ctx_Err w = None → op w = Ret (Ok v, w1) → Do_loop max (S more) i err w = Ret (Ok v, w1).
Proof. intros Hc Ho. cbn [Do_loop]. by rewrite Hc, Ho. Qed.

Lemma Do_loop_spec max more : ∀ n w w1 e r w',
  Z.of_nat n + Z.of_nat more = max → failed_upto max n w w1 →
  (more = 0%nat → failed max n w w1 e) →
  Do_loop max more (Z.of_nat n) e w1 = Ret (r, w') →
  match r with
  | Ok v => ∃ k w2, Z.of_nat k < max ∧ failed_upto max k w w2 ∧ ctx_Err w2 = None ∧
                    op w2 = Ret (Ok v, w')
  | Err err =>
      (∃ k, Z.of_nat k < max ∧ failed_upto max k w w' ∧ ctx_Err w' = Some err) ∨
      (∃ e', failed max (Z.to_nat max) w w' e' ∧ err = AddrOf (ErrFailedPermanently max e'))
  end.
Proof.
  induction more as [|more IH]; intros n w w1 e r w' Hn Hf He Hl; cbn [Do_loop] in Hl.
  { injection Hl as <- <-. right. exists e. split; [|done].
    replace (Z.to_nat max) with n by lia. auto. }
  destruct (ctx_Err w1) as [err|] eqn:Hctx.
  { injection Hl as <- <-. left. exists n. split; [lia|]. done. }
  destruct (op w1) as [[r1 w2]|] eqn:Hop; [|done]. cbn in Hl.
  destruct r1 as [v|e1].
  { injection Hl as <- <-. exists n, w1. split; [lia|]. done. }
  replace (Z.of_nat n + 1) with (Z.of_nat (S n)) in Hl by lia.
  pose proof (failed_upto_snoc _ _ _ _ _ _ Hf Hctx Hop) as Hf'.
  eapply (IH (S n)); [| | |exact Hl]; [lia|right; by exists e1|by intros _].
Qed.

(** What the operation and the sleeps keep, the whole retry keeps. *)
Lemma Do_loop_keeps (R : W → W → Prop) `{!PreOrder R} max more : ∀ i e w r w',
  (∀ w r w', op w = Ret (r, w') → R w w') → (∀ d w, R w (sleep d w)) →
  Do_loop max more i e w = Ret (r, w') → R w w'.
Proof.
  induction more as [|more IH]; intros i e w r w' Hop Hsl Hd; cbn [Do_loop] in Hd; [by simplify_eq|].
  destruct (ctx_Err w) as [err|]; [by simplify_eq|].
  destruct (op w) as [[r1 w1]|] eqn:Ho; [|done]. cbn in Hd. apply Hop in Ho.
  destruct r1 as [v|e1]; [by simplify_eq|]. apply IH in Hd; [|done..].
  etransitivity; [exact Ho|]. etransitivity; [|exact Hd]. by case_match.
Qed.

Lemma Do_keeps (R : W → W → Prop) `{!PreOrder R} max w r w' :
  (∀ w r w', op w = Ret (r, w') → R w w') → (∀ d w, R w (sleep d w)) →
  Do max w = Ret (r, w') → R w w'.
Proof. unfold Do. intros Hop Hsl Hd. case_match; [by simplify_eq|by eapply Do_loop_keeps]. Qed.

Lemma Do_loop_total max more : ∀ i e w,
  (∀ w, ∃ r w', op w = Ret (r, w')) → ∃ r w', Do_loop max more i e w = Ret (r, w').
Proof.
  induction more as [|more IH]; intros i e w Hop; cbn [Do_loop]; [by eauto|].
  destruct (ctx_Err w); [by eauto|].
  destruct (Hop w) as ([v|e1] & w1 & ->); cbn; eauto.
Qed.

(** C40: [Do] returns the value of the first attempt that succeeds, after fewer than
    [maxAttempts] failures; it returns the context's error when the context was done before
    an attempt; and it returns [ErrFailedPermanently] with the last error only after exactly
    [maxAttempts] failed attempts. *)
Theorem Do_correct max w r w' :
  1 <= max → Do max w = Ret (r, w') →
  match r with
  | Ok v => ∃ k w2, Z.of_nat k < max ∧ failed_upto max k w w2 ∧ ctx_Err w2 = None ∧
                    op w2 = Ret (Ok v, w')
  | Err err =>
      (∃ k, Z.of_nat k < max ∧ failed_upto max k w w' ∧ ctx_Err w' = Some err) ∨
      (∃ e', failed max (Z.to_nat max) w w' e' ∧ err = AddrOf (ErrFailedPermanently max e'))
  end.
Proof.
  intros Hmax H. unfold Do in H. rewrite (proj2 (Z.ltb_ge _ _) Hmax) in H.
  apply (Do_loop_spec max (Z.to_nat max) 0 w w (FmtError "") r w');
    [lia|by left|lia|exact H].
Qed.

(** [Do] always returns when its operation does: at most [maxAttempts] attempts. *)
Theorem Do_returns max w :
  (∀ w, ∃ r w', op w = Ret (r, w')) → ∃ r w', Do max w = Ret (r, w').
Proof.
  intros Hop. unfold Do. destruct (max <? 1); [by eauto|]. by apply Do_loop_total.
Qed.

End Do.

(** A world that counts: operations fail until the counter reaches three. *)
Definition sample_ctx : Ctx Z := {| ctx_Err _ := None; sleep _ w := w |}.

Definition sample_op (w : Z) : go (result Z * Z) :=
  if w <? 2 then Ret (Err (FmtError "not yet"), w + 1) else Ret (Ok w, w).

Lemma Do_correct_witness :
  Do (C := sample_ctx) (Fixed second) sample_op 10 0 = Ret (Ok 2, 2) ∧
  ∃ k w2, Z.of_nat k < 10 ∧ failed_upto (C := sample_ctx) (Fixed second) sample_op 10 k 0 w2 ∧
    sample_op w2 = Ret (Ok 2, 2).
Proof.
  split; [reflexivity|].
  destruct (Do_correct (C := sample_ctx) (Fixed second) sample_op 10 0 (Ok 2) 2 ltac:(lia) eq_refl)
    as (k & w2 & H1 & H2 & _ & H3).
  exists k, w2. split; [exact H1|]. split; [exact H2|exact H3].
Defined.

Lemma Do_returns_witness :
  ∃ r w', Do (C := sample_ctx) (Fixed second) sample_op 10 0 = Ret (r, w').
Proof.
  apply (Do_returns (C := sample_ctx) (Fixed second) sample_op 10 0).
  intros w. unfold sample_op. destruct (w <? 2); eauto.
Defined.
