(* ===== verification/SendState.v ===== *)
(** * The publication state of one L1 transaction

    Models services/sidecar/rollup/rpc/eth/txmgr/send_state.go.  The mutex makes each
    method atomic, so a concurrent use is a sequence of method calls, an [event] list here.
    Times are nanoseconds; the clock's value is an argument where it is read. *)

From S2P Require Import Prelude Errors Types.

Record SendState := mkSendState {
  minedTxs : gset Z;
  nonceTooLowCount : Z;             (* uint64 *)
  txInMempoolDeadline : Z;
  successFullPublishCount : Z;      (* uint64 *)
  safeAbortNonceTooLowCount : Z     (* uint64 *)
}.

(** [core.ErrNonceTooLow.Error()], go-ethereum's text. *)
Definition text := string.

Section SendState.
Context (ErrNonceTooLow : text).
Implicit Types s : SendState.

(** [strings.Contains(s, substr)]. *)
Definition contains (s substr : string) : bool :=
  match String.index 0 substr s with Some _ => true | None => false end.

(** [NewSendStateWithNow]: panics on a zero count. *)
Definition NewSendStateWithNow (safeAbort unableToSendTimeout now : Z) : go SendState :=
  if safeAbort =? 0 then Panic "txmgr: safeAbortNonceTooLowCount cannot be zero"
  else Ret (mkSendState ∅ 0 (now + unableToSendTimeout) 0 safeAbort).

(** [ProcessSendError]: the error by its text, [None] when nil. *)
Definition ProcessSendError (err : option text) s : SendState :=
  match err with
  | None => mkSendState (minedTxs s) (nonceTooLowCount s) (txInMempoolDeadline s)
              (u64 (successFullPublishCount s + 1)) (safeAbortNonceTooLowCount s)
  | Some t =>
      if contains t ErrNonceTooLow
      then mkSendState (minedTxs s) (u64 (nonceTooLowCount s + 1)) (txInMempoolDeadline s)
             (successFullPublishCount s) (safeAbortNonceTooLowCount s)
      else s
  end.

Definition TxMined (txHash : Hash) s : SendState :=
  mkSendState ({[txHash]} ∪ minedTxs s) (nonceTooLowCount s) (txInMempoolDeadline s)
    (successFullPublishCount s) (safeAbortNonceTooLowCount s).

(** [TxNotMined]: resets the nonce-too-low count when the last mined transaction is
    reorged out. *)
Definition TxNotMined (txHash : Hash) s : SendState :=
  let wasMined := bool_decide (txHash ∈ minedTxs s) in
  let mined := minedTxs s ∖ {[txHash]} in
  let count := if bool_decide (size mined = 0%nat) && wasMined then 0 else nonceTooLowCount s in
  mkSendState mined count (txInMempoolDeadline s)
    (successFullPublishCount s) (safeAbortNonceTooLowCount s).

Definition ShouldAbortImmediately (now : Z) s : bool :=
  if bool_decide (0 < size (minedTxs s))%nat then false
  else (nonceTooLowCount s >=? safeAbortNonceTooLowCount s)
       || ((successFullPublishCount s =? 0) && (txInMempoolDeadline s <? now)).

Definition IsWaitingForConfirmation s : bool := bool_decide (0 < size (minedTxs s))%nat.

(** ** Events *)

Inductive event : Type :=
| ev_send (err : option text)
| ev_mined (h : Hash)
| ev_not_mined (h : Hash).

Definition apply_event s (ev : event) : SendState :=
  match ev with
  | ev_send err => ProcessSendError err s
  | ev_mined h => TxMined h s
  | ev_not_mined h => TxNotMined h s
  end.

Definition run (evs : list event) s : SendState := foldl apply_event s evs.

Lemma run_cons ev evs s : run (ev :: evs) s = run evs (apply_event s ev).
Proof. done. Qed.

Definition is_nonce_error (ev : event) : bool :=
  match ev with ev_send (Some t) => contains t ErrNonceTooLow | _ => false end.

Definition is_success (ev : event) : bool :=
  match ev with ev_send None => true | _ => false end.

(** The nonce-too-low errors among the events. *)
Definition nonce_errors (evs : list event) : Z :=
  Z.of_nat (length (List.filter is_nonce_error evs)).

Definition successes (evs : list event) : Z := Z.of_nat (length (List.filter is_success evs)).

Definition ss_wf s : Prop := is_u64 (nonceTooLowCount s) ∧ is_u64 (successFullPublishCount s).

(** ** Lemmas *)

Lemma mined_empty_iff s : size (minedTxs s) = 0%nat ↔ minedTxs s = ∅.
Proof. rewrite size_empty_iff. split; [apply leibniz_equiv|by intros ->]. Qed.

(** When the send is aborted, nothing is mined and one of the two limits is reached. *)
Lemma ShouldAbort_inv now s :
  ShouldAbortImmediately now s = true →
  safeAbortNonceTooLowCount s <= nonceTooLowCount s ∨
  (successFullPublishCount s = 0 ∧ txInMempoolDeadline s < now).
Proof.
  unfold ShouldAbortImmediately. case_bool_decide; [done|].
  rewrite orb_true_iff, andb_true_iff, Z.geb_leb, Z.leb_le, Z.eqb_eq, Z.ltb_lt. done.
Qed.

Lemma waiting_iff s : IsWaitingForConfirmation s = true ↔ minedTxs s ≠ ∅.
Proof. unfold IsWaitingForConfirmation. rewrite bool_decide_eq_true, <- mined_empty_iff. lia. Qed.

(** What one event does to the counters. *)
Lemma apply_event_counts s ev :
  ss_wf s → ss_wf (apply_event s ev) ∧
  nonceTooLowCount (apply_event s ev) <= nonceTooLowCount s + (if is_nonce_error ev then 1 else 0) ∧
  safeAbortNonceTooLowCount (apply_event s ev) = safeAbortNonceTooLowCount s ∧
  txInMempoolDeadline (apply_event s ev) = txInMempoolDeadline s.
Proof.
  unfold ss_wf. intros [H1 H2].
  destruct ev as [[t|]|h|h]; cbn; [destruct (contains t ErrNonceTooLow)| | |destruct (_ && _)]; cbn;
    unfold is_u64 in *; repeat split; try apply u64_range; try lia; try (unfold two64; lia);
    unfold u64; apply Z.mod_le; unfold two64; lia.
Qed.

(** The count after a run is at most the count before plus the errors of the run. *)
Lemma run_counts evs : ∀ s,
  ss_wf s → ss_wf (run evs s) ∧
  nonceTooLowCount (run evs s) <= nonceTooLowCount s + nonce_errors evs ∧
  safeAbortNonceTooLowCount (run evs s) = safeAbortNonceTooLowCount s ∧
  txInMempoolDeadline (run evs s) = txInMempoolDeadline s.
Proof.
  induction evs as [|ev evs IH]; intros s Hwf; [|rewrite run_cons].
  { unfold nonce_errors. cbn. repeat split; try apply Hwf; lia. }
  destruct (apply_event_counts s ev Hwf) as (Hwf1 & Hc & Ha & Hd).
  destruct (IH _ Hwf1) as (Hwf2 & Hc2 & Ha2 & Hd2).
  rewrite Ha2, Hd2. split; [done|]. split; [|done].
  unfold nonce_errors in *. cbn. destruct (is_nonce_error ev); cbn; lia.
Qed.

(** The publish count does not decrease while it does not wrap. *)
Lemma run_successes evs : ∀ s,
  ss_wf s → successFullPublishCount s + successes evs < two64 →
  successFullPublishCount (run evs s) = successFullPublishCount s + successes evs.
Proof.
  induction evs as [|ev evs IH]; intros s Hwf Hb; [unfold successes; cbn; lia|rewrite run_cons].
  destruct (apply_event_counts s ev Hwf) as (Hwf1 & _).
  assert (successFullPublishCount (apply_event s ev) =
          successFullPublishCount s + (if is_success ev then 1 else 0)) as He.
  { destruct Hwf as [_ H2]. unfold is_u64 in H2.
    destruct ev as [[t|]|h|h]; cbn; [destruct (contains t ErrNonceTooLow); cbn; lia| |lia|lia].
    apply u64_small. unfold is_u64, successes in *. cbn in Hb. lia. }
  unfold successes in *. cbn in *.
  rewrite IH; [rewrite He; destruct (is_success ev); cbn; lia|done|].
  rewrite He. destruct (is_success ev); cbn in *; lia.
Qed.

End SendState.


(** ** Theorems *)

(** [ShouldAbortImmediately] exactly: never while a transaction is known to be mined;
    otherwise when the nonce-too-low errors have reached the safe count, or nothing was
    ever published and the mempool deadline has passed.  Waiting for confirmation and
    aborting exclude each other. *)
Theorem ShouldAbort_exact now s :
  (ShouldAbortImmediately now s = true ↔
     minedTxs s = ∅ ∧
     (safeAbortNonceTooLowCount s <= nonceTooLowCount s ∨
      (successFullPublishCount s = 0 ∧ txInMempoolDeadline s < now))) ∧
  (IsWaitingForConfirmation s = true → ShouldAbortImmediately now s = false).
Proof.
  unfold ShouldAbortImmediately, IsWaitingForConfirmation.
  pose proof (mined_empty_iff s) as He.
  case_bool_decide as Hb; (split; [|by auto]); [split; [done|]|].
  { intros [Hm _]. apply He in Hm. lia. }
  assert (minedTxs s = ∅) as Hm by (apply He; lia).
  rewrite orb_true_iff, andb_true_iff, Z.geb_leb, Z.leb_le, Z.eqb_eq, Z.ltb_lt. tauto.
Qed.

(** After a reorg has taken out the last mined transaction, the nonce-too-low errors
    start from zero: whatever is recorded next, fewer than the safe count of fresh errors
    never abort the send, provided one publication went through or the mempool deadline
    has not passed. *)
Theorem reorg_restarts_abort_count E now s h evs :
  ss_wf s → h ∈ minedTxs s → minedTxs s ∖ {[h]} = ∅ →
  nonce_errors E evs < safeAbortNonceTooLowCount s →
  successFullPublishCount s + successes evs < two64 →
  0 < successFullPublishCount s + successes evs ∨ now <= txInMempoolDeadline s →
  ShouldAbortImmediately now (run E evs (TxNotMined h s)) = false.
Proof.
  intros Hwf Hin Hempty Herr Hfit Hlive.
  set (s1 := TxNotMined h s).
  assert (Hs1 : nonceTooLowCount s1 = 0 ∧ successFullPublishCount s1 = successFullPublishCount s ∧
    safeAbortNonceTooLowCount s1 = safeAbortNonceTooLowCount s ∧
    txInMempoolDeadline s1 = txInMempoolDeadline s).
  { unfold s1, TxNotMined. cbn. rewrite Hempty, size_empty.
    rewrite !bool_decide_eq_true_2 by done. done. }
  destruct Hs1 as (H1 & H2 & H3 & H4).
  assert (Hwf1 : ss_wf s1) by (unfold ss_wf; rewrite H1, H2; destruct Hwf; split; [done|done]).
  destruct (run_counts E evs s1 Hwf1) as (_ & Hc & Ha & Hd).
  pose proof (run_successes E evs s1 Hwf1 ltac:(by rewrite H2)) as Hs.
  apply not_true_is_false. intros Hab.
  apply ShouldAbort_inv in Hab as [Hab|[Hab Hab']].
  - rewrite Ha, H3 in Hab. lia.
  - rewrite Hs, H2 in Hab. rewrite Hd, H4 in Hab'.
    assert (0 <= successes evs) by (unfold successes; lia). destruct Hlive; lia.
Qed.

Definition sample_state : SendState := mkSendState {[ 5 ]} 2 100 1 3.

Lemma reorg_restarts_abort_count_witness :
  ShouldAbortImmediately 200 (run "nonce too low" [ev_send (Some "nonce too low: next nonce 4")]
    (TxNotMined 5 sample_state)) = false.
Proof.
  apply (reorg_restarts_abort_count "nonce too low" 200 sample_state 5
    [ev_send (Some "nonce too low: next nonce 4")]).
  - split; vm_compute; split; discriminate || reflexivity.
  - set_solver.
  - set_solver.
  - vm_compute. reflexivity.
  - vm_compute. reflexivity.
  - left. vm_compute. reflexivity.
Defined.
