(* ===== verification/TxMgr.v ===== *)
(** * The L1 transaction manager

    Models services/sidecar/rollup/rpc/eth/txmgr/tx_mgr.go: fee computation, crafting of a
    transaction with its nonce, and the resubmission loop of [sendTx] with the goroutines
    it starts, as a step function on a shared state ([sys]) driven by a list of [action]s:
    every interleaving of the goroutines is a list of actions.

    The theorems speak of the calls that a send makes: [recorded] is a backend that notes each
    transaction published, each answer to a question for a receipt and each height, in order
    ([io]), and [Sends] and [sending_in] are run over it.

    The backend, the signer and the clock are the class [ETHBackend] over the state [W] of
    the outside world.  Network timeouts are not separate: a call that times out is a call
    on which the backend returns an error. *)

From S2P Require Import Prelude Errors Types Bridge Retry SendState.

(** ** Constants and data *)

Definition priceBump : Z := 10.
Definition feeLimitMultiplier : Z := 5.
Definition priceBumpPercent : Z := 100 + priceBump.
Definition oneHundred : Z := 100.

(** [ethereum.CallMsg], the fields set by the code. *)
Record CallMsg := mkCallMsg {
  cm_From : Address;
  cm_To : option Address;
  cm_GasFeeCap : Z;
  cm_GasTipCap : Z;
  cm_Data : bytes;
  cm_Value : option Z
}.

(** A signed transaction: what was signed, and the signature. *)
Record SignedTx := mkSigned {
  s_tx : Transaction;
  s_sig : Z
}.

Class ETHBackend (W : Type) := {
  SuggestGasTipCap : W → result (option Z) * W;
  HeaderByNumber : W → result Header * W;         (* the latest header *)
  EstimateGas : CallMsg → W → result Z * W;
  NonceAt : Address → W → result Z * W;
  SendTransaction : SignedTx → W → option error * W;
  TransactionReceipt : Hash → W → result (option Receipt) * W;
  BlockNumber : W → result Z * W;
  signer : Address → Transaction → W → result SignedTx * W;
  s_hash : SignedTx → Hash;                        (* go-ethereum's tx.Hash() *)
  time_Now : W → Z;
  Error_text : error → string                      (* err.Error() *)
}.

(** What the signer is for: it signs the transaction it is given. *)
Definition signer_signs W `{ETHBackend W} : Prop :=
  ∀ a t w st w', signer a t w = (Ok st, w') → s_tx st = t.

(** ** Recording

    The calls by which the manager publishes transactions and learns what became of them,
    each with its answer, in the order in which they are made.  [recorded] is a backend that
    keeps this record beside the outside world: the definitions below, run over it, tell what
    the code asked of its backend. *)
Inductive io : Type :=
| IO_send (stx : SignedTx) (err : option error)
| IO_receipt (h : Hash) (r : result (option Receipt))
| IO_height (r : result Z).

Section Recorded.
Context {W : Type}.

Definition recorded `{B : ETHBackend W} : ETHBackend (W * list io) := {|
  SuggestGasTipCap := silent SuggestGasTipCap;
  HeaderByNumber := silent HeaderByNumber;
  EstimateGas msg := silent (EstimateGas msg);
  NonceAt a := silent (NonceAt a);
  SendTransaction stx := logged (IO_send stx) (SendTransaction stx);
  TransactionReceipt h := logged (IO_receipt h) (TransactionReceipt h);
  BlockNumber := logged IO_height BlockNumber;
  signer a t := silent (signer a t);
  s_hash stx := s_hash (W := W) stx;
  time_Now w := time_Now w.1;
  Error_text := Error_text (W := W)
|}.

Definition recorded_ctx `{C : Ctx W} : Ctx (W * list io) := {|
  ctx_Err w := ctx_Err w.1;
  sleep d w := (sleep d w.1, w.2)
|}.

Lemma recorded_signs `{B : ETHBackend W} :
  signer_signs W → signer_signs (W * list io) (H := recorded).
Proof.
  intros Hsig a t w st w'. cbn. unfold silent. destruct (signer a t w.1) as [r w1] eqn:Hs.
  intros [= -> _]. by eapply Hsig.
Qed.

End Recorded.

Record Config := mkConfig {
  cfg_ChainID : Z;
  cfg_From : Address;
  cfg_NumConfirmations : Z;            (* uint64 *)
  cfg_SafeAbortNonceTooLowCount : Z;   (* uint64 *)
  cfg_TxNotInMempoolTimeout : Z;
  cfg_ResubmissionTimeout : Z;
  cfg_TxSendTimeout : Z;
  cfg_NetworkTimeout : Z;
  cfg_ReceiptQueryInterval : Z
}.

(** [ethereum.NotFound], [core.ErrNonceTooLow]. *)
Definition NotFound : error := ErrorString "not found".
Definition ErrNonceTooLow : string := "nonce too low".
Definition aborted : error := FmtError "aborted transaction sending".

(** ** Fees *)

Definition calcGasFeeCap (baseFee gasTipCap : Z) : Z := gasTipCap + baseFee * 2.

(** [Div] of [big.Int] rounds down for a positive divisor. *)
Definition calcThresholdValue (x : Z) : Z := priceBumpPercent * x / oneHundred.

Definition updateFees (oldTip oldFeeCap newTip newBaseFee : Z) : Z * Z :=
  let newFeeCap := calcGasFeeCap newBaseFee newTip in
  let thresholdTip := calcThresholdValue oldTip in
  let thresholdFeeCap := calcThresholdValue oldFeeCap in
  if (newTip >=? thresholdTip) && (newFeeCap >=? thresholdFeeCap)
  then (newTip, newFeeCap)
  else if (newTip >=? thresholdTip) && (newFeeCap <? thresholdFeeCap)
  then (newTip, thresholdFeeCap)
  else if (newTip <? thresholdTip) && (newFeeCap >=? thresholdFeeCap)
  then (thresholdTip, calcGasFeeCap newBaseFee thresholdTip)
  else (thresholdTip, thresholdFeeCap).

(** [errStringMatch]: on the texts of the two errors, [None] for nil. *)
Definition errStringMatch (err target : option string) : bool :=
  match err, target with
  | None, None => true
  | None, Some _ | Some _, None => false
  | Some e, Some t => contains e t
  end.

Section TxMgr.
Context {W : Type} `{B : ETHBackend W} (cfg : Config).

Definition suggestGasPriceCaps (w : W) : result (Z * Z) * W :=
  let '(tip, w1) := SuggestGasTipCap w in
  match tip with
  | Err e => (Err (Errorf_w "failed to fetch the suggested gas tip cap" e), w1)
  | Ok None => (Err (FmtError "the suggested tip was nil"), w1)
  | Ok (Some tip) =>
      let '(head, w2) := HeaderByNumber w1 in
      match head with
      | Err e => (Err (Errorf_w "failed to fetch the suggested basefee" e), w2)
      | Ok head =>
          match h_BaseFee head with
          | None => (Err (FmtError "txmgr does not support pre-london blocks that do not have a basefee"), w2)
          | Some basefee => (Ok (tip, basefee), w2)
          end
      end
  end.

(** The fees of [increaseGasPrice]: those of [updateFees], capped at five times the
    suggestion. *)
Definition bumpedFees (tx : Transaction) (tip basefee : Z) : Z * Z :=
  let '(bumpedTip, bumpedFee) := updateFees (tx_GasTipCap tx) (tx_GasFeeCap tx) tip basefee in
  let maxTip := tip * feeLimitMultiplier in
  let bumpedTip := if bumpedTip >? maxTip then maxTip else bumpedTip in
  let maxFee := calcGasFeeCap (basefee * feeLimitMultiplier) maxTip in
  let bumpedFee := if bumpedFee >? maxFee then maxFee else bumpedFee in
  (bumpedTip, bumpedFee).

(** [increaseGasPrice]: the gas estimation is asked with the two fee fields exchanged, as
    in the source, and without the value; when signing fails the old transaction is
    returned. *)
Definition increaseGasPrice (stx : SignedTx) (w : W) : result SignedTx * W :=
  let tx := s_tx stx in
  let '(caps, w1) := suggestGasPriceCaps w in
  match caps with
  | Err e => (Err e, w1)
  | Ok (tip, basefee) =>
      let '(bumpedTip, bumpedFee) := bumpedFees tx tip basefee in
      let '(gas, w2) := EstimateGas
        (mkCallMsg (cfg_From cfg) (tx_To tx) bumpedTip bumpedFee (tx_Data tx) None) w1 in
      match gas with
      | Err e => (Err e, w2)
      | Ok gas =>
          let rawTx := mkTx (tx_ChainID tx) (tx_Nonce tx) bumpedTip bumpedFee gas
                            (tx_To tx) (tx_Value tx) (tx_Data tx) in
          let '(newTx, w3) := signer (cfg_From cfg) rawTx w2 in
          match newTx with
          | Err _ => (Ok stx, w3)
          | Ok newTx => (Ok newTx, w3)
          end
      end
  end.

(** ** Crafting

    The manager's [nonce] field ([*uint64]) travels with the world. *)

Definition mstate : Type := option Z * W.

Definition nextNonce (m : mstate) : result Z * mstate :=
  match m.1 with
  | None =>
      let '(nonce, w1) := NonceAt (cfg_From cfg) m.2 in
      match nonce with
      | Err e => (Err (Errorf_w "failed to get nonce" e), (None, w1))
      | Ok n => (Ok n, (Some n, w1))
      end
  | Some n => (Ok (u64 (n + 1)), (Some (u64 (n + 1)), m.2))
  end.

Definition resetNonce (m : mstate) : mstate := (None, m.2).

(** The gas limit of [craftTx]: the candidate's when set, an estimate otherwise. *)
Definition craftGas (candidate : TxCandidate) (tip feeCap : Z) (w : W) : result Z * W :=
  if negb (c_GasLimit candidate =? 0) then (Ok (c_GasLimit candidate), w)
  else
    let '(gas, w1) := EstimateGas (mkCallMsg (cfg_From cfg) (c_To candidate) feeCap tip
                                     (c_TxData candidate) (c_Value candidate)) w in
    (wrap_err "failed to estimate gas" gas, w1).

Definition craftTx (candidate : TxCandidate) (m : mstate) : result SignedTx * mstate :=
  let '(caps, w1) := suggestGasPriceCaps m.2 in
  match caps with
  | Err e => (Err (Errorf_w "failed to get gas price info" e), (m.1, w1))
  | Ok (gasTipCap, basefee) =>
      let gasFeeCap := calcGasFeeCap basefee gasTipCap in
      let '(gas, w2) := craftGas candidate gasTipCap gasFeeCap w1 in
      match gas with
      | Err e => (Err e, (m.1, w2))
      | Ok gas =>
          let '(nonce, m3) := nextNonce (m.1, w2) in
          match nonce with
          | Err e => (Err e, m3)
          | Ok nonce =>
              let rawTx := mkTx (cfg_ChainID cfg) nonce gasTipCap gasFeeCap gas
                (c_To candidate) (c_Value candidate) (c_TxData candidate) in
              let '(signed, w4) := signer (cfg_From cfg) rawTx m3.2 in
              (signed, (m3.1, w4))
          end
      end
  end.

(** The context of [send] is the world's. *)
#[local] Instance mstate_ctx `{C : Ctx W} : Ctx mstate := {|
  ctx_Err m := ctx_Err m.2;
  sleep d m := (m.1, sleep d m.2)
|}.

(** The first part of [send]: up to ten attempts, two seconds apart. *)
Definition send_craft `{C : Ctx W} (candidate : TxCandidate) (m : mstate)
    : go (result SignedTx * mstate) :=
  '(r, m') ← Do (Fixed (2 * second)) (fun m => Ret (craftTx candidate m)) 10 m;
  Ret (wrap_err "failed to create the tx" r, m').

(** ** Goroutines of [sendTx]

    Where a [publishAndWaitForTx] goroutine stands. *)
Inductive pub : Type :=
| P_publish (stx : SignedTx)                          (* before SendTransaction *)
| P_published (stx : SignedTx) (err : option error)   (* before ProcessSendError *)
| P_wait (stx : SignedTx)                             (* the select of waitMined *)
| P_query (stx : SignedTx)                            (* queryReceipt, before TransactionReceipt *)
| P_lookedUp (stx : SignedTx) (r : result (option Receipt)) (* ... after it *)
| P_mined (stx : SignedTx) (r : Receipt)              (* ... after TxMined, before BlockNumber *)
| P_deliver (r : Receipt)                             (* before the send on receiptChan *)
| P_done.

(** Where [sendTx] itself stands. *)
Inductive main : Type :=
| M_select (tx : SignedTx)          (* the select of the loop *)
| M_tick (tx : SignedTx)            (* the ticker fired *)
| M_checked (tx : SignedTx)         (* IsWaitingForConfirmation was false *)
| M_bump (tx : SignedTx)            (* ShouldAbortImmediately was false *)
| M_bumped (tx : SignedTx) (newTx : result SignedTx)  (* increaseGasPrice returned *)
| M_return (r : result Receipt).    (* the deferred cancel and wg.Wait *)

Record sys := mkSys {
  sy_world : W;
  sy_state : SendState;
  sy_chan : option Receipt;    (* receiptChan, of capacity one *)
  sy_ctx : option error;       (* ctx.Err() *)
  sy_pubs : list pub;
  sy_main : main
}.

(** [sendTx] up to the loop. *)
Definition sendTx_init (tx : SignedTx) (w : W) : go sys :=
  st ← NewSendStateWithNow (cfg_SafeAbortNonceTooLowCount cfg) (cfg_TxNotInMempoolTimeout cfg) (time_Now w);
  Ret (mkSys w st None None [P_publish tx] (M_select tx)).

(** The confirmation test of [queryReceipt], on [uint64]s. *)
Definition confirmed_at (r : Receipt) (tipHeight : Z) : bool :=
  u64 (big_Uint64 (rc_BlockNumber r) + cfg_NumConfirmations cfg) <=? u64 (tipHeight + 1).

(** The next step of a publishing goroutine.  In [waitMined]'s select, [tick] chooses the
    ticker; the other case is taken only when the context is done. *)
Definition pub_step (tick : bool) (p : pub) (s : sys) : option (pub * sys) :=
  let with_world w := mkSys w (sy_state s) (sy_chan s) (sy_ctx s) (sy_pubs s) (sy_main s) in
  let with_state st := mkSys (sy_world s) st (sy_chan s) (sy_ctx s) (sy_pubs s) (sy_main s) in
  match p with
  | P_publish stx =>
      let '(err, w) := SendTransaction stx (sy_world s) in
      Some (P_published stx err, with_world w)
  | P_published stx err =>
      Some (match err with Some _ => P_done | None => P_wait stx end,
            with_state (ProcessSendError ErrNonceTooLow (Error_text <$> err) (sy_state s)))
  | P_wait stx =>
      if tick then Some (P_query stx, s)
      else match sy_ctx s with Some _ => Some (P_done, s) | None => None end
  | P_query stx =>
      let '(r, w) := TransactionReceipt (s_hash stx) (sy_world s) in
      Some (P_lookedUp stx r, with_world w)
  | P_lookedUp stx r =>
      match r with
      | Err e =>
          Some (P_wait stx,
                if errors_Is e NotFound then with_state (TxNotMined (s_hash stx) (sy_state s)) else s)
      | Ok None => Some (P_wait stx, s)
      | Ok (Some rc) => Some (P_mined stx rc, with_state (TxMined (s_hash stx) (sy_state s)))
      end
  | P_mined stx rc =>
      let '(tip, w) := BlockNumber (sy_world s) in
      Some (match tip with
            | Err _ => P_wait stx
            | Ok tipHeight => if confirmed_at rc tipHeight then P_deliver rc else P_wait stx
            end, with_world w)
  | P_deliver rc =>
      Some (P_done, mkSys (sy_world s) (sy_state s)
                      (match sy_chan s with None => Some rc | Some _ => sy_chan s end)
                      (sy_ctx s) (sy_pubs s) (sy_main s))
  | P_done => None
  end.

(** The select of [sendTx]'s loop. *)
Inductive select := S_ticker | S_ctx | S_receipt.

(** [context.Canceled], which the deferred [cancel] leaves in the context. *)
Definition Canceled : error := ErrorString "context canceled".

(** A return from the loop runs the deferred [cancel]. *)
Definition main_return (r : result Receipt) (s : sys) : sys :=
  mkSys (sy_world s) (sy_state s) (sy_chan s)
    (match sy_ctx s with None => Some Canceled | Some e => Some e end)
    (sy_pubs s) (M_return r).

Definition set_main (m : main) (s : sys) : sys :=
  mkSys (sy_world s) (sy_state s) (sy_chan s) (sy_ctx s) (sy_pubs s) m.

(** The next step of [sendTx]; [sel] chooses among the ready cases of the select. *)
Definition main_step (sel : select) (s : sys) : option sys :=
  match sy_main s with
  | M_select tx =>
      match sel with
      | S_ticker => Some (set_main (M_tick tx) s)
      | S_ctx => match sy_ctx s with
                 | Some e => Some (main_return (Err e) s)
                 | None => None
                 end
      | S_receipt => match sy_chan s with
                     | Some r => Some (main_return (Ok r)
                         (mkSys (sy_world s) (sy_state s) None (sy_ctx s) (sy_pubs s) (sy_main s)))
                     | None => None
                     end
      end
  | M_tick tx =>
      Some (set_main (if IsWaitingForConfirmation (sy_state s) then M_select tx else M_checked tx) s)
  | M_checked tx =>
      if ShouldAbortImmediately (time_Now (sy_world s)) (sy_state s)
      then Some (main_return (Err aborted) s)
      else Some (set_main (M_bump tx) s)
  | M_bump tx =>
      let '(newTx, w) := increaseGasPrice tx (sy_world s) in
      Some (mkSys w (sy_state s) (sy_chan s) (sy_ctx s) (sy_pubs s) (M_bumped tx newTx))
  | M_bumped tx newTx =>
      match newTx with
      | Err _ => Some (set_main (M_select tx) s)
      | Ok newTx =>
          if IsWaitingForConfirmation (sy_state s)
          then Some (set_main (M_select tx) s)
          else Some (mkSys (sy_world s) (sy_state s) (sy_chan s) (sy_ctx s)
                       (sy_pubs s ++ [P_publish newTx]) (M_select newTx))
      end
  | M_return _ => None
  end.

(** What may happen next: a goroutine moves, the caller's context is done, or the outside
    world changes. *)
Inductive action : Type :=
| a_pub (i : nat) (tick : bool)
| a_main (sel : select)
| a_ctx (e : error)
| a_world (w : W).

Definition step (a : action) (s : sys) : option sys :=
  match a with
  | a_pub i tick =>
      p ← sy_pubs s !! i;
      '(p', s') ← pub_step tick p s;
      Some (mkSys (sy_world s') (sy_state s') (sy_chan s') (sy_ctx s')
              (<[i := p']> (sy_pubs s')) (sy_main s'))
  | a_main sel => main_step sel s
  | a_ctx e => match sy_ctx s with
               | None => Some (mkSys (sy_world s) (sy_state s) (sy_chan s) (Some e) (sy_pubs s) (sy_main s))
               | Some _ => None
               end
  | a_world w => Some (mkSys w (sy_state s) (sy_chan s) (sy_ctx s) (sy_pubs s) (sy_main s))
  end.

Definition steps_to (s s' : sys) : Prop := ∃ a, step a s = Some s'.

(** [sendTx tx] started in world [w] may be in state [s]. *)
Definition sending (tx : SignedTx) (w : W) (s : sys) : Prop :=
  ∃ s0, sendTx_init tx w = Ret s0 ∧ rtc steps_to s0 s.

(** The same, when the outside world changes only as [outside] allows. *)
Definition allowed (outside : W → W → Prop) (a : action) (s : sys) : Prop :=
  match a with a_world w => outside (sy_world s) w | _ => True end.

Definition steps_in (outside : W → W → Prop) (s s' : sys) : Prop :=
  ∃ a, step a s = Some s' ∧ allowed outside a s.

Definition sending_in (outside : W → W → Prop) (tx : SignedTx) (w : W) (s : sys) : Prop :=
  ∃ s0, sendTx_init tx w = Ret s0 ∧ rtc (steps_in outside) s0 s.

Lemma sending_in_sending outside tx w s : sending_in outside tx w s → sending tx w s.
Proof.
  intros (s0 & Hi & Hr). exists s0. split; [done|].
  eapply rtc_subrel; [|exact Hr]. intros s1 s2 (a & Ha & _). by exists a.
Qed.

(** [sendTx] has returned [r]: the loop is left and [wg.Wait] is over. *)
Definition returned (r : result Receipt) (s : sys) : Prop :=
  sy_main s = M_return r ∧ Forall (eq P_done) (sy_pubs s).

(** [Send]: craft, send, and forget the nonce after any error. *)
Inductive Sends `{C : Ctx W} (outside : W → W → Prop) (candidate : TxCandidate) (m : mstate) : result Receipt → mstate → Prop :=
| Sends_uncrafted e m' :
    send_craft candidate m = Ret (Err e, m') →
    Sends outside candidate m (Err e) (resetNonce m')
| Sends_sent stx m' r s :
    send_craft candidate m = Ret (Ok stx, m') →
    sending_in outside stx m'.2 s → returned r s →
    Sends outside candidate m r
      (match r with Ok _ => (m'.1, sy_world s) | Err _ => (None, sy_world s) end).

(** ** Lemmas on fees *)

Lemma calcThresholdValue_mono x y : x <= y → calcThresholdValue x <= calcThresholdValue y.
Proof. unfold calcThresholdValue. intros H. apply Z.div_le_mono; [done|]. unfold priceBumpPercent, priceBump. lia. Qed.

(** The threshold is the ten percent bump rounded down, so it is strictly monotone. *)
Lemma calcThresholdValue_strict x y : x < y → calcThresholdValue x < calcThresholdValue y.
Proof.
  unfold calcThresholdValue, priceBumpPercent, priceBump, oneHundred. intros H.
  Z.div_mod_to_equations. lia.
Qed.

Lemma calcThresholdValue_bounds x :
  100 * calcThresholdValue x <= 110 * x < 100 * calcThresholdValue x + 100.
Proof.
  unfold calcThresholdValue, priceBumpPercent, priceBump, oneHundred.
  Z.div_mod_to_equations. lia.
Qed.

Lemma updateFees_spec oldTip oldFee newTip newBase :
  let '(t, f) := updateFees oldTip oldFee newTip newBase in
  (t = newTip ∧ calcThresholdValue oldTip <= newTip ∨
   t = calcThresholdValue oldTip ∧ newTip < calcThresholdValue oldTip) ∧
  f = Z.max (calcThresholdValue oldFee) (calcGasFeeCap newBase newTip) ∨
  t = calcThresholdValue oldTip ∧ newTip < t ∧ f = calcGasFeeCap newBase t ∧
  calcThresholdValue oldFee <= calcGasFeeCap newBase newTip.
Proof.
  unfold updateFees. repeat case_match; zbool; simplify_eq;
    repeat match goal with H : _ && _ = false |- _ => apply andb_false_iff in H as [H|H] end;
    zbool; lia.
Qed.

Lemma bumpedFees_strict tx tip basefee :
  0 <= tip → 0 < basefee → tx_GasTipCap tx < tx_GasFeeCap tx →
  (bumpedFees tx tip basefee).1 < (bumpedFees tx tip basefee).2.
Proof.
  intros Ht Hb Hlt. unfold bumpedFees.
  pose proof (updateFees_spec (tx_GasTipCap tx) (tx_GasFeeCap tx) tip basefee) as Hs.
  pose proof (calcThresholdValue_strict _ _ Hlt).
  destruct (updateFees _ _ _ _) as [t f].
  assert (t < f) by (unfold calcGasFeeCap in *; lia).
  unfold calcGasFeeCap, feeLimitMultiplier. cbn.
  destruct (t >? _) eqn:?, (f >? _) eqn:?; zbool; lia.
Qed.

(** What [increaseGasPrice] returns, when it returns a transaction. *)
Lemma increaseGasPrice_inv stx w stx' w' :
  increaseGasPrice stx w = (Ok stx', w') →
  stx' = stx ∨
  ∃ tip basefee w1 gas w2,
    suggestGasPriceCaps w = (Ok (tip, basefee), w1) ∧
    EstimateGas (mkCallMsg (cfg_From cfg) (tx_To (s_tx stx))
      (bumpedFees (s_tx stx) tip basefee).1 (bumpedFees (s_tx stx) tip basefee).2
      (tx_Data (s_tx stx)) None) w1 = (Ok gas, w2) ∧
    signer (cfg_From cfg)
      (mkTx (tx_ChainID (s_tx stx)) (tx_Nonce (s_tx stx))
        (bumpedFees (s_tx stx) tip basefee).1 (bumpedFees (s_tx stx) tip basefee).2 gas
        (tx_To (s_tx stx)) (tx_Value (s_tx stx)) (tx_Data (s_tx stx))) w2 = (Ok stx', w').
Proof.
  unfold increaseGasPrice. destruct (suggestGasPriceCaps w) as [[[tip bf]|e] w1] eqn:Hs; [|done].
  destruct (bumpedFees _ _ _) as [t f] eqn:Hb.
  destruct (EstimateGas _ _) as [[gas|e] w2] eqn:He; [|done].
  destruct (signer _ _ _) as [[n|e] w3] eqn:Hsg; intros [= <- <-]; [right|by left].
  exists tip, bf, w1, gas, w2. rewrite Hb. done.
Qed.

(** ** The call of a transaction, which resubmission keeps *)

Definition same_call (t t' : Transaction) : Prop :=
  tx_ChainID t' = tx_ChainID t ∧ tx_Nonce t' = tx_Nonce t ∧ tx_To t' = tx_To t ∧
  tx_Value t' = tx_Value t ∧ tx_Data t' = tx_Data t.

#[local] Instance same_call_equiv : Equivalence same_call.
Proof.
  split; unfold same_call; [done|intros x y (?&?&?&?&?)|intros x y z (?&?&?&?&?) (?&?&?&?&?)];
    repeat split; congruence.
Qed.

(** The transaction makes the call of the candidate, with nonce [n]. *)
Definition call_of (c : TxCandidate) (n : Z) (t : Transaction) : Prop :=
  tx_ChainID t = cfg_ChainID cfg ∧ tx_Nonce t = n ∧ tx_To t = c_To c ∧
  tx_Value t = c_Value c ∧ tx_Data t = c_TxData c.

Lemma call_of_same c n t t' : call_of c n t → same_call t t' → call_of c n t'.
Proof. unfold call_of, same_call. intros (?&?&?&?&?) (?&?&?&?&?). split_and!; congruence. Qed.

Lemma increaseGasPrice_same_call stx w stx' w' :
  signer_signs W → increaseGasPrice stx w = (Ok stx', w') →
  same_call (s_tx stx) (s_tx stx').
Proof.
  intros Hsig [->|(tip & bf & w1 & gas & w2 & _ & _ & Hs)]%increaseGasPrice_inv; [reflexivity|].
  apply Hsig in Hs. rewrite Hs. done.
Qed.

(** ** Invariant of the sending system *)

Section Invariant.
Context (tx0 : Transaction).

(** [stx] is the transaction of this send, perhaps with other fees, and the backend has
    given [r] as its receipt. *)
Definition receipt_of (r : Receipt) : Prop :=
  ∃ stx w w', same_call tx0 (s_tx stx) ∧ TransactionReceipt (s_hash stx) w = (Ok (Some r), w').

(** ... and the chain's height has confirmed it. *)
Definition confirmed (r : Receipt) : Prop :=
  receipt_of r ∧ ∃ tip w w', BlockNumber w = (Ok tip, w') ∧ confirmed_at r tip = true.

Definition pub_ok (p : pub) : Prop :=
  match p with
  | P_publish stx | P_published stx _ | P_wait stx | P_query stx => same_call tx0 (s_tx stx)
  | P_lookedUp stx r =>
      same_call tx0 (s_tx stx) ∧ match r with Ok (Some rc) => receipt_of rc | _ => True end
  | P_mined stx rc => same_call tx0 (s_tx stx) ∧ receipt_of rc
  | P_deliver rc => confirmed rc
  | P_done => True
  end.

Definition main_ok (ctx : option error) (m : main) : Prop :=
  match m with
  | M_select tx | M_tick tx | M_checked tx | M_bump tx => same_call tx0 (s_tx tx)
  | M_bumped tx r =>
      same_call tx0 (s_tx tx) ∧ match r with Ok tx' => same_call tx0 (s_tx tx') | _ => True end
  | M_return r =>
      is_Some ctx ∧
      match r with Ok rc => confirmed rc | Err e => e = aborted ∨ ctx = Some e end
  end.

Definition sys_ok (s : sys) : Prop :=
  Forall pub_ok (sy_pubs s) ∧ main_ok (sy_ctx s) (sy_main s) ∧
  match sy_chan s with Some r => confirmed r | None => True end.

(** A goroutine keeps its own part, and touches the main loop's only through the channel. *)
Lemma pub_step_ok tick p s p' s' :
  pub_ok p → sys_ok s → pub_step tick p s = Some (p', s') →
  pub_ok p' ∧ sys_ok s' ∧ sy_pubs s' = sy_pubs s ∧ sy_main s' = sy_main s ∧ sy_ctx s' = sy_ctx s.
Proof.
  intros Hp Hs Hstep.
  assert (Hkeep : ∀ w st, sys_ok (mkSys w st (sy_chan s) (sy_ctx s) (sy_pubs s) (sy_main s)))
    by (intros; exact Hs).
  destruct p as [stx|stx err|stx|stx|stx [[rc|]|e]|stx rc|rc|]; cbn in Hstep, Hp.
  - destruct (SendTransaction _ _) as [err w]. by simplify_eq.
  - destruct err; by simplify_eq.
  - destruct tick; [by simplify_eq|]. destruct (sy_ctx s) eqn:?; by simplify_eq.
  - destruct (TransactionReceipt _ _) as [[[rc|]|e] w] eqn:Hr; simplify_eq; [|done|done].
    repeat split; try apply Hs; try apply Hp. by exists stx, (sy_world s), w.
  - simplify_eq. naive_solver.
  - simplify_eq. naive_solver.
  - destruct (errors_Is _ _); simplify_eq; naive_solver.
  - destruct (BlockNumber _) as [[tip|e] w] eqn:Hb; simplify_eq; [|naive_solver].
    destruct (confirmed_at rc tip) eqn:Hc; simplify_eq; [|naive_solver].
    repeat split; try apply Hs; [apply Hp|]. by exists tip, (sy_world s), w.
  - simplify_eq. destruct Hs as (H1 & H2 & H3). repeat split; try done.
    cbn. by destruct (sy_chan s).
  - done.
Qed.

Lemma main_step_ok sel s s' :
  signer_signs W → sys_ok s → main_step sel s = Some s' → sys_ok s'.
Proof.
  intros Hsig (Hp & Hm & Hc) Hstep. unfold main_step in Hstep.
  destruct (sy_main s) as [tx|tx|tx|tx|tx newTx|r]; cbn in Hm.
  - destruct sel; [by simplify_eq|destruct (sy_ctx s) eqn:Hx|destruct (sy_chan s) eqn:Hx];
      simplify_eq.
    + split; [done|]. cbn. rewrite Hx. by eauto.
    + split; [done|]. cbn. split; [|done]. split; [|done]. by destruct (sy_ctx s).
  - simplify_eq. split; [done|]. split; [|done]. cbn. by destruct (IsWaitingForConfirmation _).
  - destruct (ShouldAbortImmediately _ _); simplify_eq; [|done].
    split; [done|]. split; [|done]. split; [|by left]. cbn; by destruct (sy_ctx s).
  - destruct (increaseGasPrice _ _) as [newTx w] eqn:Hi. simplify_eq.
    split; [done|]. split; [|done]. split; [done|]. destruct newTx as [tx'|]; [|done].
    etransitivity; [exact Hm|]. by eapply increaseGasPrice_same_call.
  - destruct Hm as [Hm1 Hm2]. destruct newTx as [newTx|e]; [|by simplify_eq].
    destruct (IsWaitingForConfirmation _); simplify_eq; [done|].
    split; [|done]. apply Forall_snoc. done.
  - done.
Qed.

Lemma step_ok a s s' : signer_signs W → sys_ok s → step a s = Some s' → sys_ok s'.
Proof.
  intros Hsig Hs Hstep. destruct a as [i tick|sel|e|w]; cbn in Hstep.
  - destruct (sy_pubs s !! i) as [p|] eqn:Hi; [|done]. cbn in Hstep.
    destruct (pub_step tick p s) as [[p' s1]|] eqn:Hp; [|done]. cbn in Hstep. simplify_eq.
    apply pub_step_ok in Hp as (Hp' & (H1 & H2 & H3) & Heq & _); [| |done].
    2: { eapply Forall_lookup_1; [apply Hs|exact Hi]. }
    repeat split; cbn; [|done|done]. by apply Forall_insert.
  - by eapply main_step_ok.
  - destruct (sy_ctx s) eqn:Hx; [done|]. simplify_eq. destruct Hs as (H1 & H2 & H3).
    repeat split; try done. cbn. destruct (sy_main s) as [| | | | |r]; try done.
    destruct H2 as [H2 _]. rewrite Hx in H2. by destruct H2.
  - by simplify_eq.
Qed.

End Invariant.

Lemma sending_ok tx w s : signer_signs W → sending tx w s → sys_ok (s_tx tx) s.
Proof.
  intros Hsig (s0 & Hi & Hr).
  assert (sys_ok (s_tx tx) s0) as H0.
  { unfold sendTx_init in Hi. destruct (NewSendStateWithNow _ _ _) as [st|]; [|done].
    cbn in Hi. injection Hi as <-. repeat split; cbn; try done. by apply Forall_singleton. }
  clear Hi. induction Hr as [s|s1 s2 s3 [a Ha] _ IH]; [done|].
  apply IH. by eapply step_ok.
Qed.

(** ** Termination of the goroutines

    The steps a goroutine still needs once the context is done. *)
Definition rank (p : pub) : nat :=
  match p with
  | P_done => 0
  | P_wait _ | P_deliver _ => 1
  | P_mined _ _ | P_published _ _ => 2
  | P_lookedUp _ _ | P_publish _ => 3
  | P_query _ => 4
  end.

Lemma pub_step_rank p s :
  is_Some (sy_ctx s) → p ≠ P_done →
  ∃ p' s', pub_step false p s = Some (p', s') ∧ (rank p' < rank p)%nat ∧
    sy_pubs s' = sy_pubs s ∧ sy_main s' = sy_main s ∧ sy_ctx s' = sy_ctx s.
Proof.
  intros [e He] Hp. destruct p; cbn; rewrite ?He; try done;
    repeat case_match; eexists _, _; (split; [reflexivity|]); cbn; split_and!; try done; lia.
Qed.

(** Once the context is done a goroutine can run to its end, and that disturbs neither the
    main loop nor the other goroutines. *)
Lemma pub_finishes i k : ∀ p s,
  (rank p <= k)%nat → is_Some (sy_ctx s) → sy_pubs s !! i = Some p →
  ∃ s', rtc steps_to s s' ∧ sy_pubs s' = <[i := P_done]> (sy_pubs s) ∧
        sy_main s' = sy_main s ∧ sy_ctx s' = sy_ctx s.
Proof.
  induction k as [|k IH]; intros p s Hk Hctx Hi.
  { destruct p; cbn in Hk; try lia. exists s. by rewrite list_insert_id. }
  assert (p = P_done ∨ p ≠ P_done) as [->|Hne] by (destruct p; auto).
  { exists s. by rewrite list_insert_id. }
  destruct (pub_step_rank p s Hctx Hne) as (p' & s1 & Hp & Hr & Hp1 & Hm1 & Hc1).
  destruct (IH p' (mkSys (sy_world s1) (sy_state s1) (sy_chan s1) (sy_ctx s1)
      (<[i := p']> (sy_pubs s1)) (sy_main s1))) as (s' & Hs' & Hps & Hm & Hc); cbn in *.
  { lia. }
  { by rewrite Hc1. }
  { apply list_lookup_insert_eq. rewrite Hp1. by eapply lookup_lt_Some. }
  exists s'. rewrite Hps, Hm, Hc, Hp1, list_insert_insert_eq. split_and!; try done.
  eapply rtc_l; [|exact Hs']. exists (a_pub i false). cbn. rewrite Hi. cbn. by rewrite Hp.
Qed.

(** All of them, one after the other. *)
Lemma pubs_finish k : ∀ s,
  (k <= length (sy_pubs s))%nat → is_Some (sy_ctx s) →
  ∃ s', rtc steps_to s s' ∧ Forall (eq P_done) (take k (sy_pubs s')) ∧
        length (sy_pubs s') = length (sy_pubs s) ∧ sy_main s' = sy_main s ∧ sy_ctx s' = sy_ctx s.
Proof.
  induction k as [|k IH]; intros s Hk Hctx; [by exists s; rewrite take_0|].
  destruct (IH s ltac:(lia) Hctx) as (s1 & Hs1 & Hd & Hl & Hm & Hc).
  destruct (lookup_lt_is_Some_2 (sy_pubs s1) k ltac:(lia)) as [p Hp].
  destruct (pub_finishes k (rank p) p s1) as (s2 & Hs2 & Hps & Hm2 & Hc2);
    [lia|by rewrite Hc|done|].
  exists s2. rewrite Hps, Hm2, Hc2, length_insert. split_and!; try done.
  { by etransitivity. }
  rewrite (take_S_r _ _ P_done) by (apply list_lookup_insert_eq; lia).
  apply Forall_snoc. split; [|done]. by rewrite take_insert_ge.
Qed.

(** No goroutine starts again: a finished one has no step. *)
Lemma pub_done_stays tick s : pub_step tick P_done s = None.
Proof. done. Qed.

(** ** Crafting *)

Lemma craftTx_spec candidate m r m' :
  craftTx candidate m = (r, m') →
  match r with
  | Ok stx => ∃ n, m'.1 = Some n ∧ ∃ tip basefee gas w1 w2,
      suggestGasPriceCaps m.2 = (Ok (tip, basefee), w1) ∧
      signer (cfg_From cfg) (mkTx (cfg_ChainID cfg) n tip (calcGasFeeCap basefee tip) gas
        (c_To candidate) (c_Value candidate) (c_TxData candidate)) w2 = (Ok stx, m'.2) ∧
      (c_GasLimit candidate ≠ 0 → gas = c_GasLimit candidate) ∧
      (∀ n0, m.1 = Some n0 → n = u64 (n0 + 1))
  | Err _ => m'.1 = m.1 ∨ ∃ n t w2 e, m'.1 = Some n ∧ signer (cfg_From cfg) t w2 = (Err e, m'.2) ∧
      (∀ n0, m.1 = Some n0 → n = u64 (n0 + 1))
  end.
Proof.
  unfold craftTx. destruct (suggestGasPriceCaps m.2) as [[[tip bf]|e] w1] eqn:Hs;
    [|intros [= <- <-]; by left].
  destruct (craftGas _ _ _ _) as [[gas|e] w2] eqn:Hg; [|intros [= <- <-]; by left].
  assert (Hgas : c_GasLimit candidate ≠ 0 → gas = c_GasLimit candidate).
  { intros Hne. unfold craftGas in Hg. rewrite (proj2 (Z.eqb_neq _ _) Hne) in Hg.
    cbn in Hg. by injection Hg. }
  destruct (nextNonce (m.1, w2)) as [[n|e] m3] eqn:Hn.
  2: { intros [= <- <-]. left. unfold nextNonce in Hn. cbn in Hn.
       destruct m.1; [done|]. destruct (NonceAt _ _) as [[?|?] ?]; by simplify_eq. }
  assert (m3.1 = Some n ∧ ∀ n0, m.1 = Some n0 → n = u64 (n0 + 1)) as [Hn1 Hn2].
  { unfold nextNonce in Hn. cbn in Hn. destruct m.1 as [n0|].
    - simplify_eq. split; [done|]. intros n1 ?. by simplify_eq.
    - destruct (NonceAt _ _) as [[?|?] ?]; by simplify_eq. }
  destruct (signer _ _ _) as [[stx|e] w4] eqn:Hsg; intros [= <- <-].
  - exists n. split; [done|]. by exists tip, bf, gas, w1, m3.2.
  - right. eexists n, _, m3.2, e. split; [done|]. split; [exact Hsg|done].
Qed.

(** ** Theorems *)

(** [updateFees] keeps its three promises for any fees: (a) the tip and the fee cap are
    no lower than the old ones raised by ten percent (rounded down, so a value below ten is
    not raised at all); (b) the tip is no lower than the new tip; (c) the fee cap is no lower
    than the one computed from the new base fee and tip.  A fee cap that covered its tip
    still does. *)
Theorem updateFees_guarantees oldTip oldFeeCap newTip newBaseFee :
  0 <= newBaseFee → oldTip <= oldFeeCap →
  let '(tip, feeCap) := updateFees oldTip oldFeeCap newTip newBaseFee in
  110 * oldTip < 100 * (tip + 1) ∧ 110 * oldFeeCap < 100 * (feeCap + 1) ∧
  newTip <= tip ∧ calcGasFeeCap newBaseFee newTip <= feeCap ∧ tip <= feeCap.
Proof.
  intros Hb Hle.
  pose proof (updateFees_spec oldTip oldFeeCap newTip newBaseFee) as Hs.
  pose proof (calcThresholdValue_mono _ _ Hle).
  pose proof (calcThresholdValue_bounds oldTip). pose proof (calcThresholdValue_bounds oldFeeCap).
  destruct (updateFees _ _ _ _) as [t f]. unfold calcGasFeeCap in *. lia.
Qed.

(** C37: a transaction that [increaseGasPrice] returns makes the same call with the same
    nonce, and unless it is the old one (the signer failed) its fees are at least the
    suggested ones, at most five times the suggested ones, and at least the ten percent bump
    wherever that is under the limit. *)
Theorem increaseGasPrice_bounds stx w stx' w' :
  signer_signs W → increaseGasPrice stx w = (Ok stx', w') →
  same_call (s_tx stx) (s_tx stx') ∧
  (stx' = stx ∨ ∃ tip basefee w1, suggestGasPriceCaps w = (Ok (tip, basefee), w1) ∧
    (0 <= tip → 0 <= basefee → tx_GasTipCap (s_tx stx) <= tx_GasFeeCap (s_tx stx) →
     let t := tx_GasTipCap (s_tx stx') in let f := tx_GasFeeCap (s_tx stx') in
     tip <= t <= 5 * tip ∧ calcGasFeeCap basefee tip <= f <= 5 * tip + 10 * basefee ∧ t <= f ∧
     Z.min (calcThresholdValue (tx_GasTipCap (s_tx stx))) (5 * tip) <= t ∧
     Z.min (calcThresholdValue (tx_GasFeeCap (s_tx stx))) (5 * tip + 10 * basefee) <= f)).
Proof.
  intros Hsig Hi. split; [by eapply increaseGasPrice_same_call|].
  apply increaseGasPrice_inv in Hi as [->|(tip & bf & w1 & gas & w2 & Hs & _ & Hsg)]; [by left|].
  right. exists tip, bf, w1. split; [done|]. intros Ht Hb Hle. apply Hsig in Hsg. rewrite Hsg. cbn.
  unfold bumpedFees.
  pose proof (updateFees_spec (tx_GasTipCap (s_tx stx)) (tx_GasFeeCap (s_tx stx)) tip bf) as Hu.
  pose proof (calcThresholdValue_mono _ _ Hle).
  destruct (updateFees _ _ _ _) as [t f]. unfold calcGasFeeCap, feeLimitMultiplier in *. cbn.
  destruct (t >? _) eqn:?, (f >? _) eqn:?; zbool; lia.
Qed.

(** C6: every transaction the manager hands to the backend while sending makes the same
    call with the same nonce as the first one, so at most one of them can take effect. *)
Theorem sendTx_one_nonce tx w s i stx :
  signer_signs W → sending tx w s → sy_pubs s !! i = Some (P_publish stx) →
  same_call (s_tx tx) (s_tx stx).
Proof.
  intros Hsig Hs Hi. destruct (sending_ok _ _ _ Hsig Hs) as (Hp & _ & _).
  eapply Forall_lookup_1 in Hp; [|exact Hi]. exact Hp.
Qed.

(** While a transaction of the send is known to be mined, the loop neither publishes
    another one nor aborts: a step that adds a publishing goroutine or returns [aborted]
    happens only when no transaction is known to be mined. *)
Theorem resubmission_guard a s s' :
  step a s = Some s' →
  (length (sy_pubs s) < length (sy_pubs s'))%nat ∨
    (sy_main s' = M_return (Err aborted) ∧ sy_main s ≠ sy_main s' ∧ sy_ctx s ≠ Some aborted) →
  minedTxs (sy_state s) = ∅.
Proof.
  intros Hstep Hor. destruct a as [i tick|sel|e|w]; cbn in Hstep.
  - destruct (sy_pubs s !! i) as [p|]; [|done]. cbn in Hstep.
    destruct (pub_step tick p s) as [[p' s1]|] eqn:Hp; [|done]. cbn in Hstep. simplify_eq.
    assert (sy_pubs s1 = sy_pubs s ∧ sy_main s1 = sy_main s) as [H1 H2].
    { unfold pub_step in Hp. repeat case_match; by simplify_eq. }
    cbn in Hor. rewrite length_insert, H1, H2 in Hor. destruct Hor as [?|(_ & ? & _)]; [lia|done].
  - unfold main_step in Hstep.
    assert (Hw : IsWaitingForConfirmation (sy_state s) = false → minedTxs (sy_state s) = ∅).
    { intros Hf. destruct (decide (minedTxs (sy_state s) = ∅)) as [|Hne]; [done|].
      apply waiting_iff in Hne. congruence. }
    destruct (sy_main s) as [tx|tx|tx|tx|tx newTx|r] eqn:Hm; cbn in Hstep.
    + destruct sel; [|destruct (sy_ctx s) eqn:?|destruct (sy_chan s) eqn:?]; simplify_eq; cbn in Hor.
      all: destruct Hor as [?|(Heq & _ & ?)]; try lia; naive_solver.
    + simplify_eq. cbn in Hor. destruct Hor as [?|[? _]]; [lia|]. by case_match.
    + apply Hw. destruct (ShouldAbortImmediately _ _) eqn:Ha.
      * unfold ShouldAbortImmediately in Ha. unfold IsWaitingForConfirmation.
        by destruct (bool_decide _).
      * simplify_eq. cbn in Hor. destruct Hor as [?|[? _]]; [lia|done].
    + destruct (increaseGasPrice _ _). simplify_eq. cbn in Hor. destruct Hor as [?|[? _]]; [lia|done].
    + destruct newTx as [newTx|e]; [destruct (IsWaitingForConfirmation _) eqn:Hwait|].
      * simplify_eq. cbn in Hor. destruct Hor as [?|[? _]]; [lia|done].
      * by apply Hw.
      * simplify_eq. cbn in Hor. destruct Hor as [?|[? _]]; [lia|done].
    + done.
  - destruct (sy_ctx s); simplify_eq. cbn in Hor. destruct Hor as [?|(_ & ? & _)]; [lia|done].
  - simplify_eq. cbn in Hor. destruct Hor as [?|(_ & ? & _)]; [lia|done].
Qed.

(** Leaving the loop is enough to return: the deferred [cancel] lets every goroutine come to its
    end, in any state they are in. *)
Lemma left_loop_finishes tx w s r :
  signer_signs W → sending tx w s → sy_main s = M_return r →
  ∃ s', rtc steps_to s s' ∧ returned r s'.
Proof.
  intros Hsig Hs Hm. destruct (sending_ok _ _ _ Hsig Hs) as (_ & Hok & _). rewrite Hm in Hok.
  destruct (pubs_finish (length (sy_pubs s)) s ltac:(lia) (proj1 Hok)) as (s' & Hr & Hd & Hl & Hm' & _).
  exists s'. split; [done|]. split; [by rewrite Hm', Hm|]. by rewrite <- Hl, firstn_all in Hd.
Qed.

Lemma sending_rtc tx w s s' : sending tx w s → rtc steps_to s s' → sending tx w s'.
Proof. intros (s0 & Hi & H0) Hr. exists s0. split; [done|]. by etransitivity. Qed.

(** A goroutine that is waiting for a transaction that the node has confirmed delivers its
    receipt, if the channel has room, without the main loop moving. *)
Lemma pub_delivers i stx rc w1 tip w2 s :
  sy_pubs s !! i = Some (P_wait stx) → TransactionReceipt (s_hash stx) (sy_world s) = (Ok (Some rc), w1) →
  BlockNumber w1 = (Ok tip, w2) → confirmed_at rc tip = true →
  ∃ s', rtc steps_to s s' ∧ sy_main s' = sy_main s ∧
    sy_chan s' = match sy_chan s with None => Some rc | Some r => Some r end.
Proof.
  intros Hp Hr Hb Hc. pose proof (lookup_lt_Some _ _ _ Hp) as Hi. destruct s as [w st ch ctx pubs m]. cbn in *.
  eexists. split; [|split].
  - eapply rtc_l; [exists (a_pub i true); cbn; rewrite Hp; cbn; reflexivity|].
    eapply rtc_l; [exists (a_pub i true); cbn; rewrite list_lookup_insert_eq by done; cbn; rewrite Hr; cbn; reflexivity|].
    eapply rtc_l; [exists (a_pub i true); cbn; rewrite list_lookup_insert_eq by (by rewrite length_insert); cbn; reflexivity|].
    eapply rtc_l; [exists (a_pub i true); cbn; rewrite list_lookup_insert_eq by (by rewrite !length_insert); cbn; rewrite Hb; cbn; rewrite Hc; reflexivity|].
    apply rtc_once. exists (a_pub i true). cbn. rewrite list_lookup_insert_eq by (by rewrite !length_insert). cbn. reflexivity.
  - done.
  - cbn. by destruct ch.
Qed.

(** C7: Sending can always come to its end.  Once the loop is left, whatever the goroutines are
    doing, they can all end and [sendTx] returns the result it left the loop with; and while
    the loop is in its select, as soon as the node has a confirmed receipt for one of the
    published transactions, [sendTx] can return a receipt without any further help of the
    node, the ticker or the caller. *)
Theorem sendTx_can_finish tx w s : signer_signs W → sending tx w s →
  (∀ r, sy_main s = M_return r → ∃ s', rtc steps_to s s' ∧ sending tx w s' ∧ returned r s') ∧
  (∀ cur i stx rc w1 tip w2, sy_main s = M_select cur → sy_pubs s !! i = Some (P_wait stx) →
     TransactionReceipt (s_hash stx) (sy_world s) = (Ok (Some rc), w1) → BlockNumber w1 = (Ok tip, w2) → confirmed_at rc tip = true →
     ∃ rc' s', rtc steps_to s s' ∧ sending tx w s' ∧ returned (Ok rc') s').
Proof.
  intros Hsig Hs. split.
  - intros r Hm. destruct (left_loop_finishes _ _ _ _ Hsig Hs Hm) as (s' & Hr & Hd). exists s'. eauto using sending_rtc.
  - intros cur i stx rc w1 tip w2 Hm Hp Hr Hb Hc. destruct (pub_delivers _ _ _ _ _ _ _ Hp Hr Hb Hc) as (s1 & H1 & Hm1 & Hch).
    assert (Hrc : ∃ rc', sy_chan s1 = Some rc') by (destruct (sy_chan s); eauto). destruct Hrc as [rc' Hrc].
    rewrite Hm in Hm1. set (s2 := main_return (Ok rc') (mkSys (sy_world s1) (sy_state s1) None (sy_ctx s1) (sy_pubs s1) (sy_main s1))).
    assert (H2 : rtc steps_to s s2).
    { eapply rtc_r; [exact H1|]. exists (a_main S_receipt). cbn [step]. unfold main_step. by rewrite Hm1, Hrc. }
    destruct (left_loop_finishes tx w s2 (Ok rc') Hsig (sending_rtc _ _ _ _ Hs H2) eq_refl) as (s' & H3 & Hd).
    exists rc', s'. assert (H4 : rtc steps_to s s') by (by etransitivity). eauto using sending_rtc.
Qed.

(** A crafted transaction is the candidate's call, with the suggested tip, the fee cap
    [tip + 2 * basefee], the candidate's gas limit when it has one, and the nonce the
    manager remembers, which is the successor of the previous one.  A failure leaves the
    nonce alone unless it is the signer that failed. *)
Theorem craftTx_correct candidate m r m' :
  signer_signs W → craftTx candidate m = (r, m') →
  match r with
  | Ok stx =>
      let t := s_tx stx in
      tx_To t = c_To candidate ∧ tx_Value t = c_Value candidate ∧ tx_Data t = c_TxData candidate ∧
      (c_GasLimit candidate ≠ 0 → tx_Gas t = c_GasLimit candidate) ∧
      (∃ basefee w1, suggestGasPriceCaps m.2 = (Ok (tx_GasTipCap t, basefee), w1) ∧
         tx_GasFeeCap t = tx_GasTipCap t + 2 * basefee) ∧
      m'.1 = Some (tx_Nonce t) ∧ (∀ n, m.1 = Some n → tx_Nonce t = u64 (n + 1))
  | Err _ =>
      m'.1 = m.1 ∨ ∃ t w1 e n, signer (cfg_From cfg) t w1 = (Err e, m'.2) ∧ m'.1 = Some n ∧
        (∀ n0, m.1 = Some n0 → n = u64 (n0 + 1))
  end.
Proof.
  intros Hsig Hc%craftTx_spec. destruct r as [stx|e].
  - destruct Hc as (n & Hn & tip & bf & gas & w1 & w2 & Hs & Hsg & Hgas & Hnext).
    apply Hsig in Hsg. cbn zeta. rewrite Hsg. cbn. split_and!; try done.
    exists bf, w1. split; [done|]. unfold calcGasFeeCap. lia.
  - destruct Hc as [|(n & t & w2 & e' & Hn & Hsg & Hnext)]; [by left|]. right. by exists t, w2, e', n.
Qed.

Lemma send_craft_ok `{C : Ctx W} candidate m stx m' :
  send_craft candidate m = Ret (Ok stx, m') →
  ∃ m1, craftTx candidate m1 = (Ok stx, m').
Proof.
  unfold send_craft. intros H.
  destruct (Do _ _ 10 m) as [[[v|e] m1]|] eqn:Hd; cbn in H; [|done|done]. simplify_eq.
  change (Do (C := mstate_ctx) (Fixed (2 * second)) (λ m0, Ret (craftTx candidate m0)) 10 m)
    with (Do_loop (C := mstate_ctx) (Fixed (2 * second)) (λ m0, Ret (craftTx candidate m0)) 10
            (Z.to_nat 10) (Z.of_nat 0) (FmtError "") m) in Hd.
  apply (Do_loop_spec (C := mstate_ctx) _ _ 10 _ 0 m) in Hd as (k & m2 & _ & _ & _ & Ho);
    [|done|by left|done].
  exists m2. by injection Ho.
Qed.

(** C38: the gas estimation of a resubmission is asked with the fee cap and the tip cap
    exchanged.  A backend that, as go-ethereum does, refuses a message whose tip cap is above
    its fee cap therefore fails every resubmission: however often the ticker fires, nothing
    but the first transaction is ever published. *)
Theorem bump_never_published tx w s :
  (∀ msg w, cm_GasFeeCap msg < cm_GasTipCap msg → ∃ e w', EstimateGas msg w = (Err e, w')) →
  (∀ w tip bf w', suggestGasPriceCaps w = (Ok (tip, bf), w') → 0 <= tip ∧ 0 < bf) →
  tx_GasTipCap (s_tx tx) < tx_GasFeeCap (s_tx tx) →
  sending tx w s → length (sy_pubs s) = 1%nat.
Proof.
  intros Hest Hsug Hlt (s0 & Hi & Hr).
  set (inv := fun s : sys => length (sy_pubs s) = 1%nat ∧
    match sy_main s with
    | M_select t | M_tick t | M_checked t | M_bump t => t = tx
    | M_bumped t r => t = tx ∧ ∃ e, r = Err e
    | M_return _ => True
    end).
  assert (inv s0) as H0.
  { unfold sendTx_init in Hi. destruct (NewSendStateWithNow _ _ _); [|done].
    cbn in Hi. injection Hi as <-. by split. }
  enough (inv s) by apply H. clear Hi.
  induction Hr as [s|s1 s2 s3 [a Ha] _ IH]; [done|]. apply IH. clear IH.
  destruct H0 as [Hl Hm]. destruct a as [i tick|sel|e|w1]; cbn in Ha.
  - destruct (sy_pubs s1 !! i) as [p|]; [|done]. cbn in Ha.
    destruct (pub_step tick p s1) as [[p' s']|] eqn:Hp; [|done]. cbn in Ha. simplify_eq.
    assert (sy_pubs s' = sy_pubs s1 ∧ sy_main s' = sy_main s1) as [H1 H2].
    { unfold pub_step in Hp. repeat case_match; by simplify_eq. }
    split; cbn; [by rewrite length_insert, H1|]. by rewrite H2.
  - unfold main_step in Ha. destruct (sy_main s1) as [t|t|t|t|t nt|r] eqn:Hmain.
    + destruct sel; repeat case_match; by simplify_eq.
    + simplify_eq. split; [done|]. cbn. by destruct (IsWaitingForConfirmation _).
    + case_match; by simplify_eq.
    + subst t. assert (∃ e w', increaseGasPrice tx (sy_world s1) = (Err e, w')) as (e & w' & Hinc).
      { unfold increaseGasPrice.
        destruct (suggestGasPriceCaps _) as [[[tip bf]|e] w2] eqn:Hs; [|by eauto].
        apply Hsug in Hs as [Ht Hb]. pose proof (bumpedFees_strict (s_tx tx) tip bf Ht Hb Hlt).
        destruct (bumpedFees _ _ _) as [bt bf'].
        edestruct (Hest (mkCallMsg (cfg_From cfg) (tx_To (s_tx tx)) bt bf' (tx_Data (s_tx tx)) None) w2)
          as (e & w' & ->); [done|]. by eauto. }
      rewrite Hinc in Ha. simplify_eq. split; cbn; [done|by eauto].
    + destruct Hm as [-> [e ->]]. by simplify_eq.
    + done.
  - destruct (sy_ctx s1); simplify_eq. by split.
  - simplify_eq. by split.
Qed.

(** When the signer fails after the nonce was taken, the retry takes the next one: the
    nonce of the failed attempt is never used, and the transaction sent has a gap below its
    nonce. *)
Theorem signer_failure_skips_nonce `{C : Ctx W} candidate n w e w1 stx m' :
  signer_signs W → (∀ w, ctx_Err w = None) →
  craftTx candidate (Some n, w) = (Err e, (Some (u64 (n + 1)), w1)) →
  craftTx candidate (Some (u64 (n + 1)), sleep (2 * second) w1) = (Ok stx, m') →
  send_craft candidate (Some n, w) = Ret (Ok stx, m') ∧ tx_Nonce (s_tx stx) = u64 (n + 2).
Proof.
  intros Hsig Hctx H1 H2. split.
  - unfold send_craft, Do. replace (10 <? 1) with false by done.
    change (Z.to_nat 10) with (S (S 8)).
    erewrite Do_loop_fail; [|apply Hctx|by rewrite H1].
    erewrite Do_loop_ok; [reflexivity|apply Hctx|]. exact (f_equal Ret H2).
  - apply craftTx_spec in H2. destruct H2 as (n' & _ & tip & bf & gas & w2 & w3 & _ & Hsg & _ & Hn).
    apply Hsig in Hsg. rewrite Hsg. cbn. rewrite (Hn _ eq_refl), u64_add_l. f_equal. lia.
Qed.

End TxMgr.

(** ** What the record shows

    The code run over a recorded backend, in an outside world that does not touch the
    record. *)
Section Record.
Context {W : Type} `{B : ETHBackend W} (cfg : Config).
#[local] Existing Instance recorded.
#[local] Existing Instance recorded_ctx.

Abbreviation world := (W * list io)%type.

(** The record of a transaction whose publication was accepted, whose receipt was then
    returned under its hash, and which the height of the chain then confirmed. *)
Definition published (stx : SignedTx) : list io := [IO_send stx None].
Definition found (stx : SignedTx) (rc : Receipt) : list io :=
  published stx ++ [IO_receipt (s_hash (W := W) stx) (Ok (Some rc))].
Definition accepted (stx : SignedTx) (rc : Receipt) (tip : Z) : list io :=
  found stx rc ++ [IO_height (Ok tip)].

Section Call.
Context (tx0 : Transaction).

(** Every transaction published makes the call of [tx0], with its nonce. *)
Definition publishes (tr : list io) : Prop :=
  ∀ stx err, IO_send stx err ∈ tr → same_call tx0 (s_tx stx).

Definition confirmed_in (tr : list io) (rc : Receipt) : Prop :=
  ∃ stx tip, same_call tx0 (s_tx stx) ∧ accepted stx rc tip `sublist_of` tr ∧
    confirmed_at cfg rc tip = true.

Definition pub_shown (tr : list io) (p : pub) : Prop :=
  match p with
  | P_publish _ | P_done => True
  | P_published stx err => [IO_send stx err] `sublist_of` tr
  | P_wait stx | P_query stx => published stx `sublist_of` tr
  | P_lookedUp stx r =>
      published stx `sublist_of` tr ∧ ∀ rc, r = Ok (Some rc) → found stx rc `sublist_of` tr
  | P_mined stx rc => found stx rc `sublist_of` tr
  | P_deliver rc => confirmed_in tr rc
  end.

Definition sys_shown (tr : list io) (s : sys (W := world)) : Prop :=
  publishes tr ∧ Forall (pub_shown tr) (sy_pubs s) ∧
  (∀ rc, sy_main s = M_return (Ok rc) → confirmed_in tr rc) ∧
  (∀ rc, sy_chan s = Some rc → confirmed_in tr rc).

Lemma confirmed_in_app tr o rc : confirmed_in tr rc → confirmed_in (tr ++ o) rc.
Proof. intros (stx & tip & H1 & H2 & H3). exists stx, tip. split_and!; [done| |done]. by apply sublist_inserts_r. Qed.

Lemma pub_shown_app tr o p : pub_shown tr p → pub_shown (tr ++ o) p.
Proof.
  destruct p as [| | | |stx r| | |]; cbn; try done; try apply sublist_inserts_r; [|apply confirmed_in_app].
  intros [H1 H2]. split; [by apply sublist_inserts_r|]. intros rc Hr. apply sublist_inserts_r. by apply H2.
Qed.

Lemma published_found tr stx rc : found stx rc `sublist_of` tr → published stx `sublist_of` tr.
Proof. apply transitivity. by apply sublist_inserts_r. Qed.

(** What a goroutine of [sendTx] adds to the record. *)
Lemma pub_step_rec tick p (s : sys (W := world)) p' s' tr :
  pub_ok (W := world) cfg tx0 p → pub_shown tr p → pub_step cfg tick p s = Some (p', s') →
  (∀ rc, sy_chan s = Some rc → confirmed_in tr rc) → publishes tr →
  ∃ o, (sy_world s').2 = (sy_world s).2 ++ o ∧ pub_shown (tr ++ o) p' ∧ publishes (tr ++ o) ∧
    (∀ rc, sy_chan s' = Some rc → confirmed_in (tr ++ o) rc).
Proof.
  intros Hok Hp Hstep Hch Hpub.
  assert (Hch' : ∀ o rc, sy_chan s = Some rc → confirmed_in (tr ++ o) rc).
  { intros o rc Hr. by apply confirmed_in_app, Hch. }
  assert (Hquiet : ∀ p1 (s1 : sys (W := world)), pub_shown tr p1 → (sy_world s1).2 = (sy_world s).2 → sy_chan s1 = sy_chan s →
    ∃ o, (sy_world s1).2 = (sy_world s).2 ++ o ∧ pub_shown (tr ++ o) p1 ∧ publishes (tr ++ o) ∧
      (∀ rc, sy_chan s1 = Some rc → confirmed_in (tr ++ o) rc)).
  { intros p1 s1 H1 H2 H3. exists []. rewrite H2, H3, !app_nil_r. done. }
  assert (Hsnoc : ∀ (l : list io) o, l `sublist_of` tr → l ++ [o] `sublist_of` tr ++ [o]).
  { intros l o Hl. by apply sublist_app. }
  destruct p as [stx|stx err|stx|stx|stx r|stx rc|rc|]; cbn [pub_step] in Hstep; cbn in Hok, Hp.
  - cbn in Hstep. unfold logged in Hstep. destruct (SendTransaction stx _) as [err w1]. simplify_eq. cbn.
    exists [IO_send stx err]. split_and!; [done|by apply sublist_inserts_l| |apply Hch'].
    intros stx1 err1 [Hin|Hin%list_elem_of_singleton]%elem_of_app; [by eapply Hpub|]. by simplify_eq.
  - destruct err as [e|]; simplify_eq; by apply Hquiet.
  - destruct tick; [|destruct (sy_ctx s)]; simplify_eq; by apply Hquiet.
  - cbn in Hstep. unfold logged in Hstep. destruct (TransactionReceipt _ _) as [r w1]. simplify_eq. cbn.
    exists [IO_receipt (s_hash (W := W) stx) r]. split_and!; [done|by apply sublist_inserts_r| | |apply Hch'].
    + intros rc ->. exact (Hsnoc _ _ Hp).
    + intros stx1 err1 [Hin|Hin%list_elem_of_singleton]%elem_of_app; [by eapply Hpub|done].
  - destruct Hp as [Hp1 Hp2]. destruct r as [[rc|]|e]; simplify_eq; apply Hquiet; try done.
    + by apply Hp2.
    + by destruct (errors_Is _ _).
    + by destruct (errors_Is _ _).
  - cbn in Hstep. unfold logged in Hstep. destruct (BlockNumber _) as [tip w1]. simplify_eq. cbn.
    exists [IO_height tip]. split_and!; [done| | |apply Hch'].
    + pose proof (published_found _ _ _ Hp).
      destruct tip as [tip|e]; [destruct (confirmed_at cfg rc tip) eqn:Hc|];
        [|by apply sublist_inserts_r..].
      exists stx, tip. split_and!; [apply Hok|exact (Hsnoc _ _ Hp)|done].
    + intros stx1 err1 [Hin|Hin%list_elem_of_singleton]%elem_of_app; [by eapply Hpub|done].
  - simplify_eq. exists []. rewrite !app_nil_r. split_and!; [done..|].
    cbn. intros rc' Hr. destruct (sy_chan s) as [r|]; simplify_eq; [|done]. by apply Hch.
  - done.
Qed.

(** The loop of [sendTx] leaves the record alone. *)
Lemma increaseGasPrice_silent stx (w : world) : (increaseGasPrice cfg stx w).2.2 = w.2.
Proof.
  unfold increaseGasPrice, suggestGasPriceCaps. cbn. unfold silent.
  repeat (case_match; cbn in *; simplify_eq; try done).
Qed.

Lemma main_step_rec sel (s : sys (W := world)) s' tr :
  sys_shown tr s → main_step cfg sel s = Some s' →
  (sy_world s').2 = (sy_world s).2 ∧ sys_shown tr s'.
Proof.
  intros (Hs & Hp & Hm & Hc) Hstep. unfold main_step in Hstep.
  destruct (sy_main s) as [tx|tx|tx|tx|tx newTx|r] eqn:Hmain.
  - destruct sel; [simplify_eq|destruct (sy_ctx s); simplify_eq|destruct (sy_chan s) eqn:Hx; simplify_eq];
      (split; [done|]); split_and!; cbn; try done.
    intros rc [= <-]. by apply Hc.
  - simplify_eq. split; [done|]. split_and!; cbn; try done. by case_match.
  - destruct (ShouldAbortImmediately _ _); simplify_eq; (split; [done|]); split_and!; cbn; done.
  - pose proof (increaseGasPrice_silent tx (sy_world s)) as Hq.
    destruct (increaseGasPrice _ _ _) as [newTx w]. simplify_eq. split; [done|]. split_and!; cbn; done.
  - destruct newTx as [newTx|e]; [destruct (IsWaitingForConfirmation _)|]; simplify_eq;
      (split; [done|]); split_and!; cbn; try done.
    by apply Forall_snoc.
  - done.
Qed.

Lemma step_rec (s : sys (W := world)) s' tr :
  sys_ok cfg tx0 s → sys_shown tr s → steps_in cfg keeps s s' →
  ∃ o, (sy_world s').2 = (sy_world s).2 ++ o ∧ sys_shown (tr ++ o) s'.
Proof.
  intros Hok Hrec (a & Hstep & Hall). destruct a as [i tick|sel|e|w]; cbn in Hstep, Hall.
  - destruct (sy_pubs s !! i) as [p|] eqn:Hi; [|done]. cbn in Hstep.
    destruct (pub_step cfg tick p s) as [[p' s1]|] eqn:Hp; [|done]. cbn in Hstep. simplify_eq.
    destruct Hok as (Hpubs & _), Hrec as (H1 & H2 & H3 & H4).
    assert (sy_pubs s1 = sy_pubs s ∧ sy_main s1 = sy_main s) as [Hs1 Hs2].
    { unfold pub_step in Hp. repeat case_match; by simplify_eq. }
    eapply pub_step_rec in Hp as (o & Ho & Hp' & Hpub & Hch);
      [|by eapply Forall_lookup_1|by eapply Forall_lookup_1|done|done].
    exists o. split; [done|]. split_and!; cbn; [done| | |done].
    + rewrite Hs1. apply Forall_insert; [|done].
      eapply Forall_impl; [exact H2|]. intros. by apply pub_shown_app.
    + rewrite Hs2. intros rc Hr. by apply confirmed_in_app, H3.
  - exists []. rewrite !app_nil_r. by eapply main_step_rec.
  - destruct (sy_ctx s); [done|]. simplify_eq. exists []. by rewrite !app_nil_r.
  - simplify_eq. exists []. rewrite !app_nil_r. done.
Qed.

End Call.

(** [sendTx] over the record. *)
Lemma sending_rec tx (w : world) s :
  signer_signs W → sending_in cfg keeps tx w s →
  ∃ tr, (sy_world s).2 = w.2 ++ tr ∧ sys_shown (s_tx tx) tr s ∧ sys_ok cfg (s_tx tx) s.
Proof.
  intros Hsig (s0 & Hi & Hr).
  assert (sys_ok cfg (s_tx tx) s0 ∧ sy_world s0 = w ∧ sys_shown (s_tx tx) [] s0) as (Hok & Hw & Hrec).
  { unfold sendTx_init in Hi. destruct (NewSendStateWithNow _ _ _) as [st|]; [|done].
    cbn in Hi. injection Hi as <-. split_and!; [|done|].
    - repeat split; cbn; try done. by apply Forall_singleton.
    - split_and!; cbn; try done; [by intros ?? ?%elem_of_nil|by apply Forall_singleton]. }
  clear Hi. rewrite <- Hw.
  enough (∃ tr, (sy_world s).2 = (sy_world s0).2 ++ tr ∧ sys_shown (s_tx tx) ([] ++ tr) s ∧ sys_ok cfg (s_tx tx) s) by done.
  revert Hok Hrec. clear Hw. generalize (@nil io) as tr0.
  induction Hr as [s|s1 s2 s3 Hs _ IH]; intros tr0 Hok Hrec; [exists []; by rewrite !app_nil_r|].
  destruct (step_rec _ _ _ _ Hok Hrec Hs) as (o & Ho & Hrec').
  destruct Hs as (a & Hs & _).
  destruct (IH (tr0 ++ o)) as (tr & H1 & H2 & H3); [|done|].
  { eapply step_ok; [by apply recorded_signs|done|done]. }
  exists (o ++ tr). rewrite H1, Ho, !app_assoc in *. done.
Qed.

(** Crafting a transaction leaves the record alone too. *)
#[local] Instance same_record : PreOrder (fun m m' : mstate (W := world) => m'.2.2 = m.2.2).
Proof. split; [done|]. intros x y z -> ->. done. Qed.

Lemma craftTx_silent candidate (m : mstate (W := world)) r m' :
  craftTx cfg candidate m = (r, m') → m'.2.2 = m.2.2.
Proof.
  unfold craftTx, suggestGasPriceCaps, craftGas, nextNonce. cbn. unfold silent. intros H.
  repeat (case_match; cbn in *; simplify_eq; try done).
Qed.

Lemma send_craft_silent `{C : Ctx W} candidate (m : mstate (W := world)) r m' :
  send_craft cfg candidate m = Ret (r, m') → m'.2.2 = m.2.2.
Proof.
  unfold send_craft. intros H.
  destruct (Do _ _ _ _) as [[r1 m1]|] eqn:Hd; cbn in H; [|done]. simplify_eq.
  eapply (Do_keeps (C := mstate_ctx) _ _ (fun m m' : mstate => m'.2.2 = m.2.2)); [|done|exact Hd].
  intros m0 r0 m2 Ho. by eapply craftTx_silent; injection Ho.
Qed.

Lemma crafted_call `{C : Ctx W} candidate (m : mstate (W := world)) stx m' :
  signer_signs W → send_craft cfg candidate m = Ret (Ok stx, m') →
  ∃ n, m'.1 = Some n ∧ call_of cfg candidate n (s_tx stx).
Proof.
  intros Hsig [m0 Hc]%send_craft_ok. apply craftTx_spec in Hc.
  destruct Hc as (n & Hn & tip & bf & gas & w1 & w2 & _ & Hsg & _ & _).
  apply (recorded_signs Hsig) in Hsg. exists n. split; [done|]. by rewrite Hsg.
Qed.

Lemma Sends_rec `{C : Ctx W} candidate (m : mstate (W := world)) r m' :
  signer_signs W → Sends cfg keeps candidate m r m' →
  ∃ n tr, m'.2.2 = m.2.2 ++ tr ∧
    (∀ stx err, IO_send stx err ∈ tr → call_of cfg candidate n (s_tx stx)) ∧
    match r with
    | Ok rc => m'.1 = Some n ∧
        ∃ stx tip, call_of cfg candidate n (s_tx stx) ∧ accepted stx rc tip `sublist_of` tr ∧
          confirmed_at cfg rc tip = true
    | Err _ => m'.1 = None
    end.
Proof.
  intros Hsig Hs. inversion Hs as [e m1 Hc|stx m1 r1 s Hc Hs1 [Hm _]]; subst.
  { apply send_craft_silent in Hc. exists 0, []. rewrite app_nil_r.
    split_and!; [done|by intros ?? ?%elem_of_nil|done]. }
  destruct (crafted_call _ _ _ _ Hsig Hc) as (n & Hn & Hcall). apply send_craft_silent in Hc.
  destruct (sending_rec _ _ _ Hsig Hs1) as (tr & Htr & (Hpub & _ & Hret & _) & _).
  exists n, tr. rewrite <- Hc. split_and!.
  - by destruct r.
  - intros stx1 err Hin. eapply call_of_same; [exact Hcall|by eapply Hpub].
  - destruct r as [rc|e]; [|done]. split; [done|].
    destruct (Hret _ Hm) as (stx1 & tip & H1 & H2 & H3). exists stx1, tip.
    split_and!; [|done..]. by eapply call_of_same.
Qed.

(** C5: whatever the interleaving, [tr] being the calls that [sendTx] makes to publish
    transactions and to learn what became of them, in order: every transaction it publishes
    makes the call of the one being sent (chain, nonce, recipient, value and data).  When it is
    left with a receipt, it had published such a transaction, the backend accepting it; then
    asked for the receipt under that transaction's hash and was given this one; and then was
    told a height of the chain at which the receipt has the configured number of
    confirmations.  When it is left with an error, the send was aborted or the context was
    done. *)
Theorem sendTx_result tx (w : world) s r :
  signer_signs W → sending_in cfg keeps tx w s → sy_main s = M_return r →
  ∃ tr, (sy_world s).2 = w.2 ++ tr ∧
    (∀ stx err, IO_send stx err ∈ tr → same_call (s_tx tx) (s_tx stx)) ∧
    match r with
    | Ok rc => ∃ stx tip, same_call (s_tx tx) (s_tx stx) ∧
        [IO_send stx None; IO_receipt (s_hash (W := W) stx) (Ok (Some rc)); IO_height (Ok tip)]
          `sublist_of` tr ∧
        (0 <= rc_BlockNumber rc → 0 <= cfg_NumConfirmations cfg → 0 <= tip < two64 - 1 →
         rc_BlockNumber rc + cfg_NumConfirmations cfg < two64 →
         rc_BlockNumber rc + cfg_NumConfirmations cfg - 1 <= tip)
    | Err e => e = aborted ∨ sy_ctx s = Some e
    end.
Proof.
  intros Hsig Hs Hm.
  destruct (sending_rec _ _ _ Hsig Hs) as (tr & Htr & (Hpub & _ & Hret & _) & (_ & Hok & _)).
  exists tr. split_and!; [done|done|]. rewrite Hm in Hok. destruct r as [rc|e]; [|by apply Hok].
  destruct (Hret _ Hm) as (stx & tip & H1 & H2 & Hc). exists stx, tip. split_and!; [done|done|].
  intros H3 H4 H5 H6. unfold confirmed_at in Hc. zbool.
  rewrite big_Uint64_small, !u64_small in Hc by (unfold is_u64, two64 in *; lia). lia.
Qed.

(** C4: [Send] as its callers see it, [tr] being the calls it makes to publish transactions
    and to learn what became of them, in order.  Every transaction it publishes, resubmissions
    included, is the candidate's call (recipient, value and data, on the configured chain)
    under one nonce.  A receipt means that such a transaction was accepted by the backend,
    that the receipt was then returned under its hash, and that a height told afterwards had
    confirmed it; the manager then remembers that nonce.  An error makes the manager forget
    its nonce, so that the next send asks the backend again. *)
Theorem Send_correct `{C : Ctx W} candidate nonce (w : world) r nonce' (w' : world) :
  signer_signs W → Sends cfg keeps candidate (nonce, w) r (nonce', w') →
  ∃ n tr, w'.2 = w.2 ++ tr ∧
    (∀ stx err, IO_send stx err ∈ tr →
       tx_ChainID (s_tx stx) = cfg_ChainID cfg ∧ tx_Nonce (s_tx stx) = n ∧
       tx_To (s_tx stx) = c_To candidate ∧ tx_Value (s_tx stx) = c_Value candidate ∧
       tx_Data (s_tx stx) = c_TxData candidate) ∧
    match r with
    | Ok rc => nonce' = Some n ∧
        ∃ stx tip,
          [IO_send stx None; IO_receipt (s_hash (W := W) stx) (Ok (Some rc)); IO_height (Ok tip)]
            `sublist_of` tr ∧ confirmed_at cfg rc tip = true
    | Err _ => nonce' = None
    end.
Proof.
  intros Hsig Hs. destruct (Sends_rec _ _ _ _ Hsig Hs) as (n & tr & H1 & H2 & H3).
  exists n, tr. split_and!; [done|done|]. destruct r as [rc|e]; [|done].
  destruct H3 as [H3 (stx & tip & _ & H4)]. split; [done|]. by exists stx, tip.
Qed.

End Record.

(** ** A concrete backend for the examples

    The world counts the calls of the signer, the first of which fails when it starts at
    zero; [est] is the gas estimator. *)
Module TxMgrSample.

Definition backend (est : CallMsg → result Z) : ETHBackend Z := {|
  SuggestGasTipCap w := (Ok (Some 2), w);
  HeaderByNumber w := (Ok (mkHeader 110 77 0 (Some 10)), w);
  EstimateGas msg w := (est msg, w);
  NonceAt _ w := (Ok 7, w);
  SendTransaction _ w := (None, w);
  TransactionReceipt h w := (Ok (Some (mkReceipt ReceiptStatusSuccessful h 100)), w);
  BlockNumber w := (Ok 110, w);
  signer _ t w :=
    if w =? 0 then (Err (FmtError "signer unavailable"), 1)
    else (Ok (mkSigned t 1), w + 1);
  s_hash stx := 1000 * tx_Nonce (s_tx stx) + tx_GasFeeCap (s_tx stx);
  time_Now w := w;
  Error_text _ := "an error"
|}.

Definition lax : ETHBackend Z := backend (fun _ => Ok 21000).

(** go-ethereum's rule. *)
Definition strict : ETHBackend Z :=
  backend (fun msg => if cm_GasFeeCap msg <? cm_GasTipCap msg
                      then Err (FmtError "max priority fee per gas higher than max fee per gas")
                      else Ok 21000).

Definition cfg : Config := mkConfig 5 99 10 3 1000 48 0 2 12.

Definition candidate : TxCandidate := mkCandidate [Byte.x01] (Some 42) 0 None.

Definition tx : SignedTx :=
  mkSigned (mkTx 5 8 3 20 21000 (Some 42) None [Byte.x01]) 1.

Lemma signs est : signer_signs Z (H := backend est).
Proof. intros a t w st w'. cbn. destruct (w =? 0); intros H; [done|]. by injection H as <- <-. Qed.

(** Run a list of actions. *)
Fixpoint run {W} `{B : ETHBackend W} (acts : list (action (W := W))) (s : sys) : option sys :=
  match acts with
  | [] => Some s
  | a :: acts => s1 ← step cfg a s; run acts s1
  end.

(** The actions do not change the outside world by themselves. *)
Definition own {W} (a : action (W := W)) : bool := match a with a_world _ => false | _ => true end.

Lemma run_in {W} `{B : ETHBackend W} outside acts : ∀ s s',
  forallb own acts = true → run acts s = Some s' → rtc (steps_in cfg outside) s s'.
Proof.
  induction acts as [|a acts IH]; intros s s' Ho H; cbn in H, Ho; [by injection H as ->|].
  apply andb_true_iff in Ho as [Ho Ho'].
  destruct (step cfg a s) as [s1|] eqn:Ha; [|done]. eapply rtc_l; [|by apply IH].
  exists a. split; [done|]. by destruct a.
Qed.

Lemma run_rtc {W} `{B : ETHBackend W} acts : ∀ s s', run acts s = Some s' → rtc (steps_to cfg) s s'.
Proof.
  induction acts as [|a acts IH]; intros s s' H; cbn in H; [by injection H as ->|].
  destruct (step cfg a s) as [s1|] eqn:Ha; [|done]. eapply rtc_l; [by exists a|by apply IH].
Qed.

(** The schedule of an ordinary send: publish, query, confirm, deliver, receive. *)
Definition schedule {W} : list (action (W := W)) :=
  [a_pub 0 false; a_pub 0 false; a_pub 0 true; a_pub 0 false; a_pub 0 false; a_pub 0 false;
   a_pub 0 false; a_main S_receipt].

Definition init_state : SendState := mkSendState ∅ 0 1000 0 3.
(** What [schedule] leaves in the record, and the state it leads to. *)
Definition trace (stx : SignedTx) : list io :=
  [IO_send stx None;
   IO_receipt (s_hash (ETHBackend := lax) stx) (Ok (Some (mkReceipt 1 (s_hash (ETHBackend := lax) stx) 100)));
   IO_height (Ok 110)].

Definition final (w : Z) (stx : SignedTx) : sys (W := Z * list io) :=
  mkSys (w, trace stx) (mkSendState {[s_hash (ETHBackend := lax) stx]} 0 (1000 + w) 1 3) None
    (Some Canceled) [P_done] (M_return (Ok (mkReceipt 1 (s_hash (ETHBackend := lax) stx) 100))).

Lemma sending_final : sending_in (B := recorded (B := lax)) cfg keeps tx (1, []) (final 1 tx).
Proof.
  eexists. split; [reflexivity|]. apply (run_in (B := recorded (B := lax)) keeps schedule); [reflexivity|].
  vm_compute. reflexivity.
Qed.

Lemma updateFees_guarantees_witness :
  updateFees 3 20 2 10 = (3, 23) ∧ 110 * 3 < 100 * (3 + 1).
Proof.
  split; [reflexivity|].
  pose proof (updateFees_guarantees 3 20 2 10 ltac:(lia) ltac:(lia)) as H.
  destruct H as (H & _). exact H.
Defined.

Lemma increaseGasPrice_bounds_witness :
  same_call (s_tx tx) (mkTx 5 8 3 23 21000 (Some 42) None [Byte.x01]).
Proof.
  destruct (increaseGasPrice_bounds (B := lax) cfg tx 1
    (mkSigned (mkTx 5 8 3 23 21000 (Some 42) None [Byte.x01]) 1) 2 (signs _) eq_refl) as [H _].
  exact H.
Defined.

Lemma sendTx_result_witness :
  ∃ stx, same_call (s_tx tx) (s_tx stx) ∧ IO_send stx None ∈ trace tx.
Proof.
  destruct (sendTx_result (B := lax) cfg tx (1, []) (final 1 tx) (Ok (mkReceipt 1 8020 100)) (signs _)
    sending_final eq_refl) as (tr & Htr & _ & stx & tip & H & Hsub & _).
  exists stx. split; [exact H|]. replace (trace tx) with tr by (symmetry; exact Htr).
  eapply elem_of_submseteq; [|apply sublist_submseteq, Hsub]. left.
Defined.

(** The transaction is published and its goroutine waits; the node already has the receipt. *)
Definition started : sys := mkSys 1 (mkSendState ∅ 0 1001 0 3) None None [P_publish tx] (M_select tx).
Definition waiting : sys := default started (run (B := lax) [a_pub 0 false; a_pub 0 false] started).

(** While it waits the ticker fires: the fees are raised, and the new transaction is about to be
    published. *)
Definition bumped : SignedTx := mkSigned (mkTx 5 8 3 23 21000 (Some 42) None [Byte.x01]) 1.
Definition resubmitting : sys := default started (run (B := lax) (repeat (a_main S_ticker) 5) waiting).

Lemma sendTx_one_nonce_witness : same_call (s_tx tx) (s_tx bumped) ∧ bumped ≠ tx.
Proof.
  split; [|done].
  apply (sendTx_one_nonce (B := lax) cfg tx 1 resubmitting 1 bumped (signs _)).
  - exists started. split; [reflexivity|].
    apply (run_rtc (B := lax) ([a_pub 0 false; a_pub 0 false] ++ repeat (a_main S_ticker) 5)).
    vm_compute. reflexivity.
  - vm_compute. reflexivity.
Defined.

(** A tick that finds nothing mined, bumps the fees and publishes. *)
Definition bumping : sys :=
  mkSys 2 init_state None None [P_wait tx]
    (M_bumped tx (Ok (mkSigned (mkTx 5 8 3 23 21000 (Some 42) None [Byte.x01]) 1))).

Lemma resubmission_guard_witness : minedTxs (sy_state bumping) = ∅.
Proof.
  apply (resubmission_guard (B := lax) cfg (a_main S_ticker) bumping
    (mkSys 2 init_state None None
       [P_wait tx; P_publish (mkSigned (mkTx 5 8 3 23 21000 (Some 42) None [Byte.x01]) 1)]
       (M_select (mkSigned (mkTx 5 8 3 23 21000 (Some 42) None [Byte.x01]) 1)))).
  - vm_compute. reflexivity.
  - left. cbn. lia.
Defined.

Lemma sendTx_can_finish_witness : ∃ rc s', rtc (steps_to (B := lax) cfg) waiting s' ∧ returned (Ok rc) s'.
Proof.
  assert (Hs : sending (B := lax) cfg tx 1 waiting).
  { exists started. split; [reflexivity|].
    apply (run_rtc (B := lax) [a_pub 0 false; a_pub 0 false]). vm_compute. reflexivity. }
  destruct (sendTx_can_finish (B := lax) cfg tx 1 waiting (signs _) Hs) as [_ H].
  destruct (H tx 0%nat tx (mkReceipt 1 8020 100) 1 110 1) as (rc & s' & H1 & _ & H2);
    [reflexivity|reflexivity|reflexivity|reflexivity|vm_compute; reflexivity|].
  exists rc, s'. split; [exact H1|exact H2].
Defined.

Lemma craftTx_correct_witness :
  (craftTx (B := lax) cfg candidate (Some 7, 1)).2.1 = Some 8 ∧
  (∀ n, Some 7 = Some n → 8 = u64 (n + 1)).
Proof.
  split; [reflexivity|].
  pose proof (craftTx_correct (B := lax) cfg candidate (Some 7, 1)
    (Ok (mkSigned (mkTx 5 8 2 22 21000 (Some 42) None [Byte.x01]) 1)) (Some 8, 2)
    (signs _) eq_refl) as H.
  destruct H as (_ & _ & _ & _ & _ & _ & H). exact H.
Defined.

Definition sample_ctx : Ctx Z := {| ctx_Err _ := None; sleep _ w := w |}.

Lemma bump_never_published_witness :
  ∃ s, sending (B := strict) cfg tx 1 s ∧ sy_main s = M_bumped tx
    (Err (FmtError "max priority fee per gas higher than max fee per gas")) ∧
    length (sy_pubs s) = 1%nat.
Proof.
  assert (Hs : sending (B := strict) cfg tx 1
    (mkSys 1 (mkSendState ∅ 0 1001 0 3) None None [P_publish tx]
       (M_bumped tx (Err (FmtError "max priority fee per gas higher than max fee per gas"))))).
  { eexists. split; [reflexivity|].
    apply (run_rtc (B := strict)
      [a_main S_ticker; a_main S_ticker; a_main S_ticker; a_main S_ticker]).
    vm_compute. reflexivity. }
  eexists. split; [exact Hs|]. split; [reflexivity|].
  apply (bump_never_published (B := strict) cfg tx 1 _) in Hs; [exact Hs| | |].
  - intros msg w Hlt. cbn. rewrite (proj2 (Z.ltb_lt _ _) Hlt). eauto.
  - intros w tip bf w' H. cbn in H. injection H as <- <- _. lia.
  - reflexivity.
Defined.

Lemma signer_failure_skips_nonce_witness :
  ∃ m', send_craft (B := lax) (C := sample_ctx) cfg candidate (Some 7, 0) =
    Ret (Ok (mkSigned (mkTx 5 9 2 22 21000 (Some 42) None [Byte.x01]) 1), m').
Proof.
  destruct (signer_failure_skips_nonce (B := lax) (C := sample_ctx) cfg candidate 7 0
    (FmtError "signer unavailable") 1
    (mkSigned (mkTx 5 9 2 22 21000 (Some 42) None [Byte.x01]) 1) (Some 9, 2)
    (signs _) (fun _ => eq_refl) eq_refl eq_refl) as [H _].
  eexists. exact H.
Defined.

Lemma Send_correct_witness :
  ∃ stx, IO_send stx None ∈ trace (mkSigned (mkTx 5 8 2 22 21000 (Some 42) None [Byte.x01]) 1) ∧
    tx_To (s_tx stx) = Some 42.
Proof.
  set (stx := mkSigned (mkTx 5 8 2 22 21000 (Some 42) None [Byte.x01]) 1).
  assert (Sends (B := recorded (B := lax)) (C := recorded_ctx (C := sample_ctx)) cfg keeps candidate
    (Some 7, (1, [])) (Ok (mkReceipt 1 8022 100)) (Some 8, (2, trace stx))) as Hs.
  { apply (Sends_sent (B := recorded (B := lax)) (C := recorded_ctx (C := sample_ctx)) cfg keeps candidate
      (Some 7, (1, [])) stx (Some 8, (2, [])) (Ok (mkReceipt 1 8022 100)) (final 2 stx)).
    - reflexivity.
    - eexists. split; [reflexivity|]. apply (run_in (B := recorded (B := lax)) keeps schedule); [reflexivity|].
      vm_compute. reflexivity.
    - split; [reflexivity|]. repeat constructor. }
  destruct (Send_correct (B := lax) (C := sample_ctx) cfg candidate (Some 7) (1, []) _ _ _ (signs _) Hs)
    as (n & tr & Htr & Hcall & _ & stx' & tip & Hsub & _).
  assert (Hin : IO_send stx' None ∈ tr).
  { eapply elem_of_submseteq; [|apply sublist_submseteq, Hsub]. left. }
  exists stx'. split; [|apply (Hcall _ _ Hin)]. replace (trace stx) with tr by (symmetry; exact Htr).
  exact Hin.
Defined.

End TxMgrSample.
