(* ===== verification/ConcurrentSends.v ===== *)
(** * Concurrent calls of the L1 transaction manager

    Any number of calls of [Send] (services/sidecar/rollup/rpc/eth/txmgr/tx_mgr.go) that
    share one manager: its [nonce] field, which [nextNonce] and [resetNonce] update under
    [nonceLock], and the outside world.  A call is a [stage]: the attempts of [craftTx]
    under [retry.Do], one step per access to the backend, the signer or the nonce; then the
    goroutines of [sendTx] as in TxMgr.v ([sys]); then the reset after an error.  The steps
    of all calls interleave freely, and the history of the nonce field is the list of
    observations ([obs]) of a run.  Time passes in the steps of the outside world. *)

From S2P Require Import Prelude Errors Types Bridge Retry SendState TxMgr.

(** ** The manager and its calls *)

Section Calls.
Context {W : Type} `{B : ETHBackend W} (cfg : Config).

(** Where a call of [Send] stands; [i] counts the attempts of [retry.Do]. *)
Inductive stage : Type :=
| C_attempt (i : nat)                       (* before the check of the context *)
| C_caps (i : nat)                          (* craftTx, before suggestGasPriceCaps *)
| C_gas (i : nat) (tip feeCap : Z)          (* ... before the gas limit *)
| C_nonce (i : nat) (tip feeCap gas : Z)    (* ... before nextNonce *)
| C_sign (i : nat) (rawTx : Transaction)    (* ... before the signer *)
| C_failed (i : nat) (e : error)            (* craftTx returned an error *)
| C_crafted (stx : SignedTx)                (* before sendTx *)
| C_sending (s : sys (W := W))              (* in sendTx *)
| C_error (e : error)                       (* send returned an error, before resetNonce *)
| C_return (r : result Receipt)
| C_panicked.                               (* the process is gone *)

Record call := mkCall {
  cl_candidate : TxCandidate;
  cl_ctx : option error;    (* ctx.Err() of the call, until sendTx derives its own *)
  cl_at : stage
}.

(** [TxManager]: the fields that change, and the calls in progress. *)
Record manager := mkManager {
  mg_nonce : option Z;
  mg_world : W;
  mg_calls : list call
}.

(** [NewTxManager]: no nonce yet. *)
Definition NewTxManager (w : W) : manager := mkManager None w [].

Definition attempts : nat := 10.

(** A call runs [sendTx] in the shared world, from its own context. *)
Definition in_world (w : W) (s : sys (W := W)) : sys (W := W) :=
  mkSys w (sy_state s) (sy_chan s) (sy_ctx s) (sy_pubs s) (sy_main s).

Definition with_ctx (ctx : option error) (s : sys (W := W)) : sys (W := W) :=
  mkSys (sy_world s) (sy_state s) (sy_chan s) ctx (sy_pubs s) (sy_main s).

Definition finished (p : pub) : bool := match p with P_done => true | _ => false end.

(** The fields of the raw transaction of [craftTx]. *)
Definition rawTx_of (c : TxCandidate) (nonce tip feeCap gas : Z) : Transaction :=
  mkTx (cfg_ChainID cfg) nonce tip feeCap gas (c_To c) (c_Value c) (c_TxData c).

(** The next step of a call outside the goroutines of [sendTx]: [None] when it waits for
    them, and when it is over. *)
Definition call_step (c : call) (m : mstate) : option (stage * mstate (W := W)) :=
  match cl_at c with
  | C_attempt i =>
      Some (match cl_ctx c with
            | Some e => C_error (Errorf_w "failed to create the tx" e)
            | None => C_caps i
            end, m)
  | C_caps i =>
      let '(caps, w) := suggestGasPriceCaps m.2 in
      Some (match caps with
            | Err e => C_failed i (Errorf_w "failed to get gas price info" e)
            | Ok (tip, basefee) => C_gas i tip (calcGasFeeCap basefee tip)
            end, (m.1, w))
  | C_gas i tip feeCap =>
      let '(gas, w) := craftGas cfg (cl_candidate c) tip feeCap m.2 in
      Some (match gas with Err e => C_failed i e | Ok gas => C_nonce i tip feeCap gas end, (m.1, w))
  | C_nonce i tip feeCap gas =>
      let '(nonce, m1) := nextNonce cfg m in
      Some (match nonce with
            | Err e => C_failed i e
            | Ok n => C_sign i (rawTx_of (cl_candidate c) n tip feeCap gas)
            end, m1)
  | C_sign i rawTx =>
      let '(signed, w) := signer (cfg_From cfg) rawTx m.2 in
      Some (match signed with Err e => C_failed i e | Ok stx => C_crafted stx end, (m.1, w))
  | C_failed i e =>
      Some (if (S i <? attempts)%nat then C_attempt (S i)
            else C_error (Errorf_w "failed to create the tx"
                   (AddrOf (ErrFailedPermanently (Z.of_nat attempts) e))), m)
  | C_crafted stx =>
      Some (match sendTx_init cfg stx m.2 with
            | Ret s => C_sending (with_ctx (cl_ctx c) s)
            | Panic _ => C_panicked
            end, m)
  | C_sending s =>
      match sy_main s with
      | M_return r =>
          if forallb finished (sy_pubs s)
          then Some (match r with Ok rc => C_return (Ok rc) | Err e => C_error e end, m)
          else None
      | _ => None
      end
  | C_error e => Some (C_return (Err e), resetNonce m)
  | C_return _ | C_panicked => None
  end.

(** What happens to the nonce field. *)
Inductive obs := Taken (k : nat) (n : Z) | Reset_by (k : nat).

Definition observe (k : nat) (c : call) (m : mstate) : list obs :=
  match cl_at c with
  | C_nonce _ _ _ _ => match (nextNonce cfg m).1 with Ok n => [Taken k n] | Err _ => [] end
  | C_error _ => [Reset_by k]
  | _ => []
  end.

(** ** Interleaving *)

Inductive event : Type :=
| g_send (c : TxCandidate)                  (* Send is called *)
| g_call (k : nat)                          (* call k moves *)
| g_sys (k : nat) (a : action (W := W))     (* something happens in the sendTx of call k *)
| g_done (k : nat) (e : error)              (* the context of call k is done *)
| g_world (w : W).                          (* the outside world changes *)

Definition set_call (k : nat) (c : call) (g : manager) : manager :=
  mkManager (mg_nonce g) (mg_world g) (<[k := c]> (mg_calls g)).

Definition at_stage (c : call) (st : stage) : call := mkCall (cl_candidate c) (cl_ctx c) st.

Definition gstep (e : event) (g : manager) : option (list obs * manager) :=
  match e with
  | g_send cand =>
      Some ([], mkManager (mg_nonce g) (mg_world g) (mg_calls g ++ [mkCall cand None (C_attempt 0)]))
  | g_call k =>
      c ← mg_calls g !! k;
      '(st, m) ← call_step c (mg_nonce g, mg_world g);
      Some (observe k c (mg_nonce g, mg_world g),
            mkManager m.1 m.2 (<[k := at_stage c st]> (mg_calls g)))
  | g_sys k a =>
      c ← mg_calls g !! k;
      match cl_at c with
      | C_sending s =>
          s' ← step cfg a (in_world (mg_world g) s);
          Some ([], mkManager (mg_nonce g) (sy_world s')
                      (<[k := at_stage c (C_sending s')]> (mg_calls g)))
      | _ => None
      end
  | g_done k e =>
      c ← mg_calls g !! k;
      match cl_ctx c, cl_at c with
      | Some _, _ | _, C_sending _ => None    (* once in sendTx: [a_ctx] *)
      | None, st => Some ([], set_call k (mkCall (cl_candidate c) (Some e) st) g)
      end
  | g_world w => Some ([], mkManager (mg_nonce g) w (mg_calls g))
  end.

(** [runs g tr g']: from [g] the manager may come to [g'], the nonce field having gone
    through [tr]. *)
Inductive runs (g : manager) : list obs → manager → Prop :=
| runs_start : runs g [] g
| runs_step tr g1 e os g2 :
    runs g tr g1 → gstep e g1 = Some (os, g2) → runs g (tr ++ os) g2.

(** ** The history of the nonce field *)

(** The nonces taken, and the nonce call [k] took last. *)
Definition taken (tr : list obs) : nat :=
  length (omap (fun o => match o with Taken _ n => Some n | Reset_by _ => None end) tr).

Definition taken_by (k : nat) (tr : list obs) : option Z :=
  last (omap (fun o => match o with Taken j n => if decide (j = k) then Some n else None
                               | Reset_by _ => None end) tr).

Definition no_reset (tr : list obs) : Prop := ∀ k, Reset_by k ∉ tr.

(** The transaction a publishing goroutine works on. *)
Definition pub_tx (p : pub) : option SignedTx :=
  match p with
  | P_publish stx | P_published stx _ | P_wait stx | P_query stx
  | P_lookedUp stx _ | P_mined stx _ => Some stx
  | P_deliver _ | P_done => None
  end.

Lemma taken_by_snoc k tr o :
  taken_by k (tr ++ [o]) =
  match o with Taken j n => if decide (j = k) then Some n else taken_by k tr | _ => taken_by k tr end.
Proof.
  unfold taken_by. rewrite omap_app, last_app. cbn.
  destruct o as [j n|j]; [destruct (decide (j = k))|]; done.
Qed.

(** The nonce field continues the last nonce taken, and each nonce the one taken before,
    unless a reset came between. *)
Definition nonces_ok (tr : list obs) (nonce : option Z) : Prop :=
  (∀ tr1 i n tr2, tr = tr1 ++ Taken i n :: tr2 → no_reset tr2 →
     ∃ n', nonce = Some n' ∧ u64 n' = u64 (n + Z.of_nat (taken tr2))) ∧
  (∀ tr1 i n tr2 j m tr3, tr = tr1 ++ Taken i n :: tr2 ++ Taken j m :: tr3 → no_reset tr2 →
     m = u64 (n + 1 + Z.of_nat (taken tr2))).

Lemma taken_app tr tr' : taken (tr ++ tr') = (taken tr + taken tr')%nat.
Proof. unfold taken. by rewrite omap_app, length_app. Qed.

(** A list that ends in [o], cut at an element: the element is [o], or [o] ends the rest. *)
Lemma snoc_cut {A} (tr tr1 tr2 : list A) o x :
  tr ++ [o] = tr1 ++ x :: tr2 →
  tr2 = [] ∧ x = o ∧ tr1 = tr ∨ ∃ tr2', tr2 = tr2' ++ [o] ∧ tr = tr1 ++ x :: tr2'.
Proof.
  destruct tr2 as [|y tr2' _] using rev_ind; intros H.
  - apply app_inj_tail in H as [-> ->]. by left.
  - right. exists tr2'. rewrite app_comm_cons, app_assoc in H.
    apply app_inj_tail in H as [-> ->]. done.
Qed.

Lemma no_reset_snoc tr o : no_reset (tr ++ [o]) → no_reset tr.
Proof. intros H k Hk. apply (H k), elem_of_app. by left. Qed.

Lemma nonces_ok_reset tr k nonce : nonces_ok tr nonce → nonces_ok (tr ++ [Reset_by k]) None.
Proof.
  intros [_ H2]. split.
  - intros tr1 i n tr2 [(_ & [=] & _)|(tr2' & -> & _)]%snoc_cut Hno.
    destruct (Hno k). apply elem_of_app. right. by left.
  - intros tr1 i n tr2 j m tr3 H Hno. rewrite app_comm_cons, app_assoc in H.
    apply snoc_cut in H as [(_ & [=] & _)|(tr3' & -> & H)].
    eapply (H2 tr1 i n tr2 j m tr3'); [|done]. by rewrite H, <- app_assoc.
Qed.

Lemma nonces_ok_taken tr k n nonce :
  nonces_ok tr nonce → (∀ n0, nonce = Some n0 → n = u64 (n0 + 1)) →
  nonces_ok (tr ++ [Taken k n]) (Some n).
Proof.
  intros [H1 H2] Hn.
  assert (∀ tr1 i n1 tr2, tr = tr1 ++ Taken i n1 :: tr2 → no_reset tr2 →
    n = u64 (n1 + 1 + Z.of_nat (taken tr2))) as Hnext.
  { intros tr1 i n1 tr2 Htr Hno. destruct (H1 _ _ _ _ Htr Hno) as (n' & Hn' & Hu).
    rewrite (Hn _ Hn'), <- u64_add_l, Hu, u64_add_l. f_equal. lia. }
  split.
  - intros tr1 i n1 tr2 [(-> & [= -> ->] & ->)|(tr2' & -> & Htr)]%snoc_cut Hno.
    + exists n. split; [done|]. f_equal. cbn. lia.
    + exists n. split; [done|]. rewrite (Hnext _ _ _ _ Htr (no_reset_snoc _ _ Hno)), u64_idem.
      f_equal. rewrite taken_app. cbn. lia.
  - intros tr1 i n1 tr2 j m tr3 H Hno. rewrite app_comm_cons, app_assoc in H.
    apply snoc_cut in H as [(-> & [= -> ->] & Htr)|(tr3' & -> & H)].
    + by eapply Hnext.
    + eapply (H2 tr1 i n1 tr2 j m tr3'); [|done]. by rewrite H, <- app_assoc.
Qed.

(** ** The invariant of the manager *)

Definition stage_ok (k : nat) (c : TxCandidate) (tr : list obs) (st : stage) : Prop :=
  match st with
  | C_sign _ rawTx => ∃ n, taken_by k tr = Some n ∧ call_of cfg c n rawTx
  | C_crafted stx => ∃ n, taken_by k tr = Some n ∧ call_of cfg c n (s_tx stx)
  | C_sending s => ∃ n t, taken_by k tr = Some n ∧ call_of cfg c n t ∧ sys_ok cfg t s
  | C_return (Ok rc) => ∃ n t, taken_by k tr = Some n ∧ call_of cfg c n t ∧ confirmed cfg t rc
  | _ => True
  end.

Definition manager_ok (tr : list obs) (g : manager) : Prop :=
  nonces_ok tr (mg_nonce g) ∧
  (∀ k c, mg_calls g !! k = Some c → stage_ok k (cl_candidate c) tr (cl_at c)) ∧
  (∀ k, Reset_by k ∈ tr →
     ∃ c e, mg_calls g !! k = Some c ∧ cl_at c = C_return (Err e)).

Lemma start_ok w : manager_ok [] (NewTxManager w).
Proof.
  split_and!; [split; intros; by destruct tr1|intros k c H|intros k H]; by apply elem_of_nil in H || done.
Qed.

(** What a step of call [k] adds to the history is about call [k]. *)
Lemma observe_taken_by j k c m tr : j ≠ k → taken_by j (tr ++ observe k c m) = taken_by j tr.
Proof.
  intros Hne. unfold observe.
  destruct (cl_at c); try by rewrite app_nil_r.
  - destruct (nextNonce cfg m).1; [|by rewrite app_nil_r]. rewrite taken_by_snoc.
    by destruct (decide (k = j)) as [->|].
  - by rewrite taken_by_snoc.
Qed.

Lemma stage_ok_ext k c tr tr' st :
  taken_by k tr' = taken_by k tr → stage_ok k c tr st → stage_ok k c tr' st.
Proof. intros H. destruct st as [| | | | | | | | |[|]|]; cbn; rewrite ?H; done. Qed.

(** The nonce field after [nextNonce]. *)
Lemma nextNonce_ok tr k m r m' :
  nextNonce cfg m = (r, m') → nonces_ok tr m.1 →
  match r with
  | Ok n => nonces_ok (tr ++ [Taken k n]) m'.1 ∧ taken_by k (tr ++ [Taken k n]) = Some n
  | Err _ => nonces_ok tr m'.1
  end.
Proof.
  intros Hn Hok. unfold nextNonce in Hn.
  assert (∀ n, taken_by k (tr ++ [Taken k n]) = Some n) as Ht.
  { intros n. by rewrite taken_by_snoc, decide_True. }
  destruct m as [[n|] w]; cbn in *.
  - simplify_eq. split; [|apply Ht]. eapply nonces_ok_taken; [exact Hok|].
    intros ? [= ->]. done.
  - destruct (NonceAt _ _) as [[n|e] w1]; simplify_eq; [|done].
    split; [|apply Ht]. by eapply nonces_ok_taken.
Qed.

Lemma sendTx_init_ok tx w s ctx :
  sendTx_init cfg tx w = Ret s → sys_ok cfg (s_tx tx) (with_ctx ctx s).
Proof.
  unfold sendTx_init. destruct (NewSendStateWithNow _ _ _); [|done]. cbn. intros [= <-].
  repeat split; cbn; try done. by apply Forall_singleton.
Qed.

Lemma call_step_ok k c m st m' tr :
  signer_signs W → nonces_ok tr m.1 → stage_ok k (cl_candidate c) tr (cl_at c) →
  call_step c m = Some (st, m') →
  nonces_ok (tr ++ observe k c m) m'.1 ∧
  stage_ok k (cl_candidate c) (tr ++ observe k c m) st ∧
  (∀ j, Reset_by j ∈ observe k c m → j = k ∧ ∃ e, st = C_return (Err e)).
Proof.
  intros Hsig Hn Hs Hstep. unfold call_step, observe in *.
  destruct (cl_at c) as [i|i|i tip fc|i tip fc gas|i raw|i e|stx|s|e|r|]; cbn in Hs;
    rewrite ?app_nil_r; try done.
  - simplify_eq. split_and!; [done|by destruct (cl_ctx c)|by intros j ?%elem_of_nil].
  - destruct (suggestGasPriceCaps m.2) as [[[tip bf]|e] w]; simplify_eq;
      (split_and!; [done|done|by intros j ?%elem_of_nil]).
  - destruct (craftGas _ _ _ _ _) as [[gas|e] w]; simplify_eq;
      (split_and!; [done|done|by intros j ?%elem_of_nil]).
  - destruct (nextNonce cfg m) as [[n|e] m1] eqn:Hnn; simplify_eq; cbn;
      eapply (nextNonce_ok tr k) in Hnn; try done; rewrite ?app_nil_r.
    + destruct Hnn as [H1 H2]. split_and!; [done|by exists n|].
      intros j Hj. by apply list_elem_of_singleton in Hj.
    + split_and!; [done|done|by intros j ?%elem_of_nil].
  - destruct (signer _ _ _) as [[stx|e] w] eqn:Hsg; simplify_eq;
      (split_and!; [done| |by intros j ?%elem_of_nil]); [|done].
    apply Hsig in Hsg. cbn. by rewrite Hsg.
  - simplify_eq. split_and!; [done| |by intros j ?%elem_of_nil]. by destruct (S i <? attempts)%nat.
  - simplify_eq. split_and!; [done| |by intros j ?%elem_of_nil].
    destruct (sendTx_init _ _ _) eqn:Hi; [|done]. destruct Hs as (n & H1 & H2).
    exists n, (s_tx stx). split_and!; [done..|]. by eapply sendTx_init_ok.
  - destruct (sy_main s) as [| | | | |r] eqn:Hm; try done.
    destruct (forallb _ _); [|done]. simplify_eq.
    split_and!; [done| |by intros j ?%elem_of_nil]. destruct r as [rc|e]; [|done].
    destruct Hs as (n & t & H1 & H2 & _ & H3 & _). rewrite Hm in H3. destruct H3 as [_ H3].
    by exists n, t.
  - simplify_eq. split_and!; [by eapply nonces_ok_reset|done|].
    intros j Hj. apply list_elem_of_singleton in Hj as [= ->]. by eauto.
Qed.

(** Every event keeps the invariant. *)
Lemma set_call_ok tr g k c c' :
  manager_ok tr g → mg_calls g !! k = Some c →
  (∀ e, cl_at c = C_return (Err e) → cl_at c' = C_return (Err e)) →
  stage_ok k (cl_candidate c') tr (cl_at c') →
  manager_ok tr (set_call k c' g).
Proof.
  intros (H1 & H2 & H3) Hk Hr Hok. split_and!; [done| |]; cbn.
  - intros j d [(-> & <- & _)|[Hne Hj]]%list_lookup_insert_Some; [done|by apply H2].
  - intros j Hj. destruct (H3 j Hj) as (d & e & Hd & He).
    destruct (decide (j = k)) as [->|Hne].
    + rewrite Hk in Hd. injection Hd as <-. exists c', e. split; [|by apply Hr].
      apply list_lookup_insert_eq. by eapply lookup_lt_Some.
    + exists d, e. by rewrite list_lookup_insert_ne.
Qed.

Lemma gstep_ok tr e g os g' :
  signer_signs W → manager_ok tr g → gstep e g = Some (os, g') → manager_ok (tr ++ os) g'.
Proof.
  intros Hsig Hok Hstep.
  destruct e as [cand|k|k a|k e|w]; cbn in Hstep;
    try destruct (mg_calls g !! k) as [c|] eqn:Hk; cbn in Hstep; try done.
  - injection Hstep as <- <-. rewrite app_nil_r. destruct Hok as (H1 & H2 & H3).
    split_and!; [done| |]; cbn.
    + intros j d [Hj|[_ [_ <-]%list_lookup_singleton_Some]]%lookup_app_Some; [by apply H2|done].
    + intros j Hj. destruct (H3 j Hj) as (d & e & Hd & He). exists d, e. split; [|done].
      by apply lookup_app_l_Some.
  - destruct (call_step c _) as [[st m']|] eqn:Hs; [|done]. cbn in Hstep.
    injection Hstep as <- <-. destruct Hok as (H1 & H2 & H3).
    pose proof (call_step_ok k c (mg_nonce g, mg_world g) st m' tr Hsig H1 (H2 _ _ Hk) Hs)
      as (H4 & H5 & H6).
    split_and!; [done| |]; cbn.
    + intros j d [(-> & <- & _)|[Hne Hj]]%list_lookup_insert_Some; [done|].
      eapply stage_ok_ext; [by apply observe_taken_by|by apply H2].
    + intros j [Hj|Hj]%elem_of_app.
      * destruct (H3 j Hj) as (d & e & Hd & He). exists d, e. split; [|done].
        rewrite list_lookup_insert_ne; [done|]. intros <-. rewrite Hk in Hd. injection Hd as <-.
        unfold call_step in Hs. by rewrite He in Hs.
      * apply H6 in Hj as (-> & e & ->). eexists (at_stage c _), e. split; [|reflexivity].
        apply list_lookup_insert_eq. by eapply lookup_lt_Some.
  - destruct (cl_at c) as [| | | | | | |s| | |] eqn:Hc; try done.
    destruct (step cfg a _) as [s'|] eqn:Hs; [|done]. cbn in Hstep. injection Hstep as <- <-.
    rewrite app_nil_r. eapply (set_call_ok tr (mkManager _ (sy_world s') _)); [exact Hok|exact Hk| |].
    + intros e He. by rewrite Hc in He.
    + destruct Hok as (_ & H2 & _). specialize (H2 _ _ Hk). rewrite Hc in H2.
      destruct H2 as (n & t & Hn & Ht & Hsys). exists n, t. split_and!; [done..|].
      eapply step_ok; [done| |exact Hs]. exact Hsys.
  - destruct (cl_ctx c); [done|].
    assert (os = [] ∧ g' = set_call k (mkCall (cl_candidate c) (Some e) (cl_at c)) g) as [-> ->].
    { by destruct (cl_at c); simplify_eq. }
    rewrite app_nil_r. eapply set_call_ok; [exact Hok|exact Hk|done|].
    destruct Hok as (_ & H2 & _). exact (H2 k c Hk).
  - injection Hstep as <- <-. by rewrite app_nil_r.
Qed.

Lemma runs_ok w tr g : signer_signs W → runs (NewTxManager w) tr g → manager_ok tr g.
Proof.
  intros Hsig Hr. induction Hr as [|tr g1 e os g2 _ IH Hs]; [apply start_ok|by eapply gstep_ok].
Qed.

(** ** Theorems *)

(** C8: any number of concurrent calls of [Send], over any interleaving with each other, with
    their contexts and with the outside world.  (1) The nonces taken between two resets are
    consecutive [uint64]s, whichever calls take them, so no two are equal.  (2) Every
    transaction a call hands to the backend makes the call of its own candidate with the
    nonce that call took last.  (3) A receipt that a call returns is one the backend gave for
    such a transaction, at a confirmed height.  (4) Only a call that returns an error resets
    the nonce. *)
Theorem concurrent_sends w tr g :
  signer_signs W → runs (NewTxManager w) tr g →
  (∀ tr1 i n tr2 j m tr3, tr = tr1 ++ Taken i n :: tr2 ++ Taken j m :: tr3 → no_reset tr2 →
     m = u64 (n + 1 + Z.of_nat (taken tr2)) ∧ (Z.of_nat (taken tr2) + 1 < two64 → n ≠ m)) ∧
  (∀ k c s p stx, mg_calls g !! k = Some c → cl_at c = C_sending s → p ∈ sy_pubs s →
     pub_tx p = Some stx →
     ∃ n, taken_by k tr = Some n ∧ call_of cfg (cl_candidate c) n (s_tx stx)) ∧
  (∀ k c rc, mg_calls g !! k = Some c → cl_at c = C_return (Ok rc) →
     ∃ n stx w1 w2, taken_by k tr = Some n ∧ call_of cfg (cl_candidate c) n (s_tx stx) ∧
       TransactionReceipt (s_hash stx) w1 = (Ok (Some rc), w2) ∧
       ∃ tip w3 w4, BlockNumber w3 = (Ok tip, w4) ∧ confirmed_at cfg rc tip = true) ∧
  (∀ k, Reset_by k ∈ tr → ∃ c e, mg_calls g !! k = Some c ∧ cl_at c = C_return (Err e)).
Proof.
  intros Hsig Hr. destruct (runs_ok _ _ _ Hsig Hr) as ([_ Hn] & Hs & Hres).
  split_and!; [| | |exact Hres].
  - intros tr1 i n tr2 j m tr3 Htr Hno. rewrite (Hn _ _ _ _ _ _ _ Htr Hno). split; [done|].
    unfold u64, two64. intros Hlt Heq. set (x := Z.of_nat (taken tr2)) in *.
    assert (0 <= x) by lia. Z.div_mod_to_equations. lia.
  - intros k c s p stx Hk Hc Hp Htx. specialize (Hs _ _ Hk). rewrite Hc in Hs.
    destruct Hs as (n & t & H1 & H2 & Hpubs & _). exists n. split; [done|].
    eapply call_of_same; [exact H2|]. rewrite Forall_forall in Hpubs.
    specialize (Hpubs p Hp). by destruct p; cbn in *; simplify_eq; try apply Hpubs.
  - intros k c rc Hk Hc. specialize (Hs _ _ Hk). rewrite Hc in Hs.
    destruct Hs as (n & t & H1 & H2 & (stx & w1 & w2 & H3 & H4) & H5).
    exists n, stx, w1, w2. split_and!; [done| |done|done]. by eapply call_of_same.
Qed.

(** ** One call alone is [Send]

    Every outcome of the sequential [Sends] of TxMgr.v is a run of a manager with one call. *)

Definition reaches (g g' : manager) : Prop := ∃ tr, runs g tr g'.

Lemma runs_trans g tr g1 tr' g2 : runs g tr g1 → runs g1 tr' g2 → runs g (tr ++ tr') g2.
Proof.
  intros H1 H2. induction H2 as [|tr' g2 e os g3 _ IH Hs]; [by rewrite app_nil_r|].
  rewrite app_assoc. by eapply runs_step.
Qed.

#[local] Instance reaches_preorder : PreOrder reaches.
Proof.
  split; [intros g; exists []; constructor|].
  intros g g1 g2 [tr H1] [tr' H2]. exists (tr ++ tr'). by eapply runs_trans.
Qed.

Lemma reaches_step e g os g1 g2 : gstep e g = Some (os, g1) → reaches g1 g2 → reaches g g2.
Proof.
  intros Hs Hr. etransitivity; [|exact Hr]. exists ([] ++ os). eapply runs_step; [constructor|exact Hs].
Qed.

Section Lone.
Context `{C : Ctx W} (candidate : TxCandidate).

Definition lone (ctx : option error) (st : stage) (m : mstate) : manager :=
  mkManager m.1 m.2 [mkCall candidate ctx st].

Lemma lone_call ctx st m st' m' g :
  call_step (mkCall candidate ctx st) m = Some (st', m') →
  reaches (lone ctx st' m') g → reaches (lone ctx st m) g.
Proof.
  intros Hs. destruct m as [nonce w]. eapply (reaches_step (g_call 0)).
  cbn [gstep lone mg_calls mg_nonce mg_world fst snd lookup list_lookup mbind option_bind].
  by rewrite Hs.
Qed.

Lemma lone_craft ctx i m r m' g :
  craftTx cfg candidate m = (r, m') →
  reaches (lone ctx (match r with Ok stx => C_crafted stx | Err e => C_failed i e end) m') g →
  reaches (lone ctx (C_caps i) m) g.
Proof.
  intros Hc Hr. unfold craftTx in Hc.
  destruct (suggestGasPriceCaps m.2) as [[[tip bf]|e] w1] eqn:Hcaps;
    (eapply lone_call; [cbn; rewrite Hcaps; reflexivity|]); [|by simplify_eq].
  destruct (craftGas cfg candidate tip (calcGasFeeCap bf tip) w1) as [[gas|e] w2] eqn:Hg;
    (eapply lone_call; [cbn; rewrite Hg; reflexivity|]); [|by simplify_eq].
  destruct (nextNonce cfg (m.1, w2)) as [[n|e] m3] eqn:Hn;
    (eapply lone_call; [cbn; rewrite Hn; reflexivity|]); [|by simplify_eq].
  destruct (signer _ _ m3.2) as [[stx|e] w4] eqn:Hsg; simplify_eq;
    (eapply lone_call; [cbn; unfold rawTx_of; rewrite Hsg; reflexivity|]); exact Hr.
Qed.

(** What the retries of [send] leave. *)
Definition crafted (r : result SignedTx) : stage :=
  match r with
  | Ok stx => C_crafted stx
  | Err e => C_error (Errorf_w "failed to create the tx" e)
  end.

Lemma lone_attempts more : ∀ i err m r m',
  (i + S more = attempts)%nat →
  Do_loop (C := mstate_ctx) (Fixed (2 * second)) (fun m => Ret (craftTx cfg candidate m)) 10
    (S more) (Z.of_nat i) err m = Ret (r, m') →
  ∃ ctx, reaches (lone None (C_attempt i) m) (lone ctx (crafted r) m') ∧
    (∀ stx, r = Ok stx → ctx = None).
Proof.
  induction more as [|more IH]; intros i err m r m' Hi Hd; cbn [Do_loop] in Hd.
  all: destruct (ctx_Err (Ctx := mstate_ctx) m) as [e|];
    [simplify_eq; exists (Some e); split; [|done];
     eapply (reaches_step (g_done 0 e)); [reflexivity|]; by eapply lone_call|].
  all: destruct (craftTx cfg candidate m) as [[stx|e] m1] eqn:Hc; cbn in Hd;
    [simplify_eq; exists None; split; [|done]; eapply lone_call; [reflexivity|];
     by eapply lone_craft|].
  - assert (i = 9%nat) as -> by (unfold attempts in Hi; lia). cbn in Hd. simplify_eq.
    exists None. split; [|done]. eapply lone_call; [reflexivity|].
    eapply lone_craft; [exact Hc|]. by eapply lone_call.
  - replace (Z.of_nat i =? 10 - 1) with false in Hd
      by (symmetry; apply Z.eqb_neq; unfold attempts in Hi; lia).
    replace (Z.of_nat i + 1) with (Z.of_nat (S i)) in Hd by lia.
    apply (IH _ err) in Hd as (ctx & Hd & Hctx); [|lia]. exists ctx. split; [|done].
    eapply lone_call; [reflexivity|]. eapply lone_craft; [exact Hc|].
    eapply lone_call.
    { unfold call_step. cbn [cl_at]. rewrite (proj2 (Nat.ltb_lt (S i) attempts)) by lia. reflexivity. }
    by eapply (reaches_step (g_world _)).
Qed.

Lemma lone_sys ctx m s s' :
  rtc (steps_to cfg) s s' → sy_world s = m.2 →
  reaches (lone ctx (C_sending s) m) (lone ctx (C_sending s') (m.1, sy_world s')).
Proof.
  intros Hr. revert m. induction Hr as [s|s s1 s' [a Ha] _ IH]; intros m Hw.
  { rewrite Hw. destruct m. reflexivity. }
  assert (in_world m.2 s = s) as Hin by (rewrite <- Hw; by destruct s).
  eapply (reaches_step (g_sys 0 a)); [cbn; rewrite Hin, Ha; reflexivity|].
  exact (IH (m.1, sy_world s1) eq_refl).
Qed.

Lemma finished_all (ps : list pub) : Forall (eq P_done) ps → forallb finished ps = true.
Proof. induction 1 as [|p ps <- _ IH]; [done|exact IH]. Qed.

Lemma lone_send stx m s r :
  sending cfg stx m.2 s → returned r s →
  reaches (lone None (C_crafted stx) m) (lone None (C_return r)
    (match r with Ok _ => (m.1, sy_world s) | Err _ => (None, sy_world s) end)).
Proof.
  intros (s0 & Hi & Hr) [Hm Hd].
  assert (with_ctx None s0 = s0 ∧ sy_world s0 = m.2) as [Hs0 Hw].
  { unfold sendTx_init in Hi. destruct (NewSendStateWithNow _ _ _); [|done].
    cbn in Hi. by injection Hi as <-. }
  eapply lone_call; [cbn; rewrite Hi, Hs0; reflexivity|].
  etransitivity; [by apply lone_sys|].
  eapply lone_call; [cbn; rewrite Hm, finished_all by done; reflexivity|].
  destruct r as [rc|e]; [reflexivity|]. by eapply lone_call.
Qed.

(** Every outcome of one [Send] is an outcome of the concurrent manager. *)
Theorem lone_send_refines outside m r m' :
  Sends cfg outside candidate m r m' →
  ∃ tr ctx, runs (mkManager m.1 m.2 []) tr (mkManager m'.1 m'.2 [mkCall candidate ctx (C_return r)]).
Proof.
  intros Hs.
  assert (∃ ctx, reaches (lone None (C_attempt 0) m) (lone ctx (C_return r) m')) as [ctx Hr].
  { inversion Hs as [e m1 Hc|stx m1 r1 s Hc Hsend Hret]; subst; unfold send_craft, Do in Hc;
      change (10 <? 1) with false in Hc; cbn [Z.to_nat Pos.to_nat] in Hc.
    all: destruct (Do_loop _ _ _ _ _ _ _) as [[r0 m0]|] eqn:Hd in Hc; [|done]; cbn in Hc.
    all: destruct (lone_attempts 9 0 (FmtError "") m r0 m0 eq_refl Hd) as (ctx & H0 & Hctx).
    all: destruct r0 as [stx0|e0]; cbn in Hc; simplify_eq.
    - exists ctx. etransitivity; [exact H0|]. by eapply lone_call.
    - rewrite (Hctx _ eq_refl) in H0. exists None. etransitivity; [exact H0|].
      apply lone_send; [by eapply sending_in_sending|done]. }
  destruct m as [nonce w], m' as [nonce' w'].
  eapply (reaches_step (g_send candidate) (mkManager nonce w [])) in Hr as [tr Hr]; [|reflexivity].
  by exists tr, ctx.
Qed.

End Lone.

End Calls.

(** ** Concrete runs *)

Module ConcurrentSendsSample.
Import TxMgrSample.

Fixpoint grun `{B : ETHBackend Z} (es : list event) (g : manager) : option (list obs * manager) :=
  match es with
  | [] => Some ([], g)
  | e :: es =>
      '(os, g1) ← gstep cfg e g;
      '(tr, g2) ← grun es g1;
      Some (os ++ tr, g2)
  end.

Lemma grun_runs `{B : ETHBackend Z} es : ∀ g tr g',
  grun es g = Some (tr, g') → runs cfg g tr g'.
Proof.
  induction es as [|e es IH]; intros g tr g' H; cbn in H.
  { simplify_eq. constructor. }
  destruct (gstep cfg e g) as [[os g1]|] eqn:Hs; [|done]. cbn in H.
  destruct (grun es g1) as [[tr1 g2]|] eqn:Hr; [|done]. cbn in H. simplify_eq.
  eapply (runs_trans cfg _ os g1); [|by apply IH].
  eapply (runs_step cfg g [] g e os); [constructor|done].
Qed.

(** Candidates with other payloads. *)
Definition other (b : Byte.byte) : TxCandidate := mkCandidate [b] (Some 42) 0 None.

(** Call [k] crafts its transaction and publishes it. *)
Definition publish (k : nat) : list (event (W := Z)) :=
  repeat (g_call k) 6 ++ [g_sys k (a_pub 0 false); g_sys k (a_pub 0 false)].

(** Two calls take turns; the first gets its receipt. *)
Definition two_calls : list (event (W := Z)) :=
  [g_send candidate; g_send (other Byte.x02)] ++ repeat (g_call 0) 4 ++ repeat (g_call 1) 4 ++
  [g_call 0; g_call 1; g_call 0; g_call 1] ++ map (g_sys 0) schedule ++
  [g_sys 1 (a_pub 0 false); g_call 0].

(** The first call waits for its receipt; the second fails, its context being done; the
    third is then given the nonce that the first still uses. *)
Definition reuse : list (event (W := Z)) :=
  [g_send candidate] ++ publish 0 ++
  [g_send (other Byte.x02); g_done 1 Canceled; g_call 1; g_call 1; g_send (other Byte.x03)] ++
  publish 2.

Definition outcome (es : list event) : list obs * manager :=
  default ([], NewTxManager 1) (grun (B := lax) es (NewTxManager 1)).

Lemma concurrent_sends_witness :
  8 = u64 (7 + 1 + 0) ∧
  ∃ stx w1 w2, call_of cfg candidate 7 (s_tx stx) ∧
    TransactionReceipt (ETHBackend := lax) (s_hash (ETHBackend := lax) stx) w1 = (Ok (Some (mkReceipt 1 7022 100)), w2).
Proof.
  destruct (concurrent_sends (B := lax) cfg 1 (outcome two_calls).1 (outcome two_calls).2
    (signs _)) as (H1 & _ & H3 & _).
  { apply (grun_runs (B := lax) two_calls). vm_compute. reflexivity. }
  split.
  - destruct (H1 [] 0%nat 7 [] 1%nat 8 []) as [H _];
      [vm_compute; reflexivity|by intros k ?%elem_of_nil|]. exact H.
  - destruct (H3 0%nat (mkCall candidate None (C_return (Ok (mkReceipt 1 7022 100))))
      (mkReceipt 1 7022 100)) as (n & stx & w1 & w2 & H & Hn & Hr & _);
      [vm_compute; reflexivity|reflexivity|].
    vm_compute in H. injection H as <-. by exists stx, w1, w2.
Defined.

(** A nonce in use is taken again: the reset of a failed call makes the next call ask for the
    latest nonce, which does not count the transaction that another call has published and
    that is not mined.  Two calls then wait for different transactions with one nonce. *)
Theorem reset_repeats_pending_nonce :
  ∃ tr g c0 s0 stx0 c2 s2 stx2,
    runs (B := lax) cfg (NewTxManager 1) tr g ∧
    tr = [Taken 0 7; Reset_by 1; Taken 2 7] ∧
    mg_calls g !! 0%nat = Some c0 ∧ cl_at c0 = C_sending s0 ∧ P_wait stx0 ∈ sy_pubs s0 ∧
    mg_calls g !! 2%nat = Some c2 ∧ cl_at c2 = C_sending s2 ∧ P_wait stx2 ∈ sy_pubs s2 ∧
    tx_Nonce (s_tx stx0) = tx_Nonce (s_tx stx2) ∧ tx_Data (s_tx stx0) ≠ tx_Data (s_tx stx2).
Proof.
  eexists (outcome reuse).1, (outcome reuse).2, _, _, _, _, _, _. split_and!.
  - apply (grun_runs (B := lax) reuse). vm_compute. reflexivity.
  - vm_compute. reflexivity.
  - vm_compute. reflexivity.
  - reflexivity.
  - left.
  - vm_compute. reflexivity.
  - reflexivity.
  - left.
  - reflexivity.
  - done.
Qed.

End ConcurrentSendsSample.
