(* ===== verification/Disseminator.v ===== *)
(** * The batch disseminator

    Models services/sidecar/rollup/services/disseminator/batch_disseminator.go and its
    interfaces (interface.go): the loop that appends new L2 blocks to the batch builder and
    sends the batches to L1.

    The interfaces of the service are classes.  [BatchBuilder] has the builder of
    [Builder] as an instance; [BatchBuilderContract] states what the service relies on, and
    the builder's instance discharges it.  [W] is the state of the rest of the world: the
    L2 client, the L1 transaction manager and the shared L1 state, which other goroutines
    update. *)

From S2P Require Import Prelude Errors Types Encoder Bridge Builder EthState Retry.

(** ** Interfaces *)

Class BatchBuilder (B : Type) := {
  bb_Enqueue : Block → B → result unit * B;
  bb_LastEnqueued : B → BlockID;
  bb_Build : BlockID → B → go (result bytes * B);
  bb_Advance : B → B;
  bb_Reset : BlockID → B → B
}.

(** The service's [TxManager] and the shared [*eth.EthState]. *)
Class L1 (W : Type) := {
  l1_AppendTxBatch : bytes → W → go (result Receipt * W);
  l1_State : W → EthState
}.

(** What the service relies on: an enqueued block becomes the last one, a refused one
    changes nothing and is refused because it does not extend the last one; building and
    advancing keep the last block; a built batch stays until it is advanced. *)
Class BatchBuilderContract (B : Type) `{BatchBuilder B} := {
  bb_Enqueue_ok : ∀ block b b',
    bb_Enqueue block b = (Ok tt, b') →
    bb_LastEnqueued b' = NewBlockID (NumberU64 block) (block_Hash block) ∧
    (GetHash (bb_LastEnqueued b) = zero_hash ∨ block_ParentHash block = GetHash (bb_LastEnqueued b));
  bb_Enqueue_err : ∀ block b e b',
    bb_Enqueue block b = (Err e, b') →
    b' = b ∧ errors_As e T_InvalidBlockError = true ∧
    GetHash (bb_LastEnqueued b) ≠ zero_hash ∧ block_ParentHash block ≠ GetHash (bb_LastEnqueued b);
  bb_Build_last : ∀ head b r b', bb_Build head b = Ret (r, b') → bb_LastEnqueued b' = bb_LastEnqueued b;
  bb_Build_stays : ∀ head b data b', bb_Build head b = Ret (Ok data, b') →
    ∀ head', bb_Build head' b' = Ret (Ok data, b');
  bb_Advance_last : ∀ b, bb_LastEnqueued (bb_Advance b) = bb_LastEnqueued b;
  bb_Reset_last : ∀ id b, bb_LastEnqueued (bb_Reset id b) = id
}.

Section Disseminator.
Context {B W : Type} `{BB : BatchBuilder B} `{L2 : L2Client W} `{T : L1 W} `{C : Ctx W}.

Definition dstate : Type := B * W.
Implicit Types s : dstate.

(** ** Operations *)

(** [rollback]: to the last safe L2 header. *)
Definition rollback s : result unit * dstate :=
  let '(b, w) := s in
  let '(head, w1) := l2_HeaderByTag Safe_tag w in
  match head with
  | Err e => (Err (Errorf_w "failed to get last safe header" e), (b, w1))
  | Ok head => (Ok tt, (bb_Reset (NewBlockIDFromHeader head) b, w1))
  end.

(** [pendingL2BlockRange]: the first and last block to append.  The state error is returned
    by pointer. *)
Definition pendingL2BlockRange s : result (Z * Z) * W :=
  let '(b, w) := s in
  let lastEnqueued := bb_LastEnqueued b in
  let '(safe, w1) := l2_HeaderByTag Safe_tag w in
  match safe with
  | Err e => (Err (Errorf_w "failed to get l2 safe header" e), w1)
  | Ok safe =>
      let safeNumber := big_Uint64 (h_Number safe) in
      let range start :=
        let '(end_, w2) := l2_BlockNumber w1 in
        match end_ with
        | Err e => (Err (Errorf_w "failed to get most recent l2 block number" e), w2)
        | Ok end_ => (Ok (start, end_), w2)
        end in
      if bool_decide (lastEnqueued = EmptyBlockID) then range (u64 (safeNumber + 1))
      else if safeNumber >? GetNumber lastEnqueued
      then (Err (AddrOf (UnexpectedSystemStateError "Safe header exceeds last appended header")), w1)
      else range (u64 (GetNumber lastEnqueued + 1))
  end.

(** The loop of [appendToBuilder], [for i := start; i <= end; i++] on [uint64]: with [end]
    at the largest value it would not end, which shows as running out of [fuel]. *)
Fixpoint append_loop (fuel : nat) (i end_ : Z) s : go (result unit * dstate) :=
  if i <=? end_ then
    match fuel with
    | O => Panic "loop does not end"
    | S fuel =>
        let '(b, w) := s in
        let '(block, w1) := l2_BlockByNumber i w in
        match block with
        | Err e => Ret (Err (Errorf_w "failed to get block" e), (b, w1))
        | Ok block =>
            let '(r, b1) := bb_Enqueue block b in
            match r with
            | Err e =>
                if errors_As e T_InvalidBlockError then Ret (Err (L2ReorgDetectedError e), (b1, w1))
                else Ret (Err (Errorf_w "failed to enqueue block" e), (b1, w1))
            | Ok _ => append_loop fuel (u64 (i + 1)) end_ (b1, w1)
            end
        end
    end
  else Ret (Ok tt, s).

Definition appendToBuilder s : go (result unit * dstate) :=
  let '(range, w1) := pendingL2BlockRange s in
  match range with
  | Err e => Ret (Err (Errorf_w "failed to get l2 block number" e), (s.1, w1))
  | Ok (start, end_) =>
      if start >? end_ then Ret (Ok tt, (s.1, w1))
      else append_loop (Z.to_nat (end_ - start + 1)) start end_ (s.1, w1)
  end.

(** [disseminateBatch]: build, send, advance. *)
Definition disseminateBatch s : go (result unit * dstate) :=
  let '(b, w) := s in
  '(data, b1) ← bb_Build (Head (l1_State w)) b;
  match data with
  | Err e => Ret (Err (Errorf_w "failed to build batch" e), (b1, w))
  | Ok data =>
      '(receipt, w1) ← l1_AppendTxBatch data w;
      match receipt with
      | Err e => Ret (Err (Errorf_w "failed to send batch transaction" e), (b1, w1))
      | Ok _ => Ret (Ok tt, (bb_Advance b1, w1))
      end
  end.

(** [disseminateBatches], for at most [fuel] batches; [None] when it is still running. *)
Fixpoint disseminateBatches (fuel : nat) s : go (option (result unit) * dstate) :=
  match fuel with
  | O => Ret (None, s)
  | S fuel =>
      match ctx_Err s.2 with
      | Some _ => Ret (Some (Ok tt), s)
      | None =>
          '(r, s1) ← disseminateBatch s;
          match r with
          | Err e =>
              if errors_Is e io_EOF then Ret (Some (Ok tt), s1)
              else Ret (Some (Err (Errorf_w "failed to sequence batch" e)), s1)
          | Ok _ => disseminateBatches fuel s1
          end
      end
  end.

(** [step]: a reorg makes the service fall back on the safe head. *)
Definition step (fuel : nat) s : go (option (result unit) * dstate) :=
  '(r, s1) ← appendToBuilder s;
  match r with
  | Err e =>
      let s2 := if errors_As e T_L2ReorgDetectedError then (rollback s1).2 else s1 in
      Ret (Some (Err (Errorf_w "failed to append to batch builder" e)), s2)
  | Ok _ =>
      '(r, s2) ← disseminateBatches fuel s1;
      Ret (option_map (wrap_err "failed to sequence batches") r, s2)
  end.

(** The loop of [start]: it ends with an error only when [errors.As] finds the struct type
    [unexpectedSystemStateError]. *)
Fixpoint start_loop (fuel : nat) (evs : list (event W)) s : go (option (result unit) * dstate) :=
  match evs with
  | [] => Ret (None, s)
  | ev_done :: _ => Ret (Some (Ok tt), s)
  | ev_tick env :: evs =>
      '(r, s1) ← step fuel (s.1, env s.2);
      match r with
      | None => Ret (None, s1)
      | Some (Err e) =>
          if errors_As e T_unexpectedSystemStateError
          then Ret (Some (Err (Errorf_w "aborting" e)), s1)
          else start_loop fuel evs s1
      | Some (Ok _) => start_loop fuel evs s1
      end
  end.

(** [start]: the error of the first rollback is dropped. *)
Definition start (fuel : nat) (evs : list (event W)) s : go (option (result unit) * dstate) :=
  start_loop fuel evs (rollback s).2.

(** [Start]: dials, then runs [start] in a goroutine. *)
Definition Start (fuel : nat) (evs : list (event W)) s : go (option (result unit) * dstate) :=
  let '(e, w1) := l2_EnsureDialed s.2 in
  match e with
  | Some e => Ret (Some (Err (Errorf_w "failed to create L2 client" e)), (s.1, w1))
  | None => start fuel evs (s.1, w1)
  end.

End Disseminator.

(** ** The builder behind the interface *)

#[export] Instance Builder_BatchBuilder `{A : ABI} {E : Type} `{V : VersionedDataEncoder E}
    (util : option bridgeSerializationUtil) : BatchBuilder (batchBuilder E) := {
  bb_Enqueue := Builder.Enqueue;
  bb_LastEnqueued := Builder.LastEnqueued;
  bb_Build := Builder.Build util;
  bb_Advance := Builder.Advance;
  bb_Reset := Builder.Reset
}.

#[export] Instance Builder_BatchBuilderContract `{A : ABI} {E : Type} `{V : VersionedDataEncoder E}
    (util : option bridgeSerializationUtil) :
  BatchBuilderContract (batchBuilder E) (H := Builder_BatchBuilder util).
Proof.
  split; cbn.
  - intros block b b' H. apply Enqueue_ok in H as [-> H]. done.
  - intros block b e b' H. unfold Enqueue in H. destruct (_ && _) eqn:Hc; [|done].
    simplify_eq. zbool. done.
  - intros head b r b' H. by apply Build_frame in H as [H _].
  - intros head b data b' H head'. apply Build_sets_cache in H. unfold Build. by rewrite H.
  - done.
  - done.
Qed.

(** ** Appending *)

Section DisseminatorFacts.
Context {B W : Type} `{BB : BatchBuilder B} `{L2 : L2Client W} `{T : L1 W} `{C : Ctx W}.
Implicit Types s : @dstate B W.

(** The blocks [blocks], numbered from [i], were fetched and enqueued one after the other. *)
Inductive appended : Z → list Block → dstate → dstate → Prop :=
| appended_nil i s : appended i [] s s
| appended_cons i block blocks b w b1 w1 s' :
    l2_BlockByNumber i w = (Ok block, w1) → bb_Enqueue block b = (Ok tt, b1) →
    appended (i + 1) blocks (b1, w1) s' → appended i (block :: blocks) (b, w) s'.

(** A block that the builder refuses: the reason for which a reorg is reported. *)
Definition not_a_child (block : Block) (b : B) : Prop :=
  GetHash (bb_LastEnqueued b) ≠ zero_hash ∧ block_ParentHash block ≠ GetHash (bb_LastEnqueued b).

(** What the loop has done when it returns, whatever it returns. *)
Lemma append_loop_spec `{!BatchBuilderContract B} fuel : ∀ i end_ s,
  0 <= i → end_ < two64 - 1 → end_ - i < Z.of_nat fuel →
  ∃ r s' blocks s1, append_loop fuel i end_ s = Ret (r, s') ∧ appended i blocks s s1 ∧
    match r with
    | Ok _ => s' = s1 ∧ Z.of_nat (length blocks) = Z.max 0 (end_ - i + 1)
    | Err e => ∃ w1, s'.2 = w1 ∧ s'.1 = s1.1 ∧ i + Z.of_nat (length blocks) <= end_ ∧
        match e with
        | L2ReorgDetectedError _ => ∃ block,
            l2_BlockByNumber (i + Z.of_nat (length blocks)) s1.2 = (Ok block, w1) ∧
            not_a_child block s1.1
        | _ => ∃ e', l2_BlockByNumber (i + Z.of_nat (length blocks)) s1.2 = (Err e', w1) ∧
            e = Errorf_w "failed to get block" e'
        end
    end.
Proof.
  induction fuel as [|fuel IH]; intros i end_ [b w] Hi Hend Hf; cbn [append_loop].
  { rewrite (proj2 (Z.leb_gt i end_)) by lia. exists (Ok tt), (b, w), [], (b, w).
    split; [done|]. split; [constructor|]. split; [done|]. cbn. lia. }
  destruct (i <=? end_) eqn:Hle; zbool.
  2: { exists (Ok tt), (b, w), [], (b, w). split; [done|]. split; [constructor|]. split; [done|]. cbn. lia. }
  destruct (l2_BlockByNumber i w) as [[block|e] w1] eqn:Hb.
  2: { eexists _, _, [], (b, w). split; [reflexivity|]. split; [constructor|]. cbn.
       exists w1. rewrite Z.add_0_r. split_and!; try done. by exists e. }
  destruct (bb_Enqueue block b) as [[[]|e] b1] eqn:He.
  - rewrite u64_small by (unfold is_u64; lia).
    destruct (IH (i + 1) end_ (b1, w1)) as (r & s' & blocks & s1 & -> & Happ & Hr); [lia..|].
    exists r, s', (block :: blocks), s1. split; [done|]. split; [by econstructor|].
    replace (i + Z.of_nat (length (block :: blocks))) with (i + 1 + Z.of_nat (length blocks))
      by (cbn; lia).
    destruct r; [|done]. destruct Hr as [-> Hr]. split; [done|]. cbn [length]. lia.
  - apply bb_Enqueue_err in He as (-> & Has & Hnc). rewrite Has.
    eexists _, _, [], (b, w). split; [reflexivity|]. split; [constructor|]. cbn.
    exists w1. rewrite Z.add_0_r. split_and!; try done. by exists block.
Qed.

Lemma appended_last `{!BatchBuilderContract B} i blocks s s' :
  appended i blocks s s' →
  bb_LastEnqueued s'.1 = tip (bb_LastEnqueued s.1) blocks ∧ chain (bb_LastEnqueued s.1) blocks.
Proof.
  induction 1 as [i s|i block blocks b w b1 w1 s' Hb He _ IH]; [done|].
  apply bb_Enqueue_ok in He as [Hlast Hlink]. cbn in *. rewrite Hlast in IH.
  destruct IH as [-> IH]. done.
Qed.

Lemma pendingL2BlockRange_u64 s start end_ w :
  pendingL2BlockRange s = (Ok (start, end_), w) → is_u64 start.
Proof.
  destruct s as [b w0]. unfold pendingL2BlockRange.
  destruct (l2_HeaderByTag _ w0) as [[safe|e] w1]; [|done].
  destruct (l2_BlockNumber w1) as [[en|e] w2]; case_bool_decide; try destruct (_ >? _); try done;
    intros [= <- <- <-]; apply u64_range.
Qed.

(** [batches] were built, sent and confirmed, one after the other, the context being live
    before each and the builder advanced after each. *)
Inductive sent : list bytes → dstate → dstate → Prop :=
| sent_nil s : sent [] s s
| sent_cons data batches b b1 w receipt w1 s' :
    ctx_Err w = None →
    bb_Build (Head (l1_State w)) b = Ret (Ok data, b1) →
    l1_AppendTxBatch data w = Ret (Ok receipt, w1) →
    sent batches (bb_Advance b1, w1) s' → sent (data :: batches) (b, w) s'.

(** A batch failed with [e]: it could not be built; or its transaction failed, and then the
    builder is the one that has built it, which is not advanced. *)
Inductive failed_batch : dstate → error → dstate → Prop :=
| failed_build b w e b1 :
    bb_Build (Head (l1_State w)) b = Ret (Err e, b1) →
    failed_batch (b, w) (Errorf_w "failed to build batch" e) (b1, w)
| failed_send data b w b1 e w1 :
    bb_Build (Head (l1_State w)) b = Ret (Ok data, b1) →
    l1_AppendTxBatch data w = Ret (Err e, w1) →
    failed_batch (b, w) (Errorf_w "failed to send batch transaction" e) (b1, w1).

Lemma disseminateBatch_err s e s' : disseminateBatch s = Ret (Err e, s') → failed_batch s e s'.
Proof.
  destruct s as [b w]. unfold disseminateBatch.
  destruct (bb_Build _ b) as [[[data|e1] b1]|] eqn:Hb; [| |done]; cbn -[Errorf_w].
  - destruct (l1_AppendTxBatch data w) as [[[rc|e1] w1]|] eqn:Ha; [done| |done]. cbn -[Errorf_w].
    intros [= <- <-]. by eapply failed_send.
  - intros [= <- <-]. by eapply failed_build.
Qed.

Lemma disseminateBatch_ok s s' :
  disseminateBatch s = Ret (Ok tt, s') →
  ∃ data b1 receipt w1, bb_Build (Head (l1_State s.2)) s.1 = Ret (Ok data, b1) ∧
    l1_AppendTxBatch data s.2 = Ret (Ok receipt, w1) ∧ s' = (bb_Advance b1, w1).
Proof.
  destruct s as [b w]. unfold disseminateBatch. cbn.
  destruct (bb_Build _ b) as [[[data|e] b1]|]; [|done..]. cbn.
  destruct (l1_AppendTxBatch data w) as [[[rc|e] w1]|] eqn:Ha; [|done..]. cbn. intros [= <-].
  by exists data, b1, rc, w1.
Qed.

(** ** Theorems *)

(** C9: appending takes the L2 blocks of the pending range in order, one by one, each a
    child of the one before: after success the builder has all of [start .. end] and its
    last block is the last of them; on failure it has a prefix, and a reorg is reported
    exactly when the next block of the chain is not a child of the builder's last one. *)
Theorem appendToBuilder_correct `{!BatchBuilderContract B} s start end_ w1 :
  pendingL2BlockRange s = (Ok (start, end_), w1) → start <= end_ < two64 - 1 →
  ∃ r s' blocks s1, appendToBuilder s = Ret (r, s') ∧ appended start blocks (s.1, w1) s1 ∧
    chain (bb_LastEnqueued s.1) blocks ∧
    bb_LastEnqueued s'.1 = tip (bb_LastEnqueued s.1) blocks ∧
    match r with
    | Ok _ => s' = s1 ∧ start + Z.of_nat (length blocks) = end_ + 1
    | Err e => start + Z.of_nat (length blocks) <= end_ ∧
        ((∃ e', e = L2ReorgDetectedError e') ↔ ∃ block,
           l2_BlockByNumber (start + Z.of_nat (length blocks)) s1.2 = (Ok block, s'.2) ∧
           not_a_child block s1.1)
    end.
Proof.
  intros Hr Hle. pose proof (pendingL2BlockRange_u64 _ _ _ _ Hr) as Hu. unfold is_u64 in Hu.
  destruct (append_loop_spec (Z.to_nat (end_ - start + 1)) start end_ (s.1, w1))
    as (r & s' & blocks & s1 & Hl & Happ & Hres); [lia..|].
  exists r, s', blocks, s1. destruct (appended_last _ _ _ _ Happ) as [Hlast Hchain]. cbn in Hlast, Hchain.
  unfold appendToBuilder. rewrite Hr. replace (start >? end_) with false by (symmetry; rewrite Z.gtb_ltb; apply Z.ltb_ge; lia).
  split; [done|]. split; [done|]. split; [done|].
  destruct r as [[]|e]; [destruct Hres as [-> Hres]; split; [done|]; split; [done|lia]|].
  destruct Hres as (w2 & Hw & Hb & Hn & He). rewrite Hb. split; [done|]. split; [done|]. rewrite Hw.
  split; [intros [e' ->]; exact He|]. intros (block & Hblock & _).
  destruct e; eauto; destruct He as (e' & He & _); congruence.
Qed.

(** A step that detects a reorg falls back: it returns the error, sends nothing, and the
    builder is reset to the current safe head, so that the next step starts from the block
    after it.  Any other failure to append leaves the builder as the appending left it. *)
Theorem step_append_failure `{!BatchBuilderContract B} fuel s e s1 head w2 :
  appendToBuilder s = Ret (Err e, s1) → l2_HeaderByTag Safe_tag s1.2 = (Ok head, w2) →
  ∃ s', step fuel s = Ret (Some (Err (Errorf_w "failed to append to batch builder" e)), s') ∧
    if errors_As e T_L2ReorgDetectedError
    then s' = (bb_Reset (NewBlockIDFromHeader head) s1.1, w2) ∧
         bb_LastEnqueued s'.1 = NewBlockIDFromHeader head
    else s' = s1.
Proof.
  intros Ha Hh. unfold step. rewrite Ha. cbn.
  destruct (errors_As e T_L2ReorgDetectedError); eexists; (split; [reflexivity|]); [|done].
  destruct s1 as [b1 w1]. unfold rollback. cbn in *. rewrite Hh. cbn.
  split; [done|]. apply bb_Reset_last.
Qed.

(** A batch whose transaction fails is not lost: the builder keeps it, its last block is
    unchanged, and the next attempt sends the same data, whatever the L1 head is by then. *)
Theorem failed_send_is_retried `{!BatchBuilderContract B} b w data b1 e w1 w' :
  bb_Build (Head (l1_State w)) b = Ret (Ok data, b1) →
  l1_AppendTxBatch data w = Ret (Err e, w1) →
  disseminateBatch (b, w) =
    Ret (Err (Errorf_w "failed to send batch transaction" e), (b1, w1)) ∧
  bb_LastEnqueued b1 = bb_LastEnqueued b ∧
  disseminateBatch (b1, w') =
    ('(receipt, w2) ← l1_AppendTxBatch data w';
     match receipt with
     | Err e => Ret (Err (Errorf_w "failed to send batch transaction" e), (b1, w2))
     | Ok _ => Ret (Ok tt, (bb_Advance b1, w2))
     end).
Proof.
  intros Hb Ha. unfold disseminateBatch. rewrite Hb. cbn. rewrite Ha. cbn.
  split; [done|]. split; [by eapply bb_Build_last|].
  rewrite (bb_Build_stays _ _ _ _ Hb). done.
Qed.

(** C10: [disseminateBatches] sends batches one at a time while the context is live,
    advancing the builder after each batch that was confirmed and only then: when the
    transaction of a batch fails, the builder left is the one that has built the batch, not
    advanced.  It succeeds only when the context is done or the next batch failed with an
    error that wraps [io.EOF], and fails with any other error of a batch. *)
Theorem disseminateBatches_correct fuel : ∀ s r s',
  disseminateBatches fuel s = Ret (r, s') →
  ∃ batches s1, sent batches s s1 ∧
    match r with
    | None => length batches = fuel ∧ s' = s1
    | Some (Ok _) =>
        (ctx_Err s1.2 ≠ None ∧ s' = s1) ∨
        ctx_Err s1.2 = None ∧ ∃ e, failed_batch s1 e s' ∧ errors_Is e io_EOF = true
    | Some (Err e) => ctx_Err s1.2 = None ∧ ∃ e', failed_batch s1 e' s' ∧
        errors_Is e' io_EOF = false ∧ e = Errorf_w "failed to sequence batch" e'
    end.
Proof.
  induction fuel as [|fuel IH]; intros s r s' H; cbn [disseminateBatches] in H.
  { simplify_eq. exists [], s'. split; [constructor|done]. }
  destruct (ctx_Err s.2) eqn:Hctx.
  { simplify_eq. exists [], s'. split; [constructor|]. left. by rewrite Hctx. }
  destruct (disseminateBatch s) as [[[[]|e] s1]|] eqn:Hd; [| |done]; cbn in H.
  - apply IH in H as (batches & s2 & Hs & Hr).
    destruct (disseminateBatch_ok _ _ Hd) as (data & b1 & rc & w1 & Hb & Ha & ->).
    exists (data :: batches), s2. split; [destruct s; by econstructor|].
    destruct r as [[[]|e]|]; [done..|]. destruct Hr as [<- ->]. done.
  - apply disseminateBatch_err in Hd. exists [], s. split; [constructor|].
    destruct (errors_Is e io_EOF) eqn:He; simplify_eq; [right|]; by eauto.
Qed.

(** An error of the L1 transaction that wraps [io.EOF], as a connection closed by the
    L1 node gives, is taken for "no pending batches": the step reports success although the
    batch was not sent. *)
Theorem eof_send_error_is_hidden fuel b w data b1 e w1 :
  ctx_Err w = None → bb_Build (Head (l1_State w)) b = Ret (Ok data, b1) →
  l1_AppendTxBatch data w = Ret (Err e, w1) → errors_Is e io_EOF = true →
  disseminateBatches (S fuel) (b, w) = Ret (Some (Ok tt), (b1, w1)).
Proof.
  intros Hc Hb Ha He. cbn [disseminateBatches snd]. rewrite Hc. unfold disseminateBatch.
  rewrite Hb. cbn -[errors_Is Errorf_w]. rewrite Ha. cbn -[errors_Is Errorf_w].
  unfold io_EOF in *. by rewrite !errors_Is_Errorf_w, He.
Qed.

(** The service never aborts on an unexpected system state.  The error is a pointer and
    [start] asks [errors.As] for the struct, so when the safe head has passed the builder's
    last block the loop goes on at every tick, for ever, without changing the builder. *)
Theorem unexpected_state_never_aborts fuel n : ∀ s,
  bb_LastEnqueued s.1 ≠ EmptyBlockID →
  (∀ w, ∃ safe w1, l2_HeaderByTag Safe_tag w = (Ok safe, w1) ∧
                   GetNumber (bb_LastEnqueued s.1) < big_Uint64 (h_Number safe)) →
  ∃ w', start_loop fuel (repeat (ev_tick id) n) s = Ret (None, (s.1, w')).
Proof.
  induction n as [|n IH]; intros s Hne Hsafe; [by exists s.2; destruct s|].
  destruct s as [b w]. cbn in *. destruct (Hsafe w) as (safe & w1 & Hs & Hlt).
  unfold step, appendToBuilder, pendingL2BlockRange. unfold id. rewrite Hs.
  rewrite bool_decide_eq_false_2 by done.
  rewrite Z.gtb_ltb, (proj2 (Z.ltb_lt _ _)) by done. cbn.
  destruct (IH (b, w1) Hne Hsafe) as [w' Hw']. exists w'. exact Hw'.
Qed.

End DisseminatorFacts.

(** ** The V0 encoder is never emptied by a sent batch *)

Section Livelock.
Context `{A : ABI} `{R : RLP} `{L : !RLPLaws R} {W : Type} `{L2 : L2Client W} `{T : L1 W} `{C : Ctx W}.
Context (util : option bridgeSerializationUtil).
#[local] Instance the_builder : BatchBuilder (batchBuilder BatchV0Encoder) := Builder_BatchBuilder util.
Implicit Types b : batchBuilder BatchV0Encoder.

(** The encoder is past its target, with room in its 64-bit counters for [n] more rounds,
    and a block that can be read is waiting. *)
Record stuck (n : nat) b : Prop := {
  st_shape : ∃ l s, subBatches (encoder b) = l ++ [s] ∧
    0 <= runningLen (encoder b) ∧ 0 <= contentSize s ∧
    runningLen (encoder b) + contentSize s + 18 * Z.of_nat n + 18 < two64 ∧
    targetBatchSize (encoder b) < runningLen (encoder b) + size s;
  st_cache : lastBuilt b = None;
  st_queue : ∃ block rest o, pendingBlocks b = block :: rest ∧
    block_epoch util (cfg b) block = Ret (Ok o)
}.

(** The first pending block is refused, and the encoder grows by an empty sub-batch. *)
Lemma stuck_encodePending n b :
  stuck (S n) b →
  ∃ b1, encodePending util b = Ret (Ok tt, b1) ∧ same_queue b b1 ∧
    ∃ l s, subBatches (encoder b) = l ++ [s] ∧
      encoder b1 = mkEncoder (targetBatchSize (encoder b))
        (subBatches (encoder b) ++ [newSubBatch]) (runningLen (encoder b) + size s).
Proof.
  intros [(l & s & Hl & H1 & H2 & H3 & H4) Hcache (block & rest & o & Hq & Ho)].
  assert (Hf : fits (encoder b) s) by (unfold fits; lia).
  unfold encodePending. rewrite Hq. cbn [length Nat.eqb encode_loop]. unfold processBlock.
  rewrite Ho. cbn [mbind go_bind].
  set (b1 := match o with Some ep => _ | None => b end).
  assert (Hb1 : same_queue b b1 ∧ encoder b1 = encoder b).
  { unfold b1. destruct o; [|done]. by rewrite updateTimeout_frame. }
  destruct Hb1 as [(Hc & Hp & Hle & Hlb) He]. cbn [enc_ProcessBlock V0_VersionedDataEncoder].
  rewrite He, (ProcessBlock_full _ _ _ _ _ Hl Hf) by lia. cbn.
  eexists. split; [reflexivity|]. split; [split_and!; cbn; rewrite ?Hp, ?Hq; done|].
  by exists l, s.
Qed.

Lemma stuck_Build n head b :
  (∀ l, ∃ data, rlp_Encode l = Ok data) → stuck (S n) b →
  ∃ payload b1, Build util head b = Ret (Ok (V0 :: payload), b1) ∧
    rlp_Encode (subBatches (encoder b) ++ [newSubBatch]) = Ok payload ∧
    stuck n (Advance b1) ∧ pendingBlocks b1 = pendingBlocks b ∧
    subBatches (encoder b1) = (subBatches (encoder b) ++ [newSubBatch]) ++ [newSubBatch].
Proof.
  intros Hrlp Hst. destruct (stuck_encodePending n b Hst) as (b1 & Hp & (Hc & Hq & Hle & Hlb) & l & s & Hl & He).
  destruct Hst as [(l' & s' & Hl' & H1 & H2 & H3 & H4) Hcache (block & rest & o & Hqueue & Ho)].
  rewrite Hl in Hl'. apply app_inj_tail in Hl' as [<- <-].
  destruct (fits_size (encoder b) s) as (Hs & _ & _); [unfold fits; lia|].
  set (e1 := encoder b1) in *.
  assert (Hl1 : subBatches e1 = subBatches (encoder b) ++ [newSubBatch]) by (by rewrite He).
  assert (Hf1 : fits e1 newSubBatch) by (rewrite He; unfold fits; cbn; lia).
  destruct (fits_size e1 newSubBatch Hf1) as (Hs1 & Hu & Hcs).
  destruct (Hrlp (subBatches (encoder b) ++ [newSubBatch])) as [payload Hpay].
  assert (Hrun : runningLen e1 = runningLen (encoder b) + size s) by (by rewrite He).
  assert (Htgt : targetBatchSize e1 = targetBatchSize (encoder b)) by (by rewrite He).
  set (e2 := mkEncoder (targetBatchSize e1) (subBatches e1 ++ [newSubBatch])
               (runningLen e1 + size newSubBatch)).
  assert (Hget : GetBatch (force_batch head b1) e1 = Ret (Ok (V0 :: payload), e2)).
  { rewrite (GetBatch_unfold _ _ _ _ Hl1), Hcs, Hu. cbn [contentSize newSubBatch] in *.
    rewrite Hrun, Htgt, (proj2 (Z.ltb_ge _ _)), andb_false_r by lia.
    rewrite Z.gtb_ltb, (proj2 (Z.ltb_lt _ _)) by lia.
    rewrite (closeSubBatch_nonzero _ _ _ Hl1), Hu by lia. cbn. unfold e2. by rewrite removelast_last, Hl1, Hpay. }
  exists payload, (set_lastBuilt (Some (V0 :: payload)) (set_encoder e2 b1)).
  unfold Build. rewrite Hcache, Hp. cbn. unfold getBatch. cbn. fold e1. rewrite Hget. cbn.
  split; [done|]. split; [done|]. split; [|split; [done|by rewrite Hl1]].
  split; cbn; [|done|rewrite Hq, Hc; by exists block, rest, o].
  exists (subBatches e1), newSubBatch. cbn [contentSize newSubBatch] in *. split; [done|].
  rewrite Hrun, Htgt. lia.
Qed.

(** C25: a sent batch does not empty the encoder.  Once the encoder is past its target and a
    block waits in the queue, [disseminateBatches] does not come to an end: each round sends
    all the sub-batches of the encoder again (followed by more and more empty ones), and the
    queue never moves, for as many rounds as the 64-bit counters allow. *)
Theorem full_encoder_livelock n : ∀ b (w : W),
  (∀ l, ∃ data, rlp_Encode l = Ok data) → (∀ w, ctx_Err w = None) →
  (∀ data w, ∃ receipt w', l1_AppendTxBatch data w = Ret (Ok receipt, w')) →
  stuck n b →
  ∃ batches b' w', disseminateBatches n (b, w) = Ret (None, (b', w')) ∧
    sent batches (b, w) (b', w') ∧ length batches = n ∧
    pendingBlocks b' = pendingBlocks b ∧
    Forall (λ data, ∃ k payload, data = V0 :: payload ∧
      rlp_Encode (subBatches (encoder b) ++ replicate k newSubBatch) = Ok payload) batches.
Proof.
  induction n as [|n IH]; intros b w Hrlp Hctx Hsend Hst.
  { exists [], b, w. split; [done|]. split; [constructor|done]. }
  destruct (stuck_Build n (Head (l1_State w)) b Hrlp Hst)
    as (payload & b1 & Hb & Hpay & Hst1 & Hq1 & Hl1).
  destruct (Hsend (V0 :: payload) w) as (rc & w1 & Ha).
  destruct (IH (Advance b1) w1 Hrlp Hctx Hsend Hst1) as (batches & b' & w' & Hd & Hs & Hn & Hq & Hall).
  exists ((V0 :: payload) :: batches), b', w'.
  split; [|split; [by econstructor|split; [by rewrite <- Hn|split; [by rewrite Hq, <- Hq1|]]]].
  - cbn [disseminateBatches snd]. rewrite Hctx. unfold disseminateBatch. cbn [bb_Build the_builder Builder_BatchBuilder].
    rewrite Hb. cbn. rewrite Ha. cbn. exact Hd.
  - constructor; [exists 1%nat, payload; done|].
    eapply Forall_impl; [exact Hall|]. intros data (k & pl & -> & Hk).
    exists (2 + k)%nat, pl. split; [done|]. cbn in Hk. rewrite Hl1, <- !app_assoc in Hk. exact Hk.
Qed.

End Livelock.

(** ** Concrete runs

    The world counts the transactions sent; L2 block [i] has hash [1000 + i] and extends
    block [i - 1], except block [fork]. *)
Module DisseminatorSample.

#[local] Existing Instance Sample.sample_rlp.
#[local] Existing Instance Sample.sample_laws.
#[local] Existing Instance BridgeSample.sample_abi.
#[export] Instance builder : BatchBuilder (batchBuilder BatchV0Encoder) :=
  Builder_BatchBuilder BridgeSample.util.
#[export] Instance contract : BatchBuilderContract (batchBuilder BatchV0Encoder) :=
  Builder_BatchBuilderContract BridgeSample.util.
#[export] Instance ctx : Ctx Z := {| ctx_Err _ := None; sleep _ w := w |}.

Definition block (fork i : Z) : Block :=
  Sample.block i (1000 + i) (if i =? fork then 1 else 1000 + i - 1) [Sample.tx 9 [Byte.x01; Byte.x02]].

Definition l2 (safe head fork : Z) : L2Client Z := {|
  l2_EnsureDialed w := (None, w);
  l2_BlockNumber w := (Ok head, w);
  l2_BlockByNumber i w := (Ok (block fork i), w);
  l2_HeaderByTag _ w := (Ok (mkHeader safe (1000 + safe) (1000 + safe - 1) None), w)
|}.

Definition l1 (r : result Receipt) : L1 Z := {|
  l1_AppendTxBatch _ w := Ret (r, w + 1);
  l1_State _ := NewEthState
|}.

Definition rc : Receipt := mkReceipt ReceiptStatusSuccessful 5 6.

(** A builder on block 10, with target batch size 3. *)
Definition b0 : batchBuilder BatchV0Encoder :=
  Builder.Reset (mkBlockID 10 1010) (NewBatchBuilder (mkConfig 77 10 2) (NewBatchV0Encoder 3)).

(** ... with two blocks in its queue. *)
Definition b2 : batchBuilder BatchV0Encoder :=
  (Builder.Enqueue (block 0 12) (Builder.Enqueue (block 0 11) b0).2).2.

(** ... after its first batch, which holds the first block. *)
Definition b3 : batchBuilder BatchV0Encoder :=
  match Builder.Build BridgeSample.util EmptyBlockID b2 with
  | Ret (_, b) => Builder.Advance b
  | Panic _ => b2
  end.

Lemma appendToBuilder_correct_witness :
  ∃ blocks s', appendToBuilder (L2 := l2 10 12 0) (b0, 0) = Ret (Ok tt, s') ∧ length blocks = 2%nat ∧
    bb_LastEnqueued s'.1 = tip (mkBlockID 10 1010) blocks.
Proof.
  assert (Hr : pendingL2BlockRange (L2 := l2 10 12 0) (b0, 0) = (Ok (11, 12), 0))
    by (vm_compute; reflexivity).
  assert (Hle : 11 <= 12 < two64 - 1) by (split; reflexivity || discriminate).
  destruct (appendToBuilder_correct _ _ _ _ Hr Hle) as (r & s' & blocks & s1 & Ha & _ & _ & Ht & Hres).
  exists blocks, s'. split; [|split; [|exact Ht]].
  - rewrite Ha. vm_compute in Ha. injection Ha as <- _. reflexivity.
  - vm_compute in Ha. injection Ha as <- _. destruct Hres as [_ Hres]. lia.
Defined.

Lemma step_append_failure_witness :
  ∃ s', step (L2 := l2 10 12 12) (T := l1 (Ok rc)) 5 (b0, 0) =
    Ret (Some (Err (Errorf_w "failed to append to batch builder"
      (L2ReorgDetectedError (InvalidBlockError "Appended block is not a child of the last appended block")))), s') ∧
    bb_LastEnqueued s'.1 = mkBlockID 10 1010.
Proof.
  assert (Ha : appendToBuilder (L2 := l2 10 12 12) (b0, 0) = Ret (Err (L2ReorgDetectedError
      (InvalidBlockError "Appended block is not a child of the last appended block")),
      ((Builder.Enqueue (block 0 11) b0).2, 0))) by (vm_compute; reflexivity).
  assert (Hh : l2_HeaderByTag (L2Client := l2 10 12 12) Safe_tag 0 =
    (Ok (mkHeader 10 1010 1009 None), 0)) by reflexivity.
  destruct (step_append_failure (T := l1 (Ok rc)) 5 _ _ _ _ _ Ha Hh) as (s' & H1 & _ & H2).
  exists s'. split; [exact H1|exact H2].
Defined.

Lemma failed_send_is_retried_witness :
  ∃ data b1, Builder.Build BridgeSample.util EmptyBlockID b2 = Ret (Ok data, b1) ∧
    bb_LastEnqueued b1 = mkBlockID 12 1012.
Proof.
  assert (Hb : ∃ data b1, bb_Build EmptyBlockID b2 = Ret (Ok data, b1))
    by (eexists _, _; vm_compute; reflexivity).
  destruct Hb as (data & b1 & Hb). exists data, b1. split; [exact Hb|].
  destruct (failed_send_is_retried (T := l1 (Err (FmtError "timeout"))) b2 0 data b1
    (FmtError "timeout") 1 0 Hb eq_refl) as (_ & Hl & _).
  rewrite Hl. reflexivity.
Defined.

Lemma disseminateBatches_correct_witness :
  ∃ batches s1 e s', sent (T := l1 (Err (FmtError "timeout"))) batches (b2, 0) s1 ∧
    failed_batch (T := l1 (Err (FmtError "timeout"))) s1 e s'.
Proof.
  assert (Hr : ∃ e s', disseminateBatches (T := l1 (Err (FmtError "timeout"))) 5 (b2, 0) =
    Ret (Some (Err e), s')) by (eexists _, _; vm_compute; reflexivity).
  destruct Hr as (e & s' & Hr).
  destruct (disseminateBatches_correct (T := l1 (Err (FmtError "timeout"))) 5 (b2, 0) _ _ Hr)
    as (batches & s1 & Hs & _ & e' & Hd & _).
  exists batches, s1, e', s'. split; [exact Hs|exact Hd].
Defined.

Lemma eof_send_error_is_hidden_witness :
  ∃ s', disseminateBatches (T := l1 (Err (WrapError "Post: EOF" io_EOF))) 1 (b2, 0) = Ret (Some (Ok tt), s').
Proof.
  assert (Hb : ∃ data b1, bb_Build EmptyBlockID b2 = Ret (Ok data, b1))
    by (eexists _, _; vm_compute; reflexivity).
  destruct Hb as (data & b1 & Hb). exists (b1, 1).
  apply (eof_send_error_is_hidden (T := l1 (Err (WrapError "Post: EOF" io_EOF))) (C := ctx) 0 b2 0
    data b1 (WrapError "Post: EOF" io_EOF) 1 eq_refl Hb eq_refl eq_refl).
Defined.

Lemma unexpected_state_never_aborts_witness :
  ∃ w', start_loop (L2 := l2 50 60 0) (T := l1 (Ok rc)) 5 (repeat (ev_tick id) 7) (b0, 0) =
    Ret (None, (b0, w')).
Proof.
  apply (unexpected_state_never_aborts (L2 := l2 50 60 0) (T := l1 (Ok rc)) 5 7 (b0, 0)).
  - discriminate.
  - intros w. eexists _, _. split; [reflexivity|]. vm_compute. reflexivity.
Defined.

Lemma full_encoder_livelock_witness :
  ∃ (batches : list bytes) b' w', disseminateBatches (T := l1 (Ok rc)) 1000 (b3, 0) = Ret (None, (b', w')) ∧
    length batches = 1000%nat ∧ pendingBlocks b' = [block 0 12].
Proof.
  destruct (full_encoder_livelock (T := l1 (Ok rc)) BridgeSample.util 1000 b3 0)
    as (batches & b' & w' & H1 & _ & H2 & H3 & _).
  - intros l. eexists. reflexivity.
  - reflexivity.
  - intros data w. eexists _, _. reflexivity.
  - split.
    + exists [mkSubBatch 11 [[[Byte.x01; Byte.x02]]] 3; newSubBatch], newSubBatch.
      split; [vm_compute; reflexivity|].
      split_and!; vm_compute; discriminate || reflexivity.
    + vm_compute. reflexivity.
    + exists (block 0 12), [], None. split; vm_compute; reflexivity.
  - exists batches, b', w'. split; [exact H1|]. split; [exact H2|]. rewrite H3. vm_compute. reflexivity.
Defined.

End DisseminatorSample.
