(* ===== verification/Recovery.v ===== *)
(** * Recovery of the disseminator from a reorganization

    What follows a step of [Disseminator] that has detected a reorganization of L2, when the
    node then serves one chain: the next step appends that chain. *)

From S2P Require Import Prelude Errors Types Encoder Bridge Builder EthState Retry Disseminator.

Section Recovery.
Context {B W : Type} `{BB : BatchBuilder B} `{L2 : L2Client W} `{T : L1 W} `{C : Ctx W} `{!BatchBuilderContract B}.
Implicit Types s : dstate (B := B) (W := W).

Definition safe_number (safe : Header) : Z := big_Uint64 (h_Number safe).

(** In the worlds of [P] the L2 node serves one chain: a safe header, the blocks [blockAt]
    after it, each a child of the one before, up to [end_]; asking it leaves [P]. *)
Record serves (P : W → Prop) (safe : Header) (end_ : Z) (blockAt : Z → Block) : Prop := {
  sv_safe : ∀ w, P w → ∃ w', l2_HeaderByTag Safe_tag w = (Ok safe, w') ∧ P w';
  sv_head : ∀ w, P w → ∃ w', l2_BlockNumber w = (Ok end_, w') ∧ P w';
  sv_block : ∀ i w, P w → safe_number safe < i <= end_ → ∃ w', l2_BlockByNumber i w = (Ok (blockAt i), w') ∧ P w';
  sv_first : block_ParentHash (blockAt (safe_number safe + 1)) = h_Hash safe;
  sv_next : ∀ i, safe_number safe < i < end_ → block_ParentHash (blockAt (i + 1)) = block_Hash (blockAt i)
}.

(** The blocks from [i] to the end of the chain. *)
Definition blocks_from (blockAt : Z → Block) (i end_ : Z) : list Block := map blockAt (seqZ i (end_ - i + 1)).

Lemma blocks_from_cons blockAt i end_ : i <= end_ → blocks_from blockAt i end_ = blockAt i :: blocks_from blockAt (i + 1) end_.
Proof.
  intros Hi. unfold blocks_from. rewrite seqZ_cons by lia. cbn [map]. do 3 f_equal; lia.
Qed.

Lemma tip_blocks_from blockAt prev i end_ : i <= end_ → GetHash (tip prev (blocks_from blockAt i end_)) = block_Hash (blockAt end_).
Proof.
  intros Hi. unfold blocks_from. rewrite seqZ_app, map_app, tip_app by lia. cbn. by replace (i + (end_ - i)) with end_ by lia.
Qed.

(** A block that continues the builder's last one is accepted. *)
Lemma Enqueue_child block (b : B) : block_ParentHash block = GetHash (bb_LastEnqueued b) → ∃ b', bb_Enqueue block b = (Ok tt, b').
Proof.
  intros Hp. destruct (bb_Enqueue block b) as [[[]|e] b'] eqn:He; [by eexists|].
  apply bb_Enqueue_err in He as (_ & _ & _ & Hne). done.
Qed.

Section Chain.
Context (P : W → Prop) (safe : Header) (end_ : Z) (blockAt : Z → Block) (Hs : serves P safe end_ blockAt).

Lemma append_loop_serves fuel : ∀ i (b : B) w, P w → 0 <= safe_number safe < i → i <= end_ → end_ < two64 - 1 → end_ - i < Z.of_nat fuel →
  block_ParentHash (blockAt i) = GetHash (bb_LastEnqueued b) →
  ∃ s', append_loop fuel i end_ (b, w) = Ret (Ok tt, s') ∧ appended i (blocks_from blockAt i end_) (b, w) s' ∧ P s'.2.
Proof.
  induction fuel as [|fuel IH]; intros i b w HP Hi Hle Hend Hf Hlink; [lia|]. cbn [append_loop].
  rewrite (proj2 (Z.leb_le i end_)) by lia. destruct (sv_block _ _ _ _ Hs i w HP) as (w1 & Hb & HP1); [lia|]. rewrite Hb.
  destruct (Enqueue_child _ _ Hlink) as [b1 He]. rewrite He, u64_small by (unfold is_u64; lia). rewrite blocks_from_cons by done.
  destruct (decide (i = end_)) as [->|Hne].
  - exists (b1, w1). split; [|split; [|done]].
    + destruct fuel; cbn [append_loop]; by rewrite (proj2 (Z.leb_gt (end_ + 1) end_)) by lia.
    + econstructor; [done..|]. unfold blocks_from. replace (end_ - (end_ + 1) + 1) with 0 by lia. constructor.
  - destruct (IH (i + 1) b1 w1 HP1) as (s' & Hl & Ha & HP'); [lia..| |].
    + rewrite (sv_next _ _ _ _ Hs) by lia. apply bb_Enqueue_ok in He as [-> _]. done.
    + exists s'. split; [done|]. split; [by econstructor|done].
Qed.

(** The range after a reset to the safe header. *)
Lemma range_after_reset (b : B) w : P w → bb_LastEnqueued b = NewBlockIDFromHeader safe →
  ∃ w', pendingL2BlockRange (b, w) = (Ok (u64 (safe_number safe + 1), end_), w') ∧ P w'.
Proof.
  intros HP Hlast. destruct (sv_safe _ _ _ _ Hs w HP) as (w1 & Hh & HP1). destruct (sv_head _ _ _ _ Hs w1 HP1) as (w2 & Hn & HP2).
  exists w2. split; [|done]. unfold pendingL2BlockRange. rewrite Hh, Hlast, Hn. fold (safe_number safe).
  case_bool_decide; [done|]. cbn [NewBlockIDFromHeader NewBlockID GetNumber]. fold (safe_number safe).
  change (GetNumber (NewBlockIDFromHeader safe)) with (safe_number safe). by rewrite Z.gtb_ltb, Z.ltb_irrefl.
Qed.

End Chain.

(** C11: Recovery from a reorganization: the step that detects it resets the builder to the safe
    head, and when the node then serves a chain on that head the next append succeeds with
    every block of it, in order, whatever the builder held before; the builder's last block is
    then the end of the chain. *)
Theorem reorg_recovers P safe end_ blockAt fuel s e s1 :
  serves P safe end_ blockAt → safe_number safe < end_ < two64 - 1 → P s1.2 →
  appendToBuilder s = Ret (Err e, s1) → errors_As e T_L2ReorgDetectedError = true →
  ∃ s2 s3, step fuel s = Ret (Some (Err (Errorf_w "failed to append to batch builder" e)), s2) ∧
    s2.1 = bb_Reset (NewBlockIDFromHeader safe) s1.1 ∧
    appendToBuilder s2 = Ret (Ok tt, s3) ∧
    (∃ w, appended (safe_number safe + 1) (blocks_from blockAt (safe_number safe + 1) end_) (s2.1, w) s3) ∧
    GetHash (bb_LastEnqueued s3.1) = block_Hash (blockAt end_).
Proof.
  intros Hs [Hlt Hend] HP Ha He. destruct (sv_safe _ _ _ _ Hs _ HP) as (w2 & Hh & HP2).
  destruct s1 as [b1 w1]. cbn [fst snd] in *. set (b2 := bb_Reset (NewBlockIDFromHeader safe) b1).
  assert (Hlast : bb_LastEnqueued b2 = NewBlockIDFromHeader safe) by apply bb_Reset_last.
  assert (H0 : 0 <= safe_number safe) by (unfold safe_number, big_Uint64; apply Z.mod_pos_bound; done).
  destruct (range_after_reset _ _ _ _ Hs b2 w2 HP2 Hlast) as (w3 & Hr & HP3). rewrite u64_small in Hr by (unfold is_u64; lia).
  destruct (append_loop_serves _ _ _ _ Hs (Z.to_nat (end_ - (safe_number safe + 1) + 1)) (safe_number safe + 1) b2 w3 HP3) as (s3 & Hl & Happ & _);
    [lia..|rewrite Hlast; by apply (sv_first _ _ _ _ Hs)|].
  exists (b2, w2), s3. split; [|split; [done|split; [|split]]].
  - unfold step. rewrite Ha. cbn -[errors_As Errorf_w]. rewrite He. unfold rollback. by rewrite Hh.
  - unfold appendToBuilder. rewrite Hr. cbn [fst]. by rewrite Z.gtb_ltb, (proj2 (Z.ltb_ge _ _)) by lia.
  - by exists w3.
  - destruct (appended_last _ _ _ _ Happ) as [-> _]. apply tip_blocks_from. lia.
Qed.

End Recovery.

(** ** A concrete reorganization *)
Module RecoverySample.
Import DisseminatorSample.

#[local] Existing Instance Sample.sample_rlp.
#[local] Existing Instance BridgeSample.sample_abi.

(** World 0 serves a block 12 that is not a child of block 11; once it has been read the node
    serves the chain with another block 12. *)
Definition node : L2Client Z := {|
  l2_EnsureDialed w := (None, w);
  l2_BlockNumber w := (Ok 12, w);
  l2_BlockByNumber i w := (Ok (block (if w =? 0 then 12 else 0) i), if i =? 12 then 1 else w);
  l2_HeaderByTag _ w := (Ok (mkHeader 10 1010 1009 None), w)
|}.

Lemma node_serves : serves (L2 := node) (λ w, w = 1) (mkHeader 10 1010 1009 None) 12 (block 0).
Proof.
  split.
  - intros w ->. by exists 1.
  - intros w ->. by exists 1.
  - intros i w -> _. exists 1. cbn. by destruct (i =? 12).
  - reflexivity.
  - change (safe_number (mkHeader 10 1010 1009 None)) with 10. intros i Hi. assert (i = 11) as -> by lia. reflexivity.
Qed.

Lemma reorg_recovers_witness :
  ∃ s2 s3, appendToBuilder (L2 := node) s2 = Ret (Ok tt, s3) ∧ GetHash (bb_LastEnqueued s3.1) = 1012.
Proof.
  destruct (reorg_recovers (L2 := node) (T := l1 (Ok rc)) (C := ctx) (λ w, w = 1) (mkHeader 10 1010 1009 None) 12 (block 0) 5 (b0, 0)
    (L2ReorgDetectedError (InvalidBlockError "Appended block is not a child of the last appended block"))
    ((Builder.Enqueue (block 0 11) b0).2, 1) node_serves) as (s2 & s3 & _ & _ & H1 & _ & H2).
  - split; reflexivity.
  - reflexivity.
  - vm_compute. reflexivity.
  - reflexivity.
  - exists s2, s3. split; [exact H1|exact H2].
Defined.

End RecoverySample.
