(* ===== verification/Pipeline.v ===== *)
(** * The way of a batch: L2 blocks, builder, bridge, L1

    Composes the components of the disseminator as cmd/sidecar/main.go wires them
    ([createDisseminator], [createTxManager]): the loop of [Disseminator] over the builder of
    [Builder] with the V0 encoder, sending through the bridge of [Bridge], which sends
    through the transaction manager of [TxMgr].  The specification [spec] has a log of appended
    blocks, the batch made of it ([carries]) and the posts, each with its [delivery]; a
    simulation relates it to the service's states and to the sends that the transaction manager
    has reported as confirmed. *)

From S2P Require Import Prelude Errors Types Encoder Bridge TxMgr Builder EthState Retry Disseminator.

(** ** The interfaces *)

(** The transaction manager behind the bridge: every call of [Send] that returns is one of
    the runs of [TxMgr.Send] on the manager's nonce and the world of its backend, with the
    record of what it asked of it. *)
Class TxMgrBehind (W W0 : Type) `{B : ETHBackend W0} `{C0 : Ctx W0} `{T : EthTxManager W}
    (tcfg : TxMgr.Config) := {
  tm_state : W → option Z * (W0 * list io);
  tm_Send : ∀ c w r w', Send c w = Ret (r, w') →
    Sends (B := recorded) (C := recorded_ctx) tcfg keeps c (tm_state w) r (tm_state w')
}.

(** The disseminator's L1 is the bridge and the L1 state that the syncer keeps. *)
#[export] Instance Bridge_L1 `{A : ABI} {W : Type} `{T : EthTxManager W}
    (m : Bridge.TxManager) (l1State : W → EthState) : L1 W := {
  l1_AppendTxBatch := Bridge.AppendTxBatch m;
  l1_State := l1State
}.

(** ** What a batch carries *)

Section Carries.
Context `{R : RLP}.

(** [data] is what is to be made of [blocks] with the target size [target]: a version byte
    and the encoding of closed sub-batches which, with the sub-batch that is still open, hold
    the transactions of the first of these blocks, in order.  The open sub-batch stays out of
    the batch only when it would not take it over the target (or when [rlp.ListSize] gives it
    the size zero), and blocks are left for later only when the closed sub-batches are beyond
    the target. *)
Definition carries (target : Z) (data : bytes) (blocks : list Block) : Prop :=
  ∃ closed open payload taken rest,
    data = V0 :: payload ∧ rlp_Encode closed = Ok payload ∧ Forall sized (closed ++ [open]) ∧
    blocks = taken ++ rest ∧ payloads taken = buffered_in closed ++ txBlocks open ∧
    (txBlocks open ≠ [] → u64 (total closed + size open) <= target ∨ size open = 0) ∧
    (rest ≠ [] → target < total closed).

End Carries.

(** ** The builder over the V0 encoder *)

Section BuilderEncoder.
Context `{A : ABI} `{R : RLP}.
Context (util : option bridgeSerializationUtil).
Implicit Types b : batchBuilder BatchV0Encoder.

(** The encoder of [b] is as it should be; it has no room when its closed sub-batches are
    beyond the target. *)
Definition encoder_ok (target : Z) b : Prop :=
  enc_ok (encoder b) ∧ targetBatchSize (encoder b) = target.

Definition encoder_full (target : Z) b : Prop := target < total (removelast (subBatches (encoder b))).

Lemma processBlock_encoder target block b r b' :
  encoder_ok target b → processable util (cfg b) block → processBlock util block b = Ret (r, b') →
  encoder_ok target b' ∧ (r = Err errBatchFull → encoder_full target b').
Proof.
  intros [He Ht] [Hm [o Ho]] Hp. unfold processBlock in Hp. rewrite Ho in Hp. cbn in Hp.
  set (b1 := match o with Some ep => _ | None => b end) in Hp.
  assert (encoder b1 = encoder b) as Hb1.
  { unfold b1. destruct o; [by rewrite updateTimeout_frame|done]. }
  rewrite Hb1 in Hp. destruct (Encoder.ProcessBlock _ _ _) as [[r1 e']|] eqn:Hpb; [|done].
  cbn in Hp. simplify_eq. apply ProcessBlock_ok in Hpb as (H1 & H2 & H3); [|done..].
  split; [by split|exact H3].
Qed.

Lemma encode_loop_encoder target blocks : ∀ n b k b',
  encoder_ok target b → wf (encoder b) → Forall (processable util (cfg b)) blocks →
  encode_loop util blocks n b = Ret (Ok k, b') →
  encoder_ok target b' ∧ ((k < n + length blocks)%nat → encoder_full target b').
Proof.
  induction blocks as [|x rest IH]; intros n b k b' He Hwf Hall Hl; cbn [encode_loop] in Hl.
  { simplify_eq. split; [done|]. cbn. lia. }
  apply Forall_cons in Hall as [Hx Hall]. pose proof Hx as [Hm [o Ho]].
  destruct (processBlock_spec (C := V0_EncoderContract) util x b o Hwf Ho) as (r & b1 & Hp & Hwf1 & Hc1 & _ & _ & _ & _ & Hr).
  rewrite Hp in Hl. cbn in Hl. destruct (processBlock_encoder _ _ _ _ _ He Hx Hp) as [He1 Hfull].
  destruct (Hr Hm) as [-> | ->].
  - apply IH in Hl as [H1 H2]; [|done|done|by rewrite Hc1]. split; [done|]. cbn. intros. apply H2. lia.
  - cbn in Hl. simplify_eq. split; [done|]. intros _. by apply Hfull.
Qed.

Lemma encodePending_encoder target b b' :
  encoder_ok target b → wf (encoder b) → Forall (processable util (cfg b)) (pendingBlocks b) →
  encodePending util b = Ret (Ok tt, b') →
  encoder_ok target b' ∧ (pendingBlocks b' ≠ [] → encoder_full target b').
Proof.
  intros He Hwf Hall Hp. unfold encodePending in Hp. destruct (_ =? _)%nat; [done|].
  destruct (encode_loop_spec (C := V0_EncoderContract) util (pendingBlocks b) 0 b Hwf Hall)
    as (k & b1 & Hl & Hk & _ & _ & Hpend & _).
  rewrite Hl in Hp. cbn in Hp. simplify_eq.
  apply (encode_loop_encoder target) in Hl as [H1 H2]; [|done..]. split; [done|].
  cbn. rewrite Hpend. intros Hne. apply H2.
  destruct (decide (k < length (pendingBlocks b))%nat) as [|Hge]; [done|].
  destruct Hne. apply drop_ge. lia.
Qed.

(** A batch that [Build] makes anew carries the log; every outcome keeps the encoder. *)
Lemma Build_encoder c target head b g r b' :
  builder_inv util c (b, g) → encoder_ok target b → lastBuilt b = None →
  Build util head b = Ret (r, b') →
  encoder_ok target b' ∧ builder_inv util c (b', g) ∧
  match r with
  | Ok data => lastBuilt b' = Some data ∧ carries target data (log_blocks g)
  | Err _ => lastBuilt b' = None
  end.
Proof.
  intros Hinv He Hlb HB. pose proof Hinv as [Hc Hw Hp Hd _ _ _]. cbn in Hc, Hw, Hp, Hd.
  destruct (Build_inv util c head b g Hinv) as (r' & b2 & HB' & Hinv').
  rewrite HB in HB'. injection HB' as <- <-.
  unfold Build in HB. rewrite Hlb in HB. rewrite <- Hc in Hp.
  destruct (decide (pendingBlocks b = [])) as [Hnil|Hne].
  { unfold encodePending in HB. rewrite Hnil in HB. cbn in HB. by simplify_eq. }
  destruct (encodePending_spec (C := V0_EncoderContract) util b Hw Hp Hne)
    as (taken & rest & b1 & Hep & Hsplit & Hrest & Hw1 & Hc1 & Hl1 & Hlb1 & Hb1).
  rewrite Hep in HB. cbn in HB. apply (encodePending_encoder target) in Hep as [[He1 Ht1] Hfull]; [|done..].
  unfold getBatch in HB. cbn in HB.
  destruct (Encoder.GetBatch (force_batch head b1) (encoder b1)) as [[r1 e2]|] eqn:Hg; [|done].
  cbn in HB. apply GetBatch_ok in Hg as (He2 & Ht2 & Hfull2 & Hdata); [|done]. rewrite Ht1 in *.
  assert (b' = match r1 with Ok d => set_lastBuilt (Some d) (set_encoder e2 b1) | Err _ => set_encoder e2 b1 end ∧
    match r with Ok d => r1 = Ok d | Err _ => ∃ e, r1 = Err e end) as [-> Hr].
  { destruct r1 as [d|e]; [by simplify_eq|]. destruct (errors_Is e errBatchTooSmall); simplify_eq; eauto. }
  split; [by destruct r1|]. split; [done|]. destruct r as [data|e]; [|by destruct Hr as [e' ->]; cbn; rewrite Hlb1].
  subst r1. split; [done|]. destruct (Hdata _ eq_refl) as (closed & open & payload & Hs & -> & Henc & Hopen).
  destruct Hinv' as [_ _ _ Hd' (taken' & Hq) _ _]. cbn in Hd', Hq.
  exists closed, open, payload, taken', (pendingBlocks b1). split_and!; [done|done| |done| |done|].
  - rewrite <- Hs. apply He2.
  - rewrite Hq, payloads_app in Hd'. apply app_inv_tail in Hd'. rewrite <- Hd'. unfold buffered.
    by rewrite Hs, buffered_in_app, buffered_in_singleton.
  - intros Hrest'. pose proof (Hfull2 (Hfull Hrest')) as H. by rewrite Hs, removelast_last in H.
Qed.

End BuilderEncoder.

(** ** The abstract specification: a log, a batch made of it, and what was posted

    The abstract state is the log of the L2 blocks appended since the last reset; the batch
    that was last made of the log and is not posted yet, with the blocks the log had then; and
    the history of the posts. *)

(** A confirmed send of a transaction manager: what was to be sent, the receipt, and the calls
    by which it was published and confirmed. *)
Record delivery := mkDelivery {
  se_candidate : TxCandidate;
  se_receipt : Receipt;
  se_io : list io
}.

Record post := mkPost {
  p_batch : bytes;
  p_log : list Block;     (* the blocks the batch was made of *)
  p_call : bytes;
  p_receipt : Receipt;
  p_io : list io
}.

Record spec := mkSpec {
  sp_log : log;
  sp_built : option (bytes * list Block);
  sp_posts : list post
}.

Section Service.
Context `{A : ABI} `{R : RLP} {W W0 : Type}.
Context `{L2 : L2Client W} `{C : Ctx W} `{B0 : ETHBackend W0} `{C0 : Ctx W0} `{T : EthTxManager W}.
Context (tcfg : TxMgr.Config) `{TB : !TxMgrBehind W W0 tcfg}.
Context (m : Bridge.TxManager) (l1State : W → EthState) (util : option bridgeSerializationUtil).
#[local] Instance the_builder : BatchBuilder (batchBuilder BatchV0Encoder) := Builder_BatchBuilder util.
#[local] Instance the_l1 : L1 W := Bridge_L1 m l1State.
Implicit Types b : batchBuilder BatchV0Encoder.
Implicit Types s : @dstate (batchBuilder BatchV0Encoder) W.

(** What a post sends: its call, to the sequencer inbox and without value. *)
Definition p_delivery (p : post) : delivery :=
  mkDelivery (mkCandidate (p_call p) (Some (bm_SequencerInboxAddr m)) 0 None) (p_receipt p) (p_io p).

(** [tr] shows the send to be on L1, deep enough: all that was published is the candidate's
    call under one nonce, and for one such transaction, which the backend had accepted, the
    receipt was returned, and then a height that confirms it. *)
Definition on_L1 (x : delivery) : Prop :=
  ∃ n, (∀ stx err, IO_send stx err ∈ se_io x → call_of tcfg (se_candidate x) n (s_tx stx)) ∧
    ∃ stx tip,
      [IO_send stx None; IO_receipt (s_hash (W := W0) stx) (Ok (Some (se_receipt x))); IO_height (Ok tip)]
        `sublist_of` se_io x ∧
      confirmed_at tcfg (se_receipt x) tip = true.

(** The blocks are those L2 serves, and the log starts again at a block that L2 says to be
    safe. *)
Inductive spec_step (target : Z) : spec → spec → Prop :=
| spec_append i w block w1 g k ps :
    l2_BlockByNumber i w = (Ok block, w1) →
    GetHash (tip (log_start g) (log_blocks g)) = zero_hash ∨
      block_ParentHash block = GetHash (tip (log_start g) (log_blocks g)) →
    spec_step target (mkSpec g k ps) (mkSpec (mkLog (log_start g) (log_blocks g ++ [block])) k ps)
| spec_reset head w w1 g k ps :
    l2_HeaderByTag Safe_tag w = (Ok head, w1) →
    spec_step target (mkSpec g k ps)
      (mkSpec (mkLog (NewBlockIDFromHeader head) []) None ps)
| spec_build data g ps :
    carries target data (log_blocks g) →
    spec_step target (mkSpec g None ps) (mkSpec g (Some (data, log_blocks g)) ps)
| spec_post call data blocks rc tr g ps :
    let p := mkPost data blocks call rc tr in
    on_L1 (p_delivery p) →
    (∀ tx, tx_Data tx = call → UnpackAppendTxBatchInput (bm_util m) tx = Ret (Ok [abi_bytes data])) →
    spec_step target (mkSpec g (Some (data, blocks)) ps) (mkSpec g None (ps ++ [p])).

(** [posted] is a record, kept with the world, of the sends that the transaction manager has
    reported as confirmed, each with the calls it made; nothing else changes it. *)
Record history (posted : W → list delivery) : Prop := {
  h_Send : ∀ c w r w', Send c w = Ret (r, w') →
    match r with
    | Ok rc => ∃ tr, (tm_state w').2.2 = (tm_state w).2.2 ++ tr ∧ posted w' = posted w ++ [mkDelivery c rc tr]
    | Err _ => posted w' = posted w
    end;
  h_BlockNumber : ∀ w, posted (l2_BlockNumber w).2 = posted w;
  h_BlockByNumber : ∀ i w, posted (l2_BlockByNumber i w).2 = posted w;
  h_HeaderByTag : ∀ tag w, posted (l2_HeaderByTag tag w).2 = posted w
}.

Definition quiet (posted : W → list delivery) (ev : event W) : Prop :=
  match ev with ev_tick env => ∀ w, posted (env w) = posted w | ev_done => True end.

Context (posted : W → list delivery) (Hist : history posted).
Context (c : Config).
Context (Hblocks : ∀ i w block w1, l2_BlockByNumber i w = (Ok block, w1) → processable util c block).
Context `{LA : !ABILaws A}.
Context (Hsig : signer_signs W0).

Context (target : Z).

(** The simulation: the builder stands for the log and holds the batch, and the record has
    the sends of the posts. *)
Record simulates (p0 : list delivery) s (st : spec) : Prop := {
  sim_inv : builder_inv util c (s.1, sp_log st);
  sim_encoder : encoder_ok target s.1;
  sim_built : lastBuilt s.1 = fst <$> sp_built st;
  sim_posted : posted s.2 = p0 ++ map p_delivery (sp_posts st)
}.

(** From every simulated state, the specification can follow to a state simulated by [s']. *)
Definition follows s s' : Prop := ∀ p0 st, simulates p0 s st →
  ∃ st', rtc (spec_step target) st st' ∧ simulates p0 s' st'.

#[local] Instance follows_preorder : PreOrder follows.
Proof.
  split; [intros s p0 st H; by exists st; split|].
  intros s1 s2 s3 H1 H2 p0 st H. destruct (H1 _ _ H) as (st1 & Hr1 & Hs1).
  destruct (H2 _ _ Hs1) as (st2 & Hr2 & Hs2). exists st2. split; [by etransitivity|done].
Qed.

(** The world alone changes. *)
Lemma follows_world b w w' : posted w' = posted w → follows (b, w) (b, w').
Proof. intros Hw p0 st [H1 H2 H3 H4]. exists st. split; [done|]. by split; cbn in *; rewrite ?Hw. Qed.

Lemma follows_reset b w head w0 w1 :
  l2_HeaderByTag Safe_tag w0 = (Ok head, w1) →
  follows (b, w) (Reset (NewBlockIDFromHeader head) b, w).
Proof.
  intros Hh p0 [g k ps] [H1 [H2 H2'] H3 H4]. cbn in *.
  exists (mkSpec (mkLog (NewBlockIDFromHeader head) []) None ps).
  split; [by eapply rtc_once, spec_reset|]. split; cbn; [|split|done|done].
  - by eapply builder_inv_step, step_reset.
  - split; [done|by apply Forall_singleton|done].
  - done.
Qed.

Lemma follows_enqueue b b' w block i w0 w1 :
  l2_BlockByNumber i w0 = (Ok block, w1) → Enqueue block b = (Ok tt, b') → follows (b, w) (b', w).
Proof.
  intros Hb He p0 [g k ps] [H1 H2 H3 H4]. cbn in *.
  assert (Hstep : builder_step util (b, g) (b', mkLog (log_start g) (log_blocks g ++ [block]))).
  { apply step_enqueue; [|done]. rewrite (inv_cfg _ _ _ H1 : cfg b = c). by eapply Hblocks. }
  apply Enqueue_ok in He as [Hb' Hl].
  exists (mkSpec (mkLog (log_start g) (log_blocks g ++ [block])) k ps). split.
  - eapply rtc_once, spec_append; [exact Hb|].
    pose proof (inv_tip _ _ _ H1) as Ht. cbn in Ht. by rewrite <- Ht.
  - split; cbn; [by eapply builder_inv_step|by rewrite Hb'|by rewrite Hb'|done].
Qed.

(** A batch is made, or the cached one is given again. *)
Lemma follows_build head b w r b' :
  Build util head b = Ret (r, b') → follows (b, w) (b', w).
Proof.
  intros HB p0 [g k ps] [H1 H2 H3 H4]. cbn in *. destruct k as [[data blocks]|]; cbn in H3.
  { unfold Build in HB. rewrite H3 in HB. simplify_eq. by exists (mkSpec g (Some (data, blocks)) ps). }
  destruct (Build_encoder _ _ _ _ _ _ _ _ H1 H2 H3 HB) as (He & Hi & Hr). destruct r as [data|e].
  - destruct Hr as [Hlb Hcar]. exists (mkSpec g (Some (data, log_blocks g)) ps).
    split; [by apply rtc_once, spec_build|]. by split.
  - exists (mkSpec g None ps). split; [done|]. by split.
Qed.

(** ** Every operation of the service is followed *)

Lemma follows_rollback s : follows s (rollback s).2.
Proof.
  destruct s as [b w]. unfold rollback. pose proof (h_HeaderByTag _ Hist Safe_tag w) as Hw.
  destruct (l2_HeaderByTag Safe_tag w) as [[head|e] w1] eqn:Hh; cbn in *; [|by apply follows_world].
  etransitivity; [by apply follows_world|]. by eapply follows_reset.
Qed.

Lemma pendingL2BlockRange_posted s r w : pendingL2BlockRange s = (r, w) → posted w = posted s.2.
Proof.
  destruct s as [b w0]. unfold pendingL2BlockRange. pose proof (h_HeaderByTag _ Hist Safe_tag w0) as Hw.
  destruct (l2_HeaderByTag Safe_tag w0) as [[head|e] w1]; cbn in *; [|by intros [= _ <-]].
  pose proof (h_BlockNumber _ Hist w1) as Hw1. destruct (l2_BlockNumber w1) as [[n|e] w2]; cbn in *;
    repeat case_match; intros [= _ <-]; congruence.
Qed.

Lemma follows_append_loop fuel : ∀ i end_ s r s', append_loop fuel i end_ s = Ret (r, s') → follows s s'.
Proof.
  induction fuel as [|fuel IH]; intros i end_ [b w] r s'; cbn [append_loop];
    (destruct (i <=? end_); [|by intros [= _ <-]]); [done|].
  pose proof (h_BlockByNumber _ Hist i w) as Hw.
  destruct (l2_BlockByNumber i w) as [[block|e] w1] eqn:Hb; cbn in Hw; [|by intros [= _ <-]; apply follows_world].
  destruct (bb_Enqueue block b) as [[[]|e] b1] eqn:He; cbn in He.
  - intros H%IH. etransitivity; [by apply follows_world|]. etransitivity; [|exact H].
    by eapply follows_enqueue.
  - unfold Enqueue in He. destruct (_ && _); [|done]. injection He as <- <-. cbn.
    intros [= _ <-]. by apply follows_world.
Qed.

Lemma follows_appendToBuilder s r s' : appendToBuilder s = Ret (r, s') → follows s s'.
Proof.
  unfold appendToBuilder. destruct (pendingL2BlockRange s) as [range w] eqn:Hr.
  apply pendingL2BlockRange_posted in Hr. destruct s as [b w0]. cbn in Hr.
  destruct range as [[start end_]|e]; [|by intros [= _ <-]; apply follows_world].
  destruct (start >? end_); [by intros [= _ <-]; apply follows_world|].
  intros H%follows_append_loop. etransitivity; [by apply follows_world|]. exact H.
Qed.

(** A confirmed batch is posted in the specification, and no other call is. *)
Lemma follows_send data b1 w w1 receipt :
  lastBuilt b1 = Some data → Bridge.AppendTxBatch m data w = Ret (receipt, w1) →
  match receipt with Ok _ => follows (b1, w) (Advance b1, w1) | Err _ => follows (b1, w) (b1, w1) end.
Proof.
  intros Hlb Ha. unfold AppendTxBatch, send_packed in Ha.
  destruct (bm_util m) as [u|] eqn:Hu; [|done]. cbn in Ha.
  destruct (packAppendTxBatchInput u data) as [call|e] eqn:Hp; [|by simplify_eq; apply follows_world].
  pose proof (h_Send _ Hist _ _ _ _ Ha) as Hpost. pose proof (tm_Send _ _ _ _ Ha) as Hs.
  destruct receipt as [rc|e]; [|by apply follows_world].
  destruct Hpost as (tr & Htr & Hpost). intros p0 [g k ps] [H1 H2 H3 H4]. cbn in *.
  rewrite Hlb in H3. destruct k as [[d blocks]|]; [|done]. injection H3 as ->.
  exists (mkSpec g None (ps ++ [mkPost d blocks call rc tr])). split.
  - apply rtc_once, spec_post.
    + destruct (Sends_rec _ _ _ _ _ Hsig Hs) as (n & tr' & Htr' & Hcalls & _ & stx & t & _ & Hsub & Hconf).
      rewrite Htr in Htr'. apply app_inv_head in Htr' as <-. exists n. split; [done|]. by exists stx, t.
    + intros tx Htx. rewrite Hu. by apply (AppendTxBatch_decodes u d call tx).
  - split; cbn; [by eapply builder_inv_step, step_advance|done|done|].
    by rewrite Hpost, H4, map_app, app_assoc.
Qed.

Lemma follows_disseminateBatch s r s' : disseminateBatch s = Ret (r, s') → follows s s'.
Proof.
  destruct s as [b w]. unfold disseminateBatch. cbn.
  destruct (Build util (Head (l1State w)) b) as [[data b1]|] eqn:HB; [|done]. cbn.
  pose proof (follows_build _ _ w _ _ HB) as Hb1.
  destruct data as [data|e]; [|by intros [= _ <-]].
  destruct (Bridge.AppendTxBatch m data w) as [[rc w1]|] eqn:Ha; [|done]. cbn.
  pose proof (follows_send data b1 w w1 rc (Build_sets_cache _ _ _ _ _ HB) Ha) as Hs.
  destruct rc; intros [= _ <-]; by etransitivity.
Qed.

Lemma follows_disseminateBatches fuel : ∀ s r s', disseminateBatches fuel s = Ret (r, s') → follows s s'.
Proof.
  induction fuel as [|fuel IH]; intros s r s'; cbn [disseminateBatches]; [by intros [= _ <-]|].
  destruct (ctx_Err s.2); [by intros [= _ <-]|].
  destruct (disseminateBatch s) as [[[[]|e] s1]|] eqn:Hd; [| |done]; cbn -[errors_Is];
    apply follows_disseminateBatch in Hd.
  - intros H%IH. by etransitivity.
  - destruct (errors_Is e io_EOF); by intros [= _ <-].
Qed.

Lemma follows_step fuel s r s' : step fuel s = Ret (r, s') → follows s s'.
Proof.
  unfold step. destruct (appendToBuilder s) as [[[[]|e] s1]|] eqn:Ha; [| |done]; cbn -[errors_As];
    apply follows_appendToBuilder in Ha.
  - destruct (disseminateBatches fuel s1) as [[r2 s2]|] eqn:Hd; [|done]. cbn.
    apply follows_disseminateBatches in Hd. intros [= _ <-]. by etransitivity.
  - intros [= _ <-]. destruct (errors_As _ _); [|done]. etransitivity; [done|]. apply follows_rollback.
Qed.

Lemma follows_start_loop fuel evs : ∀ s r s',
  Forall (quiet posted) evs → start_loop fuel evs s = Ret (r, s') → follows s s'.
Proof.
  induction evs as [|[env|] evs IH]; intros [b w] r s' Hq; cbn [start_loop]; [by intros [= _ <-]| |by intros [= _ <-]].
  apply Forall_cons in Hq as [Hq Hqs].
  destruct (step fuel _) as [[r1 s1]|] eqn:Hs; [|done]. cbn -[errors_As]. apply follows_step in Hs.
  assert (Hs1 : follows (b, w) s1) by (etransitivity; [apply (follows_world _ _ _ (Hq w))|exact Hs]).
  destruct r1 as [[[]|e]|]; [| |by intros [= _ <-]].
  - intros H%IH; [|done]. by etransitivity.
  - destruct (errors_As _ _); [by intros [= _ <-]|]. intros H%IH; [|done]. by etransitivity.
Qed.

(** ** What a post of the specification means *)

(** The batch carries a chain of blocks, the send is on L1, and its call decodes to the
    batch. *)
Definition post_ok (p : post) : Prop :=
  (∃ start, chain start (p_log p)) ∧ carries target (p_batch p) (p_log p) ∧ on_L1 (p_delivery p) ∧
  ∀ tx, tx_Data tx = p_call p → UnpackAppendTxBatchInput (bm_util m) tx = Ret (Ok [abi_bytes (p_batch p)]).

(** The same of a batch that is not posted yet. *)
Definition built_ok (k : bytes * list Block) : Prop :=
  (∃ start, chain start k.2) ∧ carries target k.1 k.2.

Definition spec_ok (st : spec) : Prop :=
  chain (log_start (sp_log st)) (log_blocks (sp_log st)) ∧
  (∀ k, sp_built st = Some k → built_ok k) ∧ Forall post_ok (sp_posts st).

Lemma spec_posts_ok st st' : rtc (spec_step target) st st' → spec_ok st → spec_ok st'.
Proof.
  induction 1 as [st|st1 st2 st3 Hstep _ IH]; [done|]. intros (H1 & H2 & H3). apply IH; clear IH.
  destruct Hstep as [i w block w1 g k ps _ Hl|head w w1 g k ps _|data g ps Hc|call data blocks rc tr g ps p Hon Hdec];
    cbn in *.
  - split_and!; [|done|done]. by apply chain_app.
  - by split_and!.
  - split_and!; [done| |done]. intros k [= <-]. split; [by eexists|done].
  - split_and!; [done|done|]. apply Forall_snoc. split; [done|].
    destruct (H2 _ eq_refl) as [Hch Hcar]. by split_and!.
Qed.

(** The disseminator started on a fresh builder refines the specification, whatever the
    clients answer and whatever else happens on L1 and L2: its builder stands for the log of
    the blocks appended since the last reset, and the sends it has had confirmed are, in
    order, those of the posts of the specification. *)
Theorem disseminator_refines_spec fuel evs w r s' :
  Forall (quiet posted) evs →
  start fuel evs (NewBatchBuilder c (NewBatchV0Encoder target), w) = Ret (r, s') →
  ∃ st, rtc (spec_step target) (mkSpec (mkLog EmptyBlockID []) None []) st ∧
    Forall post_ok (sp_posts st) ∧
    posted s'.2 = posted w ++ map p_delivery (sp_posts st) ∧
    buffered (encoder s'.1) ++ payloads (pendingBlocks s'.1) = payloads (log_blocks (sp_log st)) ∧
    LastEnqueued s'.1 = tip (log_start (sp_log st)) (log_blocks (sp_log st)).
Proof.
  intros Hq Hs%follows_start_loop; [|done].
  destruct (follows_rollback (NewBatchBuilder c (NewBatchV0Encoder target), w) (posted w)
    (mkSpec (mkLog EmptyBlockID []) None [])) as (st1 & Hr1 & Hsim1).
  { split; cbn; [by apply builder_inv_init|split; [apply NewBatchV0Encoder_ok|done]|done|]. by rewrite app_nil_r. }
  destruct (Hs _ _ Hsim1) as (st & Hr & [Hinv _ _ Hpost]). exists st.
  assert (Hrun : rtc (spec_step target) (mkSpec (mkLog EmptyBlockID []) None []) st) by (by etransitivity).
  split; [done|]. split; [by apply (spec_posts_ok _ _ Hrun)|]. split; [done|].
  destruct Hinv as [_ _ _ Hd _ _ Ht]. done.
Qed.

End Service.

(** ** A concrete run

    The world is the manager's nonce, the backend's counter and the calls confirmed; the L1
    node confirms every transaction, and L2 has the blocks 11 and 12 after its safe block. *)
Module PipelineSample.

#[local] Existing Instance Sample.sample_rlp.
#[local] Existing Instance BridgeSample.selector_abi.
#[local] Existing Instance BridgeSample.selector_laws.
#[local] Existing Instance TxMgrSample.lax.
#[local] Existing Instance TxMgrSample.sample_ctx.

Record world := mkWorld { w_nonce : option Z; w_backend : Z * list io; w_posted : list delivery }.

Definition receipt (stx : SignedTx) : Receipt := mkReceipt ReceiptStatusSuccessful (s_hash stx) 100.

(** Crafts the transaction and lets the first publication succeed. *)
#[export] Instance txmgr : EthTxManager world := {|
  Send cand w :=
    match send_craft (B := recorded) (C := recorded_ctx) TxMgrSample.cfg cand (w_nonce w, w_backend w) with
    | Ret (Ok stx, (nonce, (z, l))) =>
        Ret (Ok (receipt stx), mkWorld nonce (z, l ++ TxMgrSample.trace stx)
               (w_posted w ++ [mkDelivery cand (receipt stx) (TxMgrSample.trace stx)]))
    | Ret (Err e, (_, z)) => Ret (Err e, mkWorld None z (w_posted w))
    | Panic why => Panic why
    end
|}.

Lemma first_publication stx z l :
  ∃ s, sending_in (B := recorded) TxMgrSample.cfg keeps stx (z, l) s ∧ returned (Ok (receipt stx)) s ∧
    sy_world s = (z, l ++ TxMgrSample.trace stx).
Proof.
  refine (ex_intro _ (mkSys (z, ((l ++ [IO_send stx None]) ++ [IO_receipt (s_hash stx) (Ok (Some (receipt stx)))]) ++
    [IO_height (Ok 110)]) _ None (Some Canceled) [P_done] (M_return (Ok (receipt stx)))) _).
  split; [|split].
  - eexists. split; [reflexivity|].
    apply (TxMgrSample.run_in (B := recorded) keeps TxMgrSample.schedule); [reflexivity|]. vm_compute. reflexivity.
  - split; [reflexivity|]. repeat constructor.
  - cbn. by rewrite <- !app_assoc.
Qed.

Lemma crafting_silent cand w r m' :
  send_craft (B := recorded) (C := recorded_ctx) TxMgrSample.cfg cand (w_nonce w, w_backend w) = Ret (r, m') →
  m'.2.2 = (w_backend w).2.
Proof. apply send_craft_silent. Qed.

#[export] Instance behind : TxMgrBehind world Z TxMgrSample.cfg.
Proof.
  refine {| tm_state w := (w_nonce w, w_backend w) |}. intros cand w r w'. cbn [Send txmgr].
  destruct (send_craft _ _ _) as [[[stx|e] [n [z l]]]|] eqn:Hc; [| |done]; intros [= <- <-].
  - destruct (first_publication stx z l) as (s & H1 & H2 & H3). cbn [w_nonce w_backend]. rewrite <- H3.
    by apply (Sends_sent (B := recorded) (C := recorded_ctx) _ keeps cand (w_nonce w, w_backend w) stx (n, (z, l))
      (Ok (receipt stx)) s).
  - by apply (Sends_uncrafted (B := recorded) (C := recorded_ctx) _ keeps cand (w_nonce w, w_backend w) e (n, (z, l))).
Defined.

#[export] Instance l2 : L2Client world := {
  l2_EnsureDialed w := (None, w);
  l2_BlockNumber w := (Ok 12, w);
  l2_BlockByNumber i w := (Ok (DisseminatorSample.block 0 i), w);
  l2_HeaderByTag _ w := (Ok (mkHeader 10 1010 1009 None), w)
}.

#[export] Instance ctx : Ctx world := { ctx_Err _ := None; sleep _ w := w }.

Definition c : Config := mkConfig 77 10 2.
Definition util := Some BridgeSample.selector_util.
Definition m : Bridge.TxManager := Bridge.mkTxManager 1000 1001 util.
Definition w0 : world := mkWorld None (1, []) [].

Lemma hist : history TxMgrSample.cfg w_posted.
Proof.
  split; [|done..]. intros cand w r w'. cbn [Send txmgr].
  destruct (send_craft _ _ _) as [[[stx|e] [n [z l]]]|] eqn:Hc; [| |done]; intros [= <- <-]; [|done].
  apply crafting_silent in Hc. cbn in Hc |- *. subst l. by exists (TxMgrSample.trace stx).
Qed.

Lemma blocks_processable i (w : world) block w1 :
  l2_BlockByNumber i w = (Ok block, w1) → processable util c block.
Proof. intros [= <- _]. split; eexists; reflexivity. Qed.

Definition run : go (option (result unit) * dstate) :=
  start (T := Bridge_L1 m (fun _ => NewEthState)) (BB := Builder_BatchBuilder util)
    1 [ev_tick id; ev_done] (NewBatchBuilder c (NewBatchV0Encoder 3), w0).

(** The transaction the run publishes: the call goes to the sequencer inbox. *)
Definition call : bytes := [Byte.xde; Byte.xad; Byte.xbe; Byte.xef; Byte.x01; Byte.x00; Byte.xc0; Byte.xc0].
Definition posted_tx : SignedTx := mkSigned (mkTx 5 7 2 22 21000 (Some 1000) None call) 1.
Definition the_send : delivery :=
  mkDelivery (mkCandidate call (Some 1000) 0 None) (receipt posted_tx) (TxMgrSample.trace posted_tx).

(** One tick, with room for one batch: the batch of block 11 is on L1. *)
Lemma disseminator_refines_spec_witness :
  ∃ s' st p, run = Ret (None, s') ∧
    rtc (spec_step TxMgrSample.cfg m 3) (mkSpec (mkLog EmptyBlockID []) None []) st ∧
    sp_posts st = [p] ∧ post_ok TxMgrSample.cfg m 3 p ∧ p_delivery m p = the_send.
Proof.
  assert (Hr : ∃ s', run = Ret (None, s') ∧ w_posted s'.2 = [the_send])
    by (eexists; split; vm_compute; reflexivity).
  destruct Hr as (s' & Hr & Hp).
  destruct (disseminator_refines_spec (LA := BridgeSample.selector_laws) (TB := behind)
    TxMgrSample.cfg m (fun _ => NewEthState) util w_posted hist c blocks_processable
    (TxMgrSample.signs _) 3 1 [ev_tick id; ev_done] w0 None s') as (st & H1 & H2 & H3 & _).
  - repeat constructor.
  - exact Hr.
  - rewrite Hp in H3. destruct (sp_posts st) as [|p [|p' ps]] eqn:Hps; [discriminate| |discriminate].
    exists s', st, p. split; [exact Hr|]. split; [exact H1|]. split; [exact Hps|].
    split; [exact (Forall_inv H2)|]. symmetry. exact (f_equal (hd the_send) H3).
Defined.

End PipelineSample.
