(* ===== verification/Validator.v ===== *)
(** * The validator

    Models services/sidecar/rollup/services/validator/validator.go and its interfaces
    (interface.go): at start the validator checks the genesis assertion, stakes and takes
    the L1 contract's state as its own; then at every tick it asserts the safe L2 head and
    resolves the first unresolved assertion.

    The theorems are about the calls the validator makes ([vcall]), recorded in order: when an
    assertion may be tried ([legal]) and when it must be ([prompt]).

    [W] is the state of the world; the L1 transaction manager and the bridge client are
    classes over it.  [Bridge.TxManager] is the service's transaction manager. *)

From S2P Require Import Prelude Errors Types Bridge EthState.

(** [assertionAttributes]; its zero value. *)
Record assertionAttributes := mkAttrs {
  l2BlockNum : Z;    (* uint64 *)
  l2VMHash : Hash
}.

(** The fields read of [bindings.IRollupStaker] and [bindings.IRollupAssertion]. *)
Record IRollupStaker := mkStaker {
  IsStaked : bool;
  AssertionID : Z
}.

Record IRollupAssertion := mkRollupAssertion {
  StateHash : Hash;
  BlockNum : Z
}.

(** The service's [TxManager]. *)
Class ValidatorTxManager (W : Type) := {
  vt_Stake : Z → W → go (result Receipt * W);
  vt_AdvanceStake : Z → W → go (result Receipt * W);
  vt_CreateAssertion : Hash → Z → W → go (result Receipt * W);
  vt_ConfirmFirstUnresolvedAssertion : W → go (result Receipt * W)
}.

Class BridgeClient (W : Type) := {
  GetRequiredStakeAmount : W → result Z * W;
  GetStaker : Address → W → result IRollupStaker * W;
  GetAssertion : Z → W → result IRollupAssertion * W;
  RequireFirstUnresolvedAssertionIsConfirmable : W → option error * W;
  bc_Error_text : error → string     (* err.Error() *)
}.

#[export] Instance Bridge_ValidatorTxManager `{A : ABI} {W : Type} `{T : EthTxManager W}
    (m : Bridge.TxManager) : ValidatorTxManager W := {
  vt_Stake := Bridge.Stake m;
  vt_AdvanceStake := Bridge.AdvanceStake m;
  vt_CreateAssertion := Bridge.CreateAssertion m;
  vt_ConfirmFirstUnresolvedAssertion := Bridge.ConfirmFirstUnresolvedAssertion m
}.

Section Validator.
Context {W : Type} `{T : ValidatorTxManager W} `{BC : BridgeClient W} `{L2 : L2Client W}.
Context (GetAccountAddr : Address).

(** The validator: its [lastCreatedAssertionAttrs], and the world. *)
Definition vstate : Type := assertionAttributes * W.
Implicit Types s : vstate.

Definition computeVmHash (header : Header) : Hash := h_Hash header.

Definition getNextAssertionAttrs s : result assertionAttributes * W :=
  let '(header, w) := l2_HeaderByTag Safe_tag s.2 in
  match header with
  | Err e => (Err (Errorf_w "failed to get finalized assertion attrs" e), w)
  | Ok header => (Ok (mkAttrs (big_Uint64 (h_Number header)) (computeVmHash header)), w)
  end.

(** [createAssertion]: a reverted transaction is only logged. *)
Definition createAssertion s : go (result unit * vstate) :=
  let '(attrs, w) := getNextAssertionAttrs s in
  match attrs with
  | Err e => Ret (Err (Errorf_w "failed to get next assertion attrs" e), (s.1, w))
  | Ok attrs =>
      if l2BlockNum attrs <=? l2BlockNum s.1 then Ret (Ok tt, (s.1, w))
      else
        '(receipt, w1) ← vt_CreateAssertion (l2VMHash attrs) (l2BlockNum attrs) w;
        match receipt with
        | Err e => Ret (Err e, (s.1, w1))
        | Ok receipt =>
            if rc_Status receipt =? ReceiptStatusFailed then Ret (Ok tt, (s.1, w1))
            else Ret (Ok tt, (attrs, w1))
        end
  end.

Definition resolveFirstUnresolvedAssertion s : go (result unit * vstate) :=
  let '(e, w) := RequireFirstUnresolvedAssertionIsConfirmable s.2 in
  match e with
  | Some e =>
      let errStr := bc_Error_text e in
      if String.eqb errStr NoUnresolvedAssertionErr then Ret (Ok tt, (s.1, w))
      else if String.eqb errStr ConfirmationPeriodPendingErr then Ret (Ok tt, (s.1, w))
      else Ret (Err (AddrOf (UnexpectedSystemStateError
             ("failed to validate assertion (breaks current assumptions): " ++ errStr))), (s.1, w))
  | None =>
      '(receipt, w1) ← vt_ConfirmFirstUnresolvedAssertion w;
      match receipt with
      | Err e => Ret (Err (Errorf_w "failed to confirm assertion" e), (s.1, w1))
      | Ok _ => Ret (Ok tt, (s.1, w1))
      end
  end.

Definition step s : go (result unit * vstate) :=
  '(r, s1) ← createAssertion s;
  match r with
  | Err e => Ret (Err (Errorf_w "failed to create assertion" e), s1)
  | Ok _ =>
      '(r, s2) ← resolveFirstUnresolvedAssertion s1;
      Ret (wrap_err "failed to resolve assertion" r, s2)
  end.

Definition rollback s : result unit * vstate :=
  let '(staker, w1) := GetStaker GetAccountAddr s.2 in
  match staker with
  | Err e => (Err (Errorf_w "failed to get staker" e), (s.1, w1))
  | Ok staker =>
      let '(assertion, w2) := GetAssertion (AssertionID staker) w1 in
      match assertion with
      | Err e => (Err (Errorf_w "failed to get assertion" e), (s.1, w2))
      | Ok a => (Ok tt, (mkAttrs (big_Uint64 (BlockNum a)) (StateHash a), w2))
      end
  end.

(** [ensureStaked]: the receipt of the stake transaction is not looked at. *)
Definition ensureStaked s : go (result unit * vstate) :=
  let '(staker, w1) := GetStaker GetAccountAddr s.2 in
  match staker with
  | Err e => Ret (Err (Errorf_w "failed to get staker" e), (s.1, w1))
  | Ok staker =>
      if IsStaked staker then Ret (Ok tt, (s.1, w1))
      else
        let '(amount, w2) := GetRequiredStakeAmount w1 in
        match amount with
        | Err e => Ret (Err (Errorf_w "failed to get stake amount" e), (s.1, w2))
        | Ok amount =>
            '(receipt, w3) ← vt_Stake amount w2;
            match receipt with
            | Err e => Ret (Err (Errorf_w "failed to stake" e), (s.1, w3))
            | Ok _ => Ret (Ok tt, (s.1, w3))
            end
        end
  end.

Definition validateGenesis s : result unit * vstate :=
  let '(assertion, w1) := GetAssertion 0 s.2 in
  match assertion with
  | Err e => (Err (Errorf_w "failed to get genesis assertion" e), (s.1, w1))
  | Ok assertion =>
      let vmHash := StateHash assertion in
      let '(genesisBlock, w2) := l2_BlockByNumber 0 w1 in
      match genesisBlock with
      | Err e => (Err (Errorf_w "failed to get L2 genesis block" e), (s.1, w2))
      | Ok genesisBlock =>
          let l2VmHash := computeVmHash (blk_Header genesisBlock) in
          if negb (vmHash =? l2VmHash)
          then (Err (Errorf "mismatching genesis on L1 vs L2"), (s.1, w2))
          else (Ok tt, (s.1, w2))
      end
  end.

(** The loop of [start]; it ends with an error only when [errors.As] finds the struct type
    [unexpectedSystemStateError]. *)
Fixpoint start_loop (evs : list (event W)) s : go (option (result unit) * vstate) :=
  match evs with
  | [] => Ret (None, s)
  | ev_done :: _ => Ret (Some (Ok tt), s)
  | ev_tick env :: evs =>
      '(r, s1) ← step (s.1, env s.2);
      match r with
      | Err e =>
          if errors_As e T_unexpectedSystemStateError
          then Ret (Some (Err (Errorf_w "aborting" e)), s1)
          else start_loop evs s1
      | Ok _ => start_loop evs s1
      end
  end.

(** [start]: the preparation, before the loop. *)
Definition prepare s : go (result unit * vstate) :=
  let '(r, s1) := validateGenesis s in
  match r with
  | Err e => Ret (Err (Errorf_w "failed to validate genesis" e), s1)
  | Ok _ =>
      '(r, s2) ← ensureStaked s1;
      match r with
      | Err e => Ret (Err (Errorf_w "failed to ensure validator is staked" e), s2)
      | Ok _ =>
          let '(r, s3) := rollback s2 in
          Ret (wrap_err "failed to initialize state" r, s3)
      end
  end.

Definition start (evs : list (event W)) s : go (option (result unit) * vstate) :=
  '(r, s1) ← prepare s;
  match r with
  | Err e => Ret (Some (Err e), s1)
  | Ok _ => start_loop evs s1
  end.

(** [Start]: dials, then runs [start] in a goroutine. *)
Definition Start (evs : list (event W)) s : go (option (result unit) * vstate) :=
  let '(e, w1) := l2_EnsureDialed s.2 in
  match e with
  | Some e => Ret (Some (Err (Errorf_w "failed to create L2 client" e)), (s.1, w1))
  | None => start evs (s.1, w1)
  end.

(** ** Lemmas *)

Lemma resolve_keeps s r s' : resolveFirstUnresolvedAssertion s = Ret (r, s') → s'.1 = s.1.
Proof.
  unfold resolveFirstUnresolvedAssertion.
  destruct (RequireFirstUnresolvedAssertionIsConfirmable s.2) as [[e|] w].
  - destruct (String.eqb _ _); [by intros [= _ <-]|]. destruct (String.eqb _ _); by intros [= _ <-].
  - destruct (vt_ConfirmFirstUnresolvedAssertion w) as [[[rc|e] w1]|]; cbn; [by intros [= _ <-]..|done].
Qed.

(** ** Theorems *)

(** [resolveFirstUnresolvedAssertion] on every branch: it confirms exactly when the
    contract allows it, it waits without an error on the two expected refusals, and any
    other refusal is reported as an unexpected state; the validator's record never
    changes. *)
Theorem resolve_correct s r s' :
  resolveFirstUnresolvedAssertion s = Ret (r, s') →
  s'.1 = s.1 ∧
  match RequireFirstUnresolvedAssertionIsConfirmable s.2 with
  | (None, w) => ∃ rc, vt_ConfirmFirstUnresolvedAssertion w = Ret (rc, s'.2) ∧
      (r = Ok tt ↔ ∃ receipt, rc = Ok receipt)
  | (Some e, w) => s'.2 = w ∧
      (r = Ok tt ↔ bc_Error_text e = NoUnresolvedAssertionErr ∨
                   bc_Error_text e = ConfirmationPeriodPendingErr) ∧
      (r ≠ Ok tt → ∃ m, r = Err (AddrOf (UnexpectedSystemStateError m)))
  end.
Proof.
  intros H. split; [by eapply resolve_keeps|]. unfold resolveFirstUnresolvedAssertion in H.
  destruct (RequireFirstUnresolvedAssertionIsConfirmable s.2) as [[e|] w].
  - destruct (String.eqb_spec (bc_Error_text e) NoUnresolvedAssertionErr) as [H1|H1];
      [simplify_eq; naive_solver|].
    destruct (String.eqb_spec (bc_Error_text e) ConfirmationPeriodPendingErr) as [H2|H2];
      simplify_eq; naive_solver.
  - destruct (vt_ConfirmFirstUnresolvedAssertion w) as [[[rc|e] w1]|]; cbn in H; simplify_eq;
      eexists; (split; [reflexivity|]); naive_solver.
Qed.

(** The loop never aborts.  The unexpected-state error is a pointer and the loop asks
    [errors.As] for the struct, so, whatever happens, the loop does not return an error: it
    keeps ticking (the errors of the clients are not of the service's private type). *)
Theorem validator_never_aborts evs :
  (∀ w e w', l2_HeaderByTag Safe_tag w = (Err e, w') → errors_As e T_unexpectedSystemStateError = false) →
  (∀ h n w e w', vt_CreateAssertion h n w = Ret (Err e, w') →
     errors_As e T_unexpectedSystemStateError = false) →
  (∀ w e w', vt_ConfirmFirstUnresolvedAssertion w = Ret (Err e, w') →
     errors_As e T_unexpectedSystemStateError = false) →
  ∀ s r s', start_loop evs s = Ret (r, s') → r = None ∨ r = Some (Ok tt).
Proof.
  intros Hh Hc Hf.
  assert (Hstep : ∀ s e s', step s = Ret (Err e, s') → errors_As e T_unexpectedSystemStateError = false).
  { intros s e s'. unfold step, createAssertion, getNextAssertionAttrs.
    destruct (l2_HeaderByTag Safe_tag s.2) as [[header|e1] w] eqn:Hw; cbn -[errors_As Errorf_w].
    2: { intros [= <- _]. rewrite !errors_As_Errorf_w by done. eauto. }
    assert (Hres : ∀ s1, (('(r, s2) ← resolveFirstUnresolvedAssertion s1;
        Ret (wrap_err "failed to resolve assertion" r, s2)) : go (result unit * vstate)) =
        Ret (Err e, s') → errors_As e T_unexpectedSystemStateError = false).
    { intros s1. unfold resolveFirstUnresolvedAssertion.
      destruct (RequireFirstUnresolvedAssertionIsConfirmable s1.2) as [[e1|] w1].
      - repeat (destruct (String.eqb _ _); [done|]). by intros [= <- _].
      - destruct (vt_ConfirmFirstUnresolvedAssertion w1) as [[[rc|e1] w2]|] eqn:Hv; [done| |done].
        intros [= <- _]. rewrite !errors_As_Errorf_w by done. eauto. }
    destruct (_ <=? _); cbn -[errors_As Errorf_w wrap_err]; [apply Hres|].
    destruct (vt_CreateAssertion _ _ w) as [[[rc|e1] w1]|] eqn:Hv; cbn -[errors_As Errorf_w wrap_err]; [| |done].
    - destruct (_ =? _); apply Hres.
    - intros [= <- _]. rewrite errors_As_Errorf_w by done. eauto. }
  induction evs as [|[env|] evs IH]; intros s r s' H; cbn [start_loop] in H;
    [simplify_eq; by left| |simplify_eq; by right].
  destruct (step (s.1, env s.2)) as [[[[]|e] s1]|] eqn:Hs; [by eapply IH| |done]. cbn in H.
  rewrite (Hstep _ _ _ Hs) in H. by eapply IH.
Qed.

(** A stake transaction that reverted is taken for a stake: [ensureStaked] does not look
    at the receipt's status and reports success with the account still not staked. *)
Theorem reverted_stake_accepted s staker w1 amount w2 receipt w3 :
  GetStaker GetAccountAddr s.2 = (Ok staker, w1) → IsStaked staker = false →
  GetRequiredStakeAmount w1 = (Ok amount, w2) →
  vt_Stake amount w2 = Ret (Ok receipt, w3) → rc_Status receipt = ReceiptStatusFailed →
  ensureStaked s = Ret (Ok tt, (s.1, w3)).
Proof. intros H1 H2 H3 H4 _. unfold ensureStaked. by rewrite H1, H2, H3, H4. Qed.

End Validator.

(** ** The calls a validator makes

    The calls to L1 and L2, each with its answer, in the order in which they are made. *)
Inductive vcall : Type :=
| K_header (tag : string) (r : result Header)
| K_block (i : Z) (r : result Block)
| K_staker (r : result IRollupStaker)
| K_assertion (id : Z) (r : result IRollupAssertion)
| K_amount (r : result Z)
| K_stake (amount : Z) (r : result Receipt)
| K_advance (id : Z) (r : result Receipt)
| K_create (vmHash : Hash) (blockNum : Z) (r : result Receipt)
| K_require (e : option error)
| K_confirm (r : result Receipt).

Section RecordedClients.
Context {W : Type} `{T : ValidatorTxManager W} `{BC : BridgeClient W} `{L2 : L2Client W}.

Definition recorded_mgr : ValidatorTxManager (W * list vcall) := {|
  vt_Stake n := logged_go (K_stake n) (vt_Stake n);
  vt_AdvanceStake id := logged_go (K_advance id) (vt_AdvanceStake id);
  vt_CreateAssertion h n := logged_go (K_create h n) (vt_CreateAssertion h n);
  vt_ConfirmFirstUnresolvedAssertion := logged_go K_confirm vt_ConfirmFirstUnresolvedAssertion
|}.

Definition recorded_bridge : BridgeClient (W * list vcall) := {|
  GetRequiredStakeAmount := logged K_amount GetRequiredStakeAmount;
  GetStaker a := logged K_staker (GetStaker a);
  GetAssertion id := logged (K_assertion id) (GetAssertion id);
  RequireFirstUnresolvedAssertionIsConfirmable := logged K_require RequireFirstUnresolvedAssertionIsConfirmable;
  bc_Error_text := bc_Error_text (W := W)
|}.

Definition recorded_l2 : L2Client (W * list vcall) := {|
  l2_EnsureDialed := silent l2_EnsureDialed;
  l2_BlockNumber := silent l2_BlockNumber;
  l2_BlockByNumber i := logged (K_block i) (l2_BlockByNumber i);
  l2_HeaderByTag tag := logged (K_header tag) (l2_HeaderByTag tag)
|}.

End RecordedClients.

(** ** What the calls show *)

Definition attrs_of (header : Header) : assertionAttributes :=
  mkAttrs (big_Uint64 (h_Number header)) (h_Hash header).

(** The assertion a call has made: its transaction was mined and did not revert. *)
Definition assertion_of (c : vcall) : option assertionAttributes :=
  match c with
  | K_create h n (Ok rc) => if rc_Status rc =? ReceiptStatusFailed then None else Some (mkAttrs n h)
  | _ => None
  end.

Definition assertions (tr : list vcall) : list assertionAttributes := omap assertion_of tr.

(** The last assertion made, [a] if there is none. *)
Definition last_made (a : assertionAttributes) (tr : list vcall) : assertionAttributes :=
  List.last (assertions tr) a.

(** An assertion is tried only right after L2 has told its safe head, for that head, and only
    above the last assertion made; a confirmation is tried only right after the contract has
    allowed it. *)
Fixpoint legal (a : assertionAttributes) (prev : option vcall) (tr : list vcall) : Prop :=
  match tr with
  | [] => True
  | c :: tr =>
      match c with
      | K_create h n _ => l2BlockNum a < n ∧
          ∃ header, prev = Some (K_header Safe_tag (Ok header)) ∧ mkAttrs n h = attrs_of header
      | K_confirm _ => prev = Some (K_require None)
      | _ => True
      end ∧ legal (default a (assertion_of c)) (Some c) tr
  end.

(** A safe head above the last assertion made is asserted at once. *)
Fixpoint prompt (a : assertionAttributes) (tr : list vcall) : Prop :=
  match tr with
  | [] => True
  | c :: tr =>
      match c with
      | K_header _ (Ok header) => l2BlockNum a < l2BlockNum (attrs_of header) →
          ∃ r rest, tr = K_create (l2VMHash (attrs_of header)) (l2BlockNum (attrs_of header)) r :: rest
      | _ => True
      end ∧ prompt (default a (assertion_of c)) tr
  end.

(** Strictly increasing block numbers from [n]. *)
Fixpoint increasing (n : Z) (l : list assertionAttributes) : Prop :=
  match l with
  | [] => True
  | a :: l => n < l2BlockNum a ∧ increasing (l2BlockNum a) l
  end.

Lemma last_made_cons a c tr : last_made a (c :: tr) = last_made (default a (assertion_of c)) tr.
Proof.
  unfold last_made, assertions. cbn. destruct (assertion_of c); [|done]. apply last_cons_default.
Qed.

Lemma last_made_app a t1 t2 : last_made a (t1 ++ t2) = last_made (last_made a t1) t2.
Proof.
  revert a. induction t1 as [|c t1 IH]; intros a; [done|].
  cbn [app]. by rewrite !last_made_cons.
Qed.

Lemma legal_prev a p tr : legal a None tr → legal a p tr.
Proof. destruct tr as [|c tr]; [done|]. cbn. destruct c; naive_solver. Qed.

Lemma legal_app a p t1 t2 : legal a p t1 → legal (last_made a t1) None t2 → legal a p (t1 ++ t2).
Proof.
  revert a p. induction t1 as [|c t1 IH]; intros a p H1 H2; [by apply legal_prev|].
  destruct H1 as [H1 H1']. rewrite last_made_cons in H2. split; [exact H1|by apply IH].
Qed.

Lemma prompt_app a t1 t2 : prompt a t1 → prompt (last_made a t1) t2 → prompt a (t1 ++ t2).
Proof.
  revert a. induction t1 as [|c t1 IH]; intros a H1 H2; [done|].
  destruct H1 as [H1 H1']. rewrite last_made_cons in H2. split; [|by apply IH].
  destruct c as [tag [header|]| | | | | | | | |]; try done.
  intros Hlt. destruct (H1 Hlt) as (r & rest & ->). by exists r, (rest ++ t2).
Qed.

Lemma legal_increasing a p tr : legal a p tr → increasing (l2BlockNum a) (assertions tr).
Proof.
  revert a p. induction tr as [|c tr IH]; intros a p H; [done|]. destruct H as [H1 H2].
  apply IH in H2. unfold assertions. cbn. fold (assertions tr).
  destruct (assertion_of c) as [b|] eqn:Hc; [|done]. cbn in *. split; [|done].
  destruct c as [| | | | | | |h n [rc|e]| |]; try done. cbn in Hc.
  destruct (_ =? _); [done|]. injection Hc as <-. apply H1.
Qed.

(** A call that is neither an assertion nor a confirmation is legal anywhere. *)
Definition harmless (c : vcall) : Prop :=
  match c with K_create _ _ _ | K_confirm _ => False | _ => True end.

Lemma harmless_legal tr : ∀ a p, Forall harmless tr → legal a p tr ∧ last_made a tr = a.
Proof.
  induction tr as [|c tr IH]; intros a p H; [done|]. apply Forall_cons in H as [Hc H].
  assert (assertion_of c = None) as Ha by (by destruct c). rewrite last_made_cons. cbn [legal]. rewrite Ha.
  cbn. destruct (IH a (Some c) H) as [H1 H2]. split_and!; [by destruct c|done..].
Qed.

(** ** The validator over the record *)

Section Record.
Context {W : Type} `{T : ValidatorTxManager W} `{BC : BridgeClient W} `{L2 : L2Client W}.
Context (GetAccountAddr : Address).
#[local] Existing Instance recorded_mgr.
#[local] Existing Instance recorded_bridge.
#[local] Existing Instance recorded_l2.

Abbreviation world := (W * list vcall)%type.
Implicit Types s : vstate (W := world).

(** From record [a], the calls [tr] leave record [a']. *)
Definition shows (a : assertionAttributes) (tr : list vcall) (a' : assertionAttributes) : Prop :=
  legal a None tr ∧ prompt a tr ∧ a' = last_made a tr.

Lemma shows_nil a : shows a [] a.
Proof. done. Qed.

Lemma shows_app a t1 b t2 c : shows a t1 b → shows b t2 c → shows a (t1 ++ t2) c.
Proof.
  intros (H1 & H2 & ->) (H3 & H4 & ->).
  split_and!; [by apply legal_app|by apply prompt_app|by rewrite last_made_app].
Qed.

Lemma createAssertion_shows s r s' :
  createAssertion s = Ret (r, s') → ∃ tr, s'.2.2 = s.2.2 ++ tr ∧ shows s.1 tr s'.1.
Proof.
  destruct s as [a [w l]]. unfold createAssertion, getNextAssertionAttrs. cbn. unfold logged, logged_go. cbn.
  destruct (l2_HeaderByTag Safe_tag w) as [[header|e] w1]; cbn.
  2: { intros [= _ <-]. by eexists [_]. }
  destruct (_ <=? _) eqn:Hle; zbool.
  { intros [= _ <-]. eexists [_]. split; [reflexivity|]. split_and!; [done| |done]. split; [|done]. cbn. lia. }
  destruct (vt_CreateAssertion _ _ w1) as [[rc w2]|]; cbn; [|done].
  assert (Hshow : ∀ a', a' = last_made a [K_header Safe_tag (Ok header);
      K_create (computeVmHash header) (big_Uint64 (h_Number header)) rc] →
    ∃ tr, (l ++ [K_header Safe_tag (Ok header)]) ++ [K_create (computeVmHash header) (big_Uint64 (h_Number header)) rc] =
      l ++ tr ∧ shows a tr a').
  { intros a' ->. eexists. rewrite <- app_assoc. split; [reflexivity|]. split_and!; [|by cbn; split; eauto|done].
    split; [done|]. cbn. split; [|by repeat split]. split; [lia|]. by exists header. }
  destruct rc as [rc|e]; [destruct (_ =? _) eqn:Hst|]; intros [= _ <-]; apply Hshow; try done;
    unfold last_made, assertions; cbn; by rewrite Hst.
Qed.

Lemma resolve_shows s r s' :
  resolveFirstUnresolvedAssertion s = Ret (r, s') → ∃ tr, s'.2.2 = s.2.2 ++ tr ∧ shows s.1 tr s'.1.
Proof.
  destruct s as [a [w l]]. unfold resolveFirstUnresolvedAssertion. cbn. unfold logged, logged_go. cbn.
  destruct (RequireFirstUnresolvedAssertionIsConfirmable w) as [[e|] w1]; cbn.
  - destruct (String.eqb _ _); [|destruct (String.eqb _ _)]; intros [= _ <-]; by eexists [_].
  - destruct (vt_ConfirmFirstUnresolvedAssertion w1) as [[rc w2]|]; cbn; [|done]. intros H.
    exists [K_require None; K_confirm rc].
    assert (s' = (a, (w2, (l ++ [K_require None]) ++ [K_confirm rc]))) as -> by (by destruct rc; injection H as _ <-).
    cbn. by rewrite <- app_assoc.
Qed.

Lemma step_shows s r s' :
  step s = Ret (r, s') → ∃ tr, s'.2.2 = s.2.2 ++ tr ∧ shows s.1 tr s'.1.
Proof.
  unfold step. destruct (createAssertion s) as [[r1 s1]|] eqn:Hc; [|done]. cbn.
  apply createAssertion_shows in Hc as (t1 & Ht1 & H1). destruct r1.
  - destruct (resolveFirstUnresolvedAssertion s1) as [[r2 s2]|] eqn:Hr; [|done]. cbn.
    intros [= _ <-]. apply resolve_shows in Hr as (t2 & Ht2 & H2).
    exists (t1 ++ t2). split; [by rewrite Ht2, Ht1, app_assoc|by eapply shows_app].
  - intros [= _ <-]. by exists t1.
Qed.

Definition quiet_env (ev : event world) : Prop :=
  match ev with ev_tick env => ∀ w, keeps w (env w) | ev_done => True end.

Lemma start_loop_shows evs : ∀ s r s', Forall quiet_env evs →
  start_loop evs s = Ret (r, s') → ∃ tr, s'.2.2 = s.2.2 ++ tr ∧ shows s.1 tr s'.1.
Proof.
  induction evs as [|[env|] evs IH]; intros s r s' Hq H; cbn [start_loop] in H.
  1, 3: simplify_eq; exists []; by rewrite app_nil_r.
  apply Forall_cons in Hq as [He Hq]. specialize (He s.2). unfold keeps in He.
  destruct (step (s.1, env s.2)) as [[r1 s1]|] eqn:Hs; [|done]. cbn in H.
  apply step_shows in Hs as (t1 & Ht1 & H1). cbn in Ht1, H1. rewrite He in Ht1.
  assert (Hrest : s' = s1 ∨ start_loop evs s1 = Ret (r, s')).
  { destruct r1 as [[]|e]; [by right|]. destruct (errors_As _ _); [left; by simplify_eq|by right]. }
  destruct Hrest as [->|Hrest]; [by exists t1|].
  apply IH in Hrest as (t2 & Ht2 & H2); [|done]. exists (t1 ++ t2).
  split; [by rewrite Ht2, Ht1, app_assoc|by eapply shows_app].
Qed.

(** What a successful preparation asks: the genesis assertion, which is the hash of the L2
    genesis block; the account's stake, and the required amount is staked if there is none;
    the assertion the account is staked on, which becomes the record. *)
Definition prepares (tr : list vcall) (a : assertionAttributes) : Prop :=
  ∃ genesis block staker stake staker' last,
    tr = [K_assertion 0 (Ok genesis); K_block 0 (Ok block); K_staker (Ok staker)] ++ stake ++
         [K_staker (Ok staker'); K_assertion (AssertionID staker') (Ok last)] ∧
    StateHash genesis = h_Hash (blk_Header block) ∧
    (IsStaked staker = true ∧ stake = [] ∨
     IsStaked staker = false ∧ ∃ amount receipt, stake = [K_amount (Ok amount); K_stake amount (Ok receipt)]) ∧
    a = mkAttrs (big_Uint64 (BlockNum last)) (StateHash last).

Lemma prepare_shows s r s' : prepare GetAccountAddr s = Ret (r, s') →
  ∃ tr, s'.2.2 = s.2.2 ++ tr ∧ Forall harmless tr ∧
  match r with Ok _ => prepares tr s'.1 | Err _ => s'.1 = s.1 end.
Proof.
  destruct s as [a [w l]]. unfold prepare, validateGenesis. cbn. unfold logged. cbn.
  destruct (GetAssertion 0 w) as [[g|e] w1]; cbn; [|intros [= <- <-]; eexists [_]; by repeat constructor].
  destruct (l2_BlockByNumber 0 w1) as [[b|e] w2]; cbn.
  2: { intros [= <- <-]. eexists [_; _]. rewrite <- app_assoc. by repeat constructor. }
  destruct (negb _) eqn:Hg; cbn.
  { intros [= <- <-]. eexists [_; _]. rewrite <- app_assoc. by repeat constructor. }
  apply negb_false_iff in Hg. zbool.
  unfold ensureStaked. cbn. unfold logged. cbn.
  destruct (GetStaker GetAccountAddr w2) as [[st|e] w3]; cbn.
  2: { intros [= <- <-]. eexists [_; _; _]. rewrite <- !app_assoc. by repeat constructor. }
  unfold rollback. cbn. unfold logged_go, logged. cbn.
  destruct (IsStaked st) eqn:Hst; cbn.
  - destruct (GetStaker GetAccountAddr w3) as [[st'|e] w6]; cbn.
    2: { intros [= <- <-]. eexists [_; _; _; _]. rewrite <- !app_assoc. by repeat constructor. }
    destruct (GetAssertion (AssertionID st') w6) as [[a'|e] w7]; cbn; intros [= <- <-];
      eexists [_; _; _; _; _]; rewrite <- !app_assoc; (split; [reflexivity|]); (split; [by repeat constructor|]); [|done].
    exists g, b, st, [], st', a'. split_and!; [done|done|by left|done].
  - destruct (GetRequiredStakeAmount w3) as [[am|e] w4]; cbn.
    2: { intros [= <- <-]. eexists [_; _; _; _]. rewrite <- !app_assoc. by repeat constructor. }
    destruct (vt_Stake am w4) as [[[rc|e] w5]|]; cbn; [| |done].
    2: { intros [= <- <-]. eexists [_; _; _; _; _]. rewrite <- !app_assoc. by repeat constructor. }
    destruct (GetStaker GetAccountAddr w5) as [[st'|e] w6]; cbn.
    2: { intros [= <- <-]. eexists [_; _; _; _; _; _]. rewrite <- !app_assoc. by repeat constructor. }
    destruct (GetAssertion (AssertionID st') w6) as [[a'|e] w7]; cbn; intros [= <- <-];
      eexists [_; _; _; _; _; _; _]; rewrite <- !app_assoc; (split; [reflexivity|]); (split; [by repeat constructor|]); [|done].
    exists g, b, st, [K_amount (Ok am); K_stake am (Ok rc)], st', a'.
    split_and!; [done|done| |done]. right. split; [done|]. by exists am, rc.
Qed.


End Record.

(** ** Concrete runs: the world is the height of the safe L2 head. *)
Module ValidatorSample.

Definition l2 : L2Client Z := {|
  l2_EnsureDialed w := (None, w);
  l2_BlockNumber w := (Ok w, w);
  l2_BlockByNumber i w := (Ok (mkBlock (mkHeader i (1000 + i) (999 + i) None) []), w);
  l2_HeaderByTag _ w := (Ok (mkHeader w (1000 + w) (999 + w) None), w)
|}.

Definition txm (status : Z) : ValidatorTxManager Z := {|
  vt_Stake _ w := Ret (Ok (mkReceipt status 1 w), w);
  vt_AdvanceStake _ w := Ret (Ok (mkReceipt status 1 w), w);
  vt_CreateAssertion _ _ w := Ret (Ok (mkReceipt status 1 w), w);
  vt_ConfirmFirstUnresolvedAssertion w := Ret (Ok (mkReceipt status 1 w), w)
|}.

(** [refusal]: the answer to the simulated confirmation. *)
Definition bc (staked : bool) (refusal : string) : BridgeClient Z := {|
  GetRequiredStakeAmount w := (Ok 32, w);
  GetStaker _ w := (Ok (mkStaker staked 0), w);
  GetAssertion _ w := (Ok (mkRollupAssertion 1000 0), w);
  RequireFirstUnresolvedAssertionIsConfirmable w := (Some (FmtError refusal), w);
  bc_Error_text _ := refusal
|}.

Definition ticks : list (event Z) := [ev_tick (Z.add 2); ev_tick id; ev_tick (Z.add 3)].

(** The account is staked on the genesis assertion, of block 0; the safe head goes to 2 and
    then to 5. *)
Definition rticks : list (event (Z * list vcall)) :=
  [ev_tick (fun w => (2 + w.1, w.2)); ev_tick id; ev_tick (fun w => (3 + w.1, w.2))].


Lemma resolve_correct_witness :
  ∃ m, resolveFirstUnresolvedAssertion (T := txm 1) (BC := bc true "i/o timeout") (mkAttrs 0 0, 0) =
    Ret (Err (AddrOf (UnexpectedSystemStateError m)), (mkAttrs 0 0, 0)).
Proof.
  pose proof (resolve_correct (T := txm 1) (BC := bc true "i/o timeout") (mkAttrs 0 0, 0) _ _ eq_refl)
    as (_ & _ & _ & H).
  destruct H as [m H]; [discriminate|]. exists m. cbn in *. by rewrite H.
Defined.

Lemma validator_never_aborts_witness :
  ∃ s', start_loop (T := txm 1) (BC := bc true "i/o timeout") (L2 := l2) ticks (mkAttrs 0 0, 0) =
    Ret (None, s').
Proof.
  assert (H : ∃ r s', start_loop (T := txm 1) (BC := bc true "i/o timeout") (L2 := l2) ticks
    (mkAttrs 0 0, 0) = Ret (r, s')) by (eexists _, _; vm_compute; reflexivity).
  destruct H as (r & s' & H). exists s'.
  destruct (validator_never_aborts (T := txm 1) (BC := bc true "i/o timeout") (L2 := l2) ticks
    ltac:(done) ltac:(done) ltac:(done) _ _ _ H) as [->| ->]; [exact H|].
  vm_compute in H. discriminate.
Defined.

Lemma reverted_stake_accepted_witness :
  ensureStaked (T := txm 0) (BC := bc false "x") 7 (mkAttrs 0 0, 0) = Ret (Ok tt, (mkAttrs 0 0, 0)).
Proof.
  apply (reverted_stake_accepted (T := txm 0) (BC := bc false "x") 7 (mkAttrs 0 0, 0)
    (mkStaker false 0) 0 32 0 (mkReceipt 0 1 0) 0); reflexivity.
Defined.

End ValidatorSample.
