(* ===== verification/MemoryDB.v ===== *)
(** * The in-memory state database

    Models ops/state/memory_db.go: geth's [StateDB] interface over the allocation of a
    genesis.  [StateDB] is the part of the interface that the code of this repository uses;
    [StateDBContract] is what its users rely on, discharged for [MemoryStateDB].  The methods
    that only panic ("unimplemented") are [unsupported]. *)

From S2P Require Import Prelude Errors Types.

(** [crypto.Keccak256], as the hash its bytes are. *)
Class Crypto := { Keccak256 : bytes → Hash }.

(** [core.GenesisAccount].  A nil map can be read but not written; a nil balance can be
    neither. *)
Record GenesisAccount := mkAccount {
  acc_Code : bytes;
  acc_Storage : option (gmap Hash Hash);
  acc_Balance : option Z;
  acc_Nonce : Z
}.

(** The part of [vm.StateDB] used here. *)
Class StateDB (D : Type) := {
  sdb_GetBalance : Address → D → option Z;            (* nil: [None] *)
  sdb_AddBalance : Address → Z → D → go D;
  sdb_SubBalance : Address → Z → D → go D;
  sdb_GetState : Address → Hash → D → Hash;
  sdb_SetState : Address → Hash → Hash → D → go D
}.

(** [genesis.Alloc]. *)
Record MemoryStateDB := mkDB { Alloc : gmap Address GenesisAccount }.

Section MemoryStateDB.
Context `{C : Crypto}.
Implicit Types db : MemoryStateDB.

Definition emptyCodeHash : Hash := Keccak256 [].

(** The zero value of [core.GenesisAccount], which a failed lookup gives. *)
Definition zero_account : GenesisAccount := mkAccount [] None None 0.

Definition not_in_state : string := "not in state".
Definition nil_map : string := "assignment to entry in nil map".

(** A nil genesis is go-ethereum's developer genesis. *)
Definition NewMemoryStateDB (developer : MemoryStateDB) (genesis : option MemoryStateDB) : MemoryStateDB :=
  default developer genesis.

Definition set_account (addr : Address) (a : GenesisAccount) db : MemoryStateDB :=
  mkDB (<[addr := a]> (Alloc db)).

Definition GetAccount (addr : Address) db : option GenesisAccount := Alloc db !! addr.

Definition CreateAccount (addr : Address) db : MemoryStateDB :=
  match Alloc db !! addr with
  | Some _ => db
  | None => set_account addr (mkAccount [] (Some ∅) (Some 0) 0) db
  end.

(** A zero balance is left alone, whatever the amount. *)
Definition SubBalance (addr : Address) (amount : Z) db : go MemoryStateDB :=
  match Alloc db !! addr with
  | None => Panic not_in_state
  | Some a =>
      match acc_Balance a with
      | None => Panic nil_deref
      | Some b =>
          if Z.sgn b =? 0 then Ret db
          else Ret (set_account addr (mkAccount (acc_Code a) (acc_Storage a) (Some (b - amount)) (acc_Nonce a)) db)
      end
  end.

Definition AddBalance (addr : Address) (amount : Z) db : go MemoryStateDB :=
  match Alloc db !! addr with
  | None => Panic not_in_state
  | Some a =>
      match acc_Balance a with
      | None => Panic nil_deref
      | Some b => Ret (set_account addr (mkAccount (acc_Code a) (acc_Storage a) (Some (b + amount)) (acc_Nonce a)) db)
      end
  end.

(** The balance as a pointer: nil when the account's is. *)
Definition GetBalance (addr : Address) db : option Z :=
  match Alloc db !! addr with
  | None => Some 0
  | Some a => acc_Balance a
  end.

Definition GetNonce (addr : Address) db : Z :=
  match Alloc db !! addr with None => 0 | Some a => acc_Nonce a end.

Definition SetNonce (addr : Address) (value : Z) db : MemoryStateDB :=
  match Alloc db !! addr with
  | None => db
  | Some a => set_account addr (mkAccount (acc_Code a) (acc_Storage a) (acc_Balance a) value) db
  end.

Definition GetCodeHash (addr : Address) db : Hash :=
  match Alloc db !! addr with
  | None => zero_hash
  | Some a => if (length (acc_Code a) =? 0)%nat then emptyCodeHash else Keccak256 (acc_Code a)
  end.

(** [GetCode]: [None] is a nil slice. *)
Definition GetCode (addr : Address) db : option bytes :=
  match Alloc db !! addr with
  | None => None
  | Some a => if Keccak256 (acc_Code a) =? emptyCodeHash then None else Some (acc_Code a)
  end.

Definition SetCode (addr : Address) (code : bytes) db : MemoryStateDB :=
  match Alloc db !! addr with
  | None => db
  | Some a => set_account addr (mkAccount code (acc_Storage a) (acc_Balance a) (acc_Nonce a)) db
  end.

Definition GetCodeSize (addr : Address) db : Z :=
  match Alloc db !! addr with
  | None => 0
  | Some a => if Keccak256 (acc_Code a) =? emptyCodeHash then 0 else Z.of_nat (length (acc_Code a))
  end.

(** A read of a nil map gives the zero value. *)
Definition storage_get (key : Hash) (a : GenesisAccount) : Hash :=
  default zero_hash (default ∅ (acc_Storage a) !! key).

Definition GetState (addr : Address) (key : Hash) db : Hash :=
  match Alloc db !! addr with
  | None => zero_hash
  | Some a => storage_get key a
  end.

Definition SetState (addr : Address) (key value : Hash) db : go MemoryStateDB :=
  match Alloc db !! addr with
  | None => Panic not_in_state
  | Some a =>
      match acc_Storage a with
      | None => Panic nil_map
      | Some m => Ret (set_account addr (mkAccount (acc_Code a) (Some (<[key := value]> m)) (acc_Balance a) (acc_Nonce a)) db)
      end
  end.

(** Deleting from a nil map does nothing. *)
Definition DeleteState (addr : Address) (key : Hash) db : go MemoryStateDB :=
  match Alloc db !! addr with
  | None => Panic not_in_state
  | Some a => Ret (set_account addr (mkAccount (acc_Code a) (delete key <$> acc_Storage a) (acc_Balance a) (acc_Nonce a)) db)
  end.

Definition Exist (addr : Address) db : bool := bool_decide (is_Some (Alloc db !! addr)).

(** [Empty], as written: the fields are read before [ok] is, and [ok] is a disjunct. *)
Definition Empty (addr : Address) db : go bool :=
  let ok := bool_decide (is_Some (Alloc db !! addr)) in
  let account := default zero_account (Alloc db !! addr) in
  let isZeroNonce := acc_Nonce account =? 0 in
  match acc_Balance account with
  | None => Panic nil_deref
  | Some b =>
      let isZeroValue := Z.sgn b =? 0 in
      let isEmptyCode := Keccak256 (acc_Code account) =? emptyCodeHash in
      Ret (ok || (isZeroNonce && isZeroValue && isEmptyCode))
  end.

(** [ForEachStorage] calls [cb] on the entries, in some order, until it returns false; the
    entries visited. *)
Fixpoint storage_loop (entries : list (Hash * Hash)) (cb : Hash → Hash → bool) : list (Hash * Hash) :=
  match entries with
  | [] => []
  | (k, v) :: rest => (k, v) :: if cb k v then storage_loop rest cb else []
  end.

Definition ForEachStorage (addr : Address) (cb : Hash → Hash → bool) db : list (Hash * Hash) :=
  match Alloc db !! addr with
  | None => []
  | Some a => storage_loop (map_to_list (default ∅ (acc_Storage a))) cb
  end.

(** Refunds, access lists, snapshots, logs, transient storage, self-destruction and the
    proof accessors only panic. *)
Definition unsupported {R : Type} (what : string) : go R := Panic what.
Definition AddRefund (_ : Z) : go unit := unsupported "AddRefund unimplemented".
Definition SubRefund (_ : Z) : go unit := unsupported "SubRefund unimplemented".
Definition GetRefund : go Z := unsupported "GetRefund unimplemented".
Definition GetCommittedState (_ : Address) (_ : Hash) : go Hash := unsupported "GetCommittedState unimplemented".
Definition SelfDestruct (_ : Address) : go unit := unsupported "SelfDestruct unimplemented".
Definition HasSelfDestructed (_ : Address) : go bool := unsupported "HasSelfDestructed unimplemented".
Definition Selfdestruct6780 (_ : Address) : go unit := unsupported "Selfdestruct6780 unimplemented".
Definition PrepareAccessList (sender : Address) (dest : option Address) (precompiles : list Address) : go unit := unsupported "PrepareAccessList unimplemented".
Definition AddressInAccessList (_ : Address) : go bool := unsupported "AddressInAccessList unimplemented".
Definition SlotInAccessList (_ : Address) (_ : Hash) : go (bool * bool) := unsupported "SlotInAccessList unimplemented".
Definition AddAddressToAccessList (_ : Address) : go unit := unsupported "AddAddressToAccessList unimplemented".
Definition AddSlotToAccessList (_ : Address) (_ : Hash) : go unit := unsupported "AddSlotToAccessList unimplemented".
Definition RevertToSnapshot (_ : Z) : go unit := unsupported "RevertToSnapshot unimplemented".
Definition Snapshot : go Z := unsupported "Snapshot unimplemented".
Definition AddLog : go unit := unsupported "AddLog unimplemented".
Definition AddPreimage (_ : Hash) (_ : bytes) : go unit := unsupported "AddPreimage unimplemented".
Definition GetTransientState (_ : Address) (_ : Hash) : go Hash := unsupported "transient state is unsupported".
Definition SetTransientState (_ : Address) (_ _ : Hash) : go unit := unsupported "transient state is unsupported".
Definition Copy : go unit := unsupported "unsupported".
Definition GetCurrentLogs : go unit := unsupported "unsupported".
Definition GetCurrentAccessListForProof : go unit := unsupported "unsupported".
Definition GetStateRootForProof (_ : Address) : go Hash := unsupported "unsupported".
Definition GetRootForProof : go Hash := unsupported "unsupported".
Definition GetStorageRoot (_ : Address) : go Hash := unsupported "unsupported".
Definition CommitForProof : go unit := unsupported "unsupported".
Definition DeleteSuicidedAccountForProof (_ : Address) : go unit := unsupported "unsupported".

(** It does nothing. *)
Definition Prepare db : MemoryStateDB := db.

End MemoryStateDB.

#[export] Instance MemoryStateDB_StateDB : StateDB MemoryStateDB := {
  sdb_GetBalance := GetBalance;
  sdb_AddBalance := AddBalance;
  sdb_SubBalance := SubBalance;
  sdb_GetState := GetState;
  sdb_SetState := SetState
}.

(** ** What the users of a state database rely on

    [sdb_ok d a]: account [a] can be used.  On such accounts the balance is a number, adding
    and subtracting (not more than there is) change that account's balance alone, and keep
    the other accounts usable and all storage as it is. *)
Class StateDBContract (D : Type) `{StateDB D} := {
  sdb_ok : D → Address → Prop;
  sdb_balance : D → Address → Z;
  sdb_GetBalance_ok : ∀ d a, sdb_ok d a → sdb_GetBalance a d = Some (sdb_balance d a);
  sdb_AddBalance_ok : ∀ d a v, sdb_ok d a →
    ∃ d', sdb_AddBalance a v d = Ret d' ∧
      (∀ a', sdb_balance d' a' = sdb_balance d a' + if decide (a' = a) then v else 0) ∧
      (∀ a', sdb_ok d a' → sdb_ok d' a') ∧ (∀ a' k, sdb_GetState a' k d' = sdb_GetState a' k d);
  sdb_SubBalance_ok : ∀ d a v, sdb_ok d a → 0 <= v <= sdb_balance d a →
    ∃ d', sdb_SubBalance a v d = Ret d' ∧
      (∀ a', sdb_balance d' a' = sdb_balance d a' - if decide (a' = a) then v else 0) ∧
      (∀ a', sdb_ok d a' → sdb_ok d' a') ∧ (∀ a' k, sdb_GetState a' k d' = sdb_GetState a' k d)
}.

(** An account that was created by [CreateAccount] and the operations above. *)
Definition account_wf (a : GenesisAccount) : Prop := is_Some (acc_Balance a) ∧ is_Some (acc_Storage a).

Definition db_wf (db : MemoryStateDB) : Prop := map_Forall (λ _, account_wf) (Alloc db).

Definition has_balance (db : MemoryStateDB) (addr : Address) : Prop :=
  ∃ a b, Alloc db !! addr = Some a ∧ acc_Balance a = Some b.

Definition balance (db : MemoryStateDB) (addr : Address) : Z := default 0 (GetBalance addr db).

(** ** Lemmas *)

Section Facts.
Implicit Types db : MemoryStateDB.

(** Replacing an account by one with another balance. *)
Lemma set_balance_facts addr a b v db :
  Alloc db !! addr = Some a → acc_Balance a = Some b →
  let db' := set_account addr (mkAccount (acc_Code a) (acc_Storage a) (Some v) (acc_Nonce a)) db in
  (∀ a', balance db' a' = balance db a' + if decide (a' = addr) then v - b else 0) ∧
  (∀ a', has_balance db a' → has_balance db' a') ∧ (∀ a' k, GetState a' k db' = GetState a' k db).
Proof.
  intros Ha Hb db'. split; [|split]; intros a'; unfold db', set_account, balance, GetBalance, has_balance, GetState; cbn;
    destruct (decide (a' = addr)) as [->|Hne].
  - rewrite lookup_insert_eq, Ha, Hb. cbn. lia.
  - rewrite lookup_insert_ne by done. lia.
  - rewrite lookup_insert_eq. intros _. by eexists _, _.
  - by rewrite lookup_insert_ne by done.
  - rewrite lookup_insert_eq, Ha. done.
  - by rewrite lookup_insert_ne by done.
Qed.

End Facts.

#[export] Instance MemoryStateDB_contract : StateDBContract MemoryStateDB.
Proof.
  refine {| sdb_ok := has_balance; sdb_balance := balance |}.
  - intros d addr (a & b & Ha & Hb). unfold balance. cbn. unfold GetBalance. by rewrite Ha, Hb.
  - intros d addr v (a & b & Ha & Hb). cbn. unfold AddBalance. rewrite Ha, Hb.
    eexists. split; [reflexivity|].
    destruct (set_balance_facts addr a b (b + v) d Ha Hb) as (H1 & H2 & H3).
    split; [|done]. intros a'. rewrite H1. case_decide; lia.
  - intros d addr v (a & b & Ha & Hb) Hv. cbn. unfold SubBalance. rewrite Ha, Hb.
    assert (Hbal : balance d addr = b) by (unfold balance, GetBalance; by rewrite Ha, Hb).
    destruct (Z.sgn b =? 0) eqn:Hz; zbool.
    + apply Z.sgn_null_iff in Hz. exists d. split; [done|]. split; [|done].
      intros a'. case_decide; lia.
    + eexists. split; [reflexivity|].
      destruct (set_balance_facts addr a b (b - v) d Ha Hb) as (H1 & H2 & H3).
      split; [|done]. intros a'. rewrite H1. case_decide; lia.
Defined.

(** ** The database as a transition system *)

Inductive op : Type :=
| op_CreateAccount (a : Address)
| op_SubBalance (a : Address) (v : Z)
| op_AddBalance (a : Address) (v : Z)
| op_SetNonce (a : Address) (v : Z)
| op_SetCode (a : Address) (c : bytes)
| op_SetState (a : Address) (k v : Hash)
| op_DeleteState (a : Address) (k : Hash).

Definition apply (o : op) (db : MemoryStateDB) : go MemoryStateDB :=
  match o with
  | op_CreateAccount a => Ret (CreateAccount a db)
  | op_SubBalance a v => SubBalance a v db
  | op_AddBalance a v => AddBalance a v db
  | op_SetNonce a v => Ret (SetNonce a v db)
  | op_SetCode a c => Ret (SetCode a c db)
  | op_SetState a k v => SetState a k v db
  | op_DeleteState a k => DeleteState a k db
  end.

Definition target (o : op) : Address :=
  match o with
  | op_CreateAccount a | op_SubBalance a _ | op_AddBalance a _ | op_SetNonce a _
  | op_SetCode a _ | op_SetState a _ _ | op_DeleteState a _ => a
  end.

(** A sequence of operations, stopping at a panic. *)
Fixpoint apply_all (os : list op) (db : MemoryStateDB) : go MemoryStateDB :=
  match os with
  | [] => Ret db
  | o :: os => db1 ← apply o db; apply_all os db1
  end.

Lemma set_account_wf addr a db : db_wf db → account_wf a → db_wf (set_account addr a db).
Proof. intros Hdb Ha. by apply map_Forall_insert_2. Qed.

#[export] Hint Resolve set_account_wf : specular.

(** One operation on a well-formed database. *)
Lemma apply_wf o db :
  db_wf db →
  (∃ db', apply o db = Ret db' ∧ db_wf db' ∧
     (∀ a, a ≠ target o → Alloc db' !! a = Alloc db !! a) ∧
     (∀ a, Exist a db = true → Exist a db' = true)) ∨
  (apply o db = Panic not_in_state ∧ Alloc db !! target o = None).
Proof.
  intros Hwf.
  assert (Hset : ∀ addr a, account_wf a → db_wf (set_account addr a db) ∧
    (∀ a', a' ≠ addr → Alloc (set_account addr a db) !! a' = Alloc db !! a') ∧
    (∀ a', Exist a' db = true → Exist a' (set_account addr a db) = true)).
  { intros addr a Ha. split; [by apply set_account_wf|]. split.
    - intros a' Hne. cbn. by rewrite lookup_insert_ne.
    - intros a'. unfold Exist. cbn. rewrite !bool_decide_eq_true.
      destruct (decide (a' = addr)) as [->|Hne]; [by rewrite lookup_insert_eq|].
      by rewrite lookup_insert_ne. }
  assert (Hacc : ∀ a acc, Alloc db !! a = Some acc → account_wf acc)
    by (intros a acc Ha; exact (map_Forall_lookup_1 _ _ _ _ Hwf Ha)).
  destruct o as [a|a v|a v|a v|a c|a k v|a k]; cbn;
    unfold CreateAccount, SubBalance, AddBalance, SetNonce, SetCode, SetState, DeleteState;
    destruct (Alloc db !! a) as [acc|] eqn:Ha; try (by right); left.
  all: try (destruct (Hacc _ _ Ha) as [[b Hb] [m Hm]]; rewrite ?Hb, ?Hm; cbn).
  all: try (by exists db).
  - eexists. split; [reflexivity|]. by apply Hset.
  - destruct (_ =? 0); [by exists db|]. eexists. split; [reflexivity|]. by apply Hset.
  - eexists. split; [reflexivity|]. by apply Hset.
  - eexists. split; [reflexivity|]. apply Hset. by split.
  - eexists. split; [reflexivity|]. apply Hset. by split.
  - eexists. split; [reflexivity|]. by apply Hset.
  - eexists. split; [reflexivity|]. by apply Hset.
Qed.

(** ** Theorems *)

Section Claims.
Implicit Types db : MemoryStateDB.

(** C39: starting from a genesis whose accounts have a balance and a storage map, any
    sequence of operations keeps it so, never removes an account and leaves alone every
    account it does not name; it panics only on an account that is not in the state, and not
    at all when all the accounts it names exist at the start. *)
Theorem operations_keep_wf os : ∀ db,
  db_wf db →
  (apply_all os db = Panic not_in_state ∧ ∃ o, o ∈ os ∧ Alloc db !! target o = None) ∨
  ∃ db', apply_all os db = Ret db' ∧ db_wf db' ∧
    (∀ a, Exist a db = true → Exist a db' = true) ∧
    (∀ a, (∀ o, o ∈ os → target o ≠ a) → Alloc db' !! a = Alloc db !! a).
Proof.
  induction os as [|o os IH]; intros db Hwf; [right; by exists db|]. cbn [apply_all].
  destruct (apply_wf o db Hwf) as [(db1 & -> & Hwf1 & Hframe & Hex)|[-> Hno]].
  2: { left. split; [done|]. exists o. split; [left|done]. }
  cbn. destruct (IH db1 Hwf1) as [[-> (o' & Hin & Hno)]|(db' & -> & Hwf' & Hex' & Hframe')].
  - left. split; [done|]. exists o'. split; [by right|].
    destruct (Alloc db !! target o') eqn:Ho; [|done].
    assert (Exist (target o') db1 = true) as H
      by (apply Hex; unfold Exist; rewrite Ho; by apply bool_decide_eq_true_2).
    unfold Exist in H. rewrite Hno in H. apply bool_decide_eq_true in H. by destruct H.
  - right. exists db'. split; [done|]. split; [done|]. split; [by auto|].
    intros a Ha. rewrite Hframe' by (intros o' Ho'; apply Ha; by right).
    apply Hframe. intros ->. apply (Ha o); [left|done].
Qed.

(** Storage behaves as a store: after [SetState] the slot holds the value, every other
    slot of every account is unchanged, and so are the account's code, balance and nonce;
    after [DeleteState] the slot reads zero and the other slots are unchanged. *)
Theorem storage_laws addr key value db acc m :
  Alloc db !! addr = Some acc → acc_Storage acc = Some m →
  ∃ db1 db2, SetState addr key value db = Ret db1 ∧ DeleteState addr key db = Ret db2 ∧
    GetState addr key db1 = value ∧ GetState addr key db2 = zero_hash ∧
    (∀ a k, (a, k) ≠ (addr, key) →
       GetState a k db1 = GetState a k db ∧ GetState a k db2 = GetState a k db) ∧
    (∀ a, GetBalance a db1 = GetBalance a db ∧ GetNonce a db1 = GetNonce a db) ∧
    (∀ (Hc : Crypto) a, GetCode a db1 = GetCode a db).
Proof.
  intros Ha Hm. unfold SetState, DeleteState. rewrite Ha, Hm. do 2 eexists.
  split; [reflexivity|]. split; [reflexivity|].
  unfold GetState, GetBalance, GetNonce, GetCode, storage_get, set_account; cbn.
  rewrite !lookup_insert_eq. cbn. rewrite lookup_insert_eq, lookup_delete_eq.
  split; [done|]. split; [done|]. split; [|split].
  - intros a k Hne. destruct (decide (a = addr)) as [->|Hna].
    + assert (key ≠ k) by congruence. rewrite !lookup_insert_eq, Ha, Hm. cbn.
      by rewrite lookup_insert_ne, lookup_delete_ne by done.
    + by rewrite !lookup_insert_ne by done.
  - intros a. destruct (decide (a = addr)) as [->|Hna]; [by rewrite !lookup_insert_eq, Ha|].
    by rewrite !lookup_insert_ne by done.
  - intros Hc a. destruct (decide (a = addr)) as [->|Hna]; [by rewrite !lookup_insert_eq, Ha|].
    by rewrite !lookup_insert_ne by done.
Qed.

(** [Empty] is not EIP-161's notion: it is true of every account in the state, whatever
    its balance, nonce and code, and it panics for an account that is not there. *)
Theorem Empty_is_not_EIP161 `{Crypto} addr db :
  db_wf db →
  Empty addr db = if Exist addr db then Ret true else Panic nil_deref.
Proof.
  intros Hwf. unfold Empty, Exist. destruct (Alloc db !! addr) as [acc|] eqn:Ha; cbn.
  - destruct (map_Forall_lookup_1 _ _ _ _ Hwf Ha) as [[b ->] _]. done.
  - done.
Qed.

(** [SubBalance] does not subtract from a zero balance, whatever the amount, and takes a
    positive balance below zero without an error when the amount is larger. *)
Theorem SubBalance_unchecked addr amount db acc b :
  Alloc db !! addr = Some acc → acc_Balance acc = Some b →
  ∃ db', SubBalance addr amount db = Ret db' ∧
    balance db' addr = if b =? 0 then b else b - amount.
Proof.
  intros Ha Hb. unfold SubBalance. rewrite Ha, Hb.
  destruct (Z.eqb_spec b 0) as [->|Hne]; [exists db|].
  - split; [done|]. unfold balance, GetBalance. by rewrite Ha, Hb.
  - rewrite (proj2 (Z.eqb_neq _ _)) by (by rewrite Z.sgn_null_iff).
    eexists. split; [reflexivity|].
    unfold balance, GetBalance, set_account. cbn. by rewrite lookup_insert_eq.
Qed.

End Claims.

(** ** A concrete state *)
Module MemoryDBSample.

Definition crypto : Crypto := {| Keccak256 b := Z.of_nat (length b) + 1 |}.

Definition rich : GenesisAccount := mkAccount [Byte.x60] (Some {[ 1 := 7 ]}) (Some 100) 3.

Definition db : MemoryStateDB := mkDB {[ 10 := rich; 20 := mkAccount [] (Some ∅) (Some 0) 0 ]}.

Lemma db_is_wf : db_wf db.
Proof. apply map_Forall_lookup_2. intros a acc H. cbn in H.
  apply lookup_insert_Some in H as [[_ <-]|[_ H]]; [split; by eexists|].
  apply lookup_singleton_Some in H as [_ <-]. split; by eexists.
Qed.

Lemma operations_keep_wf_witness :
  ∃ db', apply_all [op_CreateAccount 30; op_AddBalance 30 5; op_SetState 10 2 9] db = Ret db' ∧
    db_wf db' ∧ Alloc db' !! 20 = Alloc db !! 20.
Proof.
  destruct (operations_keep_wf [op_CreateAccount 30; op_AddBalance 30 5; op_SetState 10 2 9] db db_is_wf)
    as [[H _]|(db' & H1 & H2 & _ & H3)]; [vm_compute in H; discriminate|].
  exists db'. split; [exact H1|]. split; [exact H2|]. apply H3.
  intros o Ho. rewrite !elem_of_cons, elem_of_nil in Ho.
  destruct Ho as [->|[->|[->|[]]]]; discriminate.
Defined.

Lemma storage_laws_witness :
  ∃ db1, SetState 10 2 9 db = Ret db1 ∧ GetState 10 2 db1 = 9 ∧ GetState 10 1 db1 = 7.
Proof.
  destruct (storage_laws 10 2 9 db rich {[ 1 := 7 ]} eq_refl eq_refl)
    as (db1 & db2 & H1 & _ & H2 & _ & H3 & _).
  exists db1. split; [exact H1|]. split; [exact H2|].
  destruct (H3 10 1) as [-> _]; [discriminate|]. reflexivity.
Defined.

Lemma Empty_is_not_EIP161_witness :
  Empty (C := crypto) 10 db = Ret true ∧ GetBalance 10 db = Some 100.
Proof.
  split; [|reflexivity]. exact (Empty_is_not_EIP161 (H := crypto) 10 db db_is_wf).
Defined.

Lemma SubBalance_unchecked_witness :
  ∃ db', SubBalance 10 150 db = Ret db' ∧ balance db' 10 = -50.
Proof. exact (SubBalance_unchecked 10 150 db rich 100 eq_refl eq_refl). Defined.

End MemoryDBSample.
