(* ===== verification/FeeHook.v ===== *)
(** * The L1 fee hook

    Models lib/el_golang_lib/hook/fee_hook.go: the hook that runs before every transfer of
    the L2 EVM and charges the sender the cost of publishing the transaction on L1.

    The arithmetic of [ScaleBigInt] is the one of [big.Float]: binary floating point with a
    64-bit mantissa (or that of the integer operand, when longer) and rounding to nearest,
    ties to even.  The state database is any [StateDB]; transaction RLP is a parameter. *)

From S2P Require Import Prelude Errors Types MemoryDB.

Definition txDataZero : Z := 4.
Definition txDataOne : Z := 16.
Definition txSignatureOverhead : Z := 68.

(** ** Floating point *)

(** A [float64]: a finite one is [m * 2^e]. *)
Inductive float64 : Type :=
| Finite (m e : Z)
| NaN
| Inf.

(** A [big.Float] that is not negative: [mant * 2^exp]. *)
Record Float := mkFloat { mant : Z; exp : Z }.

(** [a / b] rounded to the nearest integer, ties to even. *)
Definition rne_div (a b : Z) : Z :=
  let q := a / b in
  let r := a mod b in
  if (2 * r >? b) || ((2 * r =? b) && Z.odd q) then q + 1 else q.

(** [2^e] as the numerator and as the denominator of a fraction. *)
Definition pow_up (e : Z) : Z := 2 ^ Z.max 0 e.
Definition pow_down (e : Z) : Z := 2 ^ Z.max 0 (- e).

(** The exponent that gives [n / d] a mantissa of [p] bits. *)
Definition float_exp (p n d : Z) : Z :=
  let e := Z.log2 n - Z.log2 d - p + 1 in
  if n * pow_down e <? 2 ^ (p - 1) * (d * pow_up e) then e - 1 else e.

(** [n / d], for [n >= 0] and [d > 0], rounded to [p] bits. *)
Definition round_ratio (p n d : Z) : Float :=
  if n =? 0 then mkFloat 0 0
  else let e := float_exp p n d in
       mkFloat (rne_div (n * pow_down e) (d * pow_up e)) e.

(** [Sprintf("%.3f", scalar)], as the number of thousandths it prints (the exact value,
    rounded to nearest with ties to even), with its sign. *)
Definition thousandths (m e : Z) : Z :=
  Z.sgn m * rne_div (Z.abs m * 1000 * pow_up e) (pow_down e).

(** [Float.Int(nil)] and [Float.IsInt], on the magnitude. *)
Definition Float_Int (f : Float) : Z := mant f * pow_up (exp f) / pow_down (exp f).
Definition Float_IsInt (f : Float) : bool := mant f * pow_up (exp f) mod pow_down (exp f) =? 0.

Definition bit_length (n : Z) : Z := if n =? 0 then 0 else Z.log2 n + 1.

(** [Mul] of [num] and of the scalar [k / 1000] parsed to 64 bits, in magnitude. *)
Definition scaled_float (num k : Z) : Float :=
  let s := round_ratio 64 k 1000 in
  round_ratio (Z.max 64 (bit_length num)) (num * mant s * pow_up (exp s)) (pow_down (exp s)).

(** [ScaleBigInt] after the scalar is printed: truncate, and add one if anything was cut. *)
Definition scale_thousandths (num k : Z) : Z :=
  let f := scaled_float (Z.abs num) (Z.abs k) in
  let rounded := Z.sgn num * Z.sgn k * Float_Int f in
  if Float_IsInt f then rounded else rounded + 1.

(** [ScaleBigInt]: the text of a NaN does not parse and the [Float] is nil; an infinity has
    no integer part. *)
Definition ScaleBigInt (num : Z) (scalar : float64) : go Z :=
  match scalar with
  | Finite m e => Ret (scale_thousandths num (thousandths m e))
  | NaN | Inf => Panic nil_deref
  end.

(** ** The hook *)

(** [zeroesAndOnes], on [int64] counters. *)
Fixpoint zeroesAndOnes_loop (data : bytes) (zeroes ones : Z) : Z * Z :=
  match data with
  | [] => (zeroes, ones)
  | b :: data =>
      if bool_decide (b = Byte.x00) then zeroesAndOnes_loop data (s64 (zeroes + 1)) ones
      else zeroesAndOnes_loop data zeroes (s64 (ones + 1))
  end.

Definition zeroesAndOnes (data : bytes) : Z * Z := zeroesAndOnes_loop data 0 0.

(** [RollupConfig], by the values of its getters. *)
Record RollupConfig := mkConfig {
  GetCoinbase : Address;
  GetL2ChainID : Z;               (* uint64 *)
  GetL1FeeOverhead : Z;           (* int64 *)
  GetL1FeeMultiplier : float64;
  GetL1OracleAddress : Address;
  GetL1OracleBaseFeeSlot : Hash
}.

(** [vm.MessageInterface], by the values of its getters. *)
Record Message := mkMessage {
  m_From : Address;
  m_To : option Address;
  m_Nonce : Z;
  m_Value : option Z;
  m_GasLimit : Z;
  m_GasPrice : option Z;
  m_GasFeeCap : option Z;
  m_GasTipCap : option Z;
  m_Data : bytes;
  m_AccessList : option (list (Address * list Hash))
}.

(** [types.TxData]. *)
Inductive TxData : Type :=
| DynamicFeeTx (ChainID Nonce : Z) (GasTipCap GasFeeCap : option Z) (Gas : Z) (To : option Address)
    (Value : option Z) (Data : bytes) (AccessList : option (list (Address * list Hash)))
| AccessListTx (ChainID Nonce : Z) (GasPrice : option Z) (Gas : Z) (To : option Address)
    (Value : option Z) (Data : bytes) (AccessList : option (list (Address * list Hash)))
| LegacyTx (Nonce : Z) (GasPrice : option Z) (Gas : Z) (To : option Address)
    (Value : option Z) (Data : bytes).

(** go-ethereum's transaction encoding, [Transaction.EncodeRLP]. *)
Class TxRLP := { EncodeRLP : TxData → result bytes }.

Definition transactionFromMessage (msg : Message) (cfg : RollupConfig) : TxData :=
  match m_GasTipCap msg, m_AccessList msg with
  | Some tip, _ =>
      DynamicFeeTx (s64 (GetL2ChainID cfg)) (m_Nonce msg) (Some tip) (m_GasFeeCap msg)
        (m_GasLimit msg) (m_To msg) (m_Value msg) (m_Data msg) (m_AccessList msg)
  | None, Some l =>
      AccessListTx (s64 (GetL2ChainID cfg)) (m_Nonce msg) (m_GasPrice msg)
        (m_GasLimit msg) (m_To msg) (m_Value msg) (m_Data msg) (Some l)
  | None, None =>
      LegacyTx (m_Nonce msg) (m_GasPrice msg) (m_GasLimit msg) (m_To msg) (m_Value msg) (m_Data msg)
  end.

Section Hook.
Context `{T : TxRLP} {D : Type} `{S : StateDB D}.

Definition readStorageSlot (db : D) (address : Address) (slot : Hash) : Z :=
  sdb_GetState address slot db.

(** [bytes[:len(bytes)-3]]. *)
Definition drop_signature (rlp : bytes) : go bytes :=
  if (length rlp <? 3)%nat then Panic "slice bounds out of range"
  else Ret (take (length rlp - 3) rlp).

(** The gas of the transaction's data, in [int64] arithmetic. *)
Definition txDataGas (rlp : bytes) (overhead : Z) : Z :=
  let '(zeroes, ones) := zeroesAndOnes rlp in
  s64 (s64 (s64 (zeroes * txDataZero) + s64 (s64 (ones + txSignatureOverhead) * txDataOne)) + overhead).

Definition calculateL1Fee (tx : TxData) (db : D) (cfg : RollupConfig) : go (result Z) :=
  match EncodeRLP tx with
  | Err e => Ret (Err e)
  | Ok buf =>
      rlp ← drop_signature buf;
      let basefee := readStorageSlot db (GetL1OracleAddress cfg) (GetL1OracleBaseFeeSlot cfg) in
      let l1Fee := txDataGas rlp (GetL1FeeOverhead cfg) * basefee in
      fee ← ScaleBigInt l1Fee (GetL1FeeMultiplier cfg);
      Ret (Ok fee)
  end.

Definition insufficient_balance : error := FmtError "insufficient balance to cover L1 fee".

(** [chargeL1Fee]: credit, then debit. *)
Definition chargeL1Fee (l1Fee : Z) (msg : Message) (db : D) (cfg : RollupConfig) : go (result unit * D) :=
  match sdb_GetBalance (m_From msg) db with
  | None => Panic nil_deref
  | Some senderBalance =>
      if senderBalance <? l1Fee then Ret (Err insufficient_balance, db)
      else
        db1 ← sdb_AddBalance (GetCoinbase cfg) l1Fee db;
        db2 ← sdb_SubBalance (m_From msg) l1Fee db1;
        Ret (Ok tt, db2)
  end.

(** [MakeSpecularEVMPreTransferHook]. *)
Definition PreTransferHook (cfg : RollupConfig) (msg : Message) (db : D) : go (result unit * D) :=
  fee ← calculateL1Fee (transactionFromMessage msg cfg) db cfg;
  match fee with
  | Err e => Ret (Err e, db)
  | Ok fee => chargeL1Fee fee msg db cfg
  end.

(** [MakeSpecularL1FeeReader]. *)
Definition L1FeeReader (cfg : RollupConfig) (tx : TxData) (db : D) : go (result Z) :=
  calculateL1Fee tx db cfg.

End Hook.

(** The repository's own test of [ScaleBigInt], with the scalars' binary values. *)
Example ScaleBigInt_test :
  scale_thousandths 10 1000 = 10 ∧ scale_thousandths 1 1200 = 2 ∧ scale_thousandths 10 9999 = 100 ∧
  scale_thousandths 9223372036854775807 1000 = 9223372036854775807 ∧
  scale_thousandths 9223372036854775807 1400 = 12912720851596686130.
Proof. vm_compute. repeat split. Qed.

(** ** Lemmas on rounding *)

Lemma rne_div_error a b : 0 < b → - b <= 2 * (rne_div a b * b - a) <= b.
Proof.
  intros Hb. unfold rne_div. pose proof (Z.div_mod a b). pose proof (Z.mod_pos_bound a b Hb).
  set (q := a / b) in *. set (r := a mod b) in *. clearbody q r.
  assert (a = b * q + r) as -> by lia.
  destruct (2 * r >? b) eqn:H1; cbn; zbool; [lia|].
  destruct (2 * r =? b) eqn:H2; cbn; zbool; [destruct (Z.odd q)|]; lia.
Qed.

Lemma pow_up_neg e : e <= 0 → pow_up e = 1.
Proof. intros. unfold pow_up. by rewrite Z.max_l. Qed.

Lemma pow_down_pos e : 0 <= e → pow_down e = 1.
Proof. intros. unfold pow_down. by rewrite Z.max_l by lia. Qed.

Lemma pow_up_gt e : 0 < pow_up e.
Proof. unfold pow_up. lia. Qed.

Lemma pow_down_gt e : 0 < pow_down e.
Proof. unfold pow_down. lia. Qed.

(** The two bounds of a number by powers of two, scaled. *)
Lemma scaled_bounds n d e p :
  0 < n → 0 < d → 0 <= p →
  (Z.log2 n + 1 - Z.log2 d - p <= e → n * pow_down e < 2 ^ p * (d * pow_up e)) ∧
  (e <= Z.log2 n - Z.log2 d - 1 - p → 2 ^ p * (d * pow_up e) <= n * pow_down e).
Proof.
  intros Hn Hd Hp.
  destruct (Z.log2_spec n Hn) as [Hn1 Hn2], (Z.log2_spec d Hd) as [Hd1 Hd2].
  pose proof (Z.log2_nonneg n). pose proof (Z.log2_nonneg d).
  unfold pow_up, pow_down. set (u := Z.max 0 e). set (v := Z.max 0 (- e)).
  assert (0 <= u ∧ 0 <= v ∧ u - v = e) as (Hu & Hv & Huv) by (unfold u, v; lia).
  pose proof (Z.pow_pos_nonneg 2 u ltac:(lia) Hu). pose proof (Z.pow_pos_nonneg 2 v ltac:(lia) Hv).
  pose proof (Z.pow_pos_nonneg 2 p ltac:(lia) Hp). split; intros He.
  - assert (2 ^ (Z.succ (Z.log2 n)) * 2 ^ v <= 2 ^ p * (2 ^ Z.log2 d * 2 ^ u)).
    { rewrite <- !Z.pow_add_r by lia. apply Z.pow_le_mono_r; lia. }
    assert (n * 2 ^ v < 2 ^ (Z.succ (Z.log2 n)) * 2 ^ v) by nia.
    assert (2 ^ p * (2 ^ Z.log2 d * 2 ^ u) <= 2 ^ p * (d * 2 ^ u)).
    { apply Z.mul_le_mono_nonneg_l; [lia|]. apply Z.mul_le_mono_nonneg_r; lia. }
    lia.
  - assert (2 ^ p * (2 ^ (Z.succ (Z.log2 d)) * 2 ^ u) <= 2 ^ Z.log2 n * 2 ^ v).
    { rewrite <- !Z.pow_add_r by lia. apply Z.pow_le_mono_r; lia. }
    assert (2 ^ p * (d * 2 ^ u) <= 2 ^ p * (2 ^ (Z.succ (Z.log2 d)) * 2 ^ u)).
    { apply Z.mul_le_mono_nonneg_l; [lia|]. apply Z.mul_le_mono_nonneg_r; lia. }
    assert (2 ^ Z.log2 n * 2 ^ v <= n * 2 ^ v) by (apply Z.mul_le_mono_nonneg_r; lia).
    lia.
Qed.

(** The exponent chosen gives at least [p] bits. *)
Lemma float_exp_low p n d :
  0 < n → 0 < d → 1 <= p →
  2 ^ (p - 1) * (d * pow_up (float_exp p n d)) <= n * pow_down (float_exp p n d).
Proof.
  intros Hn Hd Hp. unfold float_exp. destruct (_ <? _) eqn:Hlt; zbool; [|done].
  apply scaled_bounds; lia.
Qed.

(** A ratio rounded to [p] bits: the mantissa has [p] bits before rounding, and the error is
    at most half a unit. *)
Lemma round_ratio_spec p n d :
  0 < n → 0 < d → 1 <= p →
  let f := round_ratio p n d in
  2 ^ (p - 1) * (d * pow_up (exp f)) <= n * pow_down (exp f) ∧
  - (d * pow_up (exp f)) <= 2 * (mant f * (d * pow_up (exp f)) - n * pow_down (exp f))
    <= d * pow_up (exp f).
Proof.
  intros Hn Hd Hp. unfold round_ratio. rewrite (proj2 (Z.eqb_neq n 0)) by lia. cbn.
  split; [by apply float_exp_low|]. apply rne_div_error.
  pose proof (pow_up_gt (float_exp p n d)). nia.
Qed.

(** When the ratio is below [2^(p-1)], the exponent is negative. *)
Lemma round_ratio_neg p n d :
  0 < n → 0 < d → 1 <= p → n < 2 ^ (p - 1) * d → exp (round_ratio p n d) < 0.
Proof.
  intros Hn Hd Hp Hlt. destruct (round_ratio_spec p n d Hn Hd Hp) as [Hlow _].
  destruct (Z_lt_le_dec (exp (round_ratio p n d)) 0) as [|Hge]; [done|exfalso].
  rewrite pow_down_pos in Hlow by done. pose proof (pow_up_gt (exp (round_ratio p n d))). nia.
Qed.

(** The two rounding errors of a scaled number together stay below one unit. *)
Lemma error_bound A B num X x y :
  0 < A → 0 < num → num * 2 ^ 13 < A → 2 ^ 12 < B →
  X * A = 1000 * y + num * B * x → - A <= 2 * y <= A → - 500 <= x <= 500 → - B < X < B.
Proof.
  intros HA Hnum HnumA HB HX Hy Hx.
  assert (Hnb : 0 < num * B) by nia.
  assert (Hz : - (500 * (num * B)) <= num * B * x <= 500 * (num * B)) by nia.
  assert (Hs : num * B * 2 ^ 13 < A * B) by nia.
  assert (- (1500 * B) * A < X * A * 2 ^ 13 < 1500 * B * A) by nia. nia.
Qed.

(** The product of [ScaleBigInt] within one part in [1000] of the exact one. *)
Lemma scaled_float_error num k :
  0 < num → 0 < k → num * k < 1000 * 2 ^ 50 →
  let f := scaled_float num k in
  exp f < 0 ∧
  - pow_down (exp f) < 1000 * mant f - num * k * pow_down (exp f) < pow_down (exp f).
Proof.
  intros Hnum Hk Hb. unfold scaled_float. set (s := round_ratio 64 k 1000).
  assert (Hse : exp s < 0) by (apply round_ratio_neg; lia || nia).
  destruct (round_ratio_spec 64 k 1000) as [Hs1 Hs2]; [lia..|]. fold s in Hs1, Hs2.
  rewrite pow_up_neg in Hs1, Hs2 by lia. rewrite (pow_up_neg (exp s)) by lia.
  pose proof (pow_down_gt (exp s)) as HA. set (A := pow_down (exp s)) in *. set (S := mant s) in *.
  assert (Hp : Z.max 64 (bit_length num) = 64).
  { unfold bit_length. destruct (num =? 0) eqn:?; zbool; [lia|].
    assert (Z.log2 num < 60) by (apply Z.log2_lt_pow2; nia). lia. }
  rewrite Hp.
  assert (HnumA : num * 2 ^ 13 < A) by nia.
  assert (HS : num * S < 2 ^ 51 * A) by nia.
  assert (HSpos : 0 < S) by nia.
  set (f := round_ratio 64 (num * S * 1) A).
  assert (Hfe : exp f < 0) by (apply round_ratio_neg; nia).
  destruct (round_ratio_spec 64 (num * S * 1) A) as [Hf1 Hf2]; [nia..|]. fold f in Hf1, Hf2.
  rewrite pow_up_neg in Hf1, Hf2 by lia. split; [done|].
  pose proof (pow_down_gt (exp f)) as HB. set (B := pow_down (exp f)) in *. set (M := mant f) in *.
  assert (HB12 : 2 ^ 12 < B) by nia.
  assert (HX : (1000 * M - num * k * B) * A =
    1000 * (M * A - num * S * B) + num * B * (S * 1000 - k * A)) by ring.
  assert (H1 : - A <= 2 * (M * A - num * S * B) <= A) by (rewrite !Z.mul_1_r in Hf2; exact Hf2).
  assert (H2 : - 500 <= S * 1000 - k * A <= 500) by (rewrite Z.mul_1_r in Hs2; lia).
  apply (error_bound A B num _ (S * 1000 - k * A) (M * A - num * S * B)); lia.
Qed.

(** [num * k / 1000] rounded up: what [ScaleBigInt] is for. *)
Definition exact_scale (num k : Z) : Z := (num * k + 999) / 1000.

(** Truncating and adding one for a fraction, on a float within one thousandth of the exact
    value. *)
Lemma round_up_spec f N :
  exp f < 0 → 0 < N →
  - pow_down (exp f) < 1000 * mant f - N * pow_down (exp f) < pow_down (exp f) →
  let r := if Float_IsInt f then Float_Int f else Float_Int f + 1 in
  (N + 999) / 1000 <= r <= (N + 999) / 1000 + 1 ∧ (N mod 1000 ≠ 0 → r = (N + 999) / 1000).
Proof.
  intros He HN Herr. unfold Float_IsInt, Float_Int. rewrite pow_up_neg, Z.mul_1_r by lia.
  pose proof (pow_down_gt (exp f)) as HB. set (B := pow_down (exp f)) in *. set (M := mant f) in *.
  pose proof (Z.div_mod M B ltac:(lia)) as HM. pose proof (Z.mod_pos_bound M B HB) as Hr.
  set (q := M / B) in *. set (r := M mod B) in *.
  assert (Hc : ∃ c u, N = 1000 * c - u ∧ 0 <= u < 1000 ∧ (N + 999) / 1000 = c).
  { exists ((N + 999) / 1000), (1000 * ((N + 999) / 1000) - N).
    pose proof (Z.div_mod (N + 999) 1000 ltac:(lia)).
    pose proof (Z.mod_pos_bound (N + 999) 1000 ltac:(lia)). split; lia. }
  destruct Hc as (c & u & HNc & Hu & ->).
  assert (Hq : c - 1 <= q <= c ∧ (u ≠ 0 → q = c - 1 ∧ r ≠ 0) ∧ (u = 0 → q = c - 1 → r ≠ 0)).
  { clearbody q r B M. subst M N. clear -Herr HB Hr Hu.
    assert (H : - B < B * (1000 * (q - c) + u) + 1000 * r < B) by lia.
    assert (H1 : ∀ t, t <= 1000 * (q - c) + u → B * t < B) by (intros t Ht; nia).
    assert (H2 : ∀ t, 1000 * (q - c) + u <= t → - B < B * t + 1000 * r) by (intros t Ht; nia).
    assert (q <= c) by (destruct (Z_le_gt_dec q c); [done|specialize (H1 1000 ltac:(lia)); lia]).
    assert (c - 1 <= q) by (destruct (Z_le_gt_dec (c - 1) q); [done|specialize (H2 (-1001) ltac:(lia)); lia]).
    split; [lia|]. split; [intros Hu0|intros Hu0 Hq; specialize (H2 (-1000) ltac:(lia)); lia].
    assert (q = c - 1) as -> by (destruct (Z.eq_dec q c); [specialize (H1 1 ltac:(lia))|]; lia).
    split; [done|]. specialize (H2 (-1) ltac:(lia)). lia. }
  assert (Hmod : N mod 1000 ≠ 0 → u ≠ 0).
  { intros Hm ->. apply Hm. rewrite HNc, Z.sub_0_r, Z.mul_comm. apply Z.mod_mul. done. }
  destruct (r =? 0) eqn:Hr0; zbool; cbn; (split; [lia|]); intros Hm; specialize (Hmod Hm); lia.
Qed.

(** ** Theorems *)

(** C18: for amounts below 2^50 (an L1 fee of about 10^15 wei), [ScaleBigInt] rounds the exact
    product of the number and the printed scalar up, except that it may give one unit more
    when the product is a whole number. *)
Theorem ScaleBigInt_bounds num m e :
  0 <= num → 0 <= thousandths m e → num * thousandths m e < 1000 * 2 ^ 50 →
  ∃ r, ScaleBigInt num (Finite m e) = Ret r ∧
    exact_scale num (thousandths m e) <= r <= exact_scale num (thousandths m e) + 1 ∧
    (num * thousandths m e mod 1000 ≠ 0 → r = exact_scale num (thousandths m e)).
Proof.
  intros Hn Hk Hb. cbn [ScaleBigInt]. eexists. split; [reflexivity|].
  set (k := thousandths m e) in *. clearbody k. unfold scale_thousandths, exact_scale.
  rewrite !Z.abs_eq by done.
  assert (Hz : num = 0 ∨ k = 0 → scaled_float num k = mkFloat 0 0 ∧ num * k = 0).
  { intros [->| ->]; [done|]. rewrite Z.mul_0_r. split; [|done].
    unfold scaled_float. cbn [round_ratio Z.eqb mant exp]. by rewrite Z.mul_0_r. }
  destruct (Z.eq_dec (num * k) 0) as [H0|H0].
  { destruct Hz as [-> ->]; [lia|]. cbn. by rewrite Z.mul_0_r. }
  destruct (scaled_float_error num k) as [He Herr]; [lia..|].
  rewrite !Z.sgn_pos, !Z.mul_1_l by lia. apply round_up_spec; [done|nia|done].
Qed.

(** The exception does occur: 25 * 1.2 = 30, but 31 is charged. *)
Lemma ScaleBigInt_overcharges :
  thousandths 5404319552844596 (-52) = 1200 ∧
  ScaleBigInt 25 (Finite 5404319552844596 (-52)) = Ret 31 ∧ exact_scale 25 1200 = 30.
Proof. vm_compute. repeat split. Qed.

Lemma zeroesAndOnes_loop_spec data : ∀ z o,
  0 <= z → 0 <= o → z + o + Z.of_nat (length data) < two63 →
  zeroesAndOnes_loop data z o =
  (z + Z.of_nat (length (List.filter (λ b, bool_decide (b = Byte.x00)) data)),
   o + Z.of_nat (length (List.filter (λ b, negb (bool_decide (b = Byte.x00))) data))).
Proof.
  induction data as [|b data IH]; intros z o Hz Ho Hlen; cbn; [by rewrite !Z.add_0_r|].
  cbn [length] in Hlen. destruct (bool_decide (b = Byte.x00)) eqn:Hb; cbn.
  - rewrite s64_small by (unfold is_s64; lia). rewrite IH by lia. f_equal; lia.
  - rewrite s64_small by (unfold is_s64; lia). rewrite IH by lia. f_equal; lia.
Qed.

Section Claims.
Context `{T : TxRLP} {D : Type} `{S : StateDB D}.

(** The specification of the fee: multiplier * basefee * (4 per zero byte, 16 per other byte
    and per byte of the signature, and the overhead). *)
Definition data_gas (rlp : bytes) (overhead : Z) : Z :=
  4 * Z.of_nat (length (List.filter (λ b, bool_decide (b = Byte.x00)) rlp)) +
  16 * (Z.of_nat (length (List.filter (λ b, negb (bool_decide (b = Byte.x00))) rlp)) + 68) + overhead.

(** The fee on a transaction whose encoding is not absurdly long. *)
Lemma calculateL1Fee_eq tx (db : D) cfg buf m e :
  EncodeRLP tx = Ok buf → (3 <= length buf)%nat → Z.of_nat (length buf) < 2 ^ 40 →
  - 2 ^ 60 < GetL1FeeOverhead cfg < 2 ^ 60 → GetL1FeeMultiplier cfg = Finite m e →
  let rlp := take (length buf - 3) buf in
  let basefee := sdb_GetState (GetL1OracleAddress cfg) (GetL1OracleBaseFeeSlot cfg) db in
  calculateL1Fee tx db cfg =
    Ret (Ok (scale_thousandths (data_gas rlp (GetL1FeeOverhead cfg) * basefee) (thousandths m e))).
Proof.
  intros Henc Hlen Hmax Hov Hmul rlp basefee. unfold calculateL1Fee. rewrite Henc.
  unfold drop_signature. rewrite (proj2 (Nat.ltb_ge _ _)) by lia. cbn [mbind go_bind].
  fold rlp. rewrite Hmul. cbn. unfold readStorageSlot. fold basefee.
  do 2 f_equal. f_equal. f_equal. unfold txDataGas, zeroesAndOnes, data_gas.
  assert (Hr : Z.of_nat (length rlp) < 2 ^ 40) by (unfold rlp; rewrite length_take; lia).
  rewrite zeroesAndOnes_loop_spec by (unfold two63; lia).
  set (zs := List.filter _ rlp). set (os := List.filter _ rlp).
  assert (Z.of_nat (length zs) <= Z.of_nat (length rlp)) by (apply inj_le, List.filter_length_le).
  assert (Z.of_nat (length os) <= Z.of_nat (length rlp)) by (apply inj_le, List.filter_length_le).
  unfold txDataZero, txDataOne, txSignatureOverhead.
  rewrite !(s64_small (_ + 68)), !(s64_small (_ * _)) by (unfold is_s64, two63; lia).
  rewrite !(s64_small (_ + _ * _)), s64_small by (unfold is_s64, two63; lia). lia.
Qed.

(** C19: the L1 fee is the documented formula, on the transaction's encoding without its last
    three bytes: no [int64] operation wraps for an encoding below 2^40 bytes and an overhead
    below 2^60 in size, and the scaling is the rounding up of [ScaleBigInt_bounds]. *)
Theorem calculateL1Fee_formula tx (db : D) cfg buf m e :
  EncodeRLP tx = Ok buf → (3 <= length buf)%nat → Z.of_nat (length buf) < 2 ^ 40 →
  - 2 ^ 60 < GetL1FeeOverhead cfg < 2 ^ 60 → GetL1FeeMultiplier cfg = Finite m e →
  let rlp := take (length buf - 3) buf in
  let basefee := sdb_GetState (GetL1OracleAddress cfg) (GetL1OracleBaseFeeSlot cfg) db in
  calculateL1Fee tx db cfg =
    Ret (Ok (scale_thousandths (data_gas rlp (GetL1FeeOverhead cfg) * basefee) (thousandths m e))).
Proof. apply calculateL1Fee_eq. Qed.

(** C17: charging conserves the balances: with enough balance the fee moves from the sender
    to the coinbase and no other balance and no storage changes (nothing at all when the
    sender is the coinbase); without it the charge is refused and the state is unchanged.  It
    holds for any state database that keeps [StateDBContract]. *)
Theorem chargeL1Fee_conserves `{!StateDBContract D} fee msg (db : D) cfg :
  0 <= fee → sdb_ok db (m_From msg) → sdb_ok db (GetCoinbase cfg) →
  (sdb_balance db (m_From msg) < fee ∧
     chargeL1Fee fee msg db cfg = Ret (Err insufficient_balance, db)) ∨
  ∃ db', chargeL1Fee fee msg db cfg = Ret (Ok tt, db') ∧
    (∀ a, sdb_balance db' a = sdb_balance db a
       + (if decide (a = GetCoinbase cfg) then fee else 0)
       - (if decide (a = m_From msg) then fee else 0)) ∧
    (∀ a k, sdb_GetState a k db' = sdb_GetState a k db).
Proof.
  intros Hfee Hs Hc. unfold chargeL1Fee. rewrite (sdb_GetBalance_ok _ _ Hs).
  destruct (_ <? _) eqn:Hlt; zbool; [by left|right].
  destruct (sdb_AddBalance_ok db (GetCoinbase cfg) fee Hc) as (d1 & -> & Hb1 & Hok1 & Hst1).
  cbn. destruct (sdb_SubBalance_ok d1 (m_From msg) fee (Hok1 _ Hs)) as (d2 & -> & Hb2 & _ & Hst2).
  { rewrite Hb1. case_decide; lia. }
  exists d2. split; [done|]. split; [|intros; by rewrite Hst2, Hst1].
  intros a. by rewrite Hb2, Hb1.
Qed.

End Claims.

(** ** A concrete run: on the in-memory state, with a transaction encoded as its data. *)
Module FeeHookSample.

Definition rlp : TxRLP := {|
  EncodeRLP tx := Ok match tx with
    | DynamicFeeTx _ _ _ _ _ _ _ d _ | AccessListTx _ _ _ _ _ _ d _ | LegacyTx _ _ _ _ _ d => d
    end
|}.

(** Oracle 10, slot 1 (base fee 7 in [MemoryDBSample.db]), multiplier 1.2, coinbase 20. *)
Definition cfg : RollupConfig :=
  mkConfig 20 93 (-1100) (Finite 5404319552844596 (-52)) 10 1.

Definition msg : Message :=
  mkMessage 10 (Some 20) 3 (Some 0) 21000 (Some 1) None None
    [Byte.x00; Byte.x05; Byte.x00; Byte.x00; Byte.x80; Byte.x80; Byte.x80] None.

Lemma ScaleBigInt_bounds_witness :
  ∃ r, ScaleBigInt 7 (Finite 5404319552844596 (-52)) = Ret r ∧ r = exact_scale 7 1200.
Proof.
  destruct (ScaleBigInt_bounds 7 5404319552844596 (-52)) as (r & H1 & _ & H2);
    [vm_compute; discriminate|vm_compute; discriminate|vm_compute; reflexivity|].
  exists r. split; [exact H1|]. apply H2. vm_compute. discriminate.
Defined.

Lemma calculateL1Fee_formula_witness :
  calculateL1Fee (T := rlp) (transactionFromMessage msg cfg) MemoryDBSample.db cfg = Ret (Ok 135).
Proof.
  rewrite (calculateL1Fee_formula (T := rlp) (transactionFromMessage msg cfg) MemoryDBSample.db cfg
    (m_Data msg) 5404319552844596 (-52)); [vm_compute; reflexivity|reflexivity|cbn; lia|..].
  - vm_compute. reflexivity.
  - vm_compute. split; reflexivity.
  - reflexivity.
Defined.

Lemma chargeL1Fee_conserves_witness :
  ∃ db', chargeL1Fee 60 msg MemoryDBSample.db cfg = Ret (Ok tt, db') ∧
    balance db' 10 = 40 ∧ balance db' 20 = 60.
Proof.
  destruct (chargeL1Fee_conserves 60 msg MemoryDBSample.db cfg) as [[H _]|(db' & H1 & H2 & _)].
  - lia.
  - by eexists _, _.
  - by eexists _, _.
  - vm_compute in H. discriminate.
  - exists db'. split; [exact H1|]. split; [exact (H2 10)|exact (H2 20)].
Defined.

End FeeHookSample.
