(* ===== verification/Storage.v ===== *)
(** * Encoding of Solidity storage

    Models ops/state/encoding.go (values to storage words), ops/state/state.go (storage slots
    of a contract, merging of packed values) and the storage layout of
    ops/bindings/solc/types.go and ops/bindings/bindings/registry.go.

    A storage word is a [common.Hash]: a number below 2^256.  go-ethereum's [hexutil] and
    [common.HexToAddress], and keccak, are parameters. *)

From S2P Require Import Prelude Errors Types MemoryDB.

(** ** Words *)

Definition two256 : Z := 2 ^ 256.

Definition is_word (h : Hash) : Prop := 0 <= h < two256.

(** [common.BigToHash]: the low 256 bits of the magnitude. *)
Definition BigToHash (x : Z) : Hash := Z.abs x mod two256.

(** The big-endian number of a byte string, and [common.BytesToHash], which keeps the last
    32 bytes. *)
Definition be_number (b : bytes) : Z :=
  fold_left (fun acc x => acc * 256 + Z.of_N (Byte.to_N x)) b 0.

Definition BytesToHash (b : bytes) : Hash := be_number b mod two256.

(** [AddressAsLeftPaddedHash]: an address and the hash have the same number. *)
Definition AddressAsLeftPaddedHash (addr : Address) : Hash := addr.

(** ** Solidity storage layouts *)

Record StorageLayoutEntry := mkStorageLayoutEntry {
  e_AstId : Z;      (* uint *)
  e_Contract : string;
  e_Label : string;
  e_Offset : Z;     (* uint *)
  e_Slot : Z;       (* uint *)
  e_Type : string
}.

Record StorageLayoutType := mkStorageLayoutType {
  t_Encoding : string;
  t_Label : string;
  t_NumberOfBytes : Z;
  t_Key : string;
  t_Value : string;
  t_Base : string
}.

(** What the encoding of values reads of an entry and of a type. *)
Abbreviation mkEntry := (mkStorageLayoutEntry 0 "").
Abbreviation mkType encoding label size key value := (mkStorageLayoutType encoding label size key value "").

Record StorageLayout := mkLayout {
  l_Storage : list StorageLayoutEntry;
  l_Types : gmap string StorageLayoutType
}.

Definition zero_entry : StorageLayoutEntry := mkEntry "" 0 0 "".
Definition zero_type : StorageLayoutType := mkType "" "" 0 "" "".

(** The first entry with the label. *)
Definition GetStorageLayoutEntry (name : string) (s : StorageLayout) : result StorageLayoutEntry :=
  match List.find (fun e => String.eqb (e_Label e) name) (l_Storage s) with
  | Some e => Ok e
  | None => Err (FmtError (name ++ " not found"))
  end.

Definition GetStorageLayoutType (name : string) (s : StorageLayout) : result StorageLayoutType :=
  match l_Types s !! name with
  | Some t => Ok t
  | None => Err (FmtError (name ++ " not found"))
  end.

(** A value of dynamic type [any], by the types that the encoders distinguish. *)
Inductive any_value : Type :=
| v_bool (b : bool)
| v_string (s : string)
| v_uint (n : Z)
| v_int (n : Z)
| v_uint64 (n : Z)
| v_uint32 (n : Z)
| v_uint16 (n : Z)
| v_uint8 (n : Z)
| v_bigInt (n : Z)                            (* *big.Int *)
| v_bigInt_nil                                (* a nil *big.Int *)
| v_Hash (h : Hash)
| v_Address (a : Address)
| v_AddressPtr (a : Address)
| v_mapping (l : list (any_value * any_value))  (* map[any]any, in its iteration order *)
| v_nil
| v_other.

Definition errInvalidType : error := ErrorString "invalid type".
Definition errUnimplemented : error := ErrorString "type unimplemented".

(** go-ethereum's parsers of hexadecimal text. *)
Class Hex := {
  hexutil_Decode : string → result bytes;
  hexutil_DecodeBig : string → result Z;
  HexToAddress : string → Address;
  FromHex : string → bytes
}.
Definition ErrMissingPrefix : error := ErrorString "hex string without 0x prefix".
Definition ErrLeadingZero : error := ErrorString "hex number with leading zero digits".

(** ** [big.Int.SetString] *)

Definition digit_value (c : Ascii.ascii) : option Z :=
  let n := Z.of_nat (Ascii.nat_of_ascii c) in
  if (48 <=? n) && (n <=? 57) then Some (n - 48)
  else if (97 <=? n) && (n <=? 102) then Some (n - 87)
  else if (65 <=? n) && (n <=? 70) then Some (n - 55)
  else None.

Fixpoint parse_digits (base acc : Z) (s : string) : option Z :=
  match s with
  | EmptyString => Some acc
  | String c s =>
      match digit_value c with
      | Some d => if d <? base then parse_digits base (acc * base + d) s else None
      | None => None
      end
  end.

Definition parse_unsigned (base : Z) (s : string) : option Z :=
  match s with EmptyString => None | _ => parse_digits base 0 s end.

(** An optional sign, then at least one digit, and nothing else. *)
Definition SetString (base : Z) (s : string) : option Z :=
  match s with
  | String c rest =>
      if Ascii.eqb c (Ascii.ascii_of_nat 45) (* - *) then Z.opp <$> parse_unsigned base rest
      else if Ascii.eqb c (Ascii.ascii_of_nat 43) (* + *) then parse_unsigned base rest
      else parse_unsigned base s
  | EmptyString => None
  end.

Section Encoding.
Context `{C : Crypto} `{H : Hex}.

(** ** Encoders of elementary types *)

(** [handleOffset]: a shift to the left by [offset] bytes. *)
Definition handleOffset (hash : Hash) (offset : Z) : Hash :=
  if offset =? 0 then hash else BigToHash (Z.shiftl hash (u64 (offset * 8))).

Definition encodeBytes32Value (value : any_value) : go (result Hash) :=
  match value with
  | v_nil => Panic nil_deref
  | v_string str =>
      Ret match hexutil_Decode str with
          | Err e => Err e
          | Ok val => Ok (BytesToHash val)
          end
  | v_Hash h => Ret (Ok h)
  | _ => Ret (Err errInvalidType)
  end.

Definition EncodeBytes32Value (value : any_value) (offset : Z) : go (result Hash) :=
  if negb (offset =? 0) then Ret (Err (FmtError "offset must be 0")) else encodeBytes32Value value.

(** [common.RightPadBytes(data, 32)], then the last byte set to twice the length. *)
Definition encodeStringValue (value : any_value) : go (result Hash) :=
  match value with
  | v_nil => Panic nil_deref
  | v_string str =>
      let data := String.list_byte_of_string str in
      if (32 <=? length data)%nat then Ret (Err (FmtError "string value too long"))
      else
        let padded := data ++ repeat Byte.x00 (32 - length data) in
        let padded := take 31 padded ++
          [default Byte.x00 (Byte.of_N (N.of_nat (length data * 2) mod 256))] in
        Ret (Ok (BytesToHash padded))
  | _ => Ret (Err errInvalidType)
  end.

Definition EncodeStringValue (value : any_value) (offset : Z) : go (result Hash) :=
  if negb (offset =? 0) then Ret (Err (FmtError "offset must be 0")) else encodeStringValue value.

Definition encodeBoolValue (value : any_value) : go (result Hash) :=
  match value with
  | v_nil => Panic nil_deref
  | v_bool b => Ret (Ok (if b then BigToHash 1 else zero_hash))
  | v_string s => Ret (Ok (if String.eqb s "true" then BigToHash 1 else zero_hash))
  | _ => Ret (Err errInvalidType)
  end.

Definition encodeAddressValue (value : any_value) : go (result Hash) :=
  match value with
  | v_nil => Panic nil_deref
  | v_Address a | v_AddressPtr a => Ret (Ok (AddressAsLeftPaddedHash a))
  | v_string s => Ret (Ok (AddressAsLeftPaddedHash (HexToAddress s)))
  | _ => Ret (Err errInvalidType)
  end.

(** The string branch of [encodeUintValue]: decoding errors other than the two it knows
    leave [number] nil. *)
Definition encode_uint_string (s : string) : go (result Hash) :=
  match hexutil_DecodeBig s with
  | Ok n => Ret (Ok (BigToHash n))
  | Err e =>
      if errors_Is e ErrMissingPrefix then
        Ret match SetString 10 s with Some n => Ok (BigToHash n) | None => Err errInvalidType end
      else if errors_Is e ErrLeadingZero then
        Ret match SetString 16 (String.substring 2 (String.length s - 2) s) with
            | Some n => Ok (BigToHash n)
            | None => Err errInvalidType
            end
      else Panic nil_deref
  end.

Definition encodeUintValue (value : any_value) : go (result Hash) :=
  match value with
  | v_nil => Panic "reflect: call of reflect.Value.Type on zero Value"
  | v_uint n | v_int n | v_uint64 n | v_uint32 n | v_uint16 n | v_uint8 n =>
      Ret (Ok (BigToHash (u64 n)))
  | v_string s => encode_uint_string s
  | v_bool b => Ret (Ok (if b then 1 else zero_hash))
  | v_bigInt n => Ret (Ok (BigToHash n))
  | v_bigInt_nil => Panic nil_deref
  | _ => Ret (Err errInvalidType)
  end.

(** The exported encoders that shift: an error is wrapped, a word is moved to its offset. *)
Definition with_offset (what : string) (r : go (result Hash)) (offset : Z) : go (result Hash) :=
  v ← r;
  Ret match v with
      | Err e => Err (WrapError what e)
      | Ok val => Ok (handleOffset val offset)
      end.

Definition EncodeBoolValue (value : any_value) (offset : Z) := with_offset "invalid bool" (encodeBoolValue value) offset.
Definition EncodeAddressValue (value : any_value) (offset : Z) := with_offset "invalid address" (encodeAddressValue value) offset.
Definition EncodeUintValue (value : any_value) (offset : Z) := with_offset "invalid uint" (encodeUintValue value) offset.

(** ** Keys, mappings *)

Definition encodeSlotKey (entry : StorageLayoutEntry) : Hash := BigToHash (u64 (e_Slot entry)).
Definition EncodeSlotKey (entry : StorageLayoutEntry) : Hash := encodeSlotKey entry.

Definition ElementEncoder : Type := any_value → Z → go (result Hash).

(** The encoder of a type name, when there is one. *)
Definition encoder_of (target : string) : option ElementEncoder :=
  if String.eqb target "t_address" then Some EncodeAddressValue
  else if String.eqb target "t_bool" then Some EncodeBoolValue
  else if String.eqb target "t_bytes32" then Some EncodeBytes32Value
  else if String.prefix "t_uint" target then Some EncodeUintValue
  else None.

(** The alphanumeric prefix of a string, and the rest. *)
Definition is_alnum (c : Ascii.ascii) : bool :=
  let n := Ascii.nat_of_ascii c in
  ((48 <=? n) && (n <=? 57) || (65 <=? n) && (n <=? 90) || (97 <=? n) && (n <=? 122))%nat.

Fixpoint span_alnum (s : string) : string * string :=
  match s with
  | EmptyString => (EmptyString, EmptyString)
  | String c rest =>
      if is_alnum c then let '(a, b) := span_alnum rest in (String c a, b) else (EmptyString, s)
  end.

Definition strip_prefix (p s : string) : option string :=
  if String.prefix p s then Some (String.substring (String.length p) (String.length s - String.length p) s)
  else None.

(** The regular expression of the fallback (the word mapping, an open parenthesis, an
    alphanumeric key, an arrow, an alphanumeric value, a closing parenthesis) at the start of
    a string, and its leftmost match. *)
Definition match_mapping_here (s : string) : option (string * string) :=
  s1 ← strip_prefix "mapping(" s;
  let '(key, s2) := span_alnum s1 in
  s3 ← strip_prefix " => " s2;
  let '(value, s4) := span_alnum s3 in
  s5 ← strip_prefix ")" s4;
  Some (key, value).

Fixpoint match_mapping (s : string) : option (string * string) :=
  match match_mapping_here s with
  | Some r => Some r
  | None => match s with EmptyString => None | String _ rest => match_mapping rest end
  end.

(** [getElementEncoder]: with an empty target, the type is read from the label; a label that
    does not match makes the submatch slice nil. *)
Definition getElementEncoder (storageType : StorageLayoutType) (kind : string) : go (result ElementEncoder) :=
  if negb (String.eqb kind "key" || String.eqb kind "value")
  then Ret (Err (FmtError ("unknown storage " ++ kind)))
  else
    let target := if String.eqb kind "key" then t_Key storageType else t_Value storageType in
    let lookup t := match encoder_of t with
                    | Some enc => Ok enc
                    | None => Err (FmtError ("unsupported type: " ++ t))
                    end in
    if String.eqb target "" then
      match match_mapping (t_Label storageType) with
      | None => Panic index_out_of_range
      | Some (k, v) => Ret (lookup ("t_" ++ if String.eqb kind "key" then k else v)%string)
      end
    else Ret (lookup target).

(** ** Storage words of a variable *)

Record EncodedStorage := mkStorage { es_Key : Hash; es_Value : Hash }.

(** One word at the variable's own slot. *)
Definition inplace (what : string) (key : Hash) (r : go (result Hash)) : go (result (list EncodedStorage)) :=
  v ← r;
  Ret match v with
      | Err e => Err (WrapError ("cannot encode " ++ what) e)
      | Ok val => Ok [mkStorage key val]
      end.

(** The 64-byte preimage of a mapping's slot: the key, then the mapping's slot. *)
Fixpoint be_bytes (n : nat) (w : Z) : bytes :=
  match n with
  | O => []
  | S n => be_bytes n (w / 256) ++ [default Byte.x00 (Byte.of_N (Z.to_N (w mod 256)))]
  end.

Definition word_bytes (h : Hash) : bytes := be_bytes 32 h.

Definition mapping_key (encodedKey slot : Hash) : Hash := Keccak256 (word_bytes encodedKey ++ word_bytes slot).

(** The loop over a mapping's entries. *)
Fixpoint encode_mapping (keyEncoder valueEncoder : ElementEncoder) (slot : Hash)
    (values : list (any_value * any_value)) (encoded : list EncodedStorage)
    : go (result (list EncodedStorage)) :=
  match values with
  | [] => Ret (Ok encoded)
  | (rawKey, rawVal) :: values =>
      k ← keyEncoder rawKey 0;
      match k with
      | Err e => Ret (Err e)
      | Ok encodedKey =>
          v ← valueEncoder rawVal 0;
          match v with
          | Err e => Ret (Err e)
          | Ok val => encode_mapping keyEncoder valueEncoder slot values
                        (encoded ++ [mkStorage (mapping_key encodedKey slot) val])
          end
      end
  end.

Definition EncodeStorageKeyValue (value : any_value) (entry : StorageLayoutEntry)
    (storageType : StorageLayoutType) : go (result (list EncodedStorage)) :=
  let label := t_Label storageType in
  let enc := t_Encoding storageType in
  let key := encodeSlotKey entry in
  let unimplemented what := Ret (Err (WrapError what errUnimplemented)) in
  if String.eqb enc "inplace" then
    if String.eqb label "bool" then inplace enc key (EncodeBoolValue value (e_Offset entry))
    else if String.eqb label "address" then inplace enc key (EncodeAddressValue value (e_Offset entry))
    else if String.eqb label "bytes" then unimplemented label
    else if String.eqb label "bytes32" then inplace enc key (EncodeBytes32Value value (e_Offset entry))
    else if String.prefix "contract" label then inplace enc key (EncodeAddressValue value (e_Offset entry))
    else if String.prefix "uint" label then inplace enc key (EncodeUintValue value (e_Offset entry))
    else unimplemented ("cannot encode " ++ enc)%string
  else if String.eqb enc "dynamic_array" then Ret (Ok [])
  else if String.eqb enc "bytes" then
    if String.eqb label "string" then
      v ← EncodeStringValue value (e_Offset entry);
      match v with
      | Err _ => unimplemented ("cannot encode " ++ enc)%string
      | Ok val => Ret (Ok [mkStorage key val])
      end
    else unimplemented label
  else if String.eqb enc "mapping" then
    if String.prefix "mapping" (t_Value storageType) then unimplemented "nested mappings"
    else
      match value with
      | v_mapping values =>
          ke ← getElementEncoder storageType "key";
          match ke with
          | Err e => Ret (Err e)
          | Ok keyEncoder =>
              ve ← getElementEncoder storageType "value";
              match ve with
              | Err e => Ret (Err e)
              | Ok valueEncoder => encode_mapping keyEncoder valueEncoder key values []
              end
          end
      | _ => Ret (Err (FmtError "mapping must be map[any]any"))
      end
  else unimplemented ("unknown encoding " ++ enc)%string.

Definition EncodeStorage (entry : StorageLayoutEntry) (value : any_value) (storageType : StorageLayoutType)
    : go (result (list EncodedStorage)) :=
  if t_NumberOfBytes storageType >? 32
  then Ret (Err (FmtError (t_Encoding storageType ++ " is larger than 32 bytes")))
  else EncodeStorageKeyValue value entry storageType.

(** [MergeStorage]: the words by key, in the order of the first occurrence of each key. *)
Definition merge_step (acc : gmap Hash Hash * list Hash) (s : EncodedStorage) : gmap Hash Hash * list Hash :=
  let '(kv, keys) := acc in
  match kv !! es_Key s with
  | Some prev => (<[es_Key s := BigToHash (Z.lor prev (es_Value s))]> kv, keys)
  | None => (<[es_Key s := es_Value s]> kv, keys ++ [es_Key s])
  end.

Definition MergeStorage (storage : list EncodedStorage) : list EncodedStorage :=
  let '(kv, keys) := fold_left merge_step storage (∅, []) in
  map (fun key => mkStorage key (default zero_hash (kv !! key))) keys.

(** The loop of [ComputeStorageSlots] over the values, in the map's iteration order; the last
    entry with the label is the target. *)
Definition target_entry (layout : StorageLayout) (label : string) : StorageLayoutEntry :=
  fold_left (fun target entry => if String.eqb label (e_Label entry) then entry else target)
    (l_Storage layout) zero_entry.

Fixpoint compute_loop (layout : StorageLayout) (values : list (string * any_value))
    (encodedStorage : list EncodedStorage) : go (result (list EncodedStorage)) :=
  match values with
  | [] => Ret (Ok encodedStorage)
  | (label, value) :: values =>
      let target := target_entry layout label in
      if String.eqb (e_Label target) ""
      then Ret (Err (FmtError ("storage layout entry for " ++ label ++ " not found")))
      else
        let storageType := default zero_type (l_Types layout !! e_Type target) in
        if String.eqb (t_Label storageType) ""
        then Ret (Err (FmtError ("storage type for " ++ label ++ " not found")))
        else
          r ← EncodeStorage target value storageType;
          match r with
          | Err e => Ret (Err (WrapError ("cannot encode storage for " ++ e_Label target) e))
          | Ok storage => compute_loop layout values (encodedStorage ++ storage)
          end
  end.

Definition ComputeStorageSlots (layout : StorageLayout) (values : list (string * any_value))
    : go (result (list EncodedStorage)) :=
  r ← compute_loop layout values [];
  Ret match r with Err e => Err e | Ok encoded => Ok (MergeStorage encoded) end.

(** The registry of ops/bindings/bindings: layouts and bytecodes by contract name. *)
Definition GetStorageLayout (layouts : gmap string StorageLayout) (name : string) : result StorageLayout :=
  match layouts !! name with
  | None => Err (FmtError (name ++ ": storage layout not found"))
  | Some layout => Ok layout
  end.

Definition isHexCharacter (c : Ascii.ascii) : bool := bool_decide (is_Some (digit_value c)).

(** The length is tested before the prefix is trimmed. *)
Definition isHex (str : string) : bool :=
  if (String.length str mod 2 =? 1)%nat then false
  else forallb isHexCharacter (String.list_ascii_of_string (default str (strip_prefix "0x" str))).

Definition GetDeployedBytecode (deployedBytecodes : gmap string string) (name : string) : result bytes :=
  let bc := default ""%string (deployedBytecodes !! name) in
  if String.eqb bc "" then Err (FmtError (name ++ ": deployed bytecode not found"))
  else if negb (isHex bc) then Err (FmtError (name ++ ": invalid deployed bytecode"))
  else Ok (FromHex bc).

(** [SetStorage]: the registry's layout of the contract, then every slot. *)
Fixpoint set_slots {D : Type} `{StateDB D} (address : Address) (slots : list EncodedStorage) (db : D) : go D :=
  match slots with
  | [] => Ret db
  | s :: slots => db1 ← sdb_SetState address (es_Key s) (es_Value s) db; set_slots address slots db1
  end.

Definition SetStorage {D : Type} `{StateDB D} (layouts : gmap string StorageLayout) (name : string)
    (address : Address) (values : list (string * any_value)) (db : D) : go (result unit * D) :=
  match GetStorageLayout layouts name with
  | Err e => Ret (Err (WrapError "cannot set storage" e), db)
  | Ok layout =>
      r ← ComputeStorageSlots layout values;
      match r with
      | Err e => Ret (Err (WrapError name e), db)
      | Ok slots => db1 ← set_slots address slots db; Ret (Ok tt, db1)
      end
  end.

End Encoding.

(** ** Lemmas on words *)

Lemma testbit_above x n i : 0 <= x < 2 ^ n → n <= i → Z.testbit x i = false.
Proof.
  intros Hx Hi. destruct (Z.eq_dec x 0) as [->|Hne]; [apply Z.bits_0|].
  apply Z.bits_above_log2; [lia|]. assert (Z.log2 x < n) by (apply Z.log2_lt_pow2; lia). lia.
Qed.

Lemma lor_word a b : is_word a → is_word b → is_word (Z.lor a b).
Proof.
  unfold is_word, two256. intros Ha Hb. assert (0 <= Z.lor a b) by (apply Z.lor_nonneg; lia).
  split; [done|]. destruct (Z.eq_dec (Z.lor a b) 0) as [->|Hne]; [done|].
  apply Z.log2_lt_pow2; [lia|]. rewrite Z.log2_lor by lia.
  apply Z.max_lub_lt.
  - destruct (Z.eq_dec a 0) as [->|]; [done|]. apply Z.log2_lt_pow2; lia.
  - destruct (Z.eq_dec b 0) as [->|]; [done|]. apply Z.log2_lt_pow2; lia.
Qed.

Lemma BigToHash_word x : is_word (BigToHash x).
Proof. apply Z.mod_pos_bound. done. Qed.

Lemma BigToHash_small x : is_word x → BigToHash x = x.
Proof. unfold BigToHash, is_word. intros Hx. rewrite Z.abs_eq by lia. by apply Z.mod_small. Qed.

(** The bits of a shifted word: those of the value, [8 * offset] places up. *)
Lemma handleOffset_testbit v o i :
  0 <= v → 0 <= o < 32 → 0 <= i < 256 → Z.testbit (handleOffset v o) i = Z.testbit v (i - 8 * o).
Proof.
  intros Hv Ho Hi. unfold handleOffset. destruct (Z.eqb_spec o 0) as [->|Hne]; [f_equal; lia|].
  rewrite u64_small by (unfold is_u64, two64; lia). unfold BigToHash, two256.
  rewrite Z.abs_eq by (by apply Z.shiftl_nonneg).
  rewrite Z.mod_pow2_bits_low by lia. rewrite Z.shiftl_spec by lia. f_equal. lia.
Qed.

Lemma handleOffset_word v o : is_word v → is_word (handleOffset v o).
Proof. unfold handleOffset. destruct (o =? 0); [done|]. intros _. apply BigToHash_word. Qed.

(** ** Merging *)

(** The union of the bits of all words of a key. *)
Definition merged (k : Hash) (l : list EncodedStorage) : Z :=
  foldr (fun s acc => if decide (es_Key s = k) then Z.lor (es_Value s) acc else acc) 0 l.

Definition words (l : list EncodedStorage) : Prop := Forall (λ s, is_word (es_Value s)) l.

Lemma merged_snoc k l s :
  merged k (l ++ [s]) = if decide (es_Key s = k) then Z.lor (merged k l) (es_Value s) else merged k l.
Proof.
  unfold merged. rewrite foldr_app. cbn. induction l as [|x l IH]; cbn.
  - case_decide; [|done]. by rewrite Z.lor_0_r, Z.lor_0_l.
  - rewrite IH. destruct (decide (es_Key x = k)), (decide (es_Key s = k)); try done.
    by rewrite Z.lor_assoc.
Qed.

Lemma merged_testbit k l i :
  Z.testbit (merged k l) i = true ↔ ∃ s, s ∈ l ∧ es_Key s = k ∧ Z.testbit (es_Value s) i = true.
Proof.
  induction l as [|x l IH]; cbn.
  - rewrite Z.bits_0. split; [done|]. intros (s & Hs & _). by apply elem_of_nil in Hs.
  - case_decide as Hk; [rewrite Z.lor_spec, orb_true_iff|]; rewrite IH; setoid_rewrite elem_of_cons; naive_solver.
Qed.

Lemma merged_word k l : words l → is_word (merged k l).
Proof.
  induction 1 as [|x l Hx _ IH]; cbn; [done|]. case_decide; [by apply lor_word|done].
Qed.

Lemma merged_permutation k l l' : l ≡ₚ l' → merged k l = merged k l'.
Proof.
  intros Hp. apply Z.bits_inj. intros i. apply eq_bool_prop_intro.
  rewrite !Is_true_true, !merged_testbit. by setoid_rewrite Hp.
Qed.

(** The state of the loop of [MergeStorage] after [l]. *)
Lemma merge_fold_spec l :
  words l → let '(kv, keys) := fold_left merge_step l (∅, []) in
  NoDup keys ∧ ∀ k, (k ∈ keys ↔ k ∈ map es_Key l) ∧
    kv !! k = if decide (k ∈ map es_Key l) then Some (merged k l) else None.
Proof.
  induction l as [|s l IH] using rev_ind; intros Hw.
  { cbn. split; [constructor|]. intros k. split; [done|]. rewrite lookup_empty.
    case_decide as Hk; [by apply elem_of_nil in Hk|done]. }
  unfold words in Hw. rewrite Forall_snoc in Hw. destruct Hw as [Hw Hs]. specialize (IH Hw).
  rewrite fold_left_app. destruct (fold_left merge_step l (∅, [])) as [kv keys]. destruct IH as [Hnd IH].
  rewrite map_app. cbn. destruct (IH (es_Key s)) as [Hin Hlook]. rewrite Hlook.
  assert (Hother : ∀ k, k ≠ es_Key s →
    (k ∈ keys ↔ k ∈ map es_Key l ++ [es_Key s]) ∧
    kv !! k = if decide (k ∈ map es_Key l ++ [es_Key s]) then Some (merged k (l ++ [s])) else None).
  { intros k Hk. destruct (IH k) as [H1 H2].
    assert (k ∈ map es_Key l ++ [es_Key s] ↔ k ∈ map es_Key l) as Hiff
      by (rewrite elem_of_app, list_elem_of_singleton; tauto).
    rewrite H2, merged_snoc, (decide_False (P := es_Key s = k)) by congruence.
    split; [by rewrite Hiff|]. apply decide_ext. by rewrite Hiff. }
  assert (Hself : es_Key s ∈ map es_Key l ++ [es_Key s]) by (apply elem_of_app; right; by left).
  destruct (decide (es_Key s ∈ map es_Key l)) as [Hd|Hd]; (split; [|intros k; destruct (decide (k = es_Key s)) as [->|Hk]]).
  - done.
  - rewrite lookup_insert_eq, (decide_True _ _ Hself), merged_snoc, decide_True by done.
    split; [split; [done|by intros _; apply Hin]|].
    by rewrite BigToHash_small by (apply lor_word; [by apply merged_word|done]).
  - rewrite lookup_insert_ne by done. by apply Hother.
  - apply NoDup_app. split; [done|]. split; [|apply NoDup_singleton].
    intros x Hx ->%list_elem_of_singleton. by apply Hd, Hin.
  - rewrite lookup_insert_eq, (decide_True _ _ Hself), merged_snoc, decide_True by done.
    split; [rewrite !elem_of_app, list_elem_of_singleton; tauto|].
    assert (Hz : merged (es_Key s) l = 0).
    { apply Z.bits_inj_0. intros i. apply not_true_is_false. intros (x & Hx & Hk & _)%merged_testbit.
      apply Hd. rewrite <- Hk. by apply list_elem_of_fmap_2. }
    by rewrite Hz, Z.lor_0_l.
  - rewrite lookup_insert_ne by done. destruct (Hother k Hk) as [H1 H2]. split; [|done].
    rewrite elem_of_app, list_elem_of_singleton, H1, elem_of_app, list_elem_of_singleton. tauto.
Qed.

Lemma MergeStorage_elem l k v :
  words l → mkStorage k v ∈ MergeStorage l ↔ k ∈ map es_Key l ∧ v = merged k l.
Proof.
  intros Hw. unfold MergeStorage. pose proof (merge_fold_spec l Hw) as Hf.
  destruct (fold_left merge_step l (∅, [])) as [kv keys]. destruct Hf as [_ Hf].
  rewrite list_elem_of_fmap. split.
  - intros (key & [= -> ->] & Hk). destruct (Hf key) as [Hin Hl]. apply Hin in Hk.
    rewrite Hl, decide_True by done. done.
  - intros [Hk ->]. exists k. destruct (Hf k) as [Hin Hl]. rewrite Hl, decide_True by done.
    split; [done|]. by apply Hin.
Qed.

Lemma MergeStorage_keys l : words l → NoDup (map es_Key (MergeStorage l)).
Proof.
  intros Hw. unfold MergeStorage. pose proof (merge_fold_spec l Hw) as Hf.
  destruct (fold_left merge_step l (∅, [])) as [kv keys]. destruct Hf as [Hnd _].
  rewrite map_map. by rewrite map_id.
Qed.

Lemma MergeStorage_NoDup l : words l → NoDup (MergeStorage l).
Proof. intros Hw. eapply NoDup_fmap_1. by apply (MergeStorage_keys l Hw). Qed.

(** A word read back: [n] bytes at byte offset [o]. *)
Definition read_field (w o n : Z) : Z := Z.land (Z.shiftr w (8 * o)) (Z.ones (8 * n)).

(** A packed field: its offset, its size and its value. *)
Record field := mkField { f_offset : Z; f_size : Z; f_value : Z }.

Definition field_ok (f : field) : Prop :=
  0 <= f_offset f ∧ 0 < f_size f ∧ f_offset f + f_size f <= 32 ∧ 0 <= f_value f < 2 ^ (8 * f_size f).

(** Two fields that do not overlap. *)
Definition apart (f g : field) : Prop :=
  f_offset f + f_size f <= f_offset g ∨ f_offset g + f_size g <= f_offset f.

Definition field_word (key : Hash) (f : field) : EncodedStorage :=
  mkStorage key (handleOffset (f_value f) (f_offset f)).

Lemma field_value_word f : field_ok f → is_word (f_value f).
Proof.
  intros (H1 & H2 & H3 & H4). unfold is_word, two256.
  assert (2 ^ (8 * f_size f) <= 2 ^ 256) by (apply Z.pow_le_mono_r; lia). lia.
Qed.

Lemma be_number_app b x : be_number (b ++ [x]) = be_number b * 256 + Z.of_N (Byte.to_N x).
Proof. unfold be_number. by rewrite fold_left_app. Qed.

Lemma byte_range x : 0 <= Z.of_N (Byte.to_N x) < 256.
Proof. pose proof (Byte.to_N_bounded x). lia. Qed.

Lemma be_number_range b : 0 <= be_number b < 256 ^ Z.of_nat (length b).
Proof.
  induction b as [|x b IH] using rev_ind; [done|]. rewrite be_number_app, length_app. cbn [length].
  pose proof (byte_range x). rewrite Nat2Z.inj_add, Z.pow_add_r by lia. lia.
Qed.

(** A byte string is recovered from its number and its length. *)
Lemma be_bytes_number b : be_bytes (length b) (be_number b) = b.
Proof.
  induction b as [|x b IH] using rev_ind; [done|]. rewrite length_app, Nat.add_comm. cbn [length Nat.add be_bytes].
  pose proof (byte_range x). rewrite be_number_app, (Z.add_comm (_ * 256)), Z.div_add, Z.mod_add by done.
  rewrite Z.div_small, Z.mod_small, Z.add_0_l, IH by lia.
  by rewrite N2Z.id, Byte.of_to_N.
Qed.

(** Solidity's reading of a short string: twice its length in the last byte, its bytes
    first. *)
Definition decode_string (w : Hash) : bytes := take (Z.to_nat (w mod 256 / 2)) (word_bytes w).

(** ** Theorems *)

(** [MergeStorage] gives each slot once, with the union of the bits of all the words
    encoded for it; the result does not depend on the order of the words, and so not on Go's
    random order of map iteration, except for the order of the slots. *)
Theorem MergeStorage_correct l l' :
  words l → l ≡ₚ l' →
  NoDup (map es_Key (MergeStorage l)) ∧
  (∀ k v, mkStorage k v ∈ MergeStorage l ↔ k ∈ map es_Key l ∧ v = merged k l) ∧
  MergeStorage l' ≡ₚ MergeStorage l.
Proof.
  intros Hw Hp. split; [by apply MergeStorage_keys|]. split; [intros; by apply MergeStorage_elem|].
  assert (Hw' : words l') by (unfold words; by rewrite <- Hp).
  apply NoDup_Permutation; [by apply MergeStorage_NoDup..|].
  intros [k v]. rewrite !MergeStorage_elem by done.
  rewrite (merged_permutation k l l') by done.
  assert (map es_Key l' ≡ₚ map es_Key l) as Hm by (by apply Permutation_map).
  by rewrite Hm.
Qed.

(** C15: tightly packed variables survive merging: when the fields of a slot do not overlap,
    the slot is encoded as one word and every field is read back from its offset and size. *)
Theorem packed_fields_roundtrip key fields i f :
  Forall field_ok fields →
  (∀ i j f g, fields !! i = Some f → fields !! j = Some g → i ≠ j → apart f g) →
  fields !! i = Some f →
  ∃ w, MergeStorage (map (field_word key) fields) = [mkStorage key w] ∧
       read_field w (f_offset f) (f_size f) = f_value f.
Proof.
  intros Hok Hap Hf. set (l := map (field_word key) fields).
  assert (Hw : words l).
  { unfold words, l. apply Forall_fmap. eapply Forall_impl; [exact Hok|].
    intros g Hg. by apply handleOffset_word, field_value_word. }
  assert (Hkeys : ∀ k, k ∈ map es_Key l → k = key).
  { intros k. unfold l. rewrite map_map. intros (g & -> & _)%list_elem_of_fmap. done. }
  assert (Hkey : key ∈ map es_Key l).
  { unfold l. rewrite map_map. apply list_elem_of_fmap. exists f.
    split; [done|]. by eapply list_elem_of_lookup_2. }
  assert (Hm : MergeStorage l = [mkStorage key (merged key l)]).
  { pose proof (MergeStorage_NoDup l Hw) as Hnd.
    assert (Hel : mkStorage key (merged key l) ∈ MergeStorage l) by (by apply MergeStorage_elem).
    assert (Hall : ∀ s, s ∈ MergeStorage l → s = mkStorage key (merged key l)).
    { intros [k v] Hs. apply MergeStorage_elem in Hs as [Hk ->]; [|done].
      by rewrite (Hkeys k Hk). }
    apply Permutation_singleton_r, NoDup_Permutation; [done|apply NoDup_singleton|].
    intros s. rewrite list_elem_of_singleton. split; [by apply Hall|by intros ->]. }
  exists (merged key l). split; [done|].
  assert (Hfok : field_ok f) by (eapply Forall_lookup_1; [exact Hok|exact Hf]).
  destruct Hfok as (Ho & Hn & Hon & Hv).
  apply Z.bits_inj'. intros b Hb. unfold read_field. rewrite Z.land_spec.
  destruct (Z_lt_le_dec b (8 * f_size f)) as [Hlt|Hge].
  2: { rewrite Z.ones_spec_high, andb_false_r by lia. symmetry. by eapply testbit_above. }
  rewrite Z.ones_spec_low, andb_true_r, Z.shiftr_spec by lia.
  apply eq_bool_prop_intro. rewrite !Is_true_true, merged_testbit. unfold l. split.
  - intros (s & Hs & _ & Hbit). apply list_elem_of_fmap in Hs as (g & -> & Hg).
    apply list_elem_of_lookup_1 in Hg as [j Hj].
    assert (Hgok : field_ok g) by (eapply Forall_lookup_1; [exact Hok|exact Hj]).
    destruct Hgok as (Ho' & Hn' & Hon' & Hv').
    cbn in Hbit. rewrite handleOffset_testbit in Hbit by lia.
    destruct (decide (i = j)) as [<-|Hij].
    { assert (g = f) as -> by congruence. replace b with (b + 8 * f_offset f - 8 * f_offset f) by lia. done. }
    exfalso. destruct (Hap i j f g Hf Hj Hij) as [Hlt'|Hlt'].
    + rewrite Z.testbit_neg_r in Hbit by lia. done.
    + rewrite (testbit_above _ (8 * f_size g)) in Hbit by lia. done.
  - intros Hbit. exists (field_word key f). split; [|split; [done|]].
    + apply list_elem_of_fmap_2. by eapply list_elem_of_lookup_2.
    + cbn. rewrite handleOffset_testbit by lia. by replace (b + 8 * f_offset f - 8 * f_offset f) with b by lia.
Qed.

(** A string of at most 31 bytes is stored the way Solidity reads it back: the encoded
    word gives the string's bytes again; a longer one is refused. *)
Theorem encodeStringValue_roundtrip s :
  let data := String.list_byte_of_string s in
  ((length data < 32)%nat → ∃ w, encodeStringValue (v_string s) = Ret (Ok w) ∧ is_word w ∧
     decode_string w = data) ∧
  ((32 <= length data)%nat → ∃ e, encodeStringValue (v_string s) = Ret (Err e)).
Proof.
  cbn zeta. unfold encodeStringValue. set (data := String.list_byte_of_string s). split; intros Hlen.
  2: { rewrite (proj2 (Nat.leb_le _ _) Hlen). eauto. }
  rewrite (proj2 (Nat.leb_gt _ _) Hlen). eexists. split; [reflexivity|].
  split; [apply Z.mod_pos_bound; done|].
  set (pre := take 31 (data ++ repeat Byte.x00 (32 - length data))).
  assert (Hpre : length pre = 31%nat).
  { unfold pre. rewrite length_take, length_app, repeat_length. lia. }
  destruct (Byte.of_N (N.of_nat (length data * 2) mod 256)) as [x|] eqn:Hx.
  2: { apply Byte.of_N_None_iff in Hx. pose proof (N.mod_lt (N.of_nat (length data * 2)) 256 ltac:(done)). lia. }
  change (default Byte.x00 (Some x)) with x. apply Byte.to_of_N in Hx.
  assert (Hxv : Z.of_N (Byte.to_N x) = 2 * Z.of_nat (length data))
    by (rewrite Hx, N.mod_small by lia; lia).
  set (padded := pre ++ [x]).
  assert (Hpad : length padded = 32%nat) by (unfold padded; rewrite length_app, Hpre; done).
  assert (Hnum : BytesToHash padded = be_number padded).
  { unfold BytesToHash. apply Z.mod_small. pose proof (be_number_range padded) as Hr.
    rewrite Hpad in Hr. exact Hr. }
  unfold decode_string, word_bytes. rewrite Hnum.
  replace (be_bytes 32 (be_number padded)) with padded by (by rewrite <- Hpad, be_bytes_number).
  unfold padded at 1. rewrite be_number_app, (Z.add_comm (_ * 256)), Z.mod_add, Hxv by done.
  rewrite Z.mod_small, (Z.mul_comm 2), Z.div_mul, Nat2Z.id by lia.
  unfold padded, pre. rewrite take_app_le by (rewrite length_take, length_app, repeat_length; lia).
  rewrite take_take, Nat.min_l by lia. by rewrite take_app_length.
Qed.

(** A numeric string that [hexutil] rejects for any other reason than a missing prefix or
    a leading zero (the empty string, ["0x"], a bad digit, more than 256 bits) is not
    reported as an error: the encoder panics on the nil number. *)
Theorem malformed_uint_panics `{Hex} s e offset :
  hexutil_DecodeBig s = Err e → errors_Is e ErrMissingPrefix = false →
  errors_Is e ErrLeadingZero = false →
  EncodeUintValue (v_string s) offset = Panic nil_deref.
Proof.
  intros Hd H1 H2. unfold EncodeUintValue, encodeUintValue, encode_uint_string.
  by rewrite Hd, H1, H2.
Qed.

(** A dynamic array is dropped without a word: encoding it succeeds with nothing to
    store, whatever the value. *)
Theorem dynamic_array_dropped `{Crypto} `{Hex} value entry ty :
  t_Encoding ty = "dynamic_array" → t_NumberOfBytes ty <= 32 →
  EncodeStorage entry value ty = Ret (Ok []).
Proof.
  intros He Hn. unfold EncodeStorage, EncodeStorageKeyValue.
  rewrite Z.gtb_ltb, (proj2 (Z.ltb_ge _ _) Hn), He. done.
Qed.

(** ** Writing the slots *)

Section Writing.
Context `{Cr : Crypto} `{Hx : Hex}.
Implicit Types db : MemoryStateDB.

Lemma set_slots_spec addr slots : ∀ db acc m,
  Alloc db !! addr = Some acc → acc_Storage acc = Some m → NoDup (map es_Key slots) →
  ∃ db', set_slots addr slots db = Ret db' ∧
    (∀ s, s ∈ slots → GetState addr (es_Key s) db' = es_Value s) ∧
    (∀ k, k ∉ map es_Key slots → GetState addr k db' = GetState addr k db).
Proof.
  induction slots as [|s slots IH]; intros db acc m Ha Hm Hnd; cbn [set_slots map] in *.
  { exists db. split; [done|]. split; [|done]. intros s Hs. by apply elem_of_nil in Hs. }
  apply NoDup_cons in Hnd as [Hni Hnd]. cbn [sdb_SetState MemoryStateDB_StateDB].
  unfold SetState. rewrite Ha, Hm. cbn [mbind go_bind].
  set (acc1 := mkAccount _ _ _ _). set (db1 := set_account addr acc1 db).
  assert (Hget : ∀ k, GetState addr k db1 = if decide (k = es_Key s) then es_Value s else GetState addr k db).
  { intros k. unfold GetState, db1, set_account, storage_get. cbn. rewrite lookup_insert_eq, Ha, Hm. cbn.
    case_decide as Hk; [by rewrite Hk, lookup_insert_eq|by rewrite lookup_insert_ne]. }
  destruct (IH db1 acc1 (<[es_Key s := es_Value s]> m)) as (db' & Hs & Hin & Hout);
    [by unfold db1, set_account; cbn; rewrite lookup_insert_eq|done|done|].
  exists db'. split; [done|]. split.
  - intros s' [->|Hs']%elem_of_cons; [|by apply Hin]. by rewrite Hout, Hget, decide_True by done.
  - intros k [Hk1 Hk2]%not_elem_of_cons. by rewrite Hout, Hget, decide_False by done.
Qed.

(** The slots are distinct, whatever was encoded. *)
Lemma MergeStorage_keys_NoDup l : NoDup (map es_Key (MergeStorage l)).
Proof.
  unfold MergeStorage.
  assert (Hf : let '(kv, keys) := fold_left merge_step l (∅, []) in
    NoDup keys ∧ ∀ k, k ∈ keys ↔ is_Some (kv !! k)).
  { induction l as [|s l IH] using rev_ind; cbn.
    - split; [constructor|]. intros k. rewrite lookup_empty. split; [by intros ?%elem_of_nil|by intros [? ?]].
    - rewrite fold_left_app. destruct (fold_left merge_step l (∅, [])) as [kv keys]. cbn.
      destruct IH as [Hnd IH]. destruct (kv !! es_Key s) as [prev|] eqn:Hp.
      + split; [done|]. intros k. rewrite IH. destruct (decide (k = es_Key s)) as [->|Hne].
        * rewrite lookup_insert_eq, Hp. split; by eexists.
        * by rewrite lookup_insert_ne by done.
      + assert (es_Key s ∉ keys) as Hni by (rewrite IH, Hp; by intros [? ?]).
        split; [apply NoDup_app; split; [done|]; split; [|apply NoDup_singleton]|].
        * by intros x Hx' ->%list_elem_of_singleton.
        * intros k. rewrite elem_of_app, list_elem_of_singleton, IH.
          destruct (decide (k = es_Key s)) as [->|Hne].
          -- rewrite lookup_insert_eq. split; [by eexists|by right].
          -- rewrite lookup_insert_ne by done. tauto. }
  destruct (fold_left merge_step l (∅, [])) as [kv keys]. rewrite map_map, map_id. apply Hf.
Qed.

(** [SetStorage] on an account with storage: when the values encode, every slot computed
    for them holds its word afterwards and no other slot of the account changes; when they do
    not, the state is unchanged and the error is reported. *)
Theorem SetStorage_writes layouts name addr values db acc m layout :
  Alloc db !! addr = Some acc → acc_Storage acc = Some m → layouts !! name = Some layout →
  match ComputeStorageSlots layout values with
  | Panic w => SetStorage layouts name addr values db = Panic w
  | Ret (Err e) => SetStorage layouts name addr values db = Ret (Err (WrapError name e), db)
  | Ret (Ok slots) => ∃ db', SetStorage layouts name addr values db = Ret (Ok tt, db') ∧
      (∀ s, s ∈ slots → GetState addr (es_Key s) db' = es_Value s) ∧
      (∀ k, k ∉ map es_Key slots → GetState addr k db' = GetState addr k db)
  end.
Proof.
  intros Ha Hm Hl. unfold SetStorage, GetStorageLayout. rewrite Hl.
  destruct (ComputeStorageSlots layout values) as [[slots|e]|w] eqn:Hc; [|done..]. cbn.
  assert (Hnd : NoDup (map es_Key slots)).
  { unfold ComputeStorageSlots in Hc. destruct (compute_loop layout values []) as [[enc|e]|w]; try done.
    cbn in Hc. injection Hc as <-. apply MergeStorage_keys_NoDup. }
  destruct (set_slots_spec addr slots db acc m Ha Hm Hnd) as (db' & -> & Hin & Hout).
  by exists db'.
Qed.

End Writing.

(** ** A concrete layout *)
Module StorageSample.

Definition hex : Hex := {|
  hexutil_Decode _ := Ok [];
  hexutil_DecodeBig s := if String.eqb s "" then Err (ErrorString "empty hex string") else Err ErrMissingPrefix;
  HexToAddress _ := 0;
  FromHex _ := []
|}.

(** Three variables packed in slot 0: a [uint8], a [bool] and an address. *)
Definition layout : StorageLayout := mkLayout
  [mkEntry "_initialized" 0 0 "t_uint8"; mkEntry "_paused" 1 0 "t_bool"; mkEntry "owner" 2 0 "t_address"]
  {[ "t_uint8" := mkType "inplace" "uint8" 1 "" ""; "t_bool" := mkType "inplace" "bool" 1 "" "";
     "t_address" := mkType "inplace" "address" 20 "" "" ]}.

Definition fields : list field := [mkField 0 1 7; mkField 1 1 1; mkField 2 20 255].

Lemma fields_ok : Forall field_ok fields.
Proof. repeat constructor; cbn; lia. Qed.

Lemma fields_apart : ∀ i j f g, fields !! i = Some f → fields !! j = Some g → i ≠ j → apart f g.
Proof.
  intros i j f g Hf Hg Hij. unfold apart.
  destruct i as [|[|[|i]]], j as [|[|[|j]]]; cbn in Hf, Hg; try done; simplify_eq; cbn; lia.
Qed.

Lemma MergeStorage_correct_witness :
  mkStorage 0 (Z.lor 7 256) ∈ MergeStorage [mkStorage 0 7; mkStorage 5 9; mkStorage 0 256].
Proof.
  destruct (MergeStorage_correct [mkStorage 0 7; mkStorage 5 9; mkStorage 0 256]
    [mkStorage 0 7; mkStorage 5 9; mkStorage 0 256]) as (_ & H & _);
    [repeat constructor; cbn; done|done|].
  apply H. split; [left|reflexivity].
Defined.

Lemma packed_fields_roundtrip_witness :
  ∃ w, MergeStorage (map (field_word 0) fields) = [mkStorage 0 w] ∧ read_field w 2 20 = 255.
Proof.
  exact (packed_fields_roundtrip 0 fields 2 (mkField 2 20 255) fields_ok fields_apart eq_refl).
Defined.

Lemma malformed_uint_panics_witness : EncodeUintValue (H := hex) (v_string "") 0 = Panic nil_deref.
Proof. exact (malformed_uint_panics (H := hex) "" (ErrorString "empty hex string") 0 eq_refl eq_refl eq_refl). Defined.

Lemma dynamic_array_dropped_witness :
  EncodeStorage (C := MemoryDBSample.crypto) (H := hex) (mkEntry "a" 0 3 "t_array") (v_uint 5)
    (mkType "dynamic_array" "uint256[]" 32 "" "") = Ret (Ok []).
Proof. apply (dynamic_array_dropped (H := MemoryDBSample.crypto) (H0 := hex)); [reflexivity|cbn; lia]. Defined.

Definition values : list (string * any_value) :=
  [("owner", v_Address 255); ("_initialized", v_uint8 7); ("_paused", v_bool true)].

Lemma SetStorage_writes_witness :
  ∃ db', SetStorage (C := MemoryDBSample.crypto) (H := hex) {[ "Proxy" := layout ]} "Proxy" 20 values
    MemoryDBSample.db = Ret (Ok tt, db') ∧ GetState 20 0 db' = 16711943.
Proof.
  pose proof (SetStorage_writes (Cr := MemoryDBSample.crypto) (Hx := hex) {[ "Proxy" := layout ]} "Proxy"
    20 values MemoryDBSample.db (mkAccount [] (Some ∅) (Some 0) 0) ∅ layout eq_refl eq_refl eq_refl) as H.
  assert (Hc : ComputeStorageSlots (C := MemoryDBSample.crypto) (H := hex) layout values =
    Ret (Ok [mkStorage 0 16711943])) by (vm_compute; reflexivity).
  rewrite Hc in H. destruct H as (db' & H1 & H2 & _). exists db'. split; [exact H1|].
  apply (H2 (mkStorage 0 16711943)). left.
Defined.

End StorageSample.
