(* ===== verification/Solc.v ===== *)
(** * The Solidity compiler's input and output

    The records of ops/bindings/solc/types.go, as they are decoded from a build info; the
    storage layout, with its two look-ups, is in [Storage].  go-ethereum's [abi.ABI] is a
    parameter, and a JSON text that is kept raw is a string. *)

From S2P Require Import Prelude Errors Storage.

(** ** Input *)

Record OptimizerSettings := mkOptimizer { opt_Enabled : bool; opt_Runs : Z (* uint *) }.

Record CompilerInputMetadata := mkInputMetadata { UseLiteralContent : bool }.

Record CompilerSettings := mkSettings {
  cs_Optimizer : OptimizerSettings;
  cs_Metadata : CompilerInputMetadata;
  cs_OutputSelection : gmap string (gmap string (list string));
  cs_EvmVersion : string;
  cs_Libraries : gmap string (gmap string string)
}.

Record CompilerInput := mkInput {
  ci_Language : string;
  ci_Sources : gmap string (gmap string string);
  ci_Settings : CompilerSettings
}.

(** ** Output *)

Record LinkReferenceOffset := mkOffset { lr_Length : Z; lr_Start : Z (* uint *) }.

Definition LinkReference : Type := gmap string (list LinkReferenceOffset).

Definition LinkReferences : Type := gmap string LinkReference.

(** The object need not be a hexadecimal string. *)
Record CompilerOutputBytecode := mkBytecode {
  bc_Object : string;
  bc_Opcodes : string;
  bc_SourceMap : string;
  bc_LinkReferences : LinkReferences
}.

Record CompilerOutputEvm := mkEvm {
  evm_Bytecode : CompilerOutputBytecode;
  evm_DeployedBytecode : CompilerOutputBytecode;
  evm_GasEstimates : gmap string (gmap string string);
  evm_MethodIdentifiers : gmap string string
}.

Record Ast := mkAst {
  ast_AbsolutePath : string;
  ast_ExportedSymbols : gmap string (list Z);
  ast_Id : Z;
  ast_License : string;
  ast_NodeType : string;
  ast_Nodes : string
}.

Record CompilerOutputSource := mkSource { src_Id : Z; src_Ast : Ast }.

Definition CompilerOutputSources : Type := gmap string CompilerOutputSource.

Section Output.
Context {ABI : Type}.

Record CompilerOutputContract := mkContract {
  co_Abi : ABI;
  co_Evm : CompilerOutputEvm;
  co_Metadata : string;
  co_StorageLayout : StorageLayout
}.

Definition CompilerOutputContracts : Type := gmap string CompilerOutputContract.

Record CompilerOutput := mkOutput {
  out_Contracts : gmap string CompilerOutputContracts;
  out_Sources : CompilerOutputSources
}.

End Output.

Arguments CompilerOutputContract : clear implicits.
Arguments CompilerOutputContracts : clear implicits.
Arguments CompilerOutput : clear implicits.
Arguments mkContract {ABI}.
Arguments mkOutput {ABI}.
