(* ===== verification/Predeploys.v ===== *)
(** * The L2 predeploys

    Models ops/predeploys (addresses.go, helpers.go, predeploys.go) and the deployment loop of
    ops/deployer/deployer.go.  The simulated chain, go-ethereum's binding helpers and the
    generated contract bindings are the class [DeployBackend]; the ABI packing of the generated
    bindings is the class [InitPacker]. *)

From S2P Require Import Prelude Errors Types Storage.

(** Go ranges over a map in an unspecified order: [map_range site n l] is the order met at a
    given place of the program (and, for a place run several times, at a given run). *)
Class MapRange := {
  map_range : string → Z → ∀ {K A : Type}, list (K * A) → list (K * A);
  map_range_perm site n K A (l : list (K * A)) : map_range site n l ≡ₚ l
}.

(** ** Addresses *)

Definition UUPSPlaceholderAddr : Address := 0x2A00000000000000000000000000000000000000.
Definition L1OracleAddr : Address := 0x2A00000000000000000000000000000000000010.
Definition L2PortalAddr : Address := 0x2A00000000000000000000000000000000000011.
Definition L2StandardBridgeAddr : Address := 0x2A00000000000000000000000000000000000012.

Definition Predeploys : gmap string Address :=
  {[ "UUPSPlaceholder" := UUPSPlaceholderAddr; "L1Oracle" := L1OracleAddr;
     "L2Portal" := L2PortalAddr; "L2StandardBridge" := L2StandardBridgeAddr ]}.

Definition codeNamespace : Address := 0xc0D3C0d3C0d3C0D3c0d3C0d3c0D3C0d3c0d30000.
Definition BigL2PredeployNamespace : Z := 0x2A00000000000000000000000000000000000000.
Definition ImplementationSlot : Hash := 0x360894a13ba1a3210667c828492db98dca3e2076cc3735a920a3ca505d382bbc.
Definition AdminSlot : Hash := 0xb53127684a568b3173ae13b9f8a6016e243e63b6e8ee1178d6a717850b5d6103.
Definition PredeployProxyCount : Z := 2048.

(** [common.BigToAddress]: the low 160 bits of the magnitude. *)
Definition BigToAddress (x : Z) : Address := Z.abs x mod 2 ^ 160.

(** The first two bytes of the twenty are 0x2A, 0x00. *)
Definition IsL2Predeploy (addr : Address) : bool := Z.shiftr addr 144 =? 0x2A00.

(** The last two bytes of the address, in the code namespace. *)
Definition AddressToCodeNamespace (addr : Address) : result Address :=
  if negb (IsL2Predeploy addr) then Err (FmtError "cannot handle non predeploy")
  else Ok (BigToAddress (Z.lor codeNamespace (addr mod 2 ^ 16))).

(** ** Configurations *)

(** A value that is not set is [v_nil]. *)
Record StorageConfig := mkStorageConfig {
  ImplValue : any_value;
  ProxyValue : any_value
}.

Record PredeployConfig := mkPredeploy {
  Proxied : bool;
  ConstructorValues : list (string * any_value);
  Initializer : string;
  InitializerValues : list (string * any_value);
  Storages : list (string * StorageConfig)
}.

(** The maps keyed by names: at most one entry per name. *)
Fixpoint lookup_name {A : Type} (name : string) (l : list (string * A)) : option A :=
  match l with
  | [] => None
  | (n, a) :: l => if String.eqb n name then Some a else lookup_name name l
  end.

Abbreviation PredeployConfigs := (list (string * PredeployConfig)) (only parsing).

Definition zero_predeploy : PredeployConfig := mkPredeploy false [] "" [] [].

Definition checks : list (string * list string) :=
  [("L2Portal", ["_l1PortalAddress"]); ("L2StandardBridge", ["_otherBridge"])].

Fixpoint check_args (contract : string) (config : PredeployConfig) (args : list string) : option error :=
  match args with
  | [] => None
  | arg :: args =>
      match lookup_name arg (InitializerValues config) with
      | None => Some (FmtError ("missing initializer arg " ++ arg ++ " for " ++ contract))
      | Some _ => check_args contract config args
      end
  end.

Fixpoint check_all (p : PredeployConfigs) (cs : list (string * list string)) : option error :=
  match cs with
  | [] => None
  | (contract, initArg) :: cs =>
      match lookup_name contract p with
      | None => Some (FmtError ("missing predeploy for " ++ contract))
      | Some config =>
          match check_args contract config initArg with
          | Some e => Some e
          | None => check_all p cs
          end
      end
  end.

Definition Check_configs (p : PredeployConfigs) : option error := check_all p checks.

(** ** Deployment *)

(** An argument of a constructor, by the types [l2Deployer] distinguishes. *)
Inductive carg : Type :=
| arg_address (a : Address)
| arg_bytes (b : bytes)
| arg_other.

Record Constructor := mkConstructor { c_Name : string; c_Args : list carg }.

Record Deployment := mkDeployment { d_Name : string; d_Bytecode : bytes; d_Address : Address }.

(** The simulated backend and the generated [Deploy...] functions.  [DeployBinding] is given
    the contract's name and the proxy's arguments; [CodeAt] is (code, err). *)
Class DeployBackend (B Tx : Type) := {
  NewL2Backend : B;
  NewKeyedTransactor : result unit;
  DeployBinding : string → option (Address * bytes) → B → result Tx * B;
  Commit : B → B;
  WaitDeployed : Tx → B → result Address;
  CodeAt : Address → B → bytes * option error
}.

Section Deploy.
Context {B Tx : Type} `{DB : DeployBackend B Tx}.

Abbreviation Deployer := (B → Constructor → go (result Tx * B)) (only parsing).

(** The contracts whose bindings [l2Deployer] knows besides the proxy. *)
Definition known_contracts : list string := ["UUPSPlaceholder"; "L1Oracle"; "L2Portal"; "L2StandardBridge"].

Definition l2Deployer (backend : B) (deployment : Constructor) : go (result Tx * B) :=
  if String.eqb (c_Name deployment) "ERC1967Proxy" then
    match c_Args deployment with
    | [] => Panic index_out_of_range
    | arg_address implAddr :: rest =>
        match rest with
        | [] => Panic index_out_of_range
        | arg_bytes data :: _ => Ret (DeployBinding (c_Name deployment) (Some (implAddr, data)) backend)
        | _ => Ret (Err (FmtError "invalid type for initializer data"), backend)
        end
    | _ => Ret (Err (FmtError "invalid type for implAddr"), backend)
    end
  else if existsb (String.eqb (c_Name deployment)) known_contracts
  then Ret (DeployBinding (c_Name deployment) None backend)
  else Ret (Err (FmtError ("unknown contract: " ++ c_Name deployment)), backend).

Fixpoint Deploy_loop (constructors : list Constructor) (cb : Deployer) (backend : B)
    (results : list Deployment) : go (result (list Deployment) * B) :=
  match constructors with
  | [] => Ret (Ok results, backend)
  | deployment :: constructors =>
      '(r, backend) ← cb backend deployment;
      match r with
      | Err e => Ret (Err e, backend)
      | Ok tx =>
          let backend := Commit backend in
          match WaitDeployed tx backend with
          | Err e => Ret (Err (WrapError (c_Name deployment) e), backend)
          | Ok addr =>
              if addr =? zero_address
              then Ret (Err (FmtError ("no address for " ++ c_Name deployment)), backend)
              else
                let '(code, err) := CodeAt addr backend in
                if (length code =? 0)%nat
                then Ret (Err (FmtError ("no code found for " ++ c_Name deployment)), backend)
                else
                  match err with
                  | Some _ => Ret (Err (FmtError ("cannot fetch code for " ++ c_Name deployment)), backend)
                  | None => Deploy_loop constructors cb backend
                              (results ++ [mkDeployment (c_Name deployment) code addr])
                  end
          end
      end
  end.

Definition Deploy (backend : B) (constructors : list Constructor) (cb : Deployer)
    : go (result (list Deployment) * B) :=
  match NewKeyedTransactor with
  | Err e => Ret (Err e, backend)
  | Ok _ => Deploy_loop constructors cb backend []
  end.

(** ** The predeploys' code *)

Record DeploymentResult := mkResult { r_Bytecode : bytes; r_Address : Address }.

Definition zero_deployment : DeploymentResult := mkResult [] zero_address.

Abbreviation DeploymentResults := (gmap string DeploymentResult) (only parsing).

(** A later deployment of the same name replaces an earlier one. *)
Definition collect (deployments : list Deployment) : DeploymentResults :=
  fold_left (fun results dep => <[d_Name dep := mkResult (d_Bytecode dep) (d_Address dep)]> results)
    deployments ∅.

Definition implConstructors : list Constructor :=
  [mkConstructor "UUPSPlaceholder" []; mkConstructor "L1Oracle" [];
   mkConstructor "L2Portal" []; mkConstructor "L2StandardBridge" []].

Definition BuildPredeployImpls (backend : B) : go (result DeploymentResults * B) :=
  '(r, backend) ← Deploy backend implConstructors l2Deployer;
  Ret (match r with Err e => Err e | Ok deployments => Ok (collect deployments) end, backend).

(** The argument names of each initializer; the name is the contract whose [MetaData] is
    used. *)
Definition initData : list (string * list string) :=
  [("UUPSPlaceholder", []); ("L1Oracle", []); ("L2Portal", ["_l1PortalAddress"]);
   ("L2StandardBridge", ["_otherBridge"])].

End Deploy.

(** [metaData.GetAbi()] and [abi.Pack] of the generated bindings. *)
Class InitPacker := {
  GetAbi : string → result unit;
  abi_Pack : string → string → list any_value → result bytes
}.

Section BuildSpecular.
Context {B Tx : Type} `{DB : DeployBackend B Tx} `{IP : InitPacker} `{MR : MapRange}.

(** [initData[name].pack]: an unknown name gives the zero [initializeData], whose metadata is
    nil. *)
Definition pack (name : string) (predeploy : PredeployConfig) : go (result bytes) :=
  match lookup_name name initData with
  | None => Panic nil_deref
  | Some argOrder =>
      Ret match GetAbi name with
          | Err e => Err e
          | Ok _ => abi_Pack name (Initializer predeploy)
                      (map (fun argName => default v_nil (lookup_name argName (InitializerValues predeploy))) argOrder)
          end
  end.

(** The loop that makes the proxies' constructors, over the map in its iteration order. *)
Fixpoint proxy_loop (predeploys : PredeployConfigs) (implDeploymentResults : gmap string DeploymentResult)
    (proxyConstructors : list Constructor) : go (result (list Constructor)) :=
  match predeploys with
  | [] => Ret (Ok proxyConstructors)
  | (name, predeploy) :: predeploys =>
      if negb (Proxied predeploy) then proxy_loop predeploys implDeploymentResults proxyConstructors
      else
        r ← pack name predeploy;
        match r with
        | Err e => Ret (Err e)
        | Ok data =>
            proxy_loop predeploys implDeploymentResults
              (proxyConstructors ++
                [mkConstructor "ERC1967Proxy"
                   [arg_address (r_Address (default zero_deployment (implDeploymentResults !! name)));
                    arg_bytes data]])
        end
  end.

Definition BuildPredeployProxies (backend : B) (predeploys : PredeployConfigs)
    (implDeploymentResults : gmap string DeploymentResult) : go (result (gmap string DeploymentResult) * B) :=
  r ← proxy_loop (map_range "BuildPredeployProxies" 0 predeploys) implDeploymentResults [];
  match r with
  | Err e => Ret (Err e, backend)
  | Ok proxyConstructors =>
      '(r, backend) ← Deploy backend proxyConstructors l2Deployer;
      Ret (match r with Err e => Err e | Ok deployments => Ok (collect deployments) end, backend)
  end.

Definition BuildSpecular (predeploy : PredeployConfigs)
    : go (result (gmap string DeploymentResult * gmap string DeploymentResult)) :=
  match Check_configs predeploy with
  | Some e => Ret (Err e)
  | None =>
      let backend := NewL2Backend in
      '(r, backend) ← BuildPredeployImpls backend;
      match r with
      | Err e => Ret (Err e)
      | Ok implDeploymentResults =>
          '(r, backend) ← BuildPredeployProxies backend predeploy implDeploymentResults;
          match r with
          | Err e => Ret (Err e)
          | Ok proxyDeploymentResults => Ret (Ok (implDeploymentResults, proxyDeploymentResults))
          end
      end
  end.

End BuildSpecular.

(** ** Lemmas *)

Section Facts.
Context {B Tx : Type} `{DB : DeployBackend B Tx} `{IP : InitPacker} `{MR : MapRange}.

(** What a deployment holds: the names of the constructors in order, each with non-empty
    code. *)
Lemma Deploy_loop_results cs cb : ∀ (b : B) acc ds b',
  Deploy_loop cs cb b acc = Ret (Ok ds, b') →
  ∃ ds', ds = acc ++ ds' ∧ map d_Name ds' = map c_Name cs ∧ Forall (λ d, d_Bytecode d ≠ []) ds'.
Proof.
  induction cs as [|c cs IH]; intros b acc ds b' H; cbn in H.
  { injection H as <- _. exists []. by rewrite app_nil_r. }
  destruct (cb b c) as [[[tx|e] b1]|w]; cbn in H; try done.
  destruct (WaitDeployed tx (Commit b1)) as [addr|e]; [|done].
  destruct (addr =? zero_address); [done|].
  destruct (CodeAt addr (Commit b1)) as [code err].
  destruct (Nat.eqb_spec (length code) 0) as [|Hcode]; [done|]. destruct err; [done|].
  apply IH in H as (ds' & -> & Hn & Hc).
  eexists (_ :: ds'). split; [by rewrite <- app_assoc|]. cbn. split; [by rewrite Hn|].
  constructor; [|done]. cbn. by intros ->.
Qed.

Lemma Deploy_results cs cb (b : B) ds b' :
  Deploy b cs cb = Ret (Ok ds, b') → map d_Name ds = map c_Name cs ∧ Forall (λ d, d_Bytecode d ≠ []) ds.
Proof.
  unfold Deploy. destruct NewKeyedTransactor; [|done].
  intros H. apply Deploy_loop_results in H as (ds' & -> & H). exact H.
Qed.

Lemma collect_snoc ds d :
  collect (ds ++ [d]) = <[d_Name d := mkResult (d_Bytecode d) (d_Address d)]> (collect ds).
Proof. unfold collect. by rewrite fold_left_app. Qed.

Lemma collect_None ds name : name ∉ map d_Name ds → collect ds !! name = None.
Proof.
  induction ds as [|d ds IH] using rev_ind; [done|].
  rewrite map_app, collect_snoc. cbn [map]. rewrite elem_of_app, list_elem_of_singleton. intros Hn.
  rewrite lookup_insert_ne by (intros Heq; apply Hn; by right). apply IH. tauto.
Qed.

Lemma collect_Some ds name :
  Forall (λ d, d_Bytecode d ≠ []) ds → name ∈ map d_Name ds →
  ∃ r, collect ds !! name = Some r ∧ r_Bytecode r ≠ [].
Proof.
  induction ds as [|d ds IH] using rev_ind; [by intros _ ?%elem_of_nil|].
  rewrite map_app, collect_snoc, Forall_snoc. cbn [map]. rewrite elem_of_app, list_elem_of_singleton. intros [Hds Hd] Hin.
  destruct (decide (d_Name d = name)) as [<-|Hne].
  - rewrite lookup_insert_eq. by eexists.
  - rewrite lookup_insert_ne by done. apply IH; [done|]. destruct Hin as [?| ->]; [done|]. by destruct Hne.
Qed.

(** The contracts were deployed on [b] one after the other, without arguments, and the chain
    gave this code for each. *)
Fixpoint deployed (codes : list (string * bytes)) (b : B) : Prop :=
  match codes with
  | [] => True
  | (name, code) :: codes => ∃ tx b1 addr,
      DeployBinding name None b = (Ok tx, b1) ∧ WaitDeployed tx (Commit b1) = Ok addr ∧
      CodeAt addr (Commit b1) = (code, None) ∧ code ≠ [] ∧ deployed codes (Commit b1)
  end.

Lemma l2Deployer_known (b : B) c :
  c_Name c ∈ known_contracts → l2Deployer b c = Ret (DeployBinding (c_Name c) None b).
Proof.
  intros Hname. unfold l2Deployer. destruct (String.eqb_spec (c_Name c) "ERC1967Proxy") as [Heq|_].
  { exfalso. rewrite Heq in Hname. revert Hname. apply (bool_decide_unpack _). by vm_compute. }
  assert (existsb (String.eqb (c_Name c)) known_contracts = true) as ->; [|done].
  apply existsb_exists. exists (c_Name c). split; [by apply list_elem_of_In|apply String.eqb_refl].
Qed.

Lemma Deploy_loop_deployed cs : ∀ (b : B) acc ds b',
  Forall (λ c, c_Name c ∈ known_contracts) cs →
  Deploy_loop cs l2Deployer b acc = Ret (Ok ds, b') →
  ∃ ds', ds = acc ++ ds' ∧ map d_Name ds' = map c_Name cs ∧
    deployed (map (λ d, (d_Name d, d_Bytecode d)) ds') b.
Proof.
  induction cs as [|c cs IH]; intros b acc ds b' Hcs H; cbn [Deploy_loop] in H.
  { injection H as <- _. exists []. by rewrite app_nil_r. }
  apply Forall_cons in Hcs as [Hname Hcs]. rewrite (l2Deployer_known _ _ Hname) in H. cbn [mbind go_bind] in H.
  destruct (DeployBinding (c_Name c) None b) as [[tx|e] b1] eqn:Hd; [|done].
  destruct (WaitDeployed tx (Commit b1)) as [addr|e] eqn:Hw; [|done].
  destruct (addr =? zero_address); [done|].
  destruct (CodeAt addr (Commit b1)) as [code err] eqn:Hcode.
  destruct (Nat.eqb_spec (length code) 0) as [|Hne]; [done|]. destruct err; [done|].
  apply IH in H as (ds' & -> & Hn & Hds); [|done].
  eexists (_ :: ds'). split; [by rewrite <- app_assoc|]. cbn. split; [by rewrite Hn|].
  exists tx, b1, addr. split_and!; try done. by intros ->.
Qed.

(** The results of [BuildPredeployImpls] hold, under each contract's name, the code of that
    contract. *)
Lemma BuildPredeployImpls_deployed (b : B) res b' :
  BuildPredeployImpls b = Ret (Ok res, b') →
  deployed (map (λ name, (name, r_Bytecode (default zero_deployment (res !! name)))) known_contracts) b.
Proof.
  unfold BuildPredeployImpls, Deploy. destruct NewKeyedTransactor; [|done].
  destruct (Deploy_loop _ _ _ _) as [[[ds|e] b1]|w] eqn:Hd; cbn; [|done|done]. intros [= <- _].
  apply Deploy_loop_deployed in Hd as (ds' & -> & Hn & H).
  2: { unfold implConstructors, known_contracts. repeat constructor. }
  destruct ds' as [|d1 [|d2 [|d3 [|d4 [|? ?]]]]]; try done. cbn in Hn. injection Hn as H1 H2 H3 H4.
  unfold collect. cbn [app fold_left]. cbn [map known_contracts] in *. rewrite H1, H2, H3, H4 in *.
  rewrite lookup_insert_eq, !lookup_insert_ne, lookup_insert_eq, !lookup_insert_ne, lookup_insert_eq,
    !lookup_insert_ne, lookup_insert_eq by done. exact H.
Qed.

(** The constructors of the proxies all bear the proxy contract's name. *)
Lemma proxy_loop_names ps impls : ∀ acc cs,
  proxy_loop ps impls acc = Ret (Ok cs) →
  (∀ c, c ∈ acc → c_Name c = "ERC1967Proxy"%string) → ∀ c, c ∈ cs → c_Name c = "ERC1967Proxy"%string.
Proof.
  induction ps as [|[name p] ps IH]; intros acc cs H Hacc; cbn in H; [by injection H as <-|].
  destruct (negb (Proxied p)); [by eapply IH|].
  destruct (pack name p) as [[data|e]|w]; cbn in H; try done.
  apply (IH _ _ H). intros c. rewrite elem_of_app, list_elem_of_singleton.
  intros [Hc| ->]; [by apply Hacc|done].
Qed.

(** Hence the results of the proxies hold nothing under any other name. *)
Lemma BuildPredeployProxies_keys (b : B) ps impls res b' name :
  BuildPredeployProxies b ps impls = Ret (Ok res, b') → name ≠ "ERC1967Proxy"%string → res !! name = None.
Proof.
  unfold BuildPredeployProxies. intros H Hname.
  destruct (proxy_loop _ _ _) as [[cs|e]|w] eqn:Hl; cbn in H; try done.
  destruct (Deploy b cs l2Deployer) as [[[ds|e] b1]|w] eqn:Hd; cbn in H; try done.
  injection H as <- _. apply Deploy_results in Hd as [Hn _]. apply collect_None. rewrite Hn.
  intros (c & -> & Hc)%list_elem_of_fmap. apply Hname.
  apply (proxy_loop_names _ _ _ _ Hl); [by intros ? ?%elem_of_nil|done].
Qed.

Lemma BuildPredeployImpls_code (b : B) res b' name :
  BuildPredeployImpls b = Ret (Ok res, b') → name ∈ known_contracts →
  ∃ r, res !! name = Some r ∧ r_Bytecode r ≠ [].
Proof.
  unfold BuildPredeployImpls. intros H Hname.
  destruct (Deploy b implConstructors l2Deployer) as [[[ds|e] b1]|w] eqn:Hd; cbn in H; try done.
  injection H as <- _. apply Deploy_results in Hd as [Hn Hc]. apply collect_Some; [done|].
  by rewrite Hn.
Qed.

(** Where [BuildSpecular] succeeds. *)
Lemma BuildSpecular_results ps impls proxies :
  BuildSpecular ps = Ret (Ok (impls, proxies)) →
  (∀ name, name ∈ known_contracts → ∃ r, impls !! name = Some r ∧ r_Bytecode r ≠ []) ∧
  (∀ name, name ∈ known_contracts → proxies !! name = None) ∧
  deployed (map (λ name, (name, r_Bytecode (default zero_deployment (impls !! name)))) known_contracts) NewL2Backend.
Proof.
  unfold BuildSpecular. destruct (Check_configs ps); [done|]. intros H.
  destruct (BuildPredeployImpls NewL2Backend) as [[[im|e] b1]|w] eqn:Hi; cbn in H; try done.
  destruct (BuildPredeployProxies b1 ps im) as [[[pr|e] b2]|w] eqn:Hp; cbn in H; try done.
  injection H as <- <-. split; [|split; [|by eapply BuildPredeployImpls_deployed]]; intros name Hname.
  - by eapply BuildPredeployImpls_code.
  - eapply BuildPredeployProxies_keys; [exact Hp|]. intros ->.
    unfold known_contracts in Hname. rewrite !elem_of_cons, elem_of_nil in Hname. by intuition discriminate.
Qed.

End Facts.

(** ** The code namespace *)

(** Two bytes below a namespace whose last two bytes are zero. *)
Lemma lor_low16 c n : c mod 2 ^ 16 = 0 → 0 <= n < 2 ^ 16 → Z.lor c n = c + n.
Proof.
  intros Hc Hn. rewrite <- Z.lxor_lor, <- Z.add_nocarry_lxor; [done|..]; apply Z.bits_inj'; intros i Hi;
    rewrite Z.land_spec, Z.bits_0; destruct (Z_lt_le_dec i 16).
  all: try (rewrite (testbit_above n 16 i) by lia; apply andb_false_r).
  all: replace c with ((c / 2 ^ 16) * 2 ^ 16) by (Z.div_mod_to_equations; lia);
    rewrite Z.mul_pow2_bits_low by lia; done.
Qed.

Lemma lor_codeNamespace n : 0 <= n < 2 ^ 16 → Z.lor codeNamespace n = codeNamespace + n.
Proof. by apply lor_low16. Qed.

Lemma BigToAddress_impl a : BigToAddress (Z.lor codeNamespace (a mod 2 ^ 16)) = codeNamespace + a mod 2 ^ 16.
Proof.
  pose proof (Z.mod_pos_bound a (2 ^ 16) ltac:(done)). rewrite lor_codeNamespace by done.
  unfold BigToAddress, codeNamespace. rewrite Z.abs_eq, Z.mod_small by lia. done.
Qed.

Lemma AddressToCodeNamespace_Ok a i : AddressToCodeNamespace a = Ok i → i = codeNamespace + a mod 2 ^ 16.
Proof.
  unfold AddressToCodeNamespace. destruct (negb _); [done|]. intros [= <-]. apply BigToAddress_impl.
Qed.

(** [AddressToCodeNamespace] accepts exactly the addresses of the predeploy namespace; the
    result keeps the last two bytes only, is never itself a predeploy address, and two
    predeploys have the same implementation address exactly when their last two bytes are the
    same. *)
Theorem AddressToCodeNamespace_correct a :
  (IsL2Predeploy a = false → ∃ e, AddressToCodeNamespace a = Err e) ∧
  (IsL2Predeploy a = true → AddressToCodeNamespace a = Ok (codeNamespace + a mod 2 ^ 16) ∧
     IsL2Predeploy (codeNamespace + a mod 2 ^ 16) = false ∧
     ∀ b, IsL2Predeploy b = true →
       (AddressToCodeNamespace b = AddressToCodeNamespace a ↔ b mod 2 ^ 16 = a mod 2 ^ 16)).
Proof.
  unfold AddressToCodeNamespace.
  split; intros ->; cbn [negb]; [eauto|]. rewrite BigToAddress_impl. split; [done|]. split.
  - unfold IsL2Predeploy. apply Z.eqb_neq. rewrite Z.shiftr_div_pow2 by lia.
    pose proof (Z.mod_pos_bound a (2 ^ 16) ltac:(done)). unfold codeNamespace. intros Heq. revert Heq.
    Z.div_mod_to_equations. lia.
  - intros b ->. cbn [negb]. rewrite BigToAddress_impl. split; [|by intros ->]. intros [= Heq]. lia.
Qed.

(** ** A concrete backend *)
Module PredeploysSample.

(** A chain on which every deployment succeeds: the transaction carries the contract's name
    and its deployed code is the name's bytes. *)
Definition backend : DeployBackend (list string) string := {|
  NewL2Backend := [];
  NewKeyedTransactor := Ok tt;
  DeployBinding name _ b := (Ok name, b ++ [name]);
  Commit b := b;
  WaitDeployed _ b := Ok (4096 + Z.of_nat (length b));
  CodeAt addr b := (String.list_byte_of_string (default "?"%string (last b)), None)
|}.

Definition packer : InitPacker := {|
  GetAbi _ := Ok tt;
  abi_Pack _ _ args := Ok (repeat Byte.x01 (length args))
|}.

Definition in_order : MapRange := {| map_range _ _ K A l := l; map_range_perm _ _ K A l := Permutation_refl l |}.

(** The other order. *)
Definition reversed : MapRange := {|
  map_range _ _ K A l := rev l;
  map_range_perm _ _ K A l := Permutation_sym (Permutation_rev l)
|}.

End PredeploysSample.
