(* ===== verification/Genesis.v ===== *)
(** * The L2 genesis

    Models ops/genesis (genesis.go, config.go, helpers.go): the empty genesis of a
    configuration, the predeploys' configurations and the accounts they are given.  What it
    builds is specified in [GenesisPlan]; the command around it is [GenesisCommand]. *)

From S2P Require Import Prelude Errors Types MemoryDB Storage Predeploys.

(** ** Data *)

Definition InitializedValue : Z := 1.
Definition MaxInitializedValue : Z := 255.
Definition defaultL1Sender : Address := 0xdEaD.
Definition defaultGasLimit : Z := 30000000.

(** go-ethereum's [params.InitialBaseFee]. *)
Definition InitialBaseFee : Z := 1000000000.

Definition newHexBig (n : Z) : Z := n.

(** A nil [*hexutil.Big] is [None]. *)
Record GenesisConfig := mkGenesisConfig {
  L2ChainID : Z;
  L2GenesisBlockNonce : Z;
  L2GenesisBlockGasLimit : Z;
  L2GenesisBlockDifficulty : option Z;
  L2GenesisBlockMixHash : Hash;
  L2GenesisBlockCoinbase : Address;
  L2GenesisBlockNumber : Z;
  L2GenesisBlockGasUsed : Z;
  L2GenesisBlockParentHash : Hash;
  L2GenesisBlockBaseFeePerGas : option Z;
  L2GenesisBlockExtraData : bytes;
  L2PredeployOwner : Address;
  L1PortalAddress : Address;
  L1StandardBridgeAddress : Address;
  cfg_Alloc : gmap Address GenesisAccount
}.

(** The L1 block the genesis starts from, as far as it is read. *)
Record StartBlock := mkStartBlock {
  sb_Number : Z;
  sb_Time : Z;
  sb_BaseFee : option Z;
  sb_Hash : Hash;
  sb_Root : Hash
}.

(** [params.ChainConfig]: the forks, which all start at block zero except the DAO fork. *)
Record ChainConfig := mkChainConfig {
  ChainID : Z;
  DAOForkBlock : option Z;
  DAOForkSupport : bool;
  block_forks : list (string * Z);
  TerminalTotalDifficulty : Z;
  TerminalTotalDifficultyPassed : bool;
  EnableL2EngineApi : bool
}.

(** [core.Genesis]. *)
Record Genesis := mkGenesis {
  g_Config : ChainConfig;
  g_Nonce : Z;
  g_Timestamp : Z;
  g_ExtraData : bytes;
  g_GasLimit : Z;
  g_Difficulty : Z;
  g_Mixhash : Hash;
  g_Coinbase : Address;
  g_Number : Z;
  g_GasUsed : Z;
  g_ParentHash : Hash;
  g_BaseFee : Z;
  g_Alloc : gmap Address GenesisAccount
}.

Definition specularForks : list (string * Z) :=
  [("Homestead", 0); ("EIP150", 0); ("EIP155", 0); ("EIP158", 0); ("Byzantium", 0);
   ("Constantinople", 0); ("Petersburg", 0); ("Istanbul", 0); ("MuirGlacier", 0); ("Berlin", 0);
   ("London", 0); ("ArrowGlacier", 0); ("GrayGlacier", 0); ("MergeNetsplit", 0)].

Definition specularChainConfig (config : GenesisConfig) : ChainConfig :=
  mkChainConfig (L2ChainID config) None false specularForks 0 true true.

(** The genesis with other allocations. *)
Definition set_Alloc (g : Genesis) (alloc : gmap Address GenesisAccount) : Genesis :=
  mkGenesis (g_Config g) (g_Nonce g) (g_Timestamp g) (g_ExtraData g) (g_GasLimit g) (g_Difficulty g)
    (g_Mixhash g) (g_Coinbase g) (g_Number g) (g_GasUsed g) (g_ParentHash g) (g_BaseFee g) alloc.

(** ** The empty genesis *)

Definition NewL2EmptyGenesis (config : GenesisConfig) (block : StartBlock) : result Genesis :=
  if L2ChainID config =? 0 then Err (FmtError "must define L2 ChainID")
  else
    let gasLimit :=
      if L2GenesisBlockGasLimit config =? 0 then defaultGasLimit else L2GenesisBlockGasLimit config in
    let baseFee := default (newHexBig InitialBaseFee) (L2GenesisBlockBaseFeePerGas config) in
    let difficulty := default (newHexBig 0) (L2GenesisBlockDifficulty config) in
    let extraData := L2GenesisBlockExtraData config in
    if (32 <? length extraData)%nat then Err (FmtError "transition block extradata too long")
    else Ok (mkGenesis (specularChainConfig config) (L2GenesisBlockNonce config) (sb_Time block) extraData
               gasLimit difficulty (L2GenesisBlockMixHash config) (L2GenesisBlockCoinbase config)
               (L2GenesisBlockNumber config) (L2GenesisBlockGasUsed config)
               (L2GenesisBlockParentHash config) baseFee ∅).

(** ** The predeploys' configurations *)

(** A [*big.Int] in an interface. *)
Definition big_value (x : option Z) : any_value :=
  match x with Some n => v_bigInt n | None => v_bigInt_nil end.

(** The two variables of [Initializable], and the owner. *)
Definition initialized_storages (owner : Address) : list (string * StorageConfig) :=
  [("_initialized", mkStorageConfig (v_uint8 MaxInitializedValue) (v_uint8 InitializedValue));
   ("_initializing", mkStorageConfig (v_bool false) (v_bool false));
   ("_owner", mkStorageConfig v_nil (v_Address owner))].

Definition proxy_only (value : any_value) : StorageConfig := mkStorageConfig v_nil value.

Definition GeneratePredeployConfig (config : GenesisConfig) (block : StartBlock)
    : list (string * PredeployConfig) :=
  let base := initialized_storages (L2PredeployOwner config) in
  [("UUPSPlaceholder", mkPredeploy false [] "initialize" [] base);
   ("L1Oracle", mkPredeploy true [] "initialize" []
      (base ++
       [("number", proxy_only (v_bigInt (sb_Number block)));
        ("timestamp", proxy_only (v_uint64 (sb_Time block)));
        ("baseFee", proxy_only (big_value (sb_BaseFee block)));
        ("hash", proxy_only (v_Hash (sb_Hash block)));
        ("stateRoot", proxy_only (v_Hash (sb_Root block)))]));
   ("L2Portal", mkPredeploy true [] "initialize" [("_l1PortalAddress", v_Address (L1PortalAddress config))]
      (base ++
       [("l1PortalAddress", proxy_only (v_Address (L1PortalAddress config)));
        ("l1Sender", proxy_only (v_Address defaultL1Sender))]));
   ("L2StandardBridge", mkPredeploy true [] "initialize" [("_otherBridge", v_Address (L1StandardBridgeAddress config))]
      (base ++
       [("OTHER_BRIDGE", proxy_only (v_Address (L1StandardBridgeAddress config)));
        ("PORTAL_ADDRESS", proxy_only (v_Address (default zero_address (Predeploys !! "L2Portal"))))]))].

Section Genesis.
Context `{Cr : Crypto} `{Hx : Hex} `{MR : MapRange}.
Variable layouts : gmap string StorageLayout.
Variable deployedBytecodes : gmap string string.
Implicit Types db : MemoryStateDB.

(** ** The accounts of a predeploy *)

Definition is_nil (v : any_value) : bool := match v with v_nil => true | _ => false end.

(** The values that are set, for the implementation or for the proxy. *)
Definition storage_values (select : StorageConfig → any_value) (storages : list (string * StorageConfig))
    : list (string * any_value) :=
  filter (fun lv => negb (is_nil lv.2)) (map (fun ls => (ls.1, select ls.2)) storages).

(** The tail all three setups share: the values are computed by one range over [Storages],
    and [SetStorage] ranges over them. *)
Definition set_values (name : string) (addr : Address) (select : StorageConfig → any_value)
    (storages : list (string * StorageConfig)) db : go (result MemoryStateDB) :=
  let values := map_range "ComputeStorageSlots" addr (storage_values select storages) in
  '(r, db) ← SetStorage layouts name addr values db;
  Ret match r with Err e => Err e | Ok _ => Ok db end.

Definition predeploy_address (name : string) : go Address :=
  match Predeploys !! name with
  | None => Panic nil_deref
  | Some a => Ret a
  end.

Definition setupPredeploy (name : string) (config : PredeployConfig) (implDep : DeploymentResult) db
    : go (result MemoryStateDB) :=
  implAddr ← predeploy_address name;
  match (if Proxied config then AddressToCodeNamespace implAddr else Ok implAddr) with
  | Err e => Ret (Err e)
  | Ok implAddr =>
      let db := CreateAccount implAddr db in
      let db := SetCode implAddr (r_Bytecode implDep) db in
      set_values name implAddr ImplValue (Storages config) db
  end.

Definition setupProxy (name : string) (config : PredeployConfig) (proxyDep : DeploymentResult) db
    : go (result MemoryStateDB) :=
  if negb (Proxied config) then Ret (Ok db)
  else
    proxyAddr ← predeploy_address name;
    match AddressToCodeNamespace proxyAddr with
    | Err e => Ret (Err e)
    | Ok implAddr =>
        let db := CreateAccount proxyAddr db in
        let db := SetCode proxyAddr (r_Bytecode proxyDep) db in
        db ← SetState proxyAddr ImplementationSlot (AddressAsLeftPaddedHash implAddr) db;
        set_values name proxyAddr ProxyValue (Storages config) db
    end.

Definition setupEmptyProxy (addr : Address) (placeholderConfig : PredeployConfig) db
    : go (result MemoryStateDB) :=
  match GetDeployedBytecode deployedBytecodes "ERC1967Proxy" with
  | Err e => Ret (Err e)
  | Ok proxyCode =>
      let db := CreateAccount addr db in
      let db := SetCode addr proxyCode db in
      db ← SetState addr ImplementationSlot (AddressAsLeftPaddedHash UUPSPlaceholderAddr) db;
      set_values "UUPSPlaceholder" addr ProxyValue (Storages placeholderConfig) db
  end.

(** ** The allocations of the configuration *)

(** [account.Balance != nil || account.Balance.Cmp(common.Big0) > 0]: the second operand is
    evaluated on a nil balance. *)
Definition overlay (account existAccount : GenesisAccount) : go GenesisAccount :=
  balance ← match acc_Balance account with
            | Some b => Ret (Some b)
            | None => Panic nil_deref
            end;
  Ret (mkAccount
         (if (0 <? length (acc_Code account))%nat then acc_Code account else acc_Code existAccount)
         (if (0 <? size (default ∅ (acc_Storage account)))%nat then acc_Storage account else acc_Storage existAccount)
         balance
         (if negb (acc_Nonce account =? 0) then acc_Nonce account else acc_Nonce existAccount)).

Fixpoint allocs_loop (allocs : list (Address * GenesisAccount)) (alloc : gmap Address GenesisAccount)
    : go (gmap Address GenesisAccount) :=
  match allocs with
  | [] => Ret alloc
  | (addr, account) :: allocs =>
      match alloc !! addr with
      | Some existAccount =>
          existAccount ← overlay account existAccount;
          allocs_loop allocs (<[addr := existAccount]> alloc)
      | None => allocs_loop allocs (<[addr := account]> alloc)
      end
  end.

Definition setupAllocs (genesis : Genesis) (allocs : gmap Address GenesisAccount) : go Genesis :=
  alloc ← allocs_loop (map_range "setupAllocs" 0 (map_to_list allocs)) (g_Alloc genesis);
  Ret (set_Alloc genesis alloc).

(** ** The whole genesis *)

(** The loop over the predeploys, which also collects their addresses. *)
Fixpoint predeploys_loop (configs : list (string * PredeployConfig))
    (implDeployments proxyDeployments : gmap string DeploymentResult)
    (hasPredeploy : list Address) db : go (result (list Address * MemoryStateDB)) :=
  match configs with
  | [] => Ret (Ok (hasPredeploy, db))
  | (name, config) :: configs =>
      a ← predeploy_address name;
      r ← setupPredeploy name config (default zero_deployment (implDeployments !! name)) db;
      match r with
      | Err e => Ret (Err e)
      | Ok db =>
          r ← setupProxy name config (default zero_deployment (proxyDeployments !! name)) db;
          match r with
          | Err e => Ret (Err e)
          | Ok db => predeploys_loop configs implDeployments proxyDeployments (a :: hasPredeploy) db
          end
      end
  end.

(** The address of the loop's index, and the loop over the indices. *)
Definition namespace_address (i : Z) : Address := BigToAddress (Z.lor BigL2PredeployNamespace i).

Fixpoint empty_loop (indices : list Z) (hasPredeploy : list Address) (placeholder : PredeployConfig) db
    : go (result MemoryStateDB) :=
  match indices with
  | [] => Ret (Ok db)
  | i :: indices =>
      let addr := namespace_address i in
      if bool_decide (addr ∈ hasPredeploy) then empty_loop indices hasPredeploy placeholder db
      else
        r ← setupEmptyProxy addr placeholder db;
        match r with
        | Err e => Ret (Err e)
        | Ok db => empty_loop indices hasPredeploy placeholder db
        end
  end.

(** [for i := uint64(0); i <= PredeployProxyCount; i++]. *)
Definition namespace_indices : list Z := seqZ 0 (PredeployProxyCount + 1).

Definition BuildL2Genesis {B Tx : Type} `{DB : DeployBackend B Tx} `{IP : InitPacker}
    (config : GenesisConfig) (l1StartBlock : StartBlock) : go (result Genesis) :=
  match NewL2EmptyGenesis config l1StartBlock with
  | Err e => Ret (Err e)
  | Ok genesis =>
      let predeployConfigs := GeneratePredeployConfig config l1StartBlock in
      let db := mkDB (g_Alloc genesis) in
      r ← BuildSpecular (DB := DB) predeployConfigs;
      match r with
      | Err e => Ret (Err e)
      | Ok (implDeployments, proxyDeployments) =>
          r ← predeploys_loop (map_range "BuildL2Genesis" 0 predeployConfigs)
                implDeployments proxyDeployments [] db;
          match r with
          | Err e => Ret (Err e)
          | Ok (hasPredeploy, db) =>
              let placeholder := default zero_predeploy (lookup_name "UUPSPlaceholder" predeployConfigs) in
              r ← empty_loop namespace_indices hasPredeploy placeholder db;
              match r with
              | Err e => Ret (Err e)
              | Ok db =>
                  genesis ← setupAllocs (set_Alloc genesis (Alloc db)) (cfg_Alloc config);
                  Ret (Ok genesis)
              end
          end
      end
  end.

End Genesis.
