(* ===== verification/GenesisPlan.v ===== *)
(** * What the L2 genesis holds

    The abstract specification of [Genesis]: [genesis_plan] is the list of accounts, with
    code and storage, that a genesis should hold; [BuildL2Genesis] is shown to carry it out,
    whatever the order in which Go ranges over the maps. *)

From S2P Require Import Prelude Errors Types MemoryDB Storage Predeploys Genesis.

(** ** What a genesis should hold

    A planned account has code, no balance, nonce zero, and (when it is a proxy) the address
    of its implementation in the EIP-1967 slot; the rest of its storage is the encoding of the
    configured values by the layout of a contract, and nothing else. *)
Record Planned := mkPlanned {
  pl_Address : Address;
  pl_Code : bytes;
  pl_Impl : option Hash;
  pl_Contract : string;
  pl_Values : list (string * any_value)
}.

(** The storage that a list of slots amounts to. *)
Definition slots_map (slots : list EncodedStorage) : gmap Hash Hash :=
  list_to_map (map (λ s, (es_Key s, es_Value s)) slots).

Lemma slots_map_None slots k : k ∉ map es_Key slots → slots_map slots !! k = None.
Proof.
  intros H. apply not_elem_of_list_to_map_1. contradict H.
  apply list_elem_of_fmap in H as ([k' v] & -> & H). apply list_elem_of_fmap in H as (s & [= -> ->] & H).
  by apply (list_elem_of_fmap_2 es_Key).
Qed.

Lemma slots_map_Some slots s : NoDup (map es_Key slots) → s ∈ slots → slots_map slots !! es_Key s = Some (es_Value s).
Proof.
  induction slots as [|s' slots IH]; intros Hnd Hin; [by apply elem_of_nil in Hin|].
  cbn [map] in Hnd. apply NoDup_cons in Hnd as [Hni Hnd]. unfold slots_map. cbn.
  apply elem_of_cons in Hin as [->|Hin]; [apply lookup_insert_eq|].
  rewrite lookup_insert_ne; [by apply IH|]. intros Hk. apply Hni. rewrite Hk. by apply (list_elem_of_fmap_2 es_Key).
Qed.

Section Spec.
Context `{Cr : Crypto} `{Hx : Hex}.
Variable layouts : gmap string StorageLayout.

(** The storage holds the values, computed in some order (the slots do not depend on it). *)
Definition holds (contract : string) (values : list (string * any_value)) (impl : option Hash) (m : gmap Hash Hash) : Prop :=
  ∃ layout values' slots, layouts !! contract = Some layout ∧ values' ≡ₚ values ∧
    ComputeStorageSlots layout values' = Ret (Ok slots) ∧ m !! ImplementationSlot = impl ∧
    ∀ k, k ≠ ImplementationSlot → m !! k = slots_map slots !! k.

Definition realizes (p : Planned) (acc : option GenesisAccount) : Prop :=
  ∃ m, acc = Some (mkAccount (pl_Code p) (Some m) (Some 0) 0) ∧ holds (pl_Contract p) (pl_Values p) (pl_Impl p) m.

(** The plan is carried out: its accounts are there and the others are as before. *)
Definition carried_out (ps : list Planned) (alloc alloc' : gmap Address GenesisAccount) : Prop :=
  (∀ p, p ∈ ps → realizes p (alloc' !! pl_Address p)) ∧
  (∀ a, a ∉ map pl_Address ps → alloc' !! a = alloc !! a).

End Spec.

Definition impl_of (a : Address) : Address := codeNamespace + a mod 2 ^ 16.

Definition proxied_predeploys : list (string * Address) :=
  [("L1Oracle", L1OracleAddr); ("L2Portal", L2PortalAddr); ("L2StandardBridge", L2StandardBridgeAddr)].

Definition predeploy_addresses : list Address := UUPSPlaceholderAddr :: map snd proxied_predeploys.

(** The plan of one predeploy: the implementation with its values, and the proxy, when there
    is one, with its own; an account for the code of each. *)
Definition predeploy_plan (implCode proxyCode : string → bytes) (nc : string * PredeployConfig) : list Planned :=
  let a := default zero_address (Predeploys !! nc.1) in
  let values select := storage_values select (Storages nc.2) in
  mkPlanned (if Proxied nc.2 then impl_of a else a) (implCode nc.1) None nc.1 (values ImplValue) ::
  if Proxied nc.2 then [mkPlanned a (proxyCode nc.1) (Some (impl_of a)) nc.1 (values ProxyValue)] else [].

(** A placeholder proxy. *)
Definition placeholder_plan (placeholder : PredeployConfig) (code : bytes) (a : Address) : Planned :=
  mkPlanned a code (Some UUPSPlaceholderAddr) "UUPSPlaceholder" (storage_values ProxyValue (Storages placeholder)).

(** The whole plan: the configured predeploys (the placeholder itself among them, at the first
    address of the namespace, without a proxy), the proxies of the others without code, and a
    placeholder proxy at every other address of the namespace. *)
Definition genesis_plan (configs : list (string * PredeployConfig)) (implCode : string → bytes) (proxyCode : bytes)
    : list Planned :=
  flat_map (predeploy_plan implCode (λ _, [])) configs ++
  map (placeholder_plan (default zero_predeploy (lookup_name "UUPSPlaceholder" configs)) proxyCode)
    (filter (λ a, a ∉ predeploy_addresses) (map namespace_address namespace_indices)).

(** ** Lemmas *)

Section CarriedOut.
Context `{Cr : Crypto} `{Hx : Hex} {layouts : gmap string StorageLayout}.
#[local] Abbreviation carried_out := (carried_out layouts).

Lemma carried_out_nil alloc : carried_out [] alloc alloc.
Proof. split; [by intros p ?%elem_of_nil|done]. Qed.

Lemma carried_out_app ps qs alloc alloc1 alloc2 :
  carried_out ps alloc alloc1 → carried_out qs alloc1 alloc2 →
  (∀ a, a ∈ map pl_Address ps → a ∉ map pl_Address qs) → carried_out (ps ++ qs) alloc alloc2.
Proof.
  intros [Hp Hpf] [Hq Hqf] Hd. split.
  - intros p [Hin|Hin]%elem_of_app; [|by apply Hq].
    rewrite Hqf by (apply Hd, list_elem_of_fmap_2, Hin). by apply Hp.
  - intros a. rewrite map_app, not_elem_of_app. intros [H1 H2]. by rewrite Hqf, Hpf.
Qed.

Lemma carried_out_permutation ps qs alloc alloc' :
  ps ≡ₚ qs → carried_out ps alloc alloc' → carried_out qs alloc alloc'.
Proof.
  intros Hp [H1 H2]. split.
  - intros p Hin. apply H1. by rewrite Hp.
  - intros a Ha. apply H2. contradict Ha. unfold map in *. by rewrite <- Hp.
Qed.

End CarriedOut.

(** ** The slots of plain values

    A value that is not a mapping is stored at the slot number of the layout, below 2^64, and
    never at the EIP-1967 slot. *)
Definition plain (v : any_value) : Prop := match v with v_mapping _ => False | _ => True end.

Definition small_keys (l : list EncodedStorage) : Prop := Forall (λ s, is_u64 (es_Key s)) l.

Lemma encodeSlotKey_small entry : is_u64 (encodeSlotKey entry).
Proof.
  unfold encodeSlotKey. rewrite BigToHash_small; [apply u64_range|].
  pose proof (u64_range (e_Slot entry)). unfold is_word, is_u64, two256, two64 in *. lia.
Qed.

Lemma inplace_small what key r l : is_u64 key → inplace what key r = Ret (Ok l) → small_keys l.
Proof.
  intros Hk. unfold inplace. destruct r as [[v|e]|w]; cbn; [|done|done].
  intros [= <-]. by apply Forall_singleton.
Qed.

Section Slots.
Context `{Cr : Crypto} `{Hx : Hex} `{MR : MapRange}.

Lemma EncodeStorage_small entry v ty l : plain v → EncodeStorage entry v ty = Ret (Ok l) → small_keys l.
Proof.
  intros Hv. unfold EncodeStorage. destruct (_ >? _); [done|]. unfold EncodeStorageKeyValue.
  pose proof (encodeSlotKey_small entry) as Hk.
  destruct (String.eqb _ "inplace").
  { repeat (destruct (String.eqb _ _) || destruct (String.prefix _ _));
      first [done|by apply inplace_small]. }
  destruct (String.eqb _ "dynamic_array"); [intros [= <-]; constructor|].
  destruct (String.eqb _ "bytes").
  { destruct (String.eqb _ _); [|done]. destruct (EncodeStringValue v _) as [[w|e]|w]; cbn; [|done|done].
    intros [= <-]. by apply Forall_singleton. }
  destruct (String.eqb _ "mapping"); [|done]. destruct (String.prefix _ _); [done|].
  by destruct v.
Qed.

Lemma compute_loop_small layout values : ∀ acc l,
  Forall (λ lv, plain lv.2) values → small_keys acc →
  compute_loop layout values acc = Ret (Ok l) → small_keys l.
Proof.
  induction values as [|[label v] values IH]; intros acc l Hp Hacc H; cbn in H; [by injection H as <-|].
  apply Forall_cons in Hp as [Hv Hp].
  destruct (String.eqb _ ""); [done|]. destruct (String.eqb _ ""); [done|].
  destruct (EncodeStorage _ v _) as [[st|e]|w] eqn:He; cbn in H; [|done|done].
  eapply IH; [exact Hp| |exact H]. apply Forall_app. split; [done|]. by eapply EncodeStorage_small.
Qed.

(** Merging makes no new key. *)
Lemma MergeStorage_incl l k : k ∈ map es_Key (MergeStorage l) → k ∈ map es_Key l.
Proof.
  unfold MergeStorage.
  assert (Hf : ∀ k, k ∈ (fold_left merge_step l (∅, [])).2 → k ∈ map es_Key l).
  { clear k. induction l as [|s l IH] using rev_ind; [by intros k ?%elem_of_nil|]. intros k.
    rewrite fold_left_app, map_app. cbn [fold_left map]. rewrite elem_of_app, list_elem_of_singleton.
    destruct (fold_left merge_step l (∅, [])) as [kv keys]. cbn. destruct (kv !! es_Key s); cbn; [by left; apply IH|].
    intros [Hk| ->%list_elem_of_singleton]%elem_of_app; [by left; apply IH|by right]. }
  specialize (Hf k). destruct (fold_left merge_step l (∅, [])) as [kv keys]. rewrite map_map.
  cbn. rewrite map_id. exact Hf.
Qed.

Lemma ComputeStorageSlots_small layout values slots :
  Forall (λ lv, plain lv.2) values → ComputeStorageSlots layout values = Ret (Ok slots) →
  Forall is_u64 (map es_Key slots).
Proof.
  unfold ComputeStorageSlots. intros Hp H.
  destruct (compute_loop layout values []) as [[enc|e]|w] eqn:Hc; cbn in H; [|done|done]. injection H as <-.
  apply compute_loop_small in Hc; [|done|constructor].
  apply Forall_forall. intros k (s & -> & Hs)%MergeStorage_incl%list_elem_of_fmap.
  unfold small_keys in Hc. rewrite Forall_forall in Hc. by apply Hc.
Qed.

Lemma ComputeStorageSlots_NoDup layout values slots :
  ComputeStorageSlots layout values = Ret (Ok slots) → NoDup (map es_Key slots).
Proof.
  unfold ComputeStorageSlots. destruct (compute_loop layout values []) as [[enc|e]|w]; [|done..].
  intros [= <-]. apply MergeStorage_keys_NoDup.
Qed.

(** [SetStorage] touches the storage of one account, where the slots go. *)
Lemma set_slots_frame addr slots : ∀ (db : MemoryStateDB) code m bal n db', NoDup (map es_Key slots) →
  Alloc db !! addr = Some (mkAccount code (Some m) bal n) → set_slots addr slots db = Ret db' →
  Alloc db' = <[addr := mkAccount code (Some (slots_map slots ∪ m)) bal n]> (Alloc db).
Proof.
  induction slots as [|s slots IH]; intros db code m bal n db' Hnd Ha H; cbn [set_slots map] in *.
  { injection H as <-. unfold slots_map. cbn. rewrite (left_id_L ∅ (∪)). symmetry. by apply insert_id. }
  cbn [sdb_SetState MemoryStateDB_StateDB] in H. unfold SetState in H. rewrite Ha in H. cbn in H.
  apply NoDup_cons in Hnd as [Hni Hnd].
  eapply IH in H; [|done|cbn; apply lookup_insert_eq]. rewrite H. cbn. rewrite insert_insert_eq. do 3 f_equal.
  unfold slots_map. cbn. rewrite <- insert_union_l, <- insert_union_r; [done|]. by apply slots_map_None.
Qed.

Lemma SetStorage_frame layouts name addr values (db : MemoryStateDB) code m bal n db' impl :
  Alloc db !! addr = Some (mkAccount code (Some m) bal n) → Forall (λ lv, plain lv.2) values →
  m !! ImplementationSlot = impl → (∀ k, k ≠ ImplementationSlot → m !! k = None) →
  SetStorage layouts name addr values db = Ret (Ok tt, db') →
  ∃ m', Alloc db' = <[addr := mkAccount code (Some m') bal n]> (Alloc db) ∧ holds layouts name values impl m'.
Proof.
  intros Ha Hp Hm Hm0. unfold SetStorage, GetStorageLayout. destruct (layouts !! name) as [layout|] eqn:Hl; [|done].
  destruct (ComputeStorageSlots layout values) as [[slots|e]|w] eqn:Hc; cbn; [|done|done].
  destruct (set_slots addr slots db) as [db1|w] eqn:Hs; cbn; [|done]. intros [= <-].
  eapply set_slots_frame in Hs; [|by eapply ComputeStorageSlots_NoDup|exact Ha].
  exists (slots_map slots ∪ m). split; [exact Hs|]. exists layout, values, slots. do 3 (split; [done|]). split.
  - rewrite lookup_union_r; [done|]. apply slots_map_None. intros Hk.
    eapply ComputeStorageSlots_small in Hc; [|done]. rewrite Forall_forall in Hc.
    apply Hc in Hk. unfold is_u64, two64, ImplementationSlot in Hk. lia.
  - intros k Hk. rewrite lookup_union, (Hm0 k Hk). by destruct (slots_map slots !! k).
Qed.

End Slots.

(** ** Carrying the plan out *)

Section Plan.
Context `{Cr : Crypto} `{Hx : Hex} `{MR : MapRange}.
Variable layouts : gmap string StorageLayout.
Variable deployedBytecodes : gmap string string.
#[local] Abbreviation carried_out := (carried_out layouts).

(** Configurations without mappings. *)
Definition plain_storages (st : list (string * StorageConfig)) : Prop :=
  Forall (λ ls, plain (ImplValue ls.2) ∧ plain (ProxyValue ls.2)) st.

Lemma storage_values_plain select st :
  Forall (λ ls, plain (select ls.2)) st → Forall (λ lv, plain lv.2) (storage_values select st).
Proof.
  intros H. unfold storage_values. apply Forall_forall. intros lv [_ Hin]%list_elem_of_filter.
  apply list_elem_of_fmap in Hin as (ls & -> & Hin). rewrite Forall_forall in H. by apply H.
Qed.

(** The common tail, on an account just created. *)
Lemma set_values_planned p name addr select st db m db' :
  addr = pl_Address p → name = pl_Contract p → storage_values select st = pl_Values p →
  Forall (λ ls, plain (select ls.2)) st →
  Alloc db !! addr = Some (mkAccount (pl_Code p) (Some m) (Some 0) 0) →
  m !! ImplementationSlot = pl_Impl p → (∀ k, k ≠ ImplementationSlot → m !! k = None) →
  set_values layouts name addr select st db = Ret (Ok db') → carried_out [p] (Alloc db) (Alloc db').
Proof.
  intros -> -> Hv Hst Ha Hm Hm0. unfold set_values.
  destruct (SetStorage _ _ _ _ _) as [[[[]|e] db1]|w] eqn:Hs; cbn; [|done|done].
  intros [= <-]. eapply (SetStorage_frame _ _ _ _ _ _ _ _ _ _ _ Ha) in Hs as (m' & -> & Hm'); [|..|exact Hm|exact Hm0].
  2: { rewrite map_range_perm. by apply storage_values_plain. }
  split.
  - intros q ->%list_elem_of_singleton. rewrite lookup_insert_eq. exists m'. split; [done|].
    destruct Hm' as (layout & values & slots & ? & Hperm & ?). exists layout, values, slots. split; [done|].
    split; [|done]. by rewrite Hperm, map_range_perm, Hv.
  - intros a Hne%not_elem_of_cons. by rewrite lookup_insert_ne by naive_solver.
Qed.

(** What the creation of a fresh account and of its code gives. *)
Lemma create_set_code addr code db :
  Alloc db !! addr = None →
  SetCode addr code (CreateAccount addr db) = set_account addr (mkAccount code (Some ∅) (Some 0) 0) db.
Proof.
  intros Ha. unfold SetCode, CreateAccount. rewrite Ha. cbn. rewrite lookup_insert_eq. cbn.
  unfold set_account. cbn. by rewrite insert_insert_eq.
Qed.

(** [set_account] on a fresh address may be dropped from the start of a plan. *)
Lemma carried_out_fresh p acc db alloc' :
  carried_out [p] (Alloc (set_account (pl_Address p) acc db)) alloc' → carried_out [p] (Alloc db) alloc'.
Proof.
  intros [H1 H2]. split; [done|]. intros a Ha. rewrite H2 by done. cbn.
  rewrite lookup_insert_ne; [done|]. intros <-. apply Ha. left.
Qed.

Lemma setupPredeploy_planned name config implDep db db' a :
  Predeploys !! name = Some a → plain_storages (Storages config) →
  let target := if Proxied config then impl_of a else a in
  Alloc db !! target = None → setupPredeploy layouts name config implDep db = Ret (Ok db') →
  carried_out [mkPlanned target (r_Bytecode implDep) None name (storage_values ImplValue (Storages config))]
    (Alloc db) (Alloc db').
Proof.
  intros Hn Hst target Ha. unfold setupPredeploy, predeploy_address. rewrite Hn. cbn [mbind go_bind].
  assert (Ht : ∀ i, (if Proxied config then AddressToCodeNamespace a else Ok a) = Ok i → i = target).
  { unfold target. destruct (Proxied config); intros i Hi; [by apply AddressToCodeNamespace_Ok|congruence]. }
  destruct (if Proxied config then AddressToCodeNamespace a else Ok a) as [i|e]; [|done]. rewrite (Ht i eq_refl).
  rewrite create_set_code by done. intros Hs.
  eapply (carried_out_fresh (mkPlanned target _ _ _ _)).
  eapply (set_values_planned (mkPlanned target _ _ _ _) _ _ _ _ _ ∅);
    [done|done|done| |apply lookup_insert_eq|apply lookup_empty|intros; apply lookup_empty|exact Hs].
  eapply Forall_impl; [exact Hst|]. by intros ? [].
Qed.

(** A proxy: code and implementation slot, then the values. *)
Lemma proxy_planned name addr code impl select st db db' :
  Forall (λ ls, plain (select ls.2)) st → Alloc db !! addr = None →
  (db1 ← SetState addr ImplementationSlot impl (SetCode addr code (CreateAccount addr db));
   set_values layouts name addr select st db1) = Ret (Ok db') →
  carried_out [mkPlanned addr code (Some impl) name (storage_values select st)] (Alloc db) (Alloc db').
Proof.
  intros Hst Ha. rewrite create_set_code by done. unfold SetState. cbn. rewrite lookup_insert_eq. cbn. intros Hs.
  eapply (carried_out_fresh (mkPlanned addr _ _ _ _)), (carried_out_fresh (mkPlanned addr _ _ _ _)).
  eapply (set_values_planned (mkPlanned addr _ _ _ _)); [done|done|done|exact Hst|apply lookup_insert_eq|..|exact Hs].
  - cbn. apply lookup_insert_eq.
  - intros k Hk. rewrite lookup_insert_ne by done. apply lookup_empty.
Qed.

Lemma setupProxy_planned name config proxyDep db db' a :
  Predeploys !! name = Some a → plain_storages (Storages config) → Alloc db !! a = None →
  setupProxy layouts name config proxyDep db = Ret (Ok db') →
  carried_out (if Proxied config
    then [mkPlanned a (r_Bytecode proxyDep) (Some (impl_of a)) name (storage_values ProxyValue (Storages config))] else [])
    (Alloc db) (Alloc db').
Proof.
  intros Hn Hst Ha. unfold setupProxy, predeploy_address. rewrite Hn. cbn [mbind go_bind].
  destruct (Proxied config); cbn [negb]; [|intros [= <-]; apply carried_out_nil].
  destruct (AddressToCodeNamespace a) as [i|e] eqn:Hi; [|done]. apply AddressToCodeNamespace_Ok in Hi as ->.
  apply proxy_planned; [|done]. eapply Forall_impl; [exact Hst|]. by intros ? [].
Qed.

Lemma setupEmptyProxy_planned addr placeholder db db' code :
  plain_storages (Storages placeholder) → Alloc db !! addr = None →
  GetDeployedBytecode deployedBytecodes "ERC1967Proxy" = Ok code →
  setupEmptyProxy layouts deployedBytecodes addr placeholder db = Ret (Ok db') →
  carried_out [placeholder_plan placeholder code addr] (Alloc db) (Alloc db').
Proof.
  intros Hst Ha Hc. unfold setupEmptyProxy. rewrite Hc. apply proxy_planned; [|done].
  eapply Forall_impl; [exact Hst|]. by intros ? [].
Qed.

(** The code of a deployment's result. *)
Definition code_of (deployments : gmap string DeploymentResult) (name : string) : bytes :=
  r_Bytecode (default zero_deployment (deployments !! name)).

Lemma predeploys_loop_planned impls proxies configs : ∀ has db has' db',
  Forall (λ nc, is_Some (Predeploys !! nc.1) ∧ plain_storages (Storages nc.2)) configs →
  NoDup (map pl_Address (flat_map (predeploy_plan (code_of impls) (code_of proxies)) configs)) →
  (∀ a, a ∈ map pl_Address (flat_map (predeploy_plan (code_of impls) (code_of proxies)) configs) → Alloc db !! a = None) →
  predeploys_loop layouts configs impls proxies has db = Ret (Ok (has', db')) →
  carried_out (flat_map (predeploy_plan (code_of impls) (code_of proxies)) configs) (Alloc db) (Alloc db') ∧
  has' = rev (map (λ nc, default zero_address (Predeploys !! nc.1)) configs) ++ has.
Proof.
  induction configs as [|[name config] configs IH]; intros has db has' db' Hok Hnd Hfresh H; cbn [predeploys_loop] in H.
  { injection H as <- <-. split; [apply carried_out_nil|done]. }
  apply Forall_cons in Hok as [[[a Ha] Hst] Hok]. cbn [fst snd] in Ha, Hst.
  unfold predeploy_address in H. rewrite Ha in H. cbn [mbind go_bind] in H.
  set (plan1 := predeploy_plan (code_of impls) (code_of proxies) (name, config)).
  assert (Hplan1 : ∀ db1 db2,
    setupPredeploy layouts name config (default zero_deployment (impls !! name)) db = Ret (Ok db1) →
    setupProxy layouts name config (default zero_deployment (proxies !! name)) db1 = Ret (Ok db2) →
    carried_out plan1 (Alloc db) (Alloc db2)).
  { intros db1 db2 H1 H2. unfold plan1, predeploy_plan. cbn [fst snd]. rewrite Ha. cbn [default].
    cbn [flat_map] in Hfresh, Hnd. fold plan1 in Hfresh, Hnd. rewrite map_app in Hfresh, Hnd.
    assert (Hf1 : ∀ x, x ∈ map pl_Address plan1 → Alloc db !! x = None)
      by (intros x Hin; apply Hfresh, elem_of_app; by left).
    apply NoDup_app in Hnd as [Hnd1 _].
    unfold plan1, predeploy_plan in Hf1, Hnd1. cbn [fst snd map] in Hf1, Hnd1. rewrite Ha in Hf1, Hnd1. cbn in Hf1, Hnd1.
    eapply setupPredeploy_planned in H1; [|exact Ha|exact Hst|apply Hf1; left].
    apply (carried_out_app [_]  _ _ _ _ H1).
    - destruct (Proxied config) eqn:Hp.
      + eapply setupProxy_planned in H2; [by rewrite Hp in H2|exact Ha|exact Hst|].
        destruct H1 as [_ H1]. rewrite H1; [apply Hf1; right; left|].
        apply NoDup_cons in Hnd1 as [Hni _]. cbn in Hni |- *. rewrite list_elem_of_singleton in Hni |- *. congruence.
      + unfold setupProxy in H2. rewrite Hp in H2. injection H2 as <-. apply carried_out_nil.
    - intros x ->%list_elem_of_singleton. cbn.
      by apply NoDup_cons in Hnd1 as [Hni _]. }
  destruct (setupPredeploy _ _ _ _ _) as [[db1|e]|w]; cbn in H; [|done|done].
  destruct (setupProxy _ _ _ _ _) as [[db2|e]|w] eqn:H2; cbn in H; [|done|done].
  specialize (Hplan1 db1 db2 eq_refl H2). cbn [flat_map] in *. fold plan1 in Hnd, Hfresh |- *.
  rewrite map_app in Hnd, Hfresh. apply NoDup_app in Hnd as (_ & Hdisj & Hnd).
  destruct (IH (a :: has) db2 has' db' Hok Hnd) as [IH1 ->]; [|done|].
  { intros x Hin. destruct Hplan1 as [_ Hframe]. rewrite Hframe; [apply Hfresh, elem_of_app; by right|].
    intros Hin'. by apply (Hdisj x). }
  split; [by eapply carried_out_app|]. cbn. rewrite Ha, <- app_assoc. done.
Qed.

Lemma empty_loop_planned indices has placeholder code : ∀ db db',
  plain_storages (Storages placeholder) → GetDeployedBytecode deployedBytecodes "ERC1967Proxy" = Ok code →
  let addrs := filter (λ a, a ∉ has) (map namespace_address indices) in
  NoDup addrs → (∀ a, a ∈ addrs → Alloc db !! a = None) →
  empty_loop layouts deployedBytecodes indices has placeholder db = Ret (Ok db') →
  carried_out (map (placeholder_plan placeholder code) addrs) (Alloc db) (Alloc db').
Proof.
  intros db db' Hst Hc. revert db. induction indices as [|i indices IH]; intros db addrs Hnd Hfresh H.
  { injection H as <-. apply carried_out_nil. }
  unfold addrs in *. cbn [map empty_loop] in *. clear addrs. rewrite filter_cons in *.
  destruct (decide (namespace_address i ∈ has)) as [Hin|Hni].
  - rewrite bool_decide_eq_true_2 in H by done. rewrite decide_False in * by tauto. by apply IH.
  - rewrite bool_decide_eq_false_2 in H by done. rewrite decide_True in * by done.
    destruct (setupEmptyProxy _ _ _ _ _) as [[db1|e]|w] eqn:Hs; cbn in H; [|done|done].
    apply NoDup_cons in Hnd as [Hni' Hnd].
    eapply setupEmptyProxy_planned in Hs; [|done|apply Hfresh; left|done].
    cbn [map]. apply (carried_out_app [_] _ _ _ _ Hs).
    + apply IH; [done| |done]. intros a Ha. destruct Hs as [_ Hs]. rewrite Hs; [apply Hfresh; by right|].
      cbn. rewrite list_elem_of_singleton. by intros ->.
    + intros a ->%list_elem_of_singleton. cbn. rewrite map_map. cbn. by rewrite map_id.
Qed.

End Plan.

(** ** The allocations *)

(** What the configuration's account makes of the one in place. *)
Definition overlaid (account existing : option GenesisAccount) : go (option GenesisAccount) :=
  match account, existing with
  | None, _ => Ret existing
  | Some account, None => Ret (Some account)
  | Some account, Some existAccount => a ← overlay account existAccount; Ret (Some a)
  end.

(** A configured account without a balance that meets an account in place. *)
Definition nil_balance_clash (allocs : list (Address * GenesisAccount)) (alloc : gmap Address GenesisAccount) : Prop :=
  ∃ a acc, (a, acc) ∈ allocs ∧ acc_Balance acc = None ∧ is_Some (alloc !! a).

Lemma overlay_cases account existing :
  (acc_Balance account = None ∧ overlay account existing = Panic nil_deref) ∨
  (is_Some (acc_Balance account) ∧ ∃ acc, overlay account existing = Ret acc).
Proof. unfold overlay. destruct (acc_Balance account); [right|by left]. split; [done|]. by eexists. Qed.

Lemma allocs_loop_spec allocs : ∀ alloc,
  NoDup allocs.*1 →
  (allocs_loop allocs alloc = Panic nil_deref ∧ nil_balance_clash allocs alloc) ∨
  (¬ nil_balance_clash allocs alloc ∧ ∃ alloc', allocs_loop allocs alloc = Ret alloc' ∧
     ∀ a, overlaid (list_to_map (M := gmap Address GenesisAccount) allocs !! a) (alloc !! a) = Ret (alloc' !! a)).
Proof.
  induction allocs as [|[a acc] allocs IH]; intros alloc Hnd.
  { right. split; [by intros (a & acc & ?%elem_of_nil & _)|]. exists alloc. split; [done|]. intros a.
    cbn. by rewrite lookup_empty. }
  cbn in Hnd. apply NoDup_cons in Hnd as [Hni Hnd].
  assert (Hstep : ∀ x, overlaid (Some acc) (alloc !! a) = Ret (Some x) →
    ¬ (acc_Balance acc = None ∧ is_Some (alloc !! a)) →
    allocs_loop ((a, acc) :: allocs) alloc = allocs_loop allocs (<[a := x]> alloc) →
    (allocs_loop ((a, acc) :: allocs) alloc = Panic nil_deref ∧ nil_balance_clash ((a, acc) :: allocs) alloc) ∨
    (¬ nil_balance_clash ((a, acc) :: allocs) alloc ∧ ∃ alloc',
       allocs_loop ((a, acc) :: allocs) alloc = Ret alloc' ∧
       ∀ b, overlaid (list_to_map (M := gmap Address GenesisAccount) ((a, acc) :: allocs) !! b) (alloc !! b)
              = Ret (alloc' !! b))).
  { intros x Hx Hnc ->.
    assert (Hclash : nil_balance_clash ((a, acc) :: allocs) alloc ↔ nil_balance_clash allocs (<[a := x]> alloc)).
    { unfold nil_balance_clash. split; intros (b & accb & Hin & Hbal & Hsome).
      - apply elem_of_cons in Hin as [[= -> ->]|Hin]; [tauto|]. exists b, accb. split; [done|]. split; [done|].
        rewrite lookup_insert_ne; [done|]. intros <-. apply Hni. by apply (list_elem_of_fmap_2 fst) in Hin.
      - exists b, accb. split; [by right|]. split; [done|].
        rewrite lookup_insert_ne in Hsome; [done|]. intros <-. apply Hni. by apply (list_elem_of_fmap_2 fst) in Hin. }
    destruct (IH (<[a := x]> alloc) Hnd) as [[-> Hc]|[Hc (alloc' & -> & Hl)]]; [left|right];
      rewrite Hclash; [done|]. split; [done|]. exists alloc'. split; [done|]. intros b. cbn.
    specialize (Hl b). destruct (decide (b = a)) as [->|Hne].
    - rewrite lookup_insert_eq in Hl |- *. rewrite Hx, <- Hl.
      by rewrite not_elem_of_list_to_map_1 by done.
    - by rewrite lookup_insert_ne in Hl |- * by done. }
  cbn [allocs_loop] in *. destruct (alloc !! a) as [existing|] eqn:Ha.
  - destruct (overlay_cases acc existing) as [[Hb Ho]|[Hb (x & Ho)]]; rewrite Ho in *; cbn in *.
    + left. split; [done|]. exists a, acc. split; [left|]. split; [done|]. by rewrite Ha.
    + apply (Hstep x); [by rewrite Ho| |done]. intros [Hn _]. rewrite Hn in Hb. by destruct Hb.
  - apply (Hstep acc); [done| |done]. by intros [_ [? ?]].
Qed.

(** ** The addresses of the plan *)

Lemma namespace_address_eq i : 0 <= i < 2 ^ 16 → namespace_address i = BigL2PredeployNamespace + i.
Proof.
  intros Hi. unfold namespace_address, BigToAddress. rewrite lor_low16 by done.
  unfold BigL2PredeployNamespace. rewrite Z.abs_eq, Z.mod_small by lia. done.
Qed.

Lemma namespace_addresses_elem a :
  a ∈ map namespace_address namespace_indices ↔
  BigL2PredeployNamespace <= a <= BigL2PredeployNamespace + PredeployProxyCount.
Proof.
  unfold namespace_indices, PredeployProxyCount. split.
  - intros (i & -> & Hi%elem_of_seqZ)%list_elem_of_fmap. rewrite namespace_address_eq by lia. lia.
  - intros Ha. apply list_elem_of_fmap. exists (a - BigL2PredeployNamespace).
    rewrite elem_of_seqZ, namespace_address_eq by lia. lia.
Qed.

Lemma namespace_addresses_NoDup : NoDup (map namespace_address namespace_indices).
Proof.
  apply NoDup_fmap_2_strong; [|apply NoDup_seqZ]. intros i j Hi%elem_of_seqZ Hj%elem_of_seqZ.
  unfold PredeployProxyCount in *. rewrite !namespace_address_eq by lia. lia.
Qed.

(** The three implementation addresses, and the four of the predeploys. *)
Definition planned_addresses : list Address :=
  predeploy_addresses ++ map (λ na, impl_of na.2) proxied_predeploys.

Lemma planned_addresses_spec a :
  a ∈ planned_addresses → a ∈ map namespace_address namespace_indices → a ∈ predeploy_addresses.
Proof.
  unfold planned_addresses. rewrite elem_of_app. intros [H|H] Hn; [done|exfalso].
  apply namespace_addresses_elem in Hn. revert Hn.
  cbn in H. rewrite !elem_of_cons, elem_of_nil in H.
  unfold BigL2PredeployNamespace, PredeployProxyCount.
  destruct H as [->|[->|[->|[]]]]; vm_compute; intros []; congruence.
Qed.

Section Build.
Context `{Cr : Crypto} `{Hx : Hex} `{MR : MapRange} {B Tx : Type} `{DB : DeployBackend B Tx} `{IP : InitPacker}.
Variable layouts : gmap string StorageLayout.
Variable deployedBytecodes : gmap string string.
#[local] Abbreviation carried_out := (carried_out layouts).

(** The generated configurations name predeploys and hold no mapping. *)
Lemma GeneratePredeployConfig_ok config block :
  Forall (λ nc, is_Some (Predeploys !! nc.1) ∧ plain_storages (Storages nc.2)) (GeneratePredeployConfig config block).
Proof.
  unfold GeneratePredeployConfig, plain_storages. repeat (apply Forall_cons; split); try apply Forall_nil; [..|done].
  all: split; [by eexists|]; cbn [Storages snd initialized_storages app].
  all: repeat (apply Forall_cons; split); try apply Forall_nil; try done.
  all: cbn; by destruct (sb_BaseFee block).
Qed.

(** Their plan, when the deployments hold nothing for the proxies. *)
Lemma generated_plan config block impls (proxies : gmap string DeploymentResult) :
  (∀ name, name ∈ known_contracts → proxies !! name = None) →
  flat_map (predeploy_plan (code_of impls) (code_of proxies)) (GeneratePredeployConfig config block) =
  flat_map (predeploy_plan (code_of impls) (λ _, [])) (GeneratePredeployConfig config block).
Proof.
  intros Hp. unfold GeneratePredeployConfig, predeploy_plan, code_of. cbn [flat_map fst snd Proxied app].
  rewrite !Hp by (unfold known_contracts; rewrite !elem_of_cons; tauto). reflexivity.
Qed.

Lemma predeploys_plan_addresses config block (code code' : string → bytes) :
  map pl_Address (flat_map (predeploy_plan code code') (GeneratePredeployConfig config block)) ≡ₚ planned_addresses.
Proof.
  transitivity (UUPSPlaceholderAddr :: flat_map (λ na, [impl_of na.2; na.2]) proxied_predeploys).
  - reflexivity.
  - apply (bool_decide_unpack _). by vm_compute.
Qed.

Lemma planned_addresses_NoDup : NoDup planned_addresses.
Proof. apply (bool_decide_unpack _). by vm_compute. Qed.

(** The accounts before the configuration's allocations. *)
Lemma BuildL2Genesis_plan config block impls proxies proxyCode has db db' :
  BuildSpecular (GeneratePredeployConfig config block) = Ret (Ok (impls, proxies)) →
  predeploys_loop layouts (map_range "BuildL2Genesis" 0 (GeneratePredeployConfig config block))
    impls proxies [] (mkDB ∅) = Ret (Ok (has, db)) →
  GetDeployedBytecode deployedBytecodes "ERC1967Proxy" = Ok proxyCode →
  empty_loop layouts deployedBytecodes namespace_indices has
    (default zero_predeploy (lookup_name "UUPSPlaceholder" (GeneratePredeployConfig config block))) db = Ret (Ok db') →
  carried_out (genesis_plan (GeneratePredeployConfig config block) (code_of impls) proxyCode) ∅ (Alloc db').
Proof.
  intros Hs Hl Hc He. apply BuildSpecular_results in Hs as (_ & Hproxies & _).
  set (configs := GeneratePredeployConfig config block) in *.
  set (order := map_range "BuildL2Genesis" 0 configs) in *.
  assert (Hperm : order ≡ₚ configs) by apply map_range_perm.
  assert (Hplan : flat_map (predeploy_plan (code_of impls) (code_of proxies)) order ≡ₚ
                  flat_map (predeploy_plan (code_of impls) (code_of proxies)) configs) by (by apply Permutation_flat_map).
  assert (Haddr : map pl_Address (flat_map (predeploy_plan (code_of impls) (code_of proxies)) order) ≡ₚ planned_addresses)
    by (unfold map at 1; rewrite Hplan; apply predeploys_plan_addresses).
  rewrite (generated_plan config block impls proxies Hproxies : flat_map _ configs = _) in Hplan.
  apply predeploys_loop_planned in Hl as [Hl ->]; [|..].
  2: { rewrite Hperm. apply GeneratePredeployConfig_ok. }
  2: { rewrite Haddr. apply planned_addresses_NoDup. }
  2: { intros a _. apply lookup_empty. }
  assert (Hhas : ∀ a, a ∈ rev (map (λ nc, default zero_address (Predeploys !! nc.1)) order) ++ [] ↔ a ∈ predeploy_addresses).
  { intros a. rewrite app_nil_r, <- Permutation_rev. unfold map. rewrite Hperm. done. }
  set (has := rev _ ++ []) in *.
  assert (Hfilter : filter (λ a, a ∉ has) (map namespace_address namespace_indices) =
                    filter (λ a, a ∉ predeploy_addresses) (map namespace_address namespace_indices))
    by (apply list_filter_iff; intros a; by rewrite Hhas).
  eapply empty_loop_planned in He; [| |exact Hc|..].
  2: { pose proof (GeneratePredeployConfig_ok config block) as H. apply Forall_cons in H as [[_ H] _]. exact H. }
  2: { apply NoDup_filter, namespace_addresses_NoDup. }
  2: { intros a [Ha Hin]%list_elem_of_filter. rewrite Hhas in Ha. destruct Hl as [_ Hl]. rewrite Hl; [apply lookup_empty|].
       rewrite Haddr. intros Hp. by apply Ha, planned_addresses_spec. }
  rewrite Hfilter in He. unfold genesis_plan.
  eapply carried_out_app; [eapply carried_out_permutation; [exact Hplan|exact Hl]|exact He|].
  intros a Ha Hin. apply list_elem_of_fmap in Hin as (p & -> & Hp).
  apply list_elem_of_fmap in Hp as (a & -> & [Hni Hin]%list_elem_of_filter). cbn in Ha.
  apply Hni, planned_addresses_spec; [|done]. rewrite <- (predeploys_plan_addresses config block (code_of impls) (λ _, [])). exact Ha.
Qed.

End Build.

(** ** Theorems *)

Section Claims.
Context `{Cr : Crypto} `{Hx : Hex} `{MR : MapRange} {B Tx : Type} `{DB : DeployBackend B Tx} `{IP : InitPacker}.
Variable layouts : gmap string StorageLayout.
Variable deployedBytecodes : gmap string string.
#[local] Abbreviation carried_out := (carried_out layouts).

(** Some address of the namespace is not a predeploy, so the proxy's bytecode is needed. *)
Lemma empty_loop_bytecode indices has placeholder db db' :
  empty_loop layouts deployedBytecodes indices has placeholder db = Ret (Ok db') →
  (∃ i, i ∈ indices ∧ namespace_address i ∉ has) →
  ∃ code, GetDeployedBytecode deployedBytecodes "ERC1967Proxy" = Ok code.
Proof.
  induction indices as [|i indices IH]; cbn; [by intros _ (i & ?%elem_of_nil & _)|].
  intros H (j & Hj & Hjh). unfold setupEmptyProxy in H.
  destruct (GetDeployedBytecode _ _) as [code|e]; [by eexists|].
  destruct (decide (namespace_address i ∈ has)) as [Hi|Hi]; [|by rewrite bool_decide_eq_false_2 in H].
  rewrite bool_decide_eq_true_2 in H by done. apply IH; [done|].
  apply elem_of_cons in Hj as [->|Hj]; [done|]. by exists j.
Qed.

Lemma setupAllocs_spec g allocs :
  (setupAllocs g allocs = Panic nil_deref ∧ nil_balance_clash (map_to_list allocs) (g_Alloc g)) ∨
  (¬ nil_balance_clash (map_to_list allocs) (g_Alloc g) ∧ ∃ alloc, setupAllocs g allocs = Ret (set_Alloc g alloc) ∧
    ∀ a, overlaid (allocs !! a) (g_Alloc g !! a) = Ret (alloc !! a)).
Proof.
  unfold setupAllocs. set (order := map_range "setupAllocs" 0 (map_to_list allocs)).
  assert (Hperm : order ≡ₚ map_to_list allocs) by apply map_range_perm.
  assert (Hnd : NoDup order.*1) by (rewrite Hperm; apply NoDup_fst_map_to_list).
  assert (Hclash : nil_balance_clash order (g_Alloc g) ↔ nil_balance_clash (map_to_list allocs) (g_Alloc g))
    by (unfold nil_balance_clash; by setoid_rewrite Hperm).
  assert (Hmap : list_to_map (M := gmap Address GenesisAccount) order = allocs)
    by (rewrite (list_to_map_proper _ _ Hnd Hperm); apply list_to_map_to_list).
  destruct (allocs_loop_spec order (g_Alloc g) Hnd) as [[-> Hc]|[Hc (alloc & -> & Hl)]]; [left|right];
    rewrite <- Hclash; [done|]. split; [done|]. exists alloc. split; [done|]. by rewrite <- Hmap.
Qed.

(** What a built genesis is, in terms of the plan. *)
Lemma BuildL2Genesis_inv config block g :
  BuildL2Genesis layouts deployedBytecodes config block = Ret (Ok g) →
  ∃ e implCode proxyCode alloc, NewL2EmptyGenesis config block = Ok e ∧ g = set_Alloc e (g_Alloc g) ∧
    deployed (map (λ name, (name, implCode name)) known_contracts) NewL2Backend ∧
    GetDeployedBytecode deployedBytecodes "ERC1967Proxy" = Ok proxyCode ∧
    carried_out (genesis_plan (GeneratePredeployConfig config block) implCode proxyCode) ∅ alloc ∧
    ∀ a, overlaid (cfg_Alloc config !! a) (alloc !! a) = Ret (g_Alloc g !! a).
Proof.
  unfold BuildL2Genesis. destruct (NewL2EmptyGenesis config block) as [e|err] eqn:He; [|done].
  assert (g_Alloc e = ∅) as ->.
  { unfold NewL2EmptyGenesis in He. destruct (_ =? 0); [done|]. destruct (_ <? _)%nat; [done|]. by injection He as <-. }
  destruct (BuildSpecular (GeneratePredeployConfig config block)) as [[[impls proxies]|err]|w] eqn:Hs; cbn [mbind go_bind]; [|done|done].
  destruct (predeploys_loop _ _ _ _ _ _) as [[[has db]|err]|w] eqn:Hl; cbn [mbind go_bind]; [|done|done].
  destruct (empty_loop _ _ _ _ _ _) as [[db'|err]|w] eqn:Hempty; cbn [mbind go_bind]; [|done|done].
  destruct (setupAllocs_spec (set_Alloc e (Alloc db')) (cfg_Alloc config)) as [[-> _]|[_ (alloc & -> & Hover)]]; [done|].
  cbn. intros [= <-]. cbn in *.
  destruct (empty_loop_bytecode _ _ _ _ _ Hempty) as [proxyCode Hc].
  { exists 1. split; [by apply elem_of_seqZ|].
    pose proof (BuildSpecular_results (GeneratePredeployConfig config block) impls proxies Hs) as (_ & Hproxies & _).
    apply predeploys_loop_planned in Hl as [_ ->].
    - rewrite app_nil_r, <- Permutation_rev. unfold map. rewrite map_range_perm.
      apply (bool_decide_unpack _). by vm_compute.
    - rewrite map_range_perm. apply GeneratePredeployConfig_ok.
    - unfold map. rewrite map_range_perm, generated_plan by done.
      rewrite predeploys_plan_addresses. apply planned_addresses_NoDup.
    - intros a _. apply lookup_empty. }
  exists e, (code_of impls), proxyCode, (Alloc db').
  split; [done|]. split; [done|]. split.
  { apply (BuildSpecular_results (GeneratePredeployConfig config block) impls proxies Hs). }
  split; [done|]. split; [|done].
  exact (BuildL2Genesis_plan layouts deployedBytecodes config block impls proxies proxyCode has db db' Hs Hl Hc Hempty).
Qed.

(** The configuration of a proxied predeploy. *)
Definition config_of (config : GenesisConfig) (block : StartBlock) (name : string) : PredeployConfig :=
  default zero_predeploy (lookup_name name (GeneratePredeployConfig config block)).

Lemma proxied_configured config block name a : (name, a) ∈ proxied_predeploys →
  (name, config_of config block name) ∈ GeneratePredeployConfig config block ∧
  Proxied (config_of config block name) = true ∧ Predeploys !! name = Some a ∧ name ∈ known_contracts.
Proof.
  intros Hin. apply list_elem_of_lookup in Hin as [i Hi].
  destruct i as [|[|[|i]]]; [injection Hi as <- <-..|done];
    (split; [|split; [reflexivity|split; [reflexivity|apply (bool_decide_unpack _); by vm_compute]]]).
  - exact (list_elem_of_lookup_2 (GeneratePredeployConfig config block) 1 _ eq_refl).
  - exact (list_elem_of_lookup_2 (GeneratePredeployConfig config block) 2 _ eq_refl).
  - exact (list_elem_of_lookup_2 (GeneratePredeployConfig config block) 3 _ eq_refl).
Qed.

(** The two accounts of a proxied predeploy, in the plan. *)
Lemma proxied_in_plan config block implCode proxyCode name a : (name, a) ∈ proxied_predeploys →
  let plan := genesis_plan (GeneratePredeployConfig config block) implCode proxyCode in
  let values select := storage_values select (Storages (config_of config block name)) in
  mkPlanned a [] (Some (impl_of a)) name (values ProxyValue) ∈ plan ∧
  mkPlanned (impl_of a) (implCode name) None name (values ImplValue) ∈ plan.
Proof.
  intros (Hc & Hp & Ha & _)%(proxied_configured config block). cbn zeta.
  set (values select := storage_values select (Storages (config_of config block name))).
  assert (Hin : predeploy_plan implCode (λ _, []) (name, config_of config block name) =
    [mkPlanned (impl_of a) (implCode name) None name (values ImplValue); mkPlanned a [] (Some (impl_of a)) name (values ProxyValue)]).
  { unfold predeploy_plan. cbn [fst snd]. by rewrite Hp, Ha. }
  unfold genesis_plan. split; apply elem_of_app; left; apply list_elem_of_In, in_flat_map;
    exists (name, config_of config block name); (split; [by apply list_elem_of_In|]); rewrite Hin; [right; left|left]; done.
Qed.

(** C13: The genesis that [BuildL2Genesis] returns carries out the plan.  The four contracts
    (the placeholder and the three implementations) were deployed one after the other on the
    chain of the deployer, and [implCode name] is the code the chain then gave for the contract
    of that name.  The placeholder is at the first address of the namespace with its code and
    is no proxy; each predeploy's implementation has its code, at its address in the code
    namespace; the three predeploys have no code and name their implementation in the EIP-1967
    slot; each of the other 2045 addresses of the namespace is a proxy with the code of the
    bindings that names the placeholder.  The rest of each account's storage is exactly the
    encoding of the values configured for it, no other account exists, and the configuration's
    accounts are overlaid on these, whatever the order in which Go ranges over the maps. *)
Theorem genesis_refines_plan config block g :
  BuildL2Genesis layouts deployedBytecodes config block = Ret (Ok g) →
  ∃ e implCode proxyCode alloc, NewL2EmptyGenesis config block = Ok e ∧ g = set_Alloc e (g_Alloc g) ∧
    deployed (map (λ name, (name, implCode name)) known_contracts) NewL2Backend ∧
    GetDeployedBytecode deployedBytecodes "ERC1967Proxy" = Ok proxyCode ∧
    carried_out (genesis_plan (GeneratePredeployConfig config block) implCode proxyCode) ∅ alloc ∧
    ∀ a, overlaid (cfg_Alloc config !! a) (alloc !! a) = Ret (g_Alloc g !! a).
Proof. apply BuildL2Genesis_inv. Qed.

Lemma deployed_code (code : string → bytes) name : ∀ names (b : B),
  deployed (map (λ name, (name, code name)) names) b → name ∈ names → code name ≠ [].
Proof.
  induction names as [|n names IH]; intros b H Hin; [by apply elem_of_nil in Hin|].
  destruct H as (tx & b1 & addr & _ & _ & _ & Hc & H).
  apply elem_of_cons in Hin as [->|Hin]; [done|by eapply IH].
Qed.

(** The proxy of every predeploy is left without code, because the results of the proxies
    are stored under the name of the proxy contract and looked up under the predeploy's: its
    storage names an implementation that has code, but calling it runs nothing. *)
Theorem predeploy_proxies_have_no_code config block g name a :
  BuildL2Genesis layouts deployedBytecodes config block = Ret (Ok g) →
  (name, a) ∈ proxied_predeploys → cfg_Alloc config !! a = None → cfg_Alloc config !! impl_of a = None →
  ∃ acc impl, g_Alloc g !! a = Some acc ∧ acc_Code acc = [] ∧
    GetState a ImplementationSlot (mkDB (g_Alloc g)) = impl_of a ∧
    g_Alloc g !! impl_of a = Some impl ∧ acc_Code impl ≠ [].
Proof.
  intros (e & implCode & proxyCode & alloc & _ & _ & Hcode & _ & [Hplan _] & Hover)%BuildL2Genesis_inv Hin Ha Hi.
  destruct (proxied_in_plan config block implCode proxyCode name a Hin) as [Hp1 Hp2].
  destruct (proxied_configured config block name a Hin) as (_ & _ & _ & Hname).
  pose proof (Hover a) as Hga. rewrite Ha in Hga. injection Hga as Hga.
  pose proof (Hover (impl_of a)) as Hgi. rewrite Hi in Hgi. injection Hgi as Hgi.
  destruct (Hplan _ Hp1) as (m & Hm & _ & _ & _ & _ & _ & _ & Himpl & _). destruct (Hplan _ Hp2) as (m' & Hm' & _). cbn in Hm, Hm', Himpl.
  eexists _, _. unfold GetState, storage_get. cbn [Alloc]. rewrite <- Hga, <- Hgi, Hm, Hm'. cbn. rewrite Himpl.
  split; [done|]. split; [done|]. split; [done|]. split; [done|]. cbn.
  by eapply deployed_code.
Qed.

(** [setupAllocs] overlays the configuration's accounts on the predeploys', in whatever
    order Go ranges over them: code, storage and nonce replace what is there when they are
    not empty, the balance always does; it panics exactly when an account without a balance
    meets one in place, where the guard of the balance was meant to skip it. *)
Theorem setupAllocs_correct g allocs :
  (setupAllocs g allocs = Panic nil_deref ∧ nil_balance_clash (map_to_list allocs) (g_Alloc g)) ∨
  (¬ nil_balance_clash (map_to_list allocs) (g_Alloc g) ∧ ∃ alloc, setupAllocs g allocs = Ret (set_Alloc g alloc) ∧
    ∀ a, overlaid (allocs !! a) (g_Alloc g !! a) = Ret (alloc !! a)).
Proof. apply setupAllocs_spec. Qed.

(** [BuildSpecular] accepts the generated configurations: no predeploy and no initializer
    argument is missing. *)
Theorem GeneratePredeployConfig_checks config block : Check_configs (GeneratePredeployConfig config block) = None.
Proof. reflexivity. Qed.

End Claims.

(** ** A concrete genesis *)
Module GenesisSample.

Definition config : GenesisConfig := mkGenesisConfig 13527 0 0 None 0 0 0 0 0 (Some 7) [] 57005 57005 57005
  {[ 5 := mkAccount [] None (Some 100) 0 ]}.

Definition block : StartBlock := mkStartBlock 9 1700000000 (Some 12) 77 78.

Definition slot (label : string) (n : Z) (ty : string) : StorageLayoutEntry := mkEntry label 0 n ty.

Definition types : gmap string StorageLayoutType :=
  {[ "t_uint8" := mkType "inplace" "uint8" 1 "" ""; "t_bool" := mkType "inplace" "bool" 1 "" "";
     "t_address" := mkType "inplace" "address" 20 "" ""; "t_uint256" := mkType "inplace" "uint256" 32 "" "";
     "t_bytes32" := mkType "inplace" "bytes32" 32 "" "" ]}.

Definition base : list StorageLayoutEntry :=
  [mkEntry "_initialized" 0 0 "t_uint8"; mkEntry "_initializing" 1 0 "t_bool"; slot "_owner" 51 "t_address"].

Definition layouts : gmap string StorageLayout :=
  {[ "UUPSPlaceholder" := mkLayout base types;
     "L1Oracle" := mkLayout (base ++ [slot "number" 201 "t_uint256"; slot "timestamp" 202 "t_uint256";
        slot "baseFee" 203 "t_uint256"; slot "hash" 204 "t_bytes32"; slot "stateRoot" 205 "t_bytes32"]) types;
     "L2Portal" := mkLayout (base ++ [slot "l1PortalAddress" 201 "t_address"; slot "l1Sender" 202 "t_address"]) types;
     "L2StandardBridge" := mkLayout (base ++ [slot "OTHER_BRIDGE" 201 "t_address"; slot "PORTAL_ADDRESS" 202 "t_address"]) types ]}.

Definition bytecodes : gmap string string := {[ "ERC1967Proxy" := "0x6001" ]}.

Definition hex : Hex := {|
  hexutil_Decode _ := Ok [];
  hexutil_DecodeBig _ := Err ErrMissingPrefix;
  HexToAddress _ := 0;
  FromHex _ := [Byte.x60; Byte.x01]
|}.

Definition build (MR : MapRange) : go (result Genesis) :=
  BuildL2Genesis (Cr := MemoryDBSample.crypto) (Hx := hex) (MR := MR) (DB := PredeploysSample.backend)
    (IP := PredeploysSample.packer) layouts bytecodes config block.

(** The genesis is built, when the ranges are in reverse order. *)
Definition built (r : go (result Genesis)) : option Genesis :=
  match r with Ret (Ok g) => Some g | _ => None end.

Lemma built_is MR : is_Some (built (build MR)) → ∃ g, build MR = Ret (Ok g).
Proof. destruct (build MR) as [[g|e]|w]; [by eexists|by intros [? ?]..]. Qed.

Lemma build_ok : is_Some (built (build PredeploysSample.reversed)).
Proof. apply (bool_decide_unpack _). vm_compute. exact I. Qed.

Lemma genesis_refines_plan_witness :
  ∃ g, build PredeploysSample.reversed = Ret (Ok g) ∧
    ∃ acc, g_Alloc g !! 0x2A00000000000000000000000000000000000500 = Some acc ∧
      acc_Code acc = [Byte.x60; Byte.x01] ∧ acc_Balance acc = Some 0 ∧
    ∃ impl, g_Alloc g !! impl_of L1OracleAddr = Some impl ∧ acc_Code impl = String.list_byte_of_string "L1Oracle".
Proof.
  destruct (built_is _ build_ok) as [g Hg]. exists g. split; [exact Hg|].
  destruct (genesis_refines_plan (Cr := MemoryDBSample.crypto) (Hx := hex) (MR := PredeploysSample.reversed)
    (DB := PredeploysSample.backend) (IP := PredeploysSample.packer) layouts bytecodes config block g Hg)
    as (e & implCode & proxyCode & alloc & _ & _ & Hd & Hc & [Hplan _] & Hover).
  assert (Hcode : implCode "L1Oracle" = String.list_byte_of_string "L1Oracle").
  { cbn in Hd. destruct Hd as (tx & b & a & H1 & _ & _ & _ & tx' & b' & a' & H2 & _ & H3 & _).
    injection H1 as _ <-. injection H2 as _ <-. injection H3 as H3. symmetry. exact H3. }
  pose proof (Hover (impl_of L1OracleAddr)) as Hi.
  destruct (Hplan _ (proj2 (proxied_in_plan config block implCode proxyCode "L1Oracle" L1OracleAddr ltac:(left))))
    as (mi & Hmi & _).
  cbn [pl_Address] in Hmi. rewrite Hmi in Hi.
  replace (cfg_Alloc config !! impl_of L1OracleAddr) with (@None GenesisAccount) in Hi by reflexivity.
  injection Hi as Hi.
  assert (proxyCode = [Byte.x60; Byte.x01]) as -> by (vm_compute in Hc; congruence).
  specialize (Hover 0x2A00000000000000000000000000000000000500).
  destruct (Hplan (placeholder_plan (default zero_predeploy (lookup_name "UUPSPlaceholder" (GeneratePredeployConfig config block)))
      [Byte.x60; Byte.x01] 0x2A00000000000000000000000000000000000500)) as (m & Hm & _).
  { unfold genesis_plan. apply elem_of_app. right. apply list_elem_of_fmap_2, list_elem_of_filter. split.
    - apply (bool_decide_unpack _). by vm_compute.
    - apply namespace_addresses_elem. unfold BigL2PredeployNamespace, PredeployProxyCount. lia. }
  cbn in Hm. rewrite Hm in Hover. replace (cfg_Alloc config !! _) with (@None GenesisAccount) in Hover by reflexivity.
  injection Hover as Hover. eexists. rewrite <- Hover. split; [reflexivity|]. split; [reflexivity|]. split; [reflexivity|].
  eexists. rewrite <- Hi. split; [reflexivity|]. exact Hcode.
Defined.

Lemma predeploy_proxies_have_no_code_witness :
  ∃ g acc, build PredeploysSample.reversed = Ret (Ok g) ∧ g_Alloc g !! L1OracleAddr = Some acc ∧ acc_Code acc = [].
Proof.
  destruct (built_is _ build_ok) as [g Hg].
  destruct (predeploy_proxies_have_no_code (Cr := MemoryDBSample.crypto) (Hx := hex) (MR := PredeploysSample.reversed)
    (DB := PredeploysSample.backend) (IP := PredeploysSample.packer) layouts bytecodes config block g
    "L1Oracle" L1OracleAddr Hg) as (acc & impl & H1 & H2 & _); [left|reflexivity|reflexivity|].
  exists g, acc. split; [exact Hg|]. split; [exact H1|exact H2].
Defined.

End GenesisSample.
