(* ===== verification/GenesisFees.v ===== *)
(** * From the genesis to the first fee

    Composes the genesis ([Genesis], specified in [GenesisPlan]) with the fee hook
    ([FeeHook]): the hook of the execution client reads the L1 base fee in the storage of the
    L1 oracle, where the genesis has put that of the L1 block it starts from. *)

From S2P Require Import Prelude Errors Types MemoryDB FeeHook Storage Predeploys Genesis GenesisPlan.

(** ** One variable of a contract

    What is encoded for a variable goes to the slot of its entry, and a variable that has a
    slot to itself is found there unmerged. *)
Section Variables_.
Context `{Cr : Crypto} `{Hx : Hex}.

Definition at_key (k : Hash) (l : list EncodedStorage) : Prop := Forall (λ s, es_Key s = k) l.

Lemma inplace_key what key r l : inplace what key r = Ret (Ok l) → at_key key l.
Proof.
  unfold inplace. destruct r as [[v|e]|w]; cbn; [|done..]. intros [= <-]. by apply Forall_singleton.
Qed.

Lemma EncodeStorage_key entry v ty l : plain v → EncodeStorage entry v ty = Ret (Ok l) → at_key (encodeSlotKey entry) l.
Proof.
  intros Hv. unfold EncodeStorage. destruct (_ >? _); [done|]. unfold EncodeStorageKeyValue.
  destruct (String.eqb _ "inplace").
  { repeat (destruct (String.eqb _ _) || destruct (String.prefix _ _)); first [done|apply inplace_key]. }
  destruct (String.eqb _ "dynamic_array"); [intros [= <-]; constructor|].
  destruct (String.eqb _ "bytes").
  { destruct (String.eqb _ _); [|done]. destruct (EncodeStringValue v _) as [[w|e]|w]; cbn; [|done..].
    intros [= <-]. by apply Forall_singleton. }
  destruct (String.eqb _ "mapping"); [|done]. destruct (String.prefix _ _); [done|]. by destruct v.
Qed.

(** The entry and the type of a label, as [ComputeStorageSlots] finds them. *)
Definition type_of_label (layout : StorageLayout) (label : string) : StorageLayoutType :=
  default zero_type (l_Types layout !! e_Type (target_entry layout label)).

Definition slot_of_label (layout : StorageLayout) (label : string) : Hash := encodeSlotKey (target_entry layout label).

(** The loop encodes the values one after the other. *)
Lemma compute_loop_parts layout values : ∀ acc l, compute_loop layout values acc = Ret (Ok l) →
  ∃ parts, l = acc ++ concat parts ∧
    Forall2 (λ lv part, EncodeStorage (target_entry layout lv.1) lv.2 (type_of_label layout lv.1) = Ret (Ok part)) values parts.
Proof.
  induction values as [|[label v] values IH]; intros acc l H; cbn in H.
  { injection H as <-. exists []. cbn. split; [by rewrite app_nil_r|constructor]. }
  destruct (String.eqb _ ""); [done|]. destruct (String.eqb _ ""); [done|].
  destruct (EncodeStorage _ v _) as [[part|e]|w] eqn:He; cbn in H; [|done..].
  apply IH in H as (parts & -> & Hp). exists (part :: parts). cbn. rewrite <- app_assoc. split; [done|].
  by constructor.
Qed.

(** Merging keeps the word of a key that occurs once. *)
Lemma merge_fold_other k l : ∀ kv keys, k ∉ map es_Key l →
  let '(kv', keys') := fold_left merge_step l (kv, keys) in kv' !! k = kv !! k ∧ (k ∈ keys → k ∈ keys').
Proof.
  induction l as [|s l IH]; intros kv keys Hk; [done|]. cbn [map] in Hk. apply not_elem_of_cons in Hk as [Hs Hk].
  cbn [fold_left merge_step]. destruct (kv !! es_Key s) as [prev|].
  - specialize (IH (<[es_Key s := BigToHash (Z.lor prev (es_Value s))]> kv) keys Hk).
    destruct (fold_left merge_step l _) as [kv' keys']. destruct IH as [-> IH]. by rewrite lookup_insert_ne.
  - specialize (IH (<[es_Key s := es_Value s]> kv) (keys ++ [es_Key s]) Hk).
    destruct (fold_left merge_step l _) as [kv' keys']. destruct IH as [-> IH]. rewrite lookup_insert_ne by done.
    split; [done|]. intros Hin. apply IH, elem_of_app. by left.
Qed.

Lemma MergeStorage_alone l1 s l2 : es_Key s ∉ map es_Key l1 → es_Key s ∉ map es_Key l2 →
  s ∈ MergeStorage (l1 ++ s :: l2).
Proof.
  intros H1 H2. unfold MergeStorage. rewrite fold_left_app. cbn [fold_left].
  pose proof (merge_fold_other (es_Key s) l1 ∅ [] H1) as Hf1.
  destruct (fold_left merge_step l1 (∅, [])) as [kv keys]. destruct Hf1 as [Hkv _]. rewrite lookup_empty in Hkv.
  cbn [merge_step]. rewrite Hkv.
  pose proof (merge_fold_other (es_Key s) l2 (<[es_Key s := es_Value s]> kv) (keys ++ [es_Key s]) H2) as Hf2.
  destruct (fold_left merge_step l2 _) as [kv' keys']. destruct Hf2 as [Hkv' Hin]. rewrite lookup_insert_eq in Hkv'.
  apply list_elem_of_fmap. exists (es_Key s). rewrite Hkv'. split; [by destruct s|].
  apply Hin, elem_of_app. right. by left.
Qed.

(** The variable [label] has a slot to itself among the values. *)
Definition alone (layout : StorageLayout) (values : list (string * any_value)) (label : string) : Prop :=
  ∀ l v, (l, v) ∈ values → l ≠ label → slot_of_label layout l ≠ slot_of_label layout label.

Lemma alone_check layout values label :
  forallb (λ lv, String.eqb lv.1 label || negb (slot_of_label layout lv.1 =? slot_of_label layout label)) values = true →
  alone layout values label.
Proof.
  rewrite forallb_forall. intros H l v Hin%list_elem_of_In Hne. specialize (H _ Hin). cbn in H.
  destruct (String.eqb_spec l label); [done|]. cbn in H. by zbool.
Qed.

Lemma concat_keys layout values parts k :
  Forall2 (λ lv part, EncodeStorage (target_entry layout lv.1) lv.2 (type_of_label layout lv.1) = Ret (Ok part)) values parts →
  Forall (λ lv, plain lv.2) values → (∀ l v, (l, v) ∈ values → slot_of_label layout l ≠ k) →
  k ∉ map es_Key (concat parts).
Proof.
  induction 1 as [|[l v] part values parts Hpart _ IH]; intros Hp Hk; [by intros ?%elem_of_nil|].
  apply Forall_cons in Hp as [Hv Hp]. cbn [concat]. rewrite map_app, not_elem_of_app. split.
  - intros (s & -> & Hs)%list_elem_of_fmap. apply EncodeStorage_key in Hpart; [|done].
    unfold at_key in Hpart. rewrite Forall_forall in Hpart. apply (Hk l v); [by left|]. symmetry. by apply Hpart.
  - apply IH; [done|]. intros l' v' Hin. apply (Hk l' v'). by right.
Qed.

Lemma ComputeStorageSlots_alone layout values label v w slots :
  NoDup (map fst values) → Forall (λ lv, plain lv.2) values → alone layout values label → (label, v) ∈ values →
  EncodeStorage (target_entry layout label) v (type_of_label layout label) = Ret (Ok [mkStorage (slot_of_label layout label) w]) →
  ComputeStorageSlots layout values = Ret (Ok slots) → slots_map slots !! slot_of_label layout label = Some w.
Proof.
  intros Hnd Hp Ha Hin He Hc. pose proof (ComputeStorageSlots_NoDup _ _ _ Hc) as Hs.
  unfold ComputeStorageSlots in Hc. destruct (compute_loop layout values []) as [[enc|e]|] eqn:Hl; [|done..].
  injection Hc as <-. apply compute_loop_parts in Hl as (parts & -> & Hparts). cbn [app] in Hs |- *.
  apply list_elem_of_split in Hin as (v1 & v2 & ->). apply Forall2_app_inv_l in Hparts as (p1 & p2' & H1 & H2 & ->).
  apply Forall2_cons_inv_l in H2 as (part & p2 & Hpart & H2 & ->). cbn [fst snd] in Hpart.
  rewrite He in Hpart. injection Hpart as <-. rewrite concat_app in Hs |- *. cbn [concat app] in Hs |- *.
  apply (slots_map_Some _ (mkStorage (slot_of_label layout label) w) Hs).
  rewrite map_app in Hnd. cbn [map fst] in Hnd. apply NoDup_app in Hnd as (_ & Hd & Hnd). apply NoDup_cons in Hnd as [Hni _].
  apply Forall_app in Hp as [Hp1 Hp2]. apply Forall_cons in Hp2 as [_ Hp2].
  apply MergeStorage_alone; cbn [es_Key].
  - eapply concat_keys; [exact H1|exact Hp1|]. intros l v' Hl. apply (Ha l v'); [apply elem_of_app; by left|].
    intros ->. apply (Hd label); [by apply (list_elem_of_fmap_2 fst _ (label, v'))|by left].
  - eapply concat_keys; [exact H2|exact Hp2|]. intros l v' Hl. apply (Ha l v'); [apply elem_of_app; right; by right|].
    intros ->. apply Hni. by apply (list_elem_of_fmap_2 fst _ (label, v')).
Qed.

End Variables_.

(** ** The variables of a predeploy *)
Section Oracle.
Context `{Cr : Crypto} `{Hx : Hex} `{MR : MapRange} {B Tx : Type} `{DB : DeployBackend B Tx} `{IP : InitPacker}.
Variable layouts : gmap string StorageLayout.
Variable deployedBytecodes : gmap string string.

Definition proxy_values (config : GenesisConfig) (block : StartBlock) (name : string) : list (string * any_value) :=
  storage_values ProxyValue (Storages (config_of config block name)).

Lemma generated_labels config block :
  Forall (λ nc, NoDup (map fst (Storages nc.2))) (GeneratePredeployConfig config block).
Proof. repeat (apply Forall_cons; split); [..|done]; apply (bool_decide_unpack _); by vm_compute. Qed.

Lemma storage_values_labels select st : NoDup (map fst st) → NoDup (map fst (storage_values select st)).
Proof.
  intros H. unfold storage_values. eapply sublist_NoDup; [exact H|].
  assert (Hm : map fst st = map fst (map (λ ls : string * StorageConfig, (ls.1, select ls.2)) st)) by (by rewrite map_map).
  rewrite Hm. apply (fmap_sublist fst), sublist_filter.
Qed.

(** A variable of a proxied predeploy that has a slot to itself is found in the genesis. *)
Lemma genesis_proxy_variable config block g name a layout label v w :
  BuildL2Genesis layouts deployedBytecodes config block = Ret (Ok g) →
  (name, a) ∈ proxied_predeploys → cfg_Alloc config !! a = None → layouts !! name = Some layout →
  (label, v) ∈ proxy_values config block name → alone layout (proxy_values config block name) label →
  EncodeStorage (target_entry layout label) v (type_of_label layout label) = Ret (Ok [mkStorage (slot_of_label layout label) w]) →
  GetState a (slot_of_label layout label) (mkDB (g_Alloc g)) = w.
Proof.
  intros (e & implCode & proxyCode & alloc & _ & _ & _ & _ & [Hplan _] & Hover)%BuildL2Genesis_inv Hin Ha Hl Hv Hal He.
  destruct (proxied_in_plan config block implCode proxyCode name a Hin) as [Hp _].
  destruct (proxied_configured config block name a Hin) as (Hc & _ & _ & _).
  destruct (Hplan _ Hp) as (m & Hm & layout' & values' & slots & Hl' & Hperm & Hs & _ & Hmk). cbn in Hm, Hl', Hperm.
  rewrite Hl in Hl'. injection Hl' as <-. fold (proxy_values config block name) in Hperm.
  specialize (Hover a). rewrite Ha, Hm in Hover. injection Hover as Hover.
  pose proof (generated_labels config block) as Hlab. rewrite Forall_forall in Hlab. specialize (Hlab _ Hc).
  pose proof (GeneratePredeployConfig_ok config block) as Hok. rewrite Forall_forall in Hok. specialize (Hok _ Hc) as [_ Hok].
  assert (Hslot : slot_of_label layout label ≠ ImplementationSlot).
  { pose proof (encodeSlotKey_small (target_entry layout label)) as Hk. fold (slot_of_label layout label) in Hk.
    unfold is_u64, two64, ImplementationSlot in *. lia. }
  unfold GetState, storage_get. cbn. rewrite <- Hover. cbn. rewrite Hmk by done.
  rewrite (ComputeStorageSlots_alone layout values' label v w slots); [done|..|done].
  - unfold map in *. rewrite Hperm. by apply storage_values_labels.
  - rewrite Hperm. apply storage_values_plain. eapply Forall_impl; [exact Hok|]. by intros ? [].
  - intros l v' H. apply (Hal l v'). by rewrite <- Hperm.
  - by rewrite Hperm.
  - exact He.
Qed.

(** A variable of type [uint256] at the start of its slot. *)
Definition uint256_variable (layout : StorageLayout) (label : string) : Prop :=
  let ty := type_of_label layout label in
  t_Encoding ty = "inplace" ∧ t_Label ty = "uint256" ∧ t_NumberOfBytes ty = 32 ∧ e_Offset (target_entry layout label) = 0.

Lemma encode_uint256 layout label n : uint256_variable layout label → is_word n →
  EncodeStorage (target_entry layout label) (v_bigInt n) (type_of_label layout label) =
  Ret (Ok [mkStorage (slot_of_label layout label) n]).
Proof.
  intros (He & Hl & Hn & Ho) Hw. unfold EncodeStorage. rewrite Hn. unfold EncodeStorageKeyValue. rewrite He, Hl, Ho.
  cbn. unfold EncodeUintValue, with_offset. cbn. by rewrite BigToHash_small.
Qed.

(** C14: The first fee: on a state with the storage of the genesis, the hook charges the fee
    made of the base fee of the L1 block the genesis starts from, when it is configured with
    the oracle's address and the slot of its variable in the compiler's layout. *)
Theorem genesis_first_fee {D : Type} `{SD : StateDB D} `{TR : TxRLP} config block g layout f (d : D) cfg msg buf m e :
  BuildL2Genesis layouts deployedBytecodes config block = Ret (Ok g) →
  cfg_Alloc config !! L1OracleAddr = None → sb_BaseFee block = Some f → is_word f →
  layouts !! "L1Oracle" = Some layout → uint256_variable layout "baseFee" →
  alone layout (proxy_values config block "L1Oracle") "baseFee" →
  (∀ a k, sdb_GetState a k d = GetState a k (mkDB (g_Alloc g))) →
  GetL1OracleAddress cfg = L1OracleAddr → GetL1OracleBaseFeeSlot cfg = slot_of_label layout "baseFee" →
  EncodeRLP (transactionFromMessage msg cfg) = Ok buf → (3 <= length buf)%nat → Z.of_nat (length buf) < 2 ^ 40 →
  - 2 ^ 60 < GetL1FeeOverhead cfg < 2 ^ 60 → GetL1FeeMultiplier cfg = Finite m e →
  let gas := data_gas (take (length buf - 3) buf) (GetL1FeeOverhead cfg) in
  PreTransferHook cfg msg d = chargeL1Fee (scale_thousandths (gas * f) (thousandths m e)) msg d cfg.
Proof.
  intros Hb Ha Hf Hw Hl Hu Hal Hd Hca Hcs Henc H3 H40 Hov Hmul gas. unfold PreTransferHook.
  rewrite (calculateL1Fee_eq _ d cfg buf m e Henc H3 H40 Hov Hmul). cbn [mbind go_bind].
  assert (Hv : ("baseFee", v_bigInt f) ∈ proxy_values config block "L1Oracle").
  { apply (list_elem_of_lookup_2 _ 5). unfold proxy_values, config_of. cbn. by rewrite Hf. }
  rewrite Hd, Hca, Hcs, (genesis_proxy_variable config block g "L1Oracle" L1OracleAddr layout "baseFee" (v_bigInt f) f Hb);
    [done|by left|done|done|exact Hv|exact Hal|by apply encode_uint256].
Qed.

End Oracle.

(** ** A concrete genesis and a first transfer *)
Module GenesisFeesSample.

(** The hook of a client configured for the layout of [GenesisSample]. *)
Definition cfg : RollupConfig := FeeHook.mkConfig 20 93 0 (Finite 4503599627370496 (-52)) L1OracleAddr 203.

Definition msg : Message :=
  mkMessage 5 (Some 20) 0 (Some 0) 21000 (Some 1) None None [Byte.x01; Byte.x00; Byte.x80; Byte.x80; Byte.x80] None.

(** Sixteen for the byte, four for the zero, 68 times sixteen for the signature; at a base fee
    of twelve. *)
Lemma genesis_first_fee_witness :
  ∃ g, GenesisSample.build PredeploysSample.reversed = Ret (Ok g) ∧
    PreTransferHook (T := FeeHookSample.rlp) (S := MemoryStateDB_StateDB) cfg msg (mkDB (g_Alloc g)) =
    chargeL1Fee (S := MemoryStateDB_StateDB) (12 * (16 + 4 + 68 * 16)) msg (mkDB (g_Alloc g)) cfg.
Proof.
  destruct (GenesisSample.built_is _ GenesisSample.build_ok) as [g Hg]. exists g. split; [exact Hg|].
  rewrite (genesis_first_fee (Cr := MemoryDBSample.crypto) (Hx := GenesisSample.hex) (MR := PredeploysSample.reversed)
    (DB := PredeploysSample.backend) (IP := PredeploysSample.packer) (TR := FeeHookSample.rlp) GenesisSample.layouts GenesisSample.bytecodes
    GenesisSample.config GenesisSample.block g (default (mkLayout [] ∅) (GenesisSample.layouts !! "L1Oracle")) 12
    (mkDB (g_Alloc g)) cfg msg (m_Data msg) 4503599627370496 (-52) Hg).
  - apply (f_equal (λ fee, chargeL1Fee (S := MemoryStateDB_StateDB) fee msg (mkDB (g_Alloc g)) cfg)). vm_compute. reflexivity.
  - reflexivity.
  - reflexivity.
  - split; vm_compute; [discriminate|reflexivity].
  - reflexivity.
  - repeat split.
  - apply alone_check. vm_compute. reflexivity.
  - reflexivity.
  - reflexivity.
  - vm_compute. reflexivity.
  - reflexivity.
  - cbn. lia.
  - vm_compute. reflexivity.
  - vm_compute. split; reflexivity.
  - reflexivity.
Defined.

End GenesisFeesSample.
