(* ===== verification/GenesisCommand.v ===== *)
(** * The genesis command

    Models ops/cmd/genesis/main.go and the reading of the configuration file in
    ops/genesis/config.go: the L1 block the genesis starts from, the configuration, the two
    files that are written.  The L1 node, the JSON encodings and go-ethereum's block of a
    genesis are parameters; a file is named by its path as it was given. *)

From S2P Require Import GoStrings.
From S2P Require Import Prelude Errors Types MemoryDB Storage Predeploys Genesis GenesisPlan.

Open Scope Z_scope.

(** ** Data *)

(** The flags of the command line; an optional one that is not set is [None]. *)
Record Flags := mkFlags {
  fl_genesis_config : string;
  fl_out : string;
  fl_l1_rpc_url : string;
  fl_export_hash : option string;
  fl_l1_block : option Z
}.

(** What is at each path. *)
Abbreviation FileSystem := (gmap string bytes).

(** The node behind a URL, the files' permissions, and JSON.  [os_Write] is how much of the
    data a write puts into the file, with its error; [Decode] is the decoder with
    [DisallowUnknownFields], [Encode] the indented encoding. *)
Class Command := {
  ethclient_Dial : string → result unit;
  BlockByNumber : string → Z → result StartBlock;
  os_ReadFile : string → FileSystem → result bytes;
  os_OpenFile : string → FileSystem → option error;
  os_Write : string → bytes → nat * option error;
  Decode : bytes → result GenesisConfig;
  Encode_genesis : Genesis → result bytes;
  Encode_hash : Hash → result bytes;
  ToBlock_Hash : Genesis → Hash;
  os_Write_all path data : (os_Write path data).2 = None → (os_Write path data).1 = length data
}.

(** go-ethereum's [rpc.SafeBlockNumber]. *)
Definition SafeBlockNumber : Z := -4.

(** [int64] of a [uint64]. *)
Definition to_int64 (x : Z) : Z := if x <? 2 ^ 63 then x else x - 2 ^ 64.

Section Command.
Context `{Cm : Command} `{Cr : Crypto} `{Hx : Hex} `{MR : MapRange}.
Implicit Types fs : FileSystem.

(** ** The operations *)

Definition NewGenesisConfig (path : string) fs : result GenesisConfig :=
  match os_ReadFile path fs with
  | Err e => Err (WrapError ("deploy config at " ++ path ++ " not found: ") e)
  | Ok file =>
      match Decode file with
      | Err e => Err (WrapError "cannot unmarshal deploy config: " e)
      | Ok config => Ok config
      end
  end.

(** The file is created or truncated, and the encoding goes to it in one write. *)
Definition writeGenesisFile (outfile : string) (encoded : result bytes) fs : result unit * FileSystem :=
  match os_OpenFile outfile fs with
  | Some e => (Err e, fs)
  | None =>
      match encoded with
      | Err e => (Err e, <[outfile := []]> fs)
      | Ok data =>
          let '(n, err) := os_Write outfile data in
          (match err with Some e => Err e | None => Ok tt end, <[outfile := take n data]> fs)
      end
  end.

(** The block the command asks for. *)
Definition start_number (ctx : Flags) : Z :=
  match fl_l1_block ctx with Some n => to_int64 n | None => SafeBlockNumber end.

Definition l1_start_block (ctx : Flags) : result StartBlock :=
  match BlockByNumber (fl_l1_rpc_url ctx) (start_number ctx) with
  | Ok block => Ok block
  | Err e =>
      Err (WrapError (match fl_l1_block ctx with
                      | Some n => "cannot get block " ++ Itoa n ++ ": "
                      | None => "cannot get safe block: "
                      end) e)
  end.

Definition export_hash (ctx : Flags) (l2Genesis : Genesis) fs : result unit * FileSystem :=
  match fl_export_hash ctx with
  | None => (Ok tt, fs)
  | Some path => writeGenesisFile path (Encode_hash (ToBlock_Hash l2Genesis)) fs
  end.

Section Generate.
Context {B Tx : Type} `{DB : DeployBackend B Tx} `{IP : InitPacker}.
Variable layouts : gmap string StorageLayout.
Variable deployedBytecodes : gmap string string.

(** The genesis that is written, from the L1 node and the configuration file alone. *)
Definition generate (ctx : Flags) fs : go (result Genesis) :=
  match ethclient_Dial (fl_l1_rpc_url ctx) with
  | Err e => Ret (Err (WrapError ("cannot dial " ++ fl_l1_rpc_url ctx ++ ": ") e))
  | Ok _ =>
      match l1_start_block ctx with
      | Err e => Ret (Err e)
      | Ok l1StartBlock =>
          match NewGenesisConfig (fl_genesis_config ctx) fs with
          | Err e => Ret (Err e)
          | Ok config => BuildL2Genesis layouts deployedBytecodes config l1StartBlock
          end
      end
  end.

Definition GenerateSpecularGenesis (ctx : Flags) fs : go (result unit * FileSystem) :=
  r ← generate ctx fs;
  Ret match r with
      | Err e => (Err e, fs)
      | Ok l2Genesis =>
          match writeGenesisFile (fl_out ctx) (Encode_genesis l2Genesis) fs with
          | (Err e, fs) => (Err e, fs)
          | (Ok _, fs) => export_hash ctx l2Genesis fs
          end
      end.

End Generate.

(** ** Facts *)

Lemma writeGenesisFile_ok outfile encoded fs fs' : writeGenesisFile outfile encoded fs = (Ok tt, fs') →
  ∃ data, encoded = Ok data ∧ fs' = <[outfile := data]> fs.
Proof.
  unfold writeGenesisFile. destruct (os_OpenFile _ _); [done|]. destruct encoded as [data|e]; [|done].
  pose proof (os_Write_all outfile data) as Hall. destruct (os_Write outfile data) as [n [e|]]; [done|].
  intros [= <-]. exists data. split; [done|]. f_equal. cbn in Hall. rewrite Hall by done. by apply take_ge.
Qed.

Lemma writeGenesisFile_can outfile data fs : os_OpenFile outfile fs = None → (os_Write outfile data).2 = None →
  ∃ fs', writeGenesisFile outfile (Ok data) fs = (Ok tt, fs').
Proof.
  intros Ho Hw. unfold writeGenesisFile. rewrite Ho. destruct (os_Write outfile data) as [n [e|]]; [done|]. by eexists.
Qed.

Lemma writeGenesisFile_other outfile encoded fs path : path ≠ outfile →
  (writeGenesisFile outfile encoded fs).2 !! path = fs !! path.
Proof.
  intros Hne. unfold writeGenesisFile. destruct (os_OpenFile _ _); [done|].
  destruct encoded as [data|e]; [destruct (os_Write outfile data)|]; by apply lookup_insert_ne.
Qed.

Lemma export_hash_other ctx g fs path : fl_export_hash ctx ≠ Some path →
  (export_hash ctx g fs).2 !! path = fs !! path.
Proof.
  intros Hne. unfold export_hash. destruct (fl_export_hash ctx) as [p|]; [|done].
  apply writeGenesisFile_other. congruence.
Qed.

Section Facts.
Context {B Tx : Type} `{DB : DeployBackend B Tx} `{IP : InitPacker}.
Variable layouts : gmap string StorageLayout.
Variable deployedBytecodes : gmap string string.

(** Once the inputs are there, the genesis is the one [BuildL2Genesis] makes of them. *)
Lemma generate_build ctx fs block file config :
  ethclient_Dial (fl_l1_rpc_url ctx) = Ok tt → BlockByNumber (fl_l1_rpc_url ctx) (start_number ctx) = Ok block →
  os_ReadFile (fl_genesis_config ctx) fs = Ok file → Decode file = Ok config →
  ∀ g, BuildL2Genesis layouts deployedBytecodes config block = Ret (Ok g) →
  generate layouts deployedBytecodes ctx fs = Ret (Ok g).
Proof. intros Hd Hb Hf Hc g Hg. unfold generate, l1_start_block, NewGenesisConfig. by rewrite Hd, Hb, Hf, Hc. Qed.

(** When the files can be written, they are. *)
Theorem GenerateSpecularGenesis_succeeds ctx fs g data : generate layouts deployedBytecodes ctx fs = Ret (Ok g) →
  Encode_genesis g = Ok data → (∀ path fs, os_OpenFile path fs = None) → (∀ path d, (os_Write path d).2 = None) →
  (∀ h, ∃ hash, Encode_hash h = Ok hash) → ∃ fs', GenerateSpecularGenesis layouts deployedBytecodes ctx fs = Ret (Ok tt, fs').
Proof.
  intros Hg He Ho Hw Hh. unfold GenerateSpecularGenesis. rewrite Hg. cbn [mbind go_bind].
  destruct (writeGenesisFile_can (fl_out ctx) data fs (Ho _ _) (Hw _ _)) as [fs1 Hf]. rewrite He, Hf.
  unfold export_hash. destruct (fl_export_hash ctx) as [path|]; [|by exists fs1].
  destruct (Hh (ToBlock_Hash g)) as [hash ->].
  destruct (writeGenesisFile_can path hash fs1 (Ho _ _) (Hw _ _)) as [fs2 ->]. by exists fs2.
Qed.

(** A run that succeeds has built the genesis of the configuration in the file and the block
    of the node, has left its encoding in the output file and the encoded hash of its block
    in the other one, and has written nothing else.  When both flags name one path only the
    hash is left. *)
Theorem GenerateSpecularGenesis_writes ctx fs fs' :
  GenerateSpecularGenesis layouts deployedBytecodes ctx fs = Ret (Ok tt, fs') →
  ∃ block file config g data,
    BlockByNumber (fl_l1_rpc_url ctx) (start_number ctx) = Ok block ∧
    os_ReadFile (fl_genesis_config ctx) fs = Ok file ∧ Decode file = Ok config ∧
    BuildL2Genesis layouts deployedBytecodes config block = Ret (Ok g) ∧ Encode_genesis g = Ok data ∧
    match fl_export_hash ctx with
    | None => fs' = <[fl_out ctx := data]> fs
    | Some path => ∃ hash, Encode_hash (ToBlock_Hash g) = Ok hash ∧ fs' = <[path := hash]> (<[fl_out ctx := data]> fs)
    end.
Proof.
  unfold GenerateSpecularGenesis, generate.
  destruct (ethclient_Dial _) as [[]|e]; [|done]. unfold l1_start_block.
  destruct (BlockByNumber _ _) as [block|e]; [|done]. unfold NewGenesisConfig.
  destruct (os_ReadFile _ _) as [file|e] eqn:Hf; [|done]. destruct (Decode file) as [config|e] eqn:Hc; [|done].
  destruct (BuildL2Genesis _ _ config block) as [[g|e]|w] eqn:Hg; cbn [mbind go_bind]; [|done..].
  destruct (writeGenesisFile (fl_out ctx) _ fs) as [[[]|e] fs1] eqn:Hw; [|done].
  apply writeGenesisFile_ok in Hw as (data & Hd & ->). intros [= He].
  exists block, file, config, g, data. do 5 (split; [done|]).
  unfold export_hash in He. destruct (fl_export_hash ctx) as [path|]; [|congruence].
  apply writeGenesisFile_ok in He as (hash & Hh & ->). by exists hash.
Qed.

(** Nothing is written before the genesis is built, and whatever fails after that no other
    file is touched. *)
Theorem GenerateSpecularGenesis_leaves ctx fs r fs' :
  GenerateSpecularGenesis layouts deployedBytecodes ctx fs = Ret (r, fs') →
  (∀ e, generate layouts deployedBytecodes ctx fs = Ret (Err e) → fs' = fs) ∧
  ∀ path, path ≠ fl_out ctx → fl_export_hash ctx ≠ Some path → fs' !! path = fs !! path.
Proof.
  unfold GenerateSpecularGenesis. destruct (generate _ _ ctx fs) as [[g|e]|w]; cbn [mbind go_bind]; [| |done].
  - destruct (writeGenesisFile (fl_out ctx) _ fs) as [r1 fs1] eqn:Hw. intros H. split; [done|].
    intros path Hout Hexp. pose proof (writeGenesisFile_other (fl_out ctx) (Encode_genesis g) fs path Hout) as Hw1.
    rewrite Hw in Hw1. cbn in Hw1. rewrite <- Hw1.
    destruct r1 as [[]|e]; [injection H as H|by injection H as _ <-].
    by rewrite <- (export_hash_other ctx g fs1 path Hexp), H.
  - intros [= _ <-]. by split.
Qed.

End Facts.
End Command.

(** The block number is converted to a signed integer: a number from 2^63 asks the node for
    a tag, and 2^64 - 4 for the safe block, as if the flag were not set. *)
Theorem start_number_wraps ctx n : fl_l1_block ctx = Some n → is_u64 n →
  (n < 2 ^ 63 → start_number ctx = n) ∧ (2 ^ 63 <= n → start_number ctx < 0) ∧
  (start_number ctx = SafeBlockNumber ↔ n = 2 ^ 64 - 4).
Proof.
  intros Hn Hr. unfold start_number, to_int64, SafeBlockNumber. rewrite Hn. unfold is_u64, two64 in Hr.
  destruct (Z.ltb_spec n (2 ^ 63)); lia.
Qed.

(** ** A concrete run *)
Module GenesisCommandSample.

(** A node with one block, an encoding of one byte. *)
Definition command : Command := {|
  ethclient_Dial _ := Ok tt;
  BlockByNumber _ n := if n =? SafeBlockNumber then Ok GenesisSample.block else Err (FmtError "not found");
  os_ReadFile path fs := match fs !! path with Some b => Ok b | None => Err (ErrorString "ErrNotExist") end;
  os_OpenFile _ _ := None;
  os_Write _ data := (length data, None);
  Decode _ := Ok GenesisSample.config;
  Encode_genesis _ := Ok [Byte.x7b];
  Encode_hash _ := Ok [Byte.x22];
  ToBlock_Hash _ := 5;
  os_Write_all _ _ _ := eq_refl
|}.

Definition flags : Flags := mkFlags "config.json" "genesis.json" "http://l1" (Some "hash.json") None.

Definition run (fs : FileSystem) : go (result unit * FileSystem) :=
  GenerateSpecularGenesis (Cm := command) (Cr := MemoryDBSample.crypto) (Hx := GenesisSample.hex)
    (MR := PredeploysSample.reversed) (DB := PredeploysSample.backend) (IP := PredeploysSample.packer)
    GenesisSample.layouts GenesisSample.bytecodes flags fs.

Definition files : FileSystem := {[ "config.json" := [] ]}.

Lemma run_succeeds : ∃ fs', run files = Ret (Ok tt, fs').
Proof.
  destruct (GenesisSample.built_is _ GenesisSample.build_ok) as [g Hg].
  apply (GenerateSpecularGenesis_succeeds (Cm := command) _ _ flags files g [Byte.x7b]);
    [|reflexivity|reflexivity|reflexivity|intros h; exists [Byte.x22]; reflexivity].
  apply (generate_build (Cm := command) _ _ flags files GenesisSample.block [] GenesisSample.config);
    [reflexivity|reflexivity|reflexivity|reflexivity|exact Hg].
Qed.

Lemma GenerateSpecularGenesis_writes_witness : ∃ fs', run files = Ret (Ok tt, fs') ∧ fs' !! "hash.json" = Some [Byte.x22].
Proof.
  destruct run_succeeds as [fs' H]. exists fs'. split; [exact H|].
  destruct (GenerateSpecularGenesis_writes (Cm := command) _ _ flags files fs' H) as (b & f & c & g & d & _ & _ & _ & _ & _ & hash & Hh & Hfs).
  rewrite Hfs. injection Hh as <-. apply lookup_insert_eq.
Defined.

End GenesisCommandSample.
