(* ===== verification/Canonicalize.v ===== *)
(** * Canonical storage layouts

    Models ops/bindings/ast/canonicalize.go: the renumbering of the AST ids that solc leaves in
    the entries and in the type names of a storage layout.  The two regular expressions are
    matchers written out by hand, each with its declarative meaning; the order of every range
    over a Go map is a parameter.  The theorems relate the result to the encoding of [Storage],
    which reads canonical layouts. *)

From stdpp Require Import sorting.
From Stdlib Require Import Ascii String.
From S2P Require Import Prelude Errors GoStrings MemoryDB Storage.

Open Scope string_scope.
#[local] Arguments String.append : simpl nomatch.

(** ** The regular expressions *)

(** The class of word characters. *)
Definition is_word (c : ascii) : bool := is_alnum c || Ascii.eqb c "_".

Fixpoint span (p : ascii → bool) (s : string) : string * string :=
  match s with
  | "" => ("", "")
  | String c r => if p c then let '(a, b) := span p r in (String c a, b) else ("", s)
  end.

(** A name in parentheses, digits, and the rest. *)
Definition name_and_id (s : string) : option (string * string * string) :=
  match s with
  | String "(" r =>
      let '(name, r) := span is_word r in
      match r with
      | String ")" r =>
          let '(id, rest) := span is_digit r in
          if negb (String.eqb name "") && negb (String.eqb id "") then Some (name, id, rest) else None
      | _ => None
      end
  | _ => None
  end.

(** The parts of a whole type name with an id: kind, name, id and suffix. *)
Definition type_parts (s : string) : option (string * string * string * string) :=
  let '(kind, r) := span is_word s in
  if HasPrefix kind "t_" && (2 <? String.length kind)%nat then
    match name_and_id r with
    | Some (name, id, suffix) =>
        match suffix with
        | "" => Some (kind, name, id, suffix)
        | String "_" more =>
            if negb (String.eqb more "") && all_chars is_word more then Some (kind, name, id, suffix) else None
        | _ => None
        end
    | None => None
    end
  else None.

(** [remapTypeRe]: its second group, the id. *)
Definition remapTypeRe (s : string) : option string :=
  match type_parts s with Some (_, _, id, _) => Some id | None => None end.

(** [remapAstIdStorage] at the start of a string, and anywhere in it. *)
Definition remapAstIdStorage_here (s : string) : bool :=
  existsb (fun kind =>
    HasPrefix s kind &&
    match name_and_id (sdrop (String.length kind) s) with
    | Some (_, _, rest) => HasPrefix rest "_storage"
    | None => false
    end) ["t_struct"; "t_userDefinedValueType"].

Fixpoint remapAstIdStorage (s : string) : bool :=
  remapAstIdStorage_here s || match s with "" => false | String _ r => remapAstIdStorage r end.

(** ** CanonicalizeASTIDs *)

Record typeRemapping := mkRemapping { oldType : string; newType : string }.

#[export] Instance typeRemapping_eq_dec : EqDecision typeRemapping.
Proof. solve_decision. Defined.

(** [sort.StringSlice]: the order of the bytes. *)
Definition string_le (a b : string) : Prop := String.leb a b = true.

#[export] Instance string_le_dec : RelDecision string_le.
Proof. intros a b. unfold string_le. apply _. Defined.

Lemma string_le_cons x a y b :
  string_le (String x a) (String y b) ↔ (N_of_ascii x < N_of_ascii y)%N ∨ (x = y ∧ string_le a b).
Proof.
  unfold string_le, String.leb. cbn [String.compare]. unfold Ascii.compare.
  destruct (N.compare_spec (N_of_ascii x) (N_of_ascii y)) as [E|E|E].
  - assert (x = y) as <- by (rewrite <- (ascii_N_embedding x), <- (ascii_N_embedding y); by rewrite E).
    split; [by right|]. intros [?|[_ ?]]; [lia|done].
  - split; [by left|done].
  - split; [done|]. intros [?|[-> _]]; lia.
Qed.

#[export] Instance string_le_trans : Transitive string_le.
Proof.
  intros a. induction a as [|x a IH]; intros [|y b] [|z c]; try done.
  rewrite !string_le_cons. intros [H1|[-> H1]] [H2|[-> H2]]; [left; lia|by left|by left|right]. split; [done|by eapply IH].
Qed.

#[export] Instance string_le_antisymm : AntiSymm eq string_le.
Proof. intros a b Ha Hb. by apply String.leb_antisym. Qed.

#[export] Instance string_le_total : Total string_le.
Proof. intros a b. apply String.leb_total. Qed.

(** The first pass over the entries: the ids by AST id, and the next id. *)
Definition remap_entries (entries : list StorageLayoutEntry) (lastId : Z) : gmap Z Z * Z :=
  fold_left (fun '(m, id) slot => (<[e_AstId slot := id]> m, u64 (id + 1))) entries (∅, lastId).

(** The first pass over the sorted type names: next id, remappings, types seen. *)
Definition remap_type (st : Z * gmap string string * gset string) (old : string)
    : Z * gmap string string * gset string :=
  let '(lastId, remappings, seen) := st in
  if bool_decide (old ∈ seen) || String.eqb old "" then st
  else
    match remapTypeRe old with
    | None => st
    | Some replaceAstID =>
        if Contains old "storage" && negb (remapAstIdStorage old) then st
        else
          (u64 (lastId + 1), <[old := Replace1 old replaceAstID (Itoa (s64 lastId))]> remappings, {[old]} ∪ seen)
    end.

Definition remap_types (sortedOldTypes : list string) (lastId : Z) : gmap string string :=
  (fold_left remap_type sortedOldTypes (lastId, ∅, ∅)).1.2.

(** [replaceType]; [order] is the order of the range over the remappings. *)
Definition replaceType (typeRemappings : gmap string string) (order : list (string * string)) (s : string) : string :=
  let remap := default "" (typeRemappings !! s) in
  if negb (String.eqb remap "") then remap
  else
    let matches := map (fun '(old, new) => mkRemapping old new) (List.filter (fun '(old, _) => Contains s old) order) in
    fold_left (fun s m => Replace1 s (oldType m) (newType m)) matches s.

(** The calls of [replaceType]: each ranges over the map in an order of its own. *)
Inductive call_site : Type :=
| at_entry (i : nat)
| at_type (t : string)
| at_key (t : string)
| at_value (t : string)
| at_base (t : string).

(** [filepath.IsAbs] on Unix. *)
Definition IsAbs (path : string) : bool := HasPrefix path "/".

Definition normalize_contract (monorepoBase contract : string) : string :=
  if IsAbs contract then TrimPrefix (Replace1 contract monorepoBase "") "/" else contract.

Section Canonicalize.
(** The orders of the ranges: over the types, and over the remappings at each call. *)
Variable type_order : list string.
Variable range : call_site → gmap string string → list (string * string).

Definition canonical_entry (ids : gmap Z Z) (remappings : gmap string string) (monorepoBase : string)
    (i : nat) (slot : StorageLayoutEntry) : StorageLayoutEntry :=
  mkStorageLayoutEntry (default 0%Z (ids !! e_AstId slot)) (normalize_contract monorepoBase (e_Contract slot))
    (e_Label slot) (e_Offset slot) (e_Slot slot)
    (replaceType remappings (range (at_entry i) remappings) (e_Type slot)).

Definition canonical_type (remappings : gmap string string) (old : string) (value : StorageLayoutType) : StorageLayoutType :=
  mkStorageLayoutType (t_Encoding value) (t_Label value) (t_NumberOfBytes value)
    (replaceType remappings (range (at_key old) remappings) (t_Key value))
    (replaceType remappings (range (at_value old) remappings) (t_Value value))
    (if String.eqb (t_Base value) "" then "" else replaceType remappings (range (at_base old) remappings) (t_Base value)).

Definition CanonicalizeASTIDs (layout : StorageLayout) (monorepoBase : string) : StorageLayout :=
  let '(astIDRemappings, lastId) := remap_entries (l_Storage layout) 1000 in
  let sortedOldTypes := merge_sort string_le type_order in
  let typeRemappings := remap_types sortedOldTypes lastId in
  mkLayout
    (imap (canonical_entry astIDRemappings typeRemappings monorepoBase) (l_Storage layout))
    (fold_left (fun types old =>
       <[replaceType typeRemappings (range (at_type old) typeRemappings) old :=
         canonical_type typeRemappings old (default zero_type (l_Types layout !! old))]> types)
     sortedOldTypes ∅).

End Canonicalize.

(** A range over a map meets each pair once, in some order. *)
Definition ranges (range : call_site → gmap string string → list (string * string)) : Prop :=
  ∀ site m, range site m ≡ₚ map_to_list m.

(** ** What the matchers accept *)

Lemma span_spec p s a b : span p s = (a, b) ↔
  s = a ++ b ∧ all_chars p a = true ∧ match b with "" => True | String c _ => p c = false end.
Proof.
  revert a b. induction s as [|c s IH]; intros a b; cbn [span].
  - split; [by intros [= <- <-]|]. intros (H & _ & _). by destruct a, b.
  - destruct (p c) eqn:Hc.
    + destruct (span p s) as [a' b']. destruct (proj1 (IH a' b') eq_refl) as (Hab & Hall & Hb). split.
      * intros [= <- <-]. cbn. by rewrite Hc, Hall, Hab.
      * intros (H & Ha & Hb'). destruct a as [|x a].
        -- cbn in H. subst b. cbn in Hb'. congruence.
        -- cbn in H, Ha. injection H as <- H. apply andb_true_iff in Ha as [_ Ha].
           assert (Hn : (a', b') = (a, b)) by (by apply IH). injection Hn as <- <-. done.
    + split; [intros [= <- <-]; by rewrite Hc|]. intros (H & Ha & Hb).
      destruct a as [|x a]; [cbn in H; by rewrite H|]. cbn in H, Ha. injection H as <- H. by rewrite Hc in Ha.
Qed.

(** A type name with an id: kind, a name in parentheses, the id and an optional suffix. *)
Definition type_text (kind name id suffix : string) : string := kind ++ "(" ++ name ++ ")" ++ id ++ suffix.

Record well_formed (kind name id suffix : string) : Prop := {
  wf_kind : ∃ k, kind = "t_" ++ k ∧ k ≠ "" ∧ all_chars is_word k = true;
  wf_name : name ≠ "" ∧ all_chars is_word name = true;
  wf_id : id ≠ "" ∧ all_chars is_digit id = true;
  wf_suffix : suffix = "" ∨ ∃ s, suffix = "_" ++ s ∧ s ≠ "" ∧ all_chars is_word s = true
}.

Lemma span_app p a b : all_chars p a = true → match b with "" => True | String c _ => p c = false end →
  span p (a ++ b) = (a, b).
Proof. intros Ha Hb. by apply span_spec. Qed.

(** The meaning of the first regular expression. *)
Lemma type_parts_spec s kind name id suffix :
  type_parts s = Some (kind, name, id, suffix) ↔ s = type_text kind name id suffix ∧ well_formed kind name id suffix.
Proof.
  unfold type_parts, name_and_id, type_text. split.
  - destruct (span is_word s) as [k r] eqn:Hk. apply span_spec in Hk as (-> & Hk & _).
    destruct (HasPrefix k "t_") eqn:Hp; [|done]. apply HasPrefix_ok in Hp as [k' ->]. cbn [append String.length andb].
    destruct k' as [|x k']; [done|]. cbn [String.length Nat.ltb Nat.leb].
    destruct r as [|c r]; [done|]. destruct (Ascii.ascii_dec c "(") as [->|Hc].
    2: { destruct c as [[] [] [] [] [] [] [] []]; try done; by exfalso. }
    destruct (span is_word r) as [n r'] eqn:Hn. apply span_spec in Hn as (-> & Hn & _).
    destruct r' as [|c r']; [done|]. destruct (Ascii.ascii_dec c ")") as [->|Hc].
    2: { destruct c as [[] [] [] [] [] [] [] []]; try done; by exfalso. }
    destruct (span is_digit r') as [d rest] eqn:Hd. apply span_spec in Hd as (-> & Hd & _).
    destruct (String.eqb_spec n "") as [|Hn0]; [done|]. destruct (String.eqb_spec d "") as [|Hd0]; [done|]. cbn [negb andb].
    intros H. assert (Hs : (∃ b, b = true ∧ (String "t" (String "_" (String x k')), n, d, rest) = (kind, name, id, suffix)) ∧
        (rest = "" ∨ ∃ s, rest = "_" ++ s ∧ s ≠ "" ∧ all_chars is_word s = true)).
    { destruct rest as [|c rest]; [injection H as <- <- <- <-; split; [by exists true|by left]|].
      destruct (Ascii.ascii_dec c "_") as [->|Hc].
      - destruct (String.eqb_spec rest "") as [|Hr]; [done|]. destruct (all_chars is_word rest) eqn:Hw; [|done].
        injection H as <- <- <- <-. split; [by exists true|]. right. by exists rest.
      - destruct c as [[] [] [] [] [] [] [] []]; try done; by exfalso. }
    destruct Hs as [(_ & _ & [= <- <- <- <-]) Hs]. split; [done|]. split; try done.
    exists (String x k'). split_and!; [done|done|]. by apply andb_true_iff in Hk as [_ [_ ?]%andb_true_iff].
  - intros (-> & [(k & -> & Hk0 & Hk) [Hn0 Hn] [Hd0 Hd] Hs]).
    rewrite (span_app is_word ("t_" ++ k)) by done. rewrite HasPrefix_app.
    destruct k as [|x k]; [done|]. cbn [append String.length Nat.ltb Nat.leb andb].
    rewrite span_app by done. cbn [append].
    assert (Hdd : span is_digit (id ++ suffix) = (id, suffix)).
    { apply span_app; [done|]. by destruct Hs as [-> |(s & -> & _)]. }
    rewrite Hdd, (proj2 (String.eqb_neq _ _) Hn0), (proj2 (String.eqb_neq _ _) Hd0). cbn [negb andb].
    destruct Hs as [-> |(s & -> & Hs0 & Hs)]; [done|]. cbn [append].
    by rewrite (proj2 (String.eqb_neq _ _) Hs0), Hs.
Qed.

(** ** Replacing ids, piece by piece

    A text is cut at its opening parentheses.  Replacing a type name changes the piece after
    one parenthesis only: the first one whose name matches and that has the kind before it. *)

Fixpoint rep (w q q' : string) (prev : string) (ps : list string) : list string :=
  match ps with
  | [] => []
  | p :: ps => if HasSuffix prev w && HasPrefix p q then (q' ++ sdrop (String.length q) p) :: ps else p :: rep w q q' p ps
  end.

Definition paren : ascii := "(".

Lemma Join_cons (p : string) (ps : list string) c : ps ≠ [] → Join (p :: ps) c = p ++ String c (Join ps c).
Proof. by destruct ps. Qed.

Lemma HasPrefix_Join p ps q : no_char paren q = true → HasPrefix (Join (p :: ps) paren) q = HasPrefix p q.
Proof.
  intros Hq. destruct ps as [|p' ps]; [done|]. rewrite Join_cons by done. by apply prefix_before.
Qed.

Lemma cons_as_app p c r : p ++ String c r = (p ++ String c "") ++ r.
Proof. by rewrite app_assoc_s. Qed.

Lemma Join_tail (p p' : string) (ps : list string) c : Join ((p ++ p')%string :: ps) c = p ++ Join (p' :: ps) c.
Proof. destruct ps as [|p2 ps]; [done|]. rewrite !Join_cons by done. by rewrite app_assoc_s. Qed.

Lemma Replace1_pieces w q q' p0 ps :
  Forall (λ l, no_char paren l = true) (p0 :: ps) →
  no_char paren w = true → w ≠ "" → no_char paren q = true →
  Replace1 (Join (p0 :: ps) paren) (w ++ String paren q) (w ++ String paren q') = Join (p0 :: rep w q q' p0 ps) paren.
Proof.
  intros Hps Hw Hw0 Hq. revert p0 Hps. induction ps as [|p ps IH]; intros p0 [Hp0 Hps]%Forall_cons.
  - apply Replace1_none. unfold Contains. cbn [Join]. by rewrite Index_sep_none.
  - rewrite Join_cons by done. pose proof (Index_cut paren p0 (Join (p :: ps) paren) w q Hp0 Hw Hw0) as Hi.
    rewrite HasPrefix_Join in Hi by done. cbn [rep]. destruct (HasSuffix p0 w && HasPrefix p q) eqn:Hm.
    + apply andb_true_iff in Hm as [[z Hz]%HasSuffix_ok [p1 Hp]%HasPrefix_ok].
      rewrite (Join_cons p0 (_ :: ps)) by done. subst p0 p. rewrite sdrop_app, !Join_tail. rewrite Join_tail in Hi.
      assert (Hs : ∀ x r, (z ++ w) ++ String paren (x ++ r) = z ++ (w ++ String paren x) ++ r)
        by (intros; by rewrite !app_assoc_s).
      rewrite !Hs. rewrite Hs in Hi. apply Replace1_at. rewrite Hi, length_app_s. f_equal. lia.
    + rewrite (Join_cons p0 (_ :: _)) by done.
      rewrite (cons_as_app p0 paren (Join (p :: ps) paren)) in Hi |- *. rewrite Replace1_shift.
      * rewrite IH by done. by rewrite <- cons_as_app.
      * rewrite Hi, length_app_s. cbn [String.length].
        destruct (Index (Join _ _) _); cbn [fmap option_fmap option_map]; [f_equal; lia|done].
Qed.

Lemma rep_no_paren w q q' prev ps : no_char paren q' = true →
  Forall (λ l, no_char paren l = true) ps → Forall (λ l, no_char paren l = true) (rep w q q' prev ps).
Proof.
  intros Hq' Hps. revert prev. induction Hps as [|p ps Hp Hps IH]; intros prev; cbn [rep]; [done|].
  destruct (_ && _) eqn:Hm; [|constructor; [done|apply IH]]. constructor; [|done].
  apply andb_true_iff in Hm as [_ [r ->]%HasPrefix_ok]. rewrite sdrop_app, no_char_app. rewrite no_char_app in Hp.
  rewrite Hq'. by apply andb_true_iff in Hp as [_ ->].
Qed.

(** What a remapping replaces: an id behind a name in parentheses, by another one. *)
Record renumbering := mkRenumbering { rn_kind : string; rn_name : string; rn_id : string; rn_new : string; rn_suffix : string }.

Definition rn_old_tail (r : renumbering) : string := rn_name r ++ ")" ++ rn_id r ++ rn_suffix r.
Definition rn_new_tail (r : renumbering) : string := rn_name r ++ ")" ++ rn_new r ++ rn_suffix r.
Definition renumber (r : renumbering) : string → list string → list string := rep (rn_kind r) (rn_old_tail r) (rn_new_tail r).

Record rn_ok (r : renumbering) : Prop := {
  rn_wf : well_formed (rn_kind r) (rn_name r) (rn_id r) (rn_suffix r);
  rn_digits : all_chars is_digit (rn_new r) = true ∧ rn_new r ≠ ""
}.

(** Word characters are not parentheses, nor are digits. *)
Lemma word_no_char c s : is_word c = false → all_chars is_word s = true → no_char c s = true.
Proof.
  intros Hc. induction s as [|x s IH]; [done|]. cbn [all_chars]. intros [Hx Hs]%andb_true_iff.
  apply no_char_cons. split; [|by apply IH]. intros ->. by rewrite Hc in Hx.
Qed.

Lemma wf_no_char c kind name id suffix : is_word c = false → is_digit c = false → well_formed kind name id suffix →
  no_char c kind = true ∧ no_char c name = true ∧ no_char c id = true ∧ no_char c suffix = true.
Proof.
  intros Hc Hd [(k & -> & _ & Hk) [_ Hn] [_ Hi] Hs]. split_and!; try by apply word_no_char.
  - by apply digits_no_char.
  - destruct Hs as [-> |(s & -> & _ & Hs)]; [done|]. by apply word_no_char.
Qed.

(** A suffix of the end of a piece that starts with a letter does not reach into the id. *)
Lemma HasSuffix_behind name id r w :
  all_chars is_digit id = true → no_char ")" w = true → (∃ k, w = "t_" ++ k) →
  HasSuffix (name ++ ")" ++ id ++ r) w = HasSuffix r w.
Proof.
  intros Hid Hw [k Hk]. apply eq_true_iff_eq. rewrite !HasSuffix_ok.
  split; [|intros [z ->]; exists (name ++ ")" ++ id ++ z); by rewrite !app_assoc_s].
  intros [z H]. replace (name ++ ")" ++ id ++ r) with (((name ++ ")") ++ id) ++ r) in H by (by rewrite !app_assoc_s).
  apply app_cut in H as [(x & _ & ->)|(x & Hx & H & ->)]; [by exists x|]. exfalso.
  apply app_cut in H as [(y & _ & ->)|(y & Hy & H & ->)].
  - destruct x as [|c x]; [done|]. cbn in Hk. injection Hk as -> _.
    revert Hid. rewrite !all_chars_app. cbn. by rewrite andb_false_r.
  - rewrite !no_char_app in Hw. apply andb_true_iff in Hw as [[Hw _]%andb_true_iff _].
    apply app_cut in H as [(v & -> & Hv)|(v & _ & _ & ->)].
    + destruct v as [|c v]; cbn in Hv; [by subst y|]. injection Hv as _ Hv. by destruct v, y.
    + rewrite no_char_app in Hw. by apply andb_true_iff in Hw as [_ Hw].
Qed.

Lemma rep_prev w q q' prev prev' ps : HasSuffix prev w = HasSuffix prev' w → rep w q q' prev ps = rep w q q' prev' ps.
Proof. intros H. destruct ps; [done|]. cbn [rep]. by rewrite H. Qed.

(** The name in front of a piece is unique. *)
Lemma names_differ p n1 n2 x y : no_char ")" n1 = true → no_char ")" n2 = true → n1 ≠ n2 →
  HasPrefix p (n1 ++ ")" ++ x) = true → HasPrefix p (n2 ++ ")" ++ y) = false.
Proof.
  intros H1 H2 Hne [r ->]%HasPrefix_ok. rewrite !app_assoc_s.
  change (HasPrefix (n1 ++ String ")" (x ++ r)) (n2 ++ String ")" y) = false).
  by rewrite prefix_cut, (proj2 (String.eqb_neq _ _) Hne).
Qed.

Lemma renumber_cons r prev p ps : renumber r prev (p :: ps) =
  if HasSuffix prev (rn_kind r) && HasPrefix p (rn_old_tail r)
  then (rn_new_tail r ++ sdrop (String.length (rn_old_tail r)) p) :: ps
  else p :: renumber r p ps.
Proof. done. Qed.

Lemma rn_no_char c r : is_word c = false → is_digit c = false → rn_ok r →
  no_char c (rn_kind r) = true ∧ no_char c (rn_name r) = true ∧
  (c ≠ ")"%char → no_char c (rn_old_tail r) = true ∧ no_char c (rn_new_tail r) = true).
Proof.
  intros Hc Hd [Hwf [Hn _]]. destruct (wf_no_char c _ _ _ _ Hc Hd Hwf) as (H1 & H2 & H3 & H4). split_and!; try done.
  intros Hne. unfold rn_old_tail, rn_new_tail. pose proof (digits_no_char c _ Hd Hn) as H5.
  assert (H6 : no_char c ")" = true) by (by apply no_char_cons).
  by rewrite !no_char_app, H2, H3, H4, H5, H6.
Qed.

(** A piece that was renumbered looks the same to another renumbering. *)
Lemma renumbered_other r1 r2 p : rn_ok r1 → rn_ok r2 → rn_name r1 ≠ rn_name r2 → HasPrefix p (rn_old_tail r2) = true →
  let p' := rn_new_tail r2 ++ sdrop (String.length (rn_old_tail r2)) p in
  HasPrefix p (rn_old_tail r1) = false ∧ HasPrefix p' (rn_old_tail r1) = false ∧
  HasSuffix p' (rn_kind r1) = HasSuffix p (rn_kind r1).
Proof.
  intros H1 H2 Hne Hp p'. destruct (rn_no_char ")" r1) as (Hk1 & Hn1 & _); [done..|].
  destruct (rn_no_char ")" r2) as (_ & Hn2 & _); [done..|].
  assert (Hk : ∃ k, rn_kind r1 = "t_" ++ k) by (destruct (wf_kind _ _ _ _ (rn_wf _ H1)) as (k & -> & _); by exists k).
  split; [by eapply (names_differ p _ _ _ _ Hn2 Hn1 (not_eq_sym Hne))|]. split.
  - eapply (names_differ p' (rn_name r2) _ (rn_new r2 ++ rn_suffix r2) _ Hn2 Hn1 (not_eq_sym Hne)). apply HasPrefix_app.
  - apply HasPrefix_ok in Hp as [z ->]. unfold p'. rewrite sdrop_app. unfold rn_new_tail, rn_old_tail.
    rewrite !app_assoc_s, !HasSuffix_behind; try done; [apply (wf_id _ _ _ _ (rn_wf _ H2))|apply (rn_digits _ H2)].
Qed.

Lemma renumber_comm r1 r2 : rn_ok r1 → rn_ok r2 → rn_name r1 ≠ rn_name r2 → ∀ ps prev,
  renumber r1 prev (renumber r2 prev ps) = renumber r2 prev (renumber r1 prev ps).
Proof.
  intros H1 H2 Hne. induction ps as [|p ps IH]; intros prev; [done|]. rewrite !renumber_cons.
  destruct (HasSuffix prev (rn_kind r2) && HasPrefix p (rn_old_tail r2)) eqn:Hm2.
  - apply andb_true_iff in Hm2 as [Hs2 Hp2]. destruct (renumbered_other r1 r2 p H1 H2 Hne Hp2) as (Ho & Hn & Hs).
    rewrite Ho, andb_false_r, !renumber_cons, Hs2, Hp2, Hn, andb_false_r. cbn [andb]. f_equal. by apply rep_prev.
  - rewrite (renumber_cons r1 prev p). destruct (HasSuffix prev (rn_kind r1) && HasPrefix p (rn_old_tail r1)) eqn:Hm1.
    + apply andb_true_iff in Hm1 as [Hs1 Hp1]. destruct (renumbered_other r2 r1 p H2 H1 (not_eq_sym Hne) Hp1) as (Ho & Hn & Hs).
      rewrite renumber_cons, Hn, andb_false_r. f_equal. symmetry. by apply rep_prev.
    + by rewrite renumber_cons, Hm2, IH.
Qed.

(** ** Replacing in texts *)

Definition rn_old (r : renumbering) : string := type_text (rn_kind r) (rn_name r) (rn_id r) (rn_suffix r).
Definition rn_text (r : renumbering) : string := type_text (rn_kind r) (rn_name r) (rn_new r) (rn_suffix r).

Lemma Replace1_renumber r p0 ps : rn_ok r → Forall (λ l, no_char paren l = true) (p0 :: ps) →
  Replace1 (Join (p0 :: ps) paren) (rn_old r) (rn_text r) = Join (p0 :: renumber r p0 ps) paren ∧
  Forall (λ l, no_char paren l = true) (p0 :: renumber r p0 ps).
Proof.
  intros H Hps. destruct (rn_no_char paren r) as (Hk & _ & Ht); [done..|]. destruct Ht as [Ho Hn]; [done|].
  destruct (wf_kind _ _ _ _ (rn_wf _ H)) as (k & Hkk & _). split.
  - apply (Replace1_pieces (rn_kind r) (rn_old_tail r) (rn_new_tail r)); try done. by rewrite Hkk.
  - apply Forall_cons in Hps as [Hp0 Hps]. constructor; [done|]. by apply rep_no_paren.
Qed.

Lemma text_pieces s : ∃ p0 ps, s = Join (p0 :: ps) paren ∧ Forall (λ l, no_char paren l = true) (p0 :: ps).
Proof.
  destruct (Split_pieces s paren) as (Hne & Hf & Hj). destruct (Split s paren) as [|p0 ps]; [done|]. by exists p0, ps.
Qed.

Lemma Replace1_comm r1 r2 s : rn_ok r1 → rn_ok r2 → rn_name r1 ≠ rn_name r2 →
  Replace1 (Replace1 s (rn_old r1) (rn_text r1)) (rn_old r2) (rn_text r2) =
  Replace1 (Replace1 s (rn_old r2) (rn_text r2)) (rn_old r1) (rn_text r1).
Proof.
  intros H1 H2 Hne. destruct (text_pieces s) as (p0 & ps & -> & Hps).
  destruct (Replace1_renumber r1 p0 ps H1 Hps) as [E1 F1]. destruct (Replace1_renumber r2 p0 ps H2 Hps) as [E2 F2].
  rewrite E1, E2, (proj1 (Replace1_renumber r2 _ _ H2 F1)), (proj1 (Replace1_renumber r1 _ _ H1 F2)).
  by rewrite (renumber_comm r1 r2 H1 H2 Hne).
Qed.

(** ** The order of the range does not matter *)

Lemma fold_left_comm {A B} (f : B → A → B) (l l' : list A) : l ≡ₚ l' → 
  (∀ x y b, x ∈ l → y ∈ l → f (f b x) y = f (f b y) x) → ∀ b, fold_left f l b = fold_left f l' b.
Proof.
  induction 1 as [|x l l' _ IH|x y l|l l' l'' H1 IH1 _ IH2]; intros Hc b; cbn [fold_left].
  - done.
  - apply IH. intros y z b' Hy Hz. by apply Hc; constructor.
  - by rewrite Hc by (repeat constructor).
  - rewrite IH1 by done. apply IH2. intros y z b' Hy Hz. apply Hc; by rewrite H1.
Qed.

Definition type_name (s : string) : string := match type_parts s with Some (_, name, _, _) => name | None => "" end.

(** Remappings of well-formed types with different names. *)
Record clean (m : gmap string string) : Prop := {
  cl_shape : ∀ old new, m !! old = Some new → ∃ r, rn_ok r ∧ old = rn_old r ∧ new = rn_text r;
  cl_names : ∀ old old', is_Some (m !! old) → is_Some (m !! old') → type_name old = type_name old' → old = old'
}.

Lemma type_name_old r : rn_ok r → type_name (rn_old r) = rn_name r.
Proof.
  intros [Hwf _]. unfold type_name.
  rewrite (proj2 (type_parts_spec (rn_old r) (rn_kind r) (rn_name r) (rn_id r) (rn_suffix r))); done.
Qed.

Definition matches_of (order : list (string * string)) (s : string) : list typeRemapping :=
  map (fun '(old, new) => mkRemapping old new) (List.filter (fun '(old, _) => Contains s old) order).

Lemma matches_perm order order' s : order ≡ₚ order' → matches_of order s ≡ₚ matches_of order' s.
Proof.
  intros Hp. apply Permutation_map. induction Hp as [|x l l' _ IH|x y l|l l' l'' _ IH1 _ IH2]; cbn.
  - done.
  - destruct x as [old new]. destruct (Contains s old); [by rewrite IH|done].
  - destruct x as [o n], y as [o' n']. destruct (Contains s o), (Contains s o'); try done. apply Permutation_swap.
  - by rewrite IH1.
Qed.

Lemma matches_in m order s x : order ≡ₚ map_to_list m → x ∈ matches_of order s → m !! oldType x = Some (newType x).
Proof.
  intros Hp Hx. apply list_elem_of_fmap in Hx as ([old new] & -> & Hx).
  apply list_elem_of_In, filter_In in Hx as [Hx _]. apply list_elem_of_In in Hx.
  rewrite Hp in Hx. by apply elem_of_map_to_list in Hx.
Qed.

Lemma replaceType_order m order s : clean m → order ≡ₚ map_to_list m →
  replaceType m order s = replaceType m (map_to_list m) s.
Proof.
  intros [Hs Hn] Hp. unfold replaceType. destruct (negb _); [done|]. fold (matches_of order s) (matches_of (map_to_list m) s).
  apply fold_left_comm; [by apply matches_perm|]. intros x y b Hx Hy. destruct (decide (x = y)) as [->|Hne]; [done|].
  apply (matches_in m) in Hx, Hy; [|done..].
  destruct (Hs _ _ Hx) as (r1 & H1 & E1 & F1), (Hs _ _ Hy) as (r2 & H2 & E2 & F2).
  rewrite E1, E2, F1, F2. apply Replace1_comm; [done..|]. intros Hname. apply Hne.
  rewrite <- !type_name_old, <- E1, <- E2 in Hname by done. apply Hn in Hname; [|by eexists..].
  destruct x, y. cbn in *. congruence.
Qed.

(** ** What is kept of a type name *)

(** Two texts with the same first piece and as many pieces. *)
Definition same_head (s s' : string) : Prop := ∃ p0 ps ps',
  s = Join (p0 :: ps) paren ∧ s' = Join (p0 :: ps') paren ∧ List.length ps = List.length ps' ∧
  Forall (λ l, no_char paren l = true) (p0 :: ps) ∧ Forall (λ l, no_char paren l = true) (p0 :: ps').

Lemma same_head_refl s : same_head s s.
Proof. destruct (text_pieces s) as (p0 & ps & -> & Hps). by exists p0, ps, ps. Qed.

Lemma renumber_length r prev ps : List.length (renumber r prev ps) = List.length ps.
Proof. revert prev. induction ps as [|p ps IH]; intros prev; [done|]. rewrite renumber_cons. destruct (_ && _); cbn; [done|]. by rewrite IH. Qed.

Lemma same_head_Replace1 s s' r : rn_ok r → same_head s s' → same_head s (Replace1 s' (rn_old r) (rn_text r)).
Proof.
  intros H (p0 & ps & ps' & -> & -> & Hl & Hps & Hps'). destruct (Replace1_renumber r p0 ps' H Hps') as [E F].
  exists p0, ps, (renumber r p0 ps'). split_and!; try done. by rewrite renumber_length.
Qed.

Lemma same_head_remapped r : rn_ok r → same_head (rn_old r) (rn_text r).
Proof.
  intros H. destruct (rn_no_char paren r) as (Hk & _ & Ht); [done..|]. destruct Ht as [Ho Hn]; [done|].
  exists (rn_kind r), [rn_old_tail r], [rn_new_tail r]. split_and!; try done; by repeat constructor.
Qed.

Lemma replaceType_same_head m order s : clean m → order ≡ₚ map_to_list m → same_head s (replaceType m order s).
Proof.
  intros [Hs _] Hp. unfold replaceType. destruct (negb _) eqn:Hd.
  - destruct (m !! s) as [new|] eqn:Hm; [|done]. destruct (Hs _ _ Hm) as (r & H & E & F). cbn. rewrite E, F.
    by apply same_head_remapped.
  - fold (matches_of order s).
    assert (Hf : ∀ x, x ∈ matches_of order s → m !! oldType x = Some (newType x)) by (intros; by eapply matches_in).
    revert Hf. generalize (matches_of order s) as ms. intros ms Hf.
    assert (Hh : ∀ s', same_head s s' → same_head s (fold_left (λ s m, Replace1 s (oldType m) (newType m)) ms s'));
      [|apply Hh, same_head_refl].
    induction ms as [|x ms IH]; intros s' Hh; [done|]. cbn [fold_left].
    apply IH; [intros y Hy; apply Hf; by constructor|].
    destruct (Hs _ _ (Hf x ltac:(constructor))) as (r & H & -> & ->). by apply same_head_Replace1.
Qed.

(** A test of a text without parentheses sees the first piece only. *)
Lemma same_head_prefix s s' q : no_char paren q = true → same_head s s' → HasPrefix s' q = HasPrefix s q.
Proof. intros Hq (p0 & ps & ps' & -> & -> & _). by rewrite !HasPrefix_Join. Qed.

Lemma Join_not_plain p0 p ps q : no_char paren q = true → Join (p0 :: p :: ps) paren ≠ q.
Proof.
  intros Hq <-. rewrite Join_cons, no_char_app in Hq by done. apply andb_true_iff in Hq as [_ Hq].
  by apply no_char_cons in Hq as [? _].
Qed.

Lemma same_head_eqb s s' q : no_char paren q = true → same_head s s' → String.eqb s' q = String.eqb s q.
Proof.
  intros Hq (p0 & ps & ps' & -> & -> & Hl & _). destruct ps as [|p ps], ps' as [|p' ps']; try done.
  by rewrite !(proj2 (String.eqb_neq _ _)) by (by apply Join_not_plain).
Qed.

Lemma encoder_same_head `{Hex} s s' : same_head s s' → encoder_of s' = encoder_of s.
Proof.
  intros Hh. unfold encoder_of.
  change (String.prefix "t_uint" s') with (HasPrefix s' "t_uint"). change (String.prefix "t_uint" s) with (HasPrefix s "t_uint").
  by rewrite !(same_head_eqb s s'), (same_head_prefix s s') by done.
Qed.

(** ** The remappings of a layout *)

Definition remapped (old : string) : bool :=
  negb (String.eqb old "") && match remapTypeRe old with Some _ => true | None => false end &&
  negb (Contains old "storage" && negb (remapAstIdStorage old)).

(** The layouts for which the renumbering is well defined: the digits of an id do not occur
    in front of it, no two remapped types have the same name, and the ids fit an [int]. *)
Record clean_layout (layout : StorageLayout) : Prop := {
  cy_id : ∀ old kind name id suffix, is_Some (l_Types layout !! old) → remapped old = true →
    type_parts old = Some (kind, name, id, suffix) → Contains (kind ++ "(" ++ name ++ ")") id = false;
  cy_names : ∀ old old', is_Some (l_Types layout !! old) → is_Some (l_Types layout !! old') →
    remapped old = true → remapped old' = true → type_name old = type_name old' → old = old';
  cy_size : (1000 + Z.of_nat (List.length (l_Storage layout)) + Z.of_nat (size (l_Types layout)) < two63)%Z
}.

Lemma Index_behind c a id r : no_char c id = true → id ≠ "" → Contains (a ++ String c "") id = false →
  Index (a ++ String c (id ++ r)) id = Some (S (String.length a)).
Proof.
  intros Hc Hne. unfold Contains. induction a as [|x a IH]; cbn [append Index String.length]; intros H.
  - destruct id as [|y id]; [done|]. pose proof Hc as [Hy _]%no_char_cons. rewrite HasPrefix_first by done.
    assert (E : Index (String y id ++ r) (String y id) = Some O).
    { cbn [append Index]. by rewrite (HasPrefix_app (String y id) r : HasPrefix (String y (id ++ r)) _ = true). }
    by rewrite E.
  - assert (Hp : ∀ t, HasPrefix (String x (a ++ String c t)) id = HasPrefix (String x a) id)
      by (intros t; exact (prefix_before c (String x a) t id Hc)).
    rewrite Hp in H |- *. destruct (HasPrefix (String x a) id); [done|]. rewrite IH; [done|].
    by destruct (Index (a ++ _) id).
Qed.

Lemma Replace1_id old kind name id suffix new : type_parts old = Some (kind, name, id, suffix) →
  Contains (kind ++ "(" ++ name ++ ")") id = false → Replace1 old id new = type_text kind name new suffix.
Proof.
  intros [-> Hwf]%type_parts_spec Hc. destruct (wf_no_char ")" _ _ _ _ eq_refl eq_refl Hwf) as (_ & _ & Hi & _).
  pose proof (Index_behind ")" (kind ++ "(" ++ name) id suffix Hi (proj1 (wf_id _ _ _ _ Hwf))) as H.
  assert (E : ∀ x, type_text kind name x suffix = (kind ++ "(" ++ name ++ ")") ++ x ++ suffix)
    by (intros; unfold type_text; by rewrite !app_assoc_s).
  rewrite !E. apply Replace1_at. rewrite !app_assoc_s in H |- *. cbn [append] in H |- *.
  rewrite H by done. f_equal. rewrite !length_app_s. cbn [String.length]. rewrite !length_app_s. cbn [String.length]. lia.
Qed.

Lemma remap_entries_last es : ∀ (m : gmap Z Z) id, (0 <= id)%Z → (id + Z.of_nat (List.length es) < two63)%Z →
  (fold_left (fun '(m, id) slot => (<[e_AstId slot := id]> m, u64 (id + 1))) es (m, id)).2 =
  (id + Z.of_nat (List.length es))%Z.
Proof.
  induction es as [|e es IH]; intros m id H0 H1; cbn [fold_left List.length] in *; [cbn; lia|].
  assert (E : u64 (id + 1) = (id + 1)%Z) by (unfold u64, two63, two64 in *; apply Z.mod_small; lia).
  rewrite E, IH by lia. lia.
Qed.

(** The remappings after the types [l]. *)
Record numbered (l : list string) (m : gmap string string) (seen : gset string) : Prop := {
  nb_seen : ∀ old, old ∈ seen → is_Some (m !! old);
  nb_sound : ∀ old new, m !! old = Some new → old ∈ l ∧ remapped old = true ∧
    ∃ ast k, remapTypeRe old = Some ast ∧ new = Replace1 old ast (Itoa k) ∧ (0 <= k)%Z;
  nb_complete : ∀ old, old ∈ l → remapped old = true → is_Some (m !! old)
}.

Lemma numbered_skip l m seen t : numbered l m seen → remapped t = false ∨ t ∈ seen → numbered (l ++ [t])%list m seen.
Proof.
  intros [H1 H2 H3] Ht. split; [done| |].
  - intros o n Ho. apply H2 in Ho as (Hin & ?). split; [set_solver|done].
  - intros o [Ho|Ho%list_elem_of_singleton]%elem_of_app Hr; [by apply H3|]. subst o.
    destruct Ht as [Ht|Ht]; [congruence|by apply H1].
Qed.

Lemma numbered_new l m seen t ast id : numbered l m seen → remapped t = true → remapTypeRe t = Some ast → (0 <= id)%Z →
  numbered (l ++ [t])%list (<[t := Replace1 t ast (Itoa id)]> m) ({[t]} ∪ seen).
Proof.
  intros [H1 H2 H3] Hr Hre Hid. split.
  - intros o Ho. destruct (decide (o = t)) as [->|Hot]; [by rewrite lookup_insert_eq|].
    rewrite lookup_insert_ne by done. apply H1. set_solver.
  - intros o n Ho. destruct (decide (o = t)) as [->|Hot].
    + rewrite lookup_insert_eq in Ho. injection Ho as <-. split; [set_solver|]. split; [done|]. by exists ast, id.
    + rewrite lookup_insert_ne in Ho by done. apply H2 in Ho as (Hin & ?). split; [set_solver|done].
  - intros o Ho Hro. destruct (decide (o = t)) as [->|Hot]; [by rewrite lookup_insert_eq|].
    rewrite lookup_insert_ne by done. apply H3; [set_solver|done].
Qed.

Lemma remap_type_numbered l id m seen t : numbered l m seen → (0 <= id)%Z → (id + 1 < two63)%Z →
  let '(id', m', seen') := remap_type (id, m, seen) t in
  (id <= id' <= id + 1)%Z ∧ numbered (l ++ [t])%list m' seen'.
Proof.
  intros Hn H0 H1. cbn [remap_type]. destruct (bool_decide_reflect (t ∈ seen)) as [Hin|_]; cbn [orb].
  { split; [lia|]. apply numbered_skip; auto. }
  destruct (String.eqb t "") eqn:Hne; [split; [lia|]; apply numbered_skip; [done|left; unfold remapped; by rewrite Hne]|].
  destruct (remapTypeRe t) as [ast|] eqn:Hre.
  2: { split; [lia|]. apply numbered_skip; [done|]. left. unfold remapped. by rewrite Hre, andb_false_r. }
  destruct (Contains t "storage" && negb (remapAstIdStorage t)) eqn:Hst.
  { split; [lia|]. apply numbered_skip; [done|]. left. unfold remapped. by rewrite Hst, andb_false_r. }
  assert (E : u64 (id + 1) = (id + 1)%Z ∧ s64 id = id)
    by (unfold u64, s64, two63, two64 in *; rewrite !Z.mod_small by lia; lia).
  destruct E as [-> ->]. split; [lia|]. apply numbered_new; try done. unfold remapped. by rewrite Hne, Hre, Hst.
Qed.

(** Every remapped type of the list, and no other, has a new number. *)
Lemma remap_types_numbered l id : (0 <= id)%Z → (id + Z.of_nat (List.length l) < two63)%Z →
  ∃ seen, numbered l (remap_types l id) seen.
Proof.
  intros H0 H1. unfold remap_types.
  assert (Hf : ∀ l2 l1 id m seen, numbered l1 m seen → (0 <= id)%Z → (id + Z.of_nat (List.length l2) < two63)%Z →
    ∃ seen', numbered (l1 ++ l2)%list (fold_left remap_type l2 (id, m, seen)).1.2 seen').
  { clear. induction l2 as [|t l2 IH]; intros l1 id m seen Hn H0 H1; cbn [fold_left List.length] in *.
    - rewrite app_nil_r. by exists seen.
    - pose proof (remap_type_numbered l1 id m seen t Hn H0 ltac:(lia)) as Hs.
      destruct (remap_type (id, m, seen) t) as [[id' m'] seen']. destruct Hs as [Hid Hs].
      destruct (IH _ id' m' seen' Hs) as [s Hs']; [lia..|]. exists s. by rewrite <- app_assoc in Hs'. }
  apply (Hf l [] id ∅ ∅); try done. split; set_solver.
Qed.

Section Layout.
Variable layout : StorageLayout.
Hypothesis Hclean : clean_layout layout.

(** The remappings, whatever the order of the range over the types. *)
Definition names : list string := (map_to_list (l_Types layout)).*1.
Definition sorted_names : list string := merge_sort string_le names.
Definition remappings : gmap string string := remap_types sorted_names (remap_entries (l_Storage layout) 1000).2.

Lemma names_length : List.length names = size (l_Types layout).
Proof. unfold names. by rewrite length_fmap, length_map_to_list. Qed.

Lemma remappings_numbered : ∃ seen, numbered sorted_names remappings seen.
Proof.
  unfold remappings, remap_entries. pose proof (cy_size _ Hclean) as Hs.
  rewrite remap_entries_last by lia. apply remap_types_numbered; [lia|].
  unfold sorted_names. by rewrite merge_sort_Permutation, names_length.
Qed.

Lemma sorted_names_in t : t ∈ sorted_names ↔ is_Some (l_Types layout !! t).
Proof.
  unfold sorted_names, names. rewrite merge_sort_Permutation, list_elem_of_fmap. split.
  - intros ([k v] & -> & H). apply elem_of_map_to_list in H. by eexists.
  - intros [v Hv]. exists (t, v). split; [done|]. by apply elem_of_map_to_list.
Qed.

Lemma remappings_clean : clean remappings.
Proof.
  destruct remappings_numbered as [seen [_ Hs _]]. split.
  - intros old new H. apply Hs in H as (Hin & Hr & ast & k & Hre & -> & Hk). apply sorted_names_in in Hin.
    unfold remapTypeRe in Hre. destruct (type_parts old) as [[[[kind name] id] suffix]|] eqn:Hp; [|done]. injection Hre as ->.
    rewrite (Replace1_id _ _ _ _ _ _ Hp) by (by eapply (cy_id _ Hclean)). apply type_parts_spec in Hp as [-> Hwf].
    exists (mkRenumbering kind name ast (Itoa k) suffix). split_and!; try done. split; [done|]. by apply Itoa_digits.
  - intros old old' [n H] [n' H'] Hn. apply Hs in H as (Hin & Hr & _), H' as (Hin' & Hr' & _).
    apply (cy_names _ Hclean); try done; by apply sorted_names_in.
Qed.

(** What becomes of a type name. *)
Definition canonical_name (s : string) : string := replaceType remappings (map_to_list remappings) s.

Lemma canonical_name_same_head s : same_head s (canonical_name s).
Proof. by apply replaceType_same_head; [apply remappings_clean|]. Qed.

Lemma CanonicalizeASTIDs_order type_order range base : ranges range → type_order ≡ₚ names →
  CanonicalizeASTIDs type_order range layout base = CanonicalizeASTIDs names (λ _, map_to_list) layout base.
Proof.
  intros Hr Ho. unfold CanonicalizeASTIDs. destruct (remap_entries _ _) as [ids last] eqn:He.
  assert (Hs : merge_sort string_le type_order = sorted_names).
  { apply (Sorted_unique string_le); try apply _; [apply (Sorted_merge_sort string_le)..|].
    etransitivity; [apply merge_sort_Permutation|]. etransitivity; [exact Ho|]. symmetry. apply merge_sort_Permutation. }
  rewrite Hs. fold sorted_names. assert (Hm : remap_types sorted_names last = remappings) by (unfold remappings; by rewrite He).
  rewrite Hm. pose proof remappings_clean as Hc.
  assert (Hf : ∀ site s, replaceType remappings (range site remappings) s = canonical_name s)
    by (intros; by apply replaceType_order).
  f_equal.
  - apply imap_ext. intros i e _. unfold canonical_entry. by rewrite Hf.
  - clear Hs. generalize (∅ : gmap string StorageLayoutType), sorted_names. intros m l. revert m.
    induction l as [|t l IH]; intros m; [done|].
    cbn [fold_left]. rewrite IH. unfold canonical_type. by rewrite !Hf.
Qed.

End Layout.

(** ** Reading a canonical layout *)

(** The same outcome, up to the text of an error. *)
Definition same_outcome {A} (x y : go (result A)) : Prop :=
  match x, y with
  | Ret (Ok a), Ret (Ok b) => a = b
  | Ret (Err _), Ret (Err _) => True
  | Panic a, Panic b => a = b
  | _, _ => False
  end.

Lemma same_outcome_refl {A} (x : go (result A)) : same_outcome x x.
Proof. by destruct x as [[]|]. Qed.

Lemma same_outcome_bind {A B} (x y : go (result A)) (f g : result A → go (result B)) : same_outcome x y →
  (∀ a, same_outcome (f (Ok a)) (g (Ok a))) → (∀ e e', same_outcome (f (Err e)) (g (Err e'))) →
  same_outcome (r ← x; f r) (r ← y; g r).
Proof. destruct x as [[a|e]|w], y as [[a'|e']|w']; try done; intros H Hok Herr; cbn in H |- *; [subst; apply Hok|apply Herr]. Qed.

Section Slots.
Context `{Cr : Crypto} `{Hx : Hex}.
Variable layout : StorageLayout.
Hypothesis Hclean : clean_layout layout.

(** An entry and its canonical form; a type and its canonical form. *)
Definition entry_like (e e' : StorageLayoutEntry) : Prop :=
  e_Label e' = e_Label e ∧ e_Offset e' = e_Offset e ∧ e_Slot e' = e_Slot e ∧ e_Type e' = canonical_name layout (e_Type e).

Definition type_like (t t' : StorageLayoutType) : Prop :=
  t_Encoding t' = t_Encoding t ∧ t_Label t' = t_Label t ∧ t_NumberOfBytes t' = t_NumberOfBytes t ∧
  same_head (t_Key t) (t_Key t') ∧ same_head (t_Value t) (t_Value t').

Lemma getElementEncoder_like t t' kind : type_like t t' → same_outcome (getElementEncoder t kind) (getElementEncoder t' kind).
Proof.
  intros (He & Hl & _ & Hk & Hv). unfold getElementEncoder. destruct (negb _); [done|].
  assert (Hh : same_head (if String.eqb kind "key" then t_Key t else t_Value t) (if String.eqb kind "key" then t_Key t' else t_Value t'))
    by (by destruct (String.eqb kind "key")).
  revert Hh. generalize (if String.eqb kind "key" then t_Key t else t_Value t), (if String.eqb kind "key" then t_Key t' else t_Value t').
  intros s s' Hh. rewrite (same_head_eqb s s'), Hl by done. destruct (String.eqb s ""); [apply same_outcome_refl|].
  rewrite (encoder_same_head s s' Hh). by destruct (encoder_of s).
Qed.

Lemma EncodeStorage_like e e' t t' value : entry_like e e' → type_like t t' →
  same_outcome (EncodeStorage e value t) (EncodeStorage e' value t').
Proof.
  intros (Hl & Ho & Hs & _) Ht. pose proof (λ kind, getElementEncoder_like t t' kind Ht) as Hg.
  destruct Ht as (He & Hlab & Hn & _ & Hv). unfold EncodeStorage, EncodeStorageKeyValue, encodeSlotKey.
  rewrite He, Hlab, Hn, Ho, Hs. change (String.prefix "mapping" (t_Value t')) with (HasPrefix (t_Value t') "mapping").
  rewrite (same_head_prefix (t_Value t) (t_Value t')) by done.
  destruct (_ >? _)%Z; [done|]. destruct (String.eqb (t_Encoding t) "inplace"); [apply same_outcome_refl|].
  destruct (String.eqb (t_Encoding t) "dynamic_array"); [done|].
  destruct (String.eqb (t_Encoding t) "bytes"); [apply same_outcome_refl|].
  destruct (String.eqb (t_Encoding t) "mapping"); [|apply same_outcome_refl].
  change (String.prefix "mapping" (t_Value t)) with (HasPrefix (t_Value t) "mapping").
  destruct (HasPrefix _ _); [apply same_outcome_refl|]. destruct value; try done.
  apply same_outcome_bind; [apply Hg| |done]. intros ke. apply same_outcome_bind; [apply Hg| |done].
  intros ve. apply same_outcome_refl.
Qed.

(** No two names of the layout become one. *)
Definition distinct_names : Prop := ∀ s s',
  is_Some (l_Types layout !! s) ∨ s ∈ map e_Type (l_Storage layout) →
  is_Some (l_Types layout !! s') ∨ s' ∈ map e_Type (l_Storage layout) →
  canonical_name layout s = canonical_name layout s' → s = s'.

Variable base : string.
Let canonical : StorageLayout := CanonicalizeASTIDs (names layout) (λ _, map_to_list) layout base.

Lemma canonical_entries : Forall2 entry_like (l_Storage layout) (l_Storage canonical).
Proof.
  unfold canonical, CanonicalizeASTIDs. destruct (remap_entries _ _) as [ids last] eqn:He. cbn [l_Storage].
  apply Forall2_same_length_lookup_2; [by rewrite length_imap|]. intros i e e' H1 H2.
  rewrite list_lookup_imap, H1 in H2. injection H2 as <-. split_and!; try done.
  unfold canonical_name, remappings. by rewrite He.
Qed.

Lemma insert_names {V} (f : string → string) (g : string → V) l x : ∀ m : gmap string V,
  (∀ s, s ∈ l → f s = f x → s = x) → 
  fold_left (λ types t, <[f t := g t]> types) l m !! f x = if decide (x ∈ l) then Some (g x) else m !! f x.
Proof.
  induction l as [|t l IH]; intros m Hf; cbn [fold_left]; [done|].
  rewrite IH by (intros s Hs; apply Hf; by constructor). destruct (decide (x ∈ l)) as [Hin|Hin].
  - by rewrite decide_True by (by constructor).
  - destruct (decide (x = t)) as [->|Hne]; [by rewrite lookup_insert_eq, decide_True by constructor|].
    rewrite lookup_insert_ne by (intros E; apply Hne; symmetry; apply Hf; [constructor|done]).
    by rewrite decide_False by (by intros [?|?]%elem_of_cons).
Qed.

Lemma canonical_types s : distinct_names → is_Some (l_Types layout !! s) ∨ s ∈ map e_Type (l_Storage layout) →
  match l_Types layout !! s, l_Types canonical !! canonical_name layout s with
  | Some t, Some t' => type_like t t'
  | None, None => True
  | _, _ => False
  end.
Proof.
  intros Hd Hs. unfold canonical, CanonicalizeASTIDs. destruct (remap_entries _ _) as [ids last] eqn:He. cbn [l_Types].
  assert (Hm : remap_types (sorted_names layout) last = remappings layout) by (unfold remappings; by rewrite He).
  fold (sorted_names layout). rewrite Hm. 
  rewrite (insert_names (canonical_name layout)).
  2: { intros s' Hs'. apply Hd; [left; by apply sorted_names_in|done]. }
  destruct (l_Types layout !! s) as [t|] eqn:Ht.
  - rewrite decide_True by (apply sorted_names_in; by eexists). unfold canonical_type. cbn.
    split_and!; try done; by apply (canonical_name_same_head layout).
  - rewrite decide_False; [by rewrite lookup_empty|]. intros [? ?]%sorted_names_in. congruence.
Qed.

Lemma target_entry_like l l' label e0 e0' : Forall2 entry_like l l' → entry_like e0 e0' →
  (e_Type e0 ∈ map e_Type (l_Storage layout) ∨ e_Label e0 = "") → (∀ e, e ∈ l → e_Type e ∈ map e_Type (l_Storage layout)) →
  let step target (entry : StorageLayoutEntry) := if String.eqb label (e_Label entry) then entry else target in
  let e := fold_left step l e0 in
  entry_like e (fold_left step l' e0') ∧ (e_Type e ∈ map e_Type (l_Storage layout) ∨ e_Label e = "").
Proof.
  intros H. revert e0 e0'. induction H as [|x x' l l' Hxx _ IH]; intros e0 e0' H0 Ht Hl; [done|]. cbn [fold_left].
  assert (Hlab : e_Label x' = e_Label x) by apply Hxx. rewrite Hlab.
  destruct (String.eqb label (e_Label x)); apply IH; try done; try (intros e He; apply Hl; by constructor).
  left. apply Hl. by constructor.
Qed.

Lemma compute_loop_like : distinct_names → ∀ values acc,
  same_outcome (compute_loop layout values acc) (compute_loop canonical values acc).
Proof.
  intros Hd. induction values as [|[label value] values IH]; intros acc; [done|]. cbn [compute_loop].
  assert (H0 : entry_like zero_entry zero_entry).
  { split_and!; try done. pose proof (canonical_name_same_head layout Hclean "") as Hh.
    pose proof (same_head_eqb _ _ "" eq_refl Hh) as E. symmetry. by apply String.eqb_eq. }
  destruct (target_entry_like _ _ label zero_entry zero_entry canonical_entries H0) as [He Hin];
    [by right|intros e He; by apply list_elem_of_fmap_2|].
  fold (target_entry layout label) (target_entry canonical label) in He, Hin.
  revert He Hin. generalize (target_entry layout label), (target_entry canonical label). intros e e' He Hin.
  assert (Hl : e_Label e' = e_Label e) by apply He. rewrite Hl.
  destruct (String.eqb_spec (e_Label e) "") as [|Hne]; [done|]. destruct Hin as [Hin|Hin]; [|done].
  pose proof (canonical_types (e_Type e) Hd (or_intror Hin)) as Ht.
  assert (Het : e_Type e' = canonical_name layout (e_Type e)) by apply He. rewrite Het.
  assert (Htt : type_like (default zero_type (l_Types layout !! e_Type e)) (default zero_type (l_Types canonical !! canonical_name layout (e_Type e)))).
  { destruct (l_Types layout !! e_Type e), (l_Types canonical !! _); cbn; try done.
    split_and!; try done; apply same_head_refl. }
  assert (Hlt : t_Label (default zero_type (l_Types canonical !! canonical_name layout (e_Type e))) =
    t_Label (default zero_type (l_Types layout !! e_Type e))) by apply Htt.
  rewrite Hlt. destruct (String.eqb _ ""); [done|].
  apply same_outcome_bind; [by apply EncodeStorage_like|intros st; apply IH|done].
Qed.

End Slots.

(** C26: Canonicalization does not depend on the order of any range over a Go map, neither over the
    types nor over the remappings at each of its calls, for a clean layout: one in which the
    digits of an id occur nowhere in front of it in its type's name, no two types that carry an
    id have the same name, and the ids handed out fit an [int].  Without the first condition,
    or the second, it does depend on it ([digit_of_the_name_nondeterministic],
    [canonical_nondeterministic]). *)
Theorem canonical_deterministic layout base order order' range range' :
  clean_layout layout → order ≡ₚ names layout → order' ≡ₚ names layout → ranges range → ranges range' →
  CanonicalizeASTIDs order range layout base = CanonicalizeASTIDs order' range' layout base.
Proof. intros H Ho Ho' Hr Hr'. by rewrite (CanonicalizeASTIDs_order layout H order), (CanonicalizeASTIDs_order layout H order'). Qed.

(** The storage slots computed from a canonical layout are those computed from the layout of
    the compiler, for any values: the same words at the same keys, an error exactly when
    there was one, and the same panics. *)
Theorem canonical_layout_slots `{Cr : Crypto} `{Hx : Hex} layout base order range values :
  clean_layout layout → distinct_names layout → order ≡ₚ names layout → ranges range →
  same_outcome (ComputeStorageSlots layout values) (ComputeStorageSlots (CanonicalizeASTIDs order range layout base) values).
Proof.
  intros H Hd Ho Hr. rewrite (CanonicalizeASTIDs_order layout H order) by done. unfold ComputeStorageSlots.
  apply same_outcome_bind; [by apply compute_loop_like|done|done].
Qed.

Module CanonicalizeSample.

Definition owner : string := "t_contract(Owner)12".
Definition roles : string := "t_mapping(t_contract(Owner)12,t_uint256)".

(** A contract-typed variable, a mapping from it and a counter. *)
Definition layout : StorageLayout := mkLayout
  [mkStorageLayoutEntry 3 "/repo/src/Token.sol:Token" "owner" 0 0 owner;
   mkStorageLayoutEntry 9 "src/Token.sol:Token" "count" 0 1 "t_uint256";
   mkStorageLayoutEntry 11 "src/Token.sol:Token" "roles" 0 2 roles]
  {[ owner := mkType "inplace" "contract Owner" 20 "" ""; "t_uint256" := mkType "inplace" "uint256" 32 "" "";
     roles := mkType "mapping" "mapping(address => uint256)" 32 owner "t_uint256" ]}.

Lemma layout_names s : is_Some (l_Types layout !! s) → s = owner ∨ s = "t_uint256" ∨ s = roles.
Proof.
  intros [t H]. cbn [layout l_Types] in H. apply lookup_insert_Some in H as [[<- _]|[_ H]]; [by left|].
  apply lookup_insert_Some in H as [[<- _]|[_ H]]; [by right; left|].
  apply lookup_singleton_Some in H as [<- _]. by right; right.
Qed.

Lemma layout_clean : clean_layout layout.
Proof.
  split; [| |vm_compute; reflexivity].
  - intros old kind name id suffix Hs Hr Hp. apply layout_names in Hs as [-> |[-> | ->]];
      [|vm_compute in Hr; discriminate Hr..]. vm_compute in Hp. injection Hp as <- <- <- <-. vm_compute. reflexivity.
  - intros old old' Hs Hs' Hr Hr' _. apply layout_names in Hs as [-> |[-> | ->]]; try (vm_compute in Hr; discriminate Hr).
    apply layout_names in Hs' as [-> |[-> | ->]]; try (vm_compute in Hr'; discriminate Hr'). reflexivity.
Qed.

Lemma layout_distinct : distinct_names layout.
Proof.
  assert (Hall : ∀ s, is_Some (l_Types layout !! s) ∨ s ∈ map e_Type (l_Storage layout) → s = owner ∨ s = "t_uint256" ∨ s = roles).
  { intros s [H|H]; [by apply layout_names|]. cbn in H. rewrite !elem_of_cons, elem_of_nil in H. tauto. }
  intros s s' Hs%Hall Hs'%Hall. destruct Hs as [-> |[-> | ->]], Hs' as [-> |[-> | ->]]; try reflexivity;
    intros H; vm_compute in H; discriminate H.
Qed.

Definition in_order (_ : call_site) (m : gmap string string) : list (string * string) := map_to_list m.
Definition reversed (_ : call_site) (m : gmap string string) : list (string * string) := reverse (map_to_list m).

Lemma in_order_ranges : ranges in_order.
Proof. intros site m. reflexivity. Qed.

Lemma reversed_ranges : ranges reversed.
Proof. intros site m. unfold reversed. apply reverse_Permutation. Qed.

Definition canonical : StorageLayout := CanonicalizeASTIDs (names layout) in_order layout "/repo".

Lemma canonical_deterministic_witness :
  CanonicalizeASTIDs (reverse (names layout)) reversed layout "/repo" = canonical ∧
  map e_Type (l_Storage canonical) = ["t_contract(Owner)1003"; "t_uint256"; "t_mapping(t_contract(Owner)1003,t_uint256)"] ∧
  map e_AstId (l_Storage canonical) = [1000; 1001; 1002]%Z.
Proof.
  split; [|split; vm_compute; reflexivity].
  apply (canonical_deterministic layout "/repo" (reverse (names layout)) (names layout) reversed in_order layout_clean);
    [apply reverse_Permutation|reflexivity|exact reversed_ranges|exact in_order_ranges].
Defined.

Lemma canonical_layout_slots_witness :
  ComputeStorageSlots (C := MemoryDBSample.crypto) (H := StorageSample.hex) canonical [("count", v_uint 5)] =
    Ret (Ok [mkStorage 1 5]).
Proof.
  assert (H := canonical_layout_slots (Cr := MemoryDBSample.crypto) (Hx := StorageSample.hex) layout "/repo"
    (names layout) in_order [("count", v_uint 5)] layout_clean layout_distinct (reflexivity _) in_order_ranges).
  fold canonical in H.
  assert (E : ComputeStorageSlots (C := MemoryDBSample.crypto) (H := StorageSample.hex) layout [("count", v_uint 5)] =
    Ret (Ok [mkStorage 1 5])) by (vm_compute; reflexivity).
  rewrite E in H. destruct (ComputeStorageSlots canonical _) as [[l|e]|w]; cbn in H; [by rewrite H|destruct H|destruct H].
Defined.

(** Two contracts of the same name, one with an id that extends the other's. *)
Definition short : string := "t_contract(A)12".
Definition long : string := "t_contract(A)123".

Definition twins : StorageLayout := mkLayout
  [mkStorageLayoutEntry 1 "A" "m" 0 0 "t_mapping(t_contract(A)123,t_bool)"]
  {[ short := zero_type; long := zero_type ]}.

End CanonicalizeSample.

(** Where two types have the same name the result depends on the order of the range in
    [replaceType]: the shorter id is replaced inside the longer one, or not. *)
Theorem canonical_nondeterministic : ∃ layout range range',
  ranges range ∧ ranges range' ∧
  map e_Type (l_Storage (CanonicalizeASTIDs (names layout) range layout "")) = ["t_mapping(t_contract(A)10013,t_bool)"] ∧
  map e_Type (l_Storage (CanonicalizeASTIDs (names layout) range' layout "")) = ["t_mapping(t_contract(A)1002,t_bool)"].
Proof.
  set (r := if decide ((map_to_list (remappings CanonicalizeSample.twins)).*1 = [CanonicalizeSample.short; CanonicalizeSample.long])
            then CanonicalizeSample.in_order else CanonicalizeSample.reversed).
  set (r' := if decide ((map_to_list (remappings CanonicalizeSample.twins)).*1 = [CanonicalizeSample.short; CanonicalizeSample.long])
            then CanonicalizeSample.reversed else CanonicalizeSample.in_order).
  exists CanonicalizeSample.twins, r, r'.
  assert (Hr : ranges r ∧ ranges r')
    by (unfold r, r'; destruct (decide _); split; apply CanonicalizeSample.in_order_ranges || apply CanonicalizeSample.reversed_ranges).
  destruct Hr as [Hr Hr']. split; [exact Hr|]. split; [exact Hr'|]. split; vm_compute; reflexivity.
Qed.

(** The id is looked for from the left: a digit of the name is taken for it. *)
Theorem digit_of_the_name_replaced :
  remap_types ["t_enum(A1)1"] 1001 !! "t_enum(A1)1" = Some "t_enum(A1001)1".
Proof. vm_compute. reflexivity. Qed.

(** Then, with distinct names too, the result depends on the order of the range. *)
Theorem digit_of_the_name_nondeterministic :
  let m := remap_types ["t_enum(A1)1"; "t_enum(A1001)1"] 1001 in
  let a := ("t_enum(A1)1", "t_enum(A1001)1") in let b := ("t_enum(A1001)1", "t_enum(A1002001)1") in
  m = list_to_map [a; b] ∧
  replaceType m [a; b] "t_mapping(t_enum(A1)1,t_enum(A1001)1)" = "t_mapping(t_enum(A1002001)1,t_enum(A1001)1)" ∧
  replaceType m [b; a] "t_mapping(t_enum(A1)1,t_enum(A1001)1)" = "t_mapping(t_enum(A1001)1,t_enum(A1002001)1)".
Proof. by vm_compute. Qed.

(** Only the first occurrence of a type in a composite name is replaced. *)
Theorem second_occurrence_kept :
  replaceType {["t_contract(A)12" := "t_contract(A)1001"]} [("t_contract(A)12", "t_contract(A)1001")]
    "t_mapping(t_contract(A)12,t_contract(A)12)" = "t_mapping(t_contract(A)1001,t_contract(A)12)".
Proof. vm_compute. reflexivity. Qed.
