(* ===== verification/Bindings.v ===== *)
(** * The bindings generator

    Models ops/bindings/gen/hardhat/hardhat.go (reading the compiler's artifacts) and
    ops/bindings/gen/main.go (one Go file for each contract, with its canonical storage
    layout), and what the generated file does when it is loaded.  The file system, JSON and
    the abigen command are parameters; paths are those of package filepath on Unix. *)

From Stdlib Require Import Ascii String.
From S2P Require Import Prelude Errors GoStrings MemoryDB Storage Solc Canonicalize.

Open Scope string_scope.
#[local] Arguments String.append : simpl nomatch.

(** ** Package filepath *)

Definition slash : ascii := "/".

(** The elements of a cleaned path; [out] is reversed. *)
Fixpoint clean_elements (rooted : bool) (elements out : list string) : list string :=
  match elements with
  | [] => List.rev out
  | e :: elements =>
      if String.eqb e "" || String.eqb e "." then clean_elements rooted elements out
      else if String.eqb e ".." then
        match out with
        | last :: out' =>
            if String.eqb last ".." then clean_elements rooted elements (e :: out) else clean_elements rooted elements out'
        | [] => if rooted then clean_elements rooted elements [] else clean_elements rooted elements [e]
        end
      else clean_elements rooted elements (e :: out)
  end.

Definition Clean (path : string) : string :=
  let rooted := HasPrefix path "/" in
  let cleaned := Join (clean_elements rooted (Split path slash) []) slash in
  if rooted then "/" ++ cleaned else if String.eqb cleaned "" then "." else cleaned.

Definition path_Join (elem : list string) : string :=
  match List.filter (λ e, negb (String.eqb e "")) elem with
  | [] => ""
  | es => Clean (Join es slash)
  end.

Definition Dir (path : string) : string :=
  Clean match LastIndex path "/" with Some i => stake (i + 1) path | None => "" end.

Definition Base (path : string) : string :=
  if String.eqb path "" then "."
  else
    let p := trim_right (λ c, Ascii.eqb c slash) path in
    let p := match LastIndex p "/" with Some i => sdrop (i + 1) p | None => p end in
    if String.eqb p "" then "/" else p.

(** ** hardhat.go *)

Record Artifact (Abi : Type) := mkArtifact {
  ContractName : string;
  SourceName : string;
  art_Abi : Abi;
  Bytecode : bytes;
  DeployedBytecode : bytes
}.
Arguments mkArtifact {Abi}.
Arguments ContractName {Abi}.
Arguments SourceName {Abi}.
Arguments art_Abi {Abi}.
Arguments Bytecode {Abi}.
Arguments DeployedBytecode {Abi}.

Record DebugFile := mkDebugFile { df_Format : string; df_BuildInfo : string }.

Record BuildInfo (ABI : Type) := mkBuildInfo {
  bi_Format : string;
  bi_Id : string;
  SolcVersion : string;
  SolcLongVersion : string;
  bi_Input : CompilerInput;
  bi_Output : CompilerOutput ABI
}.
Arguments mkBuildInfo {ABI}.
Arguments bi_Output {ABI}.

(** An entry of [fs.WalkDir]: its path, whether it is a directory, and the walk's error. *)
Record walk_entry := mkWalk { w_path : string; w_dir : bool; w_err : option error }.

Class Files (Abi ABI : Type) := {
  os_ReadFile : string → result string;
  WalkDir : string → list walk_entry;
  Getwd : result string;
  json_Artifact : string → result (Artifact Abi);
  json_DebugFile : string → result DebugFile;
  json_BuildInfo : string → result (BuildInfo ABI)
}.

Section Hardhat.
Context {Abi ABI : Type} `{F : Files Abi ABI}.

Definition ReadArtifact (path : string) : result (Artifact Abi) :=
  match os_ReadFile path with
  | Err e => Err e
  | Ok file => match json_Artifact file with Err e => Err e | Ok artifact => Ok artifact end
  end.

(** [filepath.Abs]; a failing [Getwd] gives an empty path, and its error is dropped. *)
Definition Abs (path : string) : string :=
  if IsAbs path then Clean path
  else match Getwd with Err _ => "" | Ok wd => path_Join [wd; path] end.

(** The two maps of [ReadBuildInfos], by path and by target. *)
Definition infos : Type := gmap string (BuildInfo ABI) * gmap string (BuildInfo ABI).

(** The path of the build info that a debug file names. *)
Definition debug_path (name : string) (debugFile : DebugFile) : string :=
  Abs (path_Join [Dir name; df_BuildInfo debugFile]).

Definition debug_target (name : string) : string := Base (stake (String.length name - 9) name).

(** The function that [WalkDir] calls. *)
Definition visit (artifactPath : string) (entry : walk_entry) (maps : infos) : result infos :=
  match w_err entry with
  | Some e => Err e
  | None =>
      if w_dir entry then Ok maps
      else
        let name := path_Join [artifactPath; w_path entry] in
        if negb (HasSuffix name ".dbg.json") then Ok maps
        else
          match os_ReadFile name with
          | Err e => Err e
          | Ok file =>
              match json_DebugFile file with
              | Err e => Err e
              | Ok debugFile =>
                  let path := debug_path name debugFile in
                  match maps.1 !! path with
                  | Some buildInfo => Ok (maps.1, <[debug_target name := buildInfo]> maps.2)
                  | None =>
                      match os_ReadFile path with
                      | Err e => Err e
                      | Ok buildInfoFile =>
                          match json_BuildInfo buildInfoFile with
                          | Err e => Err e
                          | Ok buildInfo => Ok (<[path := buildInfo]> maps.1, <[debug_target name := buildInfo]> maps.2)
                          end
                      end
                  end
              end
          end
  end.

Fixpoint walk (artifactPath : string) (entries : list walk_entry) (maps : infos) : result infos :=
  match entries with
  | [] => Ok maps
  | e :: entries => match visit artifactPath e maps with Err err => Err err | Ok maps => walk artifactPath entries maps end
  end.

Definition ReadBuildInfos (artifactPath : string) : result (gmap string (BuildInfo ABI)) :=
  match walk artifactPath (WalkDir artifactPath) (∅, ∅) with Err e => Err e | Ok maps => Ok maps.2 end.

(** [GetStorageLayout]: the first source, in the order of the range, that has the contract; a
    nil build info panics. *)
Definition GetStorageLayout (range : gmap string (CompilerOutputContracts ABI) → list (string * CompilerOutputContracts ABI))
    (contractName : string) (buildInfo : option (BuildInfo ABI)) : go (result StorageLayout) :=
  match buildInfo with
  | None => Panic nil_deref
  | Some info =>
      Ret match List.find (λ s, bool_decide (is_Some (s.2 !! contractName))) (range (out_Contracts (bi_Output info))) with
          | Some (_, contracts) => Ok (from_option co_StorageLayout (mkLayout [] ∅) (contracts !! contractName))
          | None => Err (FmtError ("contract not found for " ++ contractName))
          end
  end.

End Hardhat.

(** ** main.go *)

Record flags := mkFlags {
  Contracts_file : string;
  OutDir : string;
  Package : string;
  ContractDir : string;
  AbigenBin : string
}.

Record data := mkData { d_Name : string; d_StorageLayout : string; d_DeployedBin : string; d_Package : string }.

(** What the program does outside: files written and commands run, in order. *)
Inductive action : Type :=
| a_write (path content : string)
| a_abigen (arguments : list string).

Class Generator (Abi : Type) := {
  json_Contracts : string → result (list string);
  json_Abi : Abi → result string;
  json_Layout : StorageLayout → result string;
  hexutil_String : bytes → string;
  MkdirTemp : result string;
  perform : action → option error              (* the outcome of an action *)
}.

(** The double quote and the backslash. *)
Definition dquote : string := String "034" "".
Definition backslash : string := String "092" "".
Definition newline : string := String "010" "".
Definition tabs : string := String "009" "".

Definition quoted (s : string) : string := dquote ++ s ++ dquote.

(** [strings.Replace] of the quotes. *)
Definition escape (s : string) : string := ReplaceAll s dquote (backslash ++ dquote).

(** The template [tmpl], executed. *)
Definition execute (d : data) : string :=
  Join ["// Code generated - DO NOT EDIT.";
        "// This file is a generated binding and any manual changes will be lost.";
        "";
        "package " ++ d_Package d;
        "";
        "import (";
        tabs ++ quoted "encoding/json";
        "";
        tabs ++ quoted "github.com/specularL2/specular/ops/bindings/solc";
        ")";
        "";
        "const " ++ d_Name d ++ "StorageLayoutJSON = " ++ quoted (d_StorageLayout d);
        "";
        "var " ++ d_Name d ++ "StorageLayout = new(solc.StorageLayout)";
        "";
        "var " ++ d_Name d ++ "DeployedBin = " ++ quoted (d_DeployedBin d);
        "func init() {";
        tabs ++ "if err := json.Unmarshal([]byte(" ++ d_Name d ++ "StorageLayoutJSON), " ++ d_Name d ++ "StorageLayout); err != nil {";
        tabs ++ tabs ++ "panic(err)";
        tabs ++ "}";
        "";
        tabs ++ "layouts[" ++ quoted (d_Name d) ++ "] = " ++ d_Name d ++ "StorageLayout";
        tabs ++ "deployedBytecodes[" ++ quoted (d_Name d) ++ "] = " ++ d_Name d ++ "DeployedBin";
        "}";
        ""] "010".

Section Main.
Context {Abi ABI : Type} `{F : Files Abi ABI} `{G : !Generator Abi}.
Variable source_range : gmap string (CompilerOutputContracts ABI) → list (string * CompilerOutputContracts ABI).
Variable type_range : StorageLayout → list string.
Variable remap_range : call_site → gmap string string → list (string * string).

(** An error is [log.Fatal], which ends the program; the actions of a run that comes to its
    end are recorded. *)
Definition act (a : action) (done : list action) : result (list action) :=
  match perform a with Some e => Err e | None => Ok (done ++ [a])%list end.

(** The contract's name: the last element of its path, without the extension. *)
Definition contract_name (contract : string) : go string :=
  let start := match LastIndex contract "/" with Some i => i + 1 | None => 0 end%nat in
  if ((4 <=? String.length contract) && (start <=? String.length contract - 4))%nat
  then Ret (stake (String.length contract - 4 - start) (sdrop start contract))
  else Panic "slice bounds out of range".

(** The data of a contract's file. *)
Definition contract_data (f : flags) (name : string) (artifact : Artifact Abi) (layout : StorageLayout) : result data :=
  let canonicalStorage := CanonicalizeASTIDs (type_range layout) remap_range layout (path_Join [ContractDir f; ".."]) in
  match json_Layout canonicalStorage with
  | Err e => Err e
  | Ok ser => Ok (mkData name (escape ser) (hexutil_String (DeployedBytecode artifact)) (Package f))
  end.

(** The body of the loop over the contracts. *)
Definition generate (f : flags) (dir : string) (buildInfos : gmap string (BuildInfo ABI)) (contract : string) (done : list action)
    : go (result (list action)) :=
  name ← contract_name contract;
  match ReadArtifact (path_Join [ContractDir f; "artifacts"; contract; name ++ ".json"]) with
  | Err e => Ret (Err e)
  | Ok artifact =>
      match json_Abi (art_Abi artifact) with
      | Err e => Ret (Err e)
      | Ok rawAbi =>
          let abiFile := path_Join [dir; name ++ ".abi"] in
          let bytecodeFile := path_Join [dir; name ++ ".bin"] in
          match act (a_write abiFile rawAbi) done with
          | Err e => Ret (Err e)
          | Ok done =>
              match act (a_write bytecodeFile (hexutil_String (Bytecode artifact))) done with
              | Err e => Ret (Err e)
              | Ok done =>
                  match Getwd with
                  | Err e => Ret (Err e)
                  | Ok cwd =>
                      let outFile := path_Join [cwd; Package f; name ++ ".go"] in
                      match act (a_abigen [AbigenBin f; "--abi"; abiFile; "--bin"; bytecodeFile; "--pkg"; Package f;
                                           "--type"; name; "--out"; outFile]) done with
                      | Err e => Ret (Err e)
                      | Ok done =>
                          layout ← GetStorageLayout source_range name (buildInfos !! name);
                          Ret match layout with
                              | Err e => Err e
                              | Ok storageLayout =>
                                  match contract_data f name artifact storageLayout with
                                  | Err e => Err e
                                  | Ok d => act (a_write (path_Join [OutDir f; name ++ "_more.go"]) (execute d)) done
                                  end
                              end
                      end
                  end
              end
          end
      end
  end.

Fixpoint generate_all (f : flags) (dir : string) (buildInfos : gmap string (BuildInfo ABI)) (contracts : list string)
    (done : list action) : go (result (list action)) :=
  match contracts with
  | [] => Ret (Ok done)
  | c :: contracts =>
      r ← generate f dir buildInfos c done;
      match r with Err e => Ret (Err e) | Ok done => generate_all f dir buildInfos contracts done end
  end.

Definition main (f : flags) : go (result (list action)) :=
  if String.eqb (ContractDir f) "" then Ret (Err (FmtError "must provide -contract-dir"))
  else if String.eqb (AbigenBin f) "" then Ret (Err (FmtError "must provide -abigen-bin"))
  else
    match os_ReadFile (Contracts_file f) with
    | Err e => Ret (Err e)
    | Ok contractData =>
        match json_Contracts contractData with
        | Err e => Ret (Err e)
        | Ok [] => Ret (Err (FmtError "must define a list of contracts"))
        | Ok contracts =>
            match MkdirTemp with
            | Err e => Ret (Err e)
            | Ok dir =>
                match ReadBuildInfos (path_Join [ContractDir f; "artifacts"]) with
                | Err e => Ret (Err e)
                | Ok buildInfos => generate_all f dir buildInfos contracts []
                end
            end
        end
    end.

End Main.

(** ** The generated file, loaded

    An interpreted string literal of Go, as far as the generator writes one: an escaped quote
    or backslash, and the escapes of the three characters that JSON writes for HTML.  [skip]
    counts the bytes of an escape that are still to be passed over. *)

Definition html_escapes : list (string * ascii) :=
  [("u003e", ">"%char); ("u003c", "<"%char); ("u0026", "&"%char)].

(** The character of an HTML escape, from the text behind its backslash. *)
Definition html_char (r : string) : option ascii := snd <$> List.find (λ e, HasPrefix r e.1) html_escapes.

Definition is_backslash (c : ascii) : bool := Ascii.eqb c "092".
Definition is_dquote (c : ascii) : bool := Ascii.eqb c "034".
Definition is_newline (c : ascii) : bool := Ascii.eqb c "010".

Fixpoint unquote (skip : nat) (s : string) : option string :=
  match s, skip with
  | "", _ => Some ""
  | String _ r, S skip => unquote skip r
  | String c r, O =>
      if is_backslash c then
        match html_char r with
        | Some x => String x <$> unquote 5 r
        | None =>
            match r with
            | String d _ => if is_dquote d || is_backslash d then String d <$> unquote 1 r else None
            | "" => None
            end
        end
      else if is_dquote c || is_newline c then None
      else String c <$> unquote 0 r
  end.

Definition go_unquote (s : string) : option string := unquote 0 s.

(** The JSON text with the HTML escapes read, which is the same JSON value. *)
Fixpoint html_unescape (skip : nat) (s : string) : string :=
  match s, skip with
  | "", _ => ""
  | String _ r, S skip => html_unescape skip r
  | String c r, O =>
      match (if is_backslash c then html_char r else None) with
      | Some x => String x (html_unescape 5 r)
      | None => String c (html_unescape 0 r)
      end
  end.

(** Texts on one line whose backslashes are those of HTML escapes: what JSON makes of layouts
    without quotes, backslashes and control characters in their names. *)
Fixpoint json_plain (skip : nat) (s : string) : bool :=
  match s, skip with
  | "", _ => true
  | String _ r, S skip => json_plain skip r
  | String c r, O =>
      if is_backslash c then match html_char r with Some _ => json_plain 5 r | None => false end
      else negb (is_newline c) && json_plain 0 r
  end.

Lemma escape_cons c r : escape (String c r) = if is_dquote c then String "092" (String "034" (escape r)) else String c (escape r).
Proof.
  unfold escape, ReplaceAll. cbn [replace_all]. unfold dquote. rewrite prefix_char. fold (is_dquote c).
  by destruct (is_dquote c).
Qed.

Lemma HasPrefix_escape p : no_char "034" p = true → no_char "092" p = true → ∀ s, HasPrefix (escape s) p = HasPrefix s p.
Proof.
  unfold HasPrefix. induction p as [|x p IH]; intros H1 H2 s; [by destruct s, (escape _)|].
  apply no_char_cons in H1 as [Hx1 H1], H2 as [Hx2 H2]. destruct s as [|c s]; [done|].
  rewrite escape_cons. unfold is_dquote. destruct (Ascii.eqb_spec c "034") as [->|Hc]; cbn [String.prefix].
  - by destruct (Ascii.ascii_dec x "092"), (Ascii.ascii_dec x "034").
  - destruct (Ascii.ascii_dec x c); [by apply IH|done].
Qed.

Lemma html_char_escape r : html_char (escape r) = html_char r.
Proof. unfold html_char, html_escapes. cbn [List.find fst]. by rewrite !HasPrefix_escape. Qed.

Lemma html_char_prefix r x : html_char r = Some x → no_char "034" (stake 5 r) = true.
Proof.
  unfold html_char, html_escapes. cbn [List.find fst].
  repeat (destruct (HasPrefix r _) eqn:Hp; [apply HasPrefix_ok in Hp as [z ->]; done|]; clear Hp). done.
Qed.

Lemma unquote_escape s : ∀ k, no_char "034" (stake k s) = true → json_plain k s = true →
  unquote k (escape s) = Some (html_unescape k s).
Proof.
  induction s as [|c s IH]; intros k Hk Hs; [by destruct k|]. rewrite escape_cons. destruct k as [|k].
  - cbn [json_plain] in Hs. cbn [html_unescape]. unfold is_dquote. destruct (Ascii.eqb_spec c "034") as [->|Hq].
    + cbn in Hs |- *. by rewrite (IH O).
    + cbn [unquote]. destruct (is_backslash c).
      * rewrite html_char_escape. destruct (html_char s) as [x|] eqn:Hh; [|done].
        by rewrite (IH 5%nat (html_char_prefix s x Hh) Hs).
      * apply andb_true_iff in Hs as [Hn Hs]. apply negb_true_iff in Hn. unfold is_dquote.
        rewrite (proj2 (Ascii.eqb_neq _ _) Hq), Hn. cbn [orb]. by rewrite (IH O).
  - cbn [stake] in Hk. apply no_char_cons in Hk as [Hc Hk]. cbn [json_plain html_unescape] in Hs |- *.
    unfold is_dquote. rewrite (proj2 (Ascii.eqb_neq _ _) Hc). cbn [unquote]. by apply IH.
Qed.

(** ** Theorems *)

(** The literal of a generated file is read back as the JSON text that was written. *)
Lemma literal_roundtrip ser : json_plain 0 ser = true → go_unquote (escape ser) = Some (html_unescape 0 ser).
Proof. by apply unquote_escape. Qed.

Section HardhatFacts.
Context {Abi ABI : Type} `{F : Files Abi ABI}.

(** Reading every build info again. *)
Definition read_info (path : string) : result (BuildInfo ABI) :=
  match os_ReadFile path with Err e => Err e | Ok file => json_BuildInfo file end.

Definition visit_uncached (artifactPath : string) (entry : walk_entry) (targets : gmap string (BuildInfo ABI))
    : result (gmap string (BuildInfo ABI)) :=
  match w_err entry with
  | Some e => Err e
  | None =>
      let name := path_Join [artifactPath; w_path entry] in
      if w_dir entry || negb (HasSuffix name ".dbg.json") then Ok targets
      else
        match os_ReadFile name with
        | Err e => Err e
        | Ok file =>
            match json_DebugFile file with
            | Err e => Err e
            | Ok debugFile =>
                match read_info (debug_path name debugFile) with
                | Err e => Err e
                | Ok buildInfo => Ok (<[debug_target name := buildInfo]> targets)
                end
            end
        end
  end.

Fixpoint walk_uncached (artifactPath : string) (entries : list walk_entry) (targets : gmap string (BuildInfo ABI))
    : result (gmap string (BuildInfo ABI)) :=
  match entries with
  | [] => Ok targets
  | e :: entries =>
      match visit_uncached artifactPath e targets with
      | Err err => Err err
      | Ok targets => walk_uncached artifactPath entries targets
      end
  end.

(** Everything in the cache is what the file holds. *)
Definition cached (maps : infos) : Prop := ∀ path info, maps.1 !! path = Some info → read_info path = Ok info.

Lemma visit_cached artifactPath entry maps : cached maps →
  match visit artifactPath entry maps, visit_uncached artifactPath entry maps.2 with
  | Ok maps', Ok targets => maps'.2 = targets ∧ cached maps'
  | Err e, Err e' => e = e'
  | _, _ => False
  end.
Proof.
  intros Hc. unfold visit, visit_uncached. destruct (w_err entry); [done|]. destruct (w_dir entry); cbn [orb]; [done|].
  destruct (negb _); [done|]. destruct (os_ReadFile _) as [file|]; [|done]. destruct (json_DebugFile file) as [df|]; [|done].
  cbn zeta. set (path := debug_path _ df). destruct (maps.1 !! path) as [info|] eqn:Hp; [by rewrite (Hc _ _ Hp)|].
  unfold read_info. destruct (os_ReadFile path) as [bi|] eqn:Hr; [|done]. destruct (json_BuildInfo bi) as [info|] eqn:Hj; [|done].
  split; [done|]. intros p i. cbn [fst]. destruct (decide (p = path)) as [->|Hne].
  - rewrite lookup_insert_eq. intros [= <-]. unfold read_info. by rewrite Hr.
  - rewrite lookup_insert_ne by done. apply Hc.
Qed.

(** Reading each build info once changes nothing: the result is that of reading it again for
    every debug file, errors included. *)
Theorem ReadBuildInfos_uncached artifactPath :
  ReadBuildInfos artifactPath = walk_uncached artifactPath (WalkDir artifactPath) ∅.
Proof.
  unfold ReadBuildInfos.
  assert (H : ∀ entries maps, cached maps →
    match walk artifactPath entries maps with Err e => Err e | Ok m => Ok m.2 end = walk_uncached artifactPath entries maps.2).
  { induction entries as [|e entries IH]; intros maps Hc; [done|]. cbn [walk walk_uncached].
    pose proof (visit_cached artifactPath e maps Hc) as Hv.
    destruct (visit _ e maps) as [maps'|err], (visit_uncached _ e maps.2) as [ts|err']; try done; [|by subst].
    destruct Hv as [<- Hc']. by apply IH. }
  apply (H _ (∅, ∅)). intros p i. cbn. by rewrite lookup_empty.
Qed.

(** A contract that one source defines is found, whatever the order of the range. *)
Lemma GetStorageLayout_unique range name (info : BuildInfo ABI) source contracts (contract : CompilerOutputContract ABI) :
  (∀ m, range m ≡ₚ map_to_list m) → out_Contracts (bi_Output info) !! source = Some contracts → contracts !! name = Some contract →
  (∀ s c, out_Contracts (bi_Output info) !! s = Some c → is_Some (c !! name) → s = source) →
  GetStorageLayout range name (Some info) = Ret (Ok (co_StorageLayout contract)).
Proof.
  intros Hr Hs Hl Hu. unfold GetStorageLayout. destruct (List.find _ _) as [[s c]|] eqn:Hf.
  - apply find_some in Hf as [Hin Hsome]. apply list_elem_of_In in Hin. rewrite Hr in Hin. apply elem_of_map_to_list in Hin.
    cbn in Hsome. apply bool_decide_eq_true in Hsome. assert (s = source) as -> by (by eapply Hu). rewrite Hs in Hin. injection Hin as <-.
    by rewrite Hl.
  - pose proof (find_none _ _ Hf (source, contracts)) as Hn. cbn in Hn. exfalso. rewrite bool_decide_eq_false in Hn.
    apply Hn; [|by eexists]. apply list_elem_of_In. rewrite Hr. by apply elem_of_map_to_list.
Qed.

End HardhatFacts.

(** *** What is generated *)

(** The registry of ops/bindings/bindings: layouts and deployed bytecodes by name. *)
Definition registry : Type := gmap string StorageLayout * gmap string string.

(** The [init] of a generated file. *)
Definition load (json_Unmarshal : string → result StorageLayout) (d : data) (reg : registry) : go registry :=
  match go_unquote (d_StorageLayout d) with
  | None => Panic "syntax error"
  | Some text =>
      match json_Unmarshal text with
      | Err _ => Panic "json"
      | Ok layout => Ret (<[d_Name d := layout]> reg.1, <[d_Name d := d_DeployedBin d]> reg.2)
      end
  end.

Section MainFacts.
Context {Abi ABI : Type} `{F : Files Abi ABI} `{G : !Generator Abi}.
Variable source_range : gmap string (CompilerOutputContracts ABI) → list (string * CompilerOutputContracts ABI).
Variable type_range : StorageLayout → list string.
Variable remap_range : call_site → gmap string string → list (string * string).

(** The text of a layout is plain, and JSON reads back the layout from it. *)
Definition readable (json_Unmarshal : string → result StorageLayout) (layout : StorageLayout) : Prop :=
  ∀ ser, json_Layout layout = Ok ser → json_plain 0 ser = true ∧ json_Unmarshal (html_unescape 0 ser) = Ok layout.

(** C16: From the compiler to the state: the layout that a generated file registers computes the
    same storage slots, errors and panics as the compiler's layout, for any values.  This holds
    for a clean layout (the digits of an id occur nowhere in front of it, no two types that
    carry an id have the same name, the ids fit an [int]) no two type names of which become
    one, whatever the orders of the ranges, when [json.Unmarshal] reads back the layout that
    [json.Marshal] wrote as plain text. *)
Theorem generated_layout_slots `{Cr : Crypto} `{Hx : Hex} json_Unmarshal f name artifact layout d reg :
  contract_data type_range remap_range f name artifact layout = Ok d →
  clean_layout layout → distinct_names layout → type_range layout ≡ₚ names layout → ranges remap_range →
  readable json_Unmarshal (CanonicalizeASTIDs (type_range layout) remap_range layout (path_Join [ContractDir f; ".."])) →
  ∃ layout', load json_Unmarshal d reg = Ret (<[name := layout']> reg.1, <[name := hexutil_String (DeployedBytecode artifact)]> reg.2) ∧
    ∀ values, same_outcome (ComputeStorageSlots layout values) (ComputeStorageSlots layout' values).
Proof.
  intros Hd Hc Hn Ht Hr Hj. unfold contract_data in Hd. destruct (json_Layout _) as [ser|] eqn:Hs; [|done]. injection Hd as <-.
  destruct (Hj ser Hs) as [Hp Hu]. eexists. split.
  - unfold load. cbn [d_StorageLayout d_Name d_DeployedBin]. by rewrite literal_roundtrip, Hu.
  - intros values. rewrite (CanonicalizeASTIDs_order layout Hc (type_range layout)) by done. unfold ComputeStorageSlots.
    apply same_outcome_bind; [by apply compute_loop_like|done|done].
Qed.

(** What a run leaves for a contract. *)
Definition generated (f : flags) (infos : gmap string (BuildInfo ABI)) (contract : string) (done : list action) : Prop :=
  ∃ name artifact info layout d,
    contract_name contract = Ret name ∧
    ReadArtifact (path_Join [ContractDir f; "artifacts"; contract; name ++ ".json"]) = Ok artifact ∧
    infos !! name = Some info ∧ GetStorageLayout source_range name (Some info) = Ret (Ok layout) ∧
    contract_data type_range remap_range f name artifact layout = Ok d ∧
    a_write (path_Join [OutDir f; name ++ "_more.go"]) (execute d) ∈ done.

Lemma act_done a (done done' : list action) : act a done = Ok done' → done' = (done ++ [a])%list.
Proof. unfold act. destruct (perform a); [done|]. by intros [= <-]. Qed.

Lemma generate_done f dir infos c (done done' : list action) :
  generate source_range type_range remap_range f dir infos c done = Ret (Ok done') →
  generated f infos c done' ∧ ∃ new, done' = (done ++ new)%list ∧ List.length new = 4%nat.
Proof.
  unfold generate. destruct (contract_name c) as [name|] eqn:Hn; cbn [mbind go_bind]; [|done].
  destruct (ReadArtifact _) as [artifact|] eqn:Ha; [|done]. destruct (json_Abi _) as [rawAbi|]; [|done].
  destruct (act _ done) as [d1|] eqn:H1; [|done]. destruct (act _ d1) as [d2|] eqn:H2; [|done].
  destruct Getwd as [cwd|]; [|done]. destruct (act _ d2) as [d3|] eqn:H3; [|done].
  destruct (infos !! name) as [info|] eqn:Hi; [|done]. destruct (GetStorageLayout _ name _) as [[layout|e]|] eqn:Hl; [|done..].
  cbn [mbind go_bind]. destruct (contract_data _ _ f name artifact layout) as [d|] eqn:Hd; [|done]. intros [= H4].
  apply act_done in H1, H2, H3, H4. split.
  - exists name, artifact, info, layout, d. split_and!; try done. rewrite H4. apply elem_of_app. right. by constructor.
  - exists ([a_write (path_Join [dir; name ++ ".abi"]) rawAbi;
             a_write (path_Join [dir; name ++ ".bin"]) (hexutil_String (Bytecode artifact));
             a_abigen [AbigenBin f; "--abi"; path_Join [dir; name ++ ".abi"]; "--bin"; path_Join [dir; name ++ ".bin"]; "--pkg"; Package f;
                       "--type"; name; "--out"; path_Join [cwd; Package f; name ++ ".go"]];
             a_write (path_Join [OutDir f; name ++ "_more.go"]) (execute d)]). split; [|done].
    rewrite H4, H3, H2, H1, <- !app_assoc. done.
Qed.

Lemma generate_all_done f dir infos cs : ∀ done done' : list action,
  generate_all source_range type_range remap_range f dir infos cs done = Ret (Ok done') →
  Forall (λ c, generated f infos c done') cs ∧ ∃ new, done' = (done ++ new)%list ∧ List.length new = (4 * List.length cs)%nat.
Proof.
  induction cs as [|c cs IH]; intros done done' H; cbn [generate_all] in H.
  - injection H as <-. split; [constructor|]. exists []. by rewrite app_nil_r.
  - destruct (generate _ _ _ f dir infos c done) as [[d1|e]|] eqn:Hg; cbn [mbind go_bind] in H; [|done..].
    apply generate_done in Hg as [Hgen (n1 & -> & L1)]. apply IH in H as [Hall (n2 & -> & L2)]. split.
    + constructor; [|done]. destruct Hgen as (name & art & info & l & d & ? & ? & ? & ? & ? & Hin).
      exists name, art, info, l, d. split_and!; try done. apply elem_of_app. by left.
    + exists (n1 ++ n2)%list. rewrite app_assoc, length_app, L1, L2. cbn [List.length]. split; [done|lia].
Qed.

(** A run of the generator that ends well has read at least one contract; for each of them it
    has written, from the contract's artifact and the layout its build info has for it, the
    file with the canonical layout, and it has done four things per contract and nothing else. *)
Theorem main_correct f done : main source_range type_range remap_range f = Ret (Ok done) →
  ∃ file contracts infos, os_ReadFile (Contracts_file f) = Ok file ∧ json_Contracts file = Ok contracts ∧ contracts ≠ [] ∧
    ReadBuildInfos (path_Join [ContractDir f; "artifacts"]) = Ok infos ∧
    Forall (λ c, generated f infos c done) contracts ∧ List.length done = (4 * List.length contracts)%nat.
Proof.
  unfold main. destruct (String.eqb (ContractDir f) ""); [done|]. destruct (String.eqb (AbigenBin f) ""); [done|].
  destruct (os_ReadFile _) as [file|] eqn:Hf; [|done]. destruct (json_Contracts file) as [[|c cs]|] eqn:Hc; [done| |done].
  destruct MkdirTemp as [dir|]; [|done]. destruct (ReadBuildInfos _) as [infos|] eqn:Hi; [|done]. intros H.
  apply generate_all_done in H as [Hall (new & -> & Hl)]. by exists file, (c :: cs), infos.
Qed.

End MainFacts.

Module BindingsSample.

(** One contract, its debug file and its build info; the layout is the one of
    [CanonicalizeSample]. *)
Definition json_text : string := "{label:mapping(address =" ++ backslash ++ "u003e uint256)}".

Definition no_code : CompilerOutputBytecode := mkBytecode "" "" "" ∅.

Definition token_contract : CompilerOutputContract unit :=
  mkContract tt (mkEvm no_code no_code ∅ ∅) "" CanonicalizeSample.layout.

Definition info : BuildInfo unit :=
  mkBuildInfo "hh-sol-build-info-1" "1" "0.8.4" "0.8.4+commit.c7e474f2"
    (mkInput "Solidity" ∅ (mkSettings (mkOptimizer true 200) (mkInputMetadata true) ∅ "" ∅))
    (mkOutput {[ "src/Token.sol" := {[ "Token" := token_contract ]} ]} ∅).

#[export] Instance files : Files unit unit := {
  os_ReadFile p := Ok p;
  WalkDir _ := [mkWalk "." true None; mkWalk "src/Token.sol/Token.json" false None; mkWalk "src/Token.sol/Token.dbg.json" false None];
  Getwd := Ok "/work";
  json_Artifact _ := Ok (mkArtifact "Token" "src/Token.sol" tt [Byte.x00] [Byte.x01]);
  json_DebugFile _ := Ok (mkDebugFile "hh-sol-dbg-1" "../../build-info/1.json");
  json_BuildInfo p := if String.eqb p "/repo/contracts/artifacts/build-info/1.json" then Ok info else Err (FmtError "no file")
}.

#[export] Instance generator : Generator unit := {
  json_Contracts _ := Ok ["src/Token.sol"];
  json_Abi _ := Ok "[]";
  json_Layout _ := Ok json_text;
  hexutil_String b := "0x";
  MkdirTemp := Ok "/tmp/specular-bindings1";
  perform _ := None
}.

Definition f : flags := mkFlags "artifacts.json" "out" "bindings" "/repo/contracts" "abigen".

Definition in_map (m : gmap string (CompilerOutputContracts unit)) := map_to_list m.

Definition done : list action :=
  match main in_map names CanonicalizeSample.in_order f with Ret (Ok l) => l | _ => [] end.

Lemma main_correct_witness :
  ∃ contracts, contracts ≠ ([] : list string) ∧ List.length done = (4 * List.length contracts)%nat ∧ List.length done = 4%nat.
Proof.
  destruct (main_correct in_map names CanonicalizeSample.in_order f done) as (file & cs & infos & _ & _ & Hne & _ & _ & Hl);
    [vm_compute; reflexivity|].
  exists cs. split; [exact Hne|]. split; [exact Hl|vm_compute; reflexivity].
Defined.

(** JSON as far as the sample goes. *)
Definition unmarshal (text : string) : result StorageLayout :=
  if String.eqb text "{label:mapping(address => uint256)}"
  then Ok (CanonicalizeASTIDs (names CanonicalizeSample.layout) CanonicalizeSample.in_order CanonicalizeSample.layout "/repo")
  else Err (FmtError "json").

Definition token : data :=
  match contract_data names CanonicalizeSample.in_order f "Token" (mkArtifact "Token" "src/Token.sol" tt [] []) CanonicalizeSample.layout with
  | Ok d => d
  | Err _ => mkData "" "" "" ""
  end.

Lemma generated_layout_slots_witness :
  ∃ layout', load unmarshal token (∅, ∅) = Ret ({["Token" := layout']}, {["Token" := "0x"]}) ∧
    same_outcome (ComputeStorageSlots (C := MemoryDBSample.crypto) (H := StorageSample.hex) CanonicalizeSample.layout [("count", v_uint 5)])
      (ComputeStorageSlots (C := MemoryDBSample.crypto) (H := StorageSample.hex) layout' [("count", v_uint 5)]).
Proof.
  assert (Hr : readable unmarshal (CanonicalizeASTIDs (names CanonicalizeSample.layout) CanonicalizeSample.in_order
    CanonicalizeSample.layout (path_Join [ContractDir f; ".."]))).
  { intros ser [= <-]. split; vm_compute; reflexivity. }
  destruct (generated_layout_slots names CanonicalizeSample.in_order (Cr := MemoryDBSample.crypto) (Hx := StorageSample.hex) unmarshal f
    "Token" (mkArtifact "Token" "src/Token.sol" tt [] []) CanonicalizeSample.layout token (∅, ∅)) as (l & H1 & H2);
    [reflexivity|exact CanonicalizeSample.layout_clean|exact CanonicalizeSample.layout_distinct|reflexivity|
     exact CanonicalizeSample.in_order_ranges|exact Hr|].
  exists l. split; [exact H1|]. apply H2.
Defined.

End BindingsSample.
