(* ===== verification/CacheValidations.v ===== *)
(** * Layouts from a validations cache

    Models [ReadStorageLayoutFromCacheValidations] of ops/bindings/gen/hardhat/hardhat.go: a
    dynamic walk over decoded JSON, whose type assertions panic.  JSON's own encoding is a
    parameter, and so is the order in which Go ranges over an object. *)

From Stdlib Require Import Ascii String.
From S2P Require Import Prelude Errors GoStrings MemoryDB Storage Canonicalize Bindings.

Open Scope string_scope.

(** A value of [interface{}] that [json.Unmarshal] fills in; an object has its fields. *)
Inductive json : Type :=
| j_null
| j_bool (b : bool)
| j_number (text : string)
| j_string (s : string)
| j_array (items : list json)
| j_object (fields : list (string * json)).

Class Json := {
  json_Unmarshal_map : string → result (list (string * json));
  json_Marshal : json → result string
}.

(** A field of an object; a missing one is nil. *)
Fixpoint field (fields : list (string * json)) (name : string) : json :=
  match fields with
  | [] => j_null
  | (k, v) :: fields => if String.eqb k name then v else field fields name
  end.

(** The type assertions. *)
Definition as_array (v : json) : go (list json) :=
  match v with j_array items => Ret items | _ => Panic "interface conversion" end.

Definition as_object (v : json) : go (list (string * json)) :=
  match v with j_object fields => Ret fields | _ => Panic "interface conversion" end.

Section Cache.
Context {Abi : Type} `{F : Files Abi} `{J : Json}.
Variable range : list (string * json) → list (string * json).

(** The range over one log entry: a contract that already has a layout is skipped. *)
Fixpoint read_log (entries : list (string * json)) (layout : gmap string string) : go (result (gmap string string)) :=
  match entries with
  | [] => Ret (Ok layout)
  | (contract, data) :: entries =>
      match layout !! contract with
      | Some _ => read_log entries layout
      | None =>
          fields ← as_object data;
          match json_Marshal (field fields "layout") with
          | Err e => Ret (Err e)
          | Ok text => read_log entries (<[contract := text]> layout)
          end
      end
  end.

Fixpoint read_logs (logs : list json) (layout : gmap string string) : go (result (gmap string string)) :=
  match logs with
  | [] => Ret (Ok layout)
  | log :: logs =>
      entries ← as_object log;
      r ← read_log (range entries) layout;
      match r with
      | Err e => Ret (Err e)
      | Ok layout => read_logs logs layout
      end
  end.

Definition ReadStorageLayoutFromCacheValidations (path : string) : go (result (gmap string string)) :=
  match os_ReadFile path with
  | Err e => Ret (Err e)
  | Ok file =>
      match json_Unmarshal_map file with
      | Err e => Ret (Err e)
      | Ok cacheValidationFile =>
          logs ← as_array (field cacheValidationFile "log");
          read_logs logs ∅
      end
  end.

(** ** What is read

    The first entry of the log, in its order, that names a contract. *)
Definition lookup_field (fields : list (string * json)) (name : string) : option json :=
  snd <$> List.find (λ kv, String.eqb kv.1 name) fields.

Fixpoint first_entry (logs : list json) (contract : string) : option json :=
  match logs with
  | [] => None
  | j_object entries :: logs =>
      match lookup_field entries contract with Some data => Some data | None => first_entry logs contract end
  | _ :: logs => first_entry logs contract
  end.

(** The keys of an object are distinct, and the range visits each of them once. *)
Definition distinct_keys (v : json) : Prop := ∀ fields, v = j_object fields → NoDup (map fst fields).
Definition ranges_objects : Prop := ∀ fields, range fields ≡ₚ fields.

(** What is stored of an entry. *)
Definition layout_text (data : json) : option string :=
  match data with
  | j_object fields => match json_Marshal (field fields "layout") with Ok text => Some text | Err _ => None end
  | _ => None
  end.

Lemma lookup_field_elem fields name data : NoDup (map fst fields) →
  lookup_field fields name = Some data ↔ (name, data) ∈ fields.
Proof.
  induction fields as [|[k v] fields IH]; cbn; intros Hn; [by rewrite elem_of_nil|].
  apply NoDup_cons in Hn as [Hk Hn]. unfold lookup_field. cbn [List.find fst]. rewrite elem_of_cons.
  destruct (String.eqb_spec k name) as [->|Hne]; cbn.
  - split; [intros [= ->]; by left|intros [[= ->]|Hin]; [done|]].
    destruct Hk. by apply (list_elem_of_fmap_2 fst _ (name, data)).
  - fold (lookup_field fields name). rewrite (IH Hn). split; [by right|]. by intros [[= -> _]|?].
Qed.

Lemma lookup_field_none fields name : lookup_field fields name = None ↔ name ∉ map fst fields.
Proof.
  induction fields as [|[k v] fields IH]; cbn; [by split; [intros _ ?%elem_of_nil|]|].
  unfold lookup_field. cbn [List.find fst]. rewrite not_elem_of_cons.
  destruct (String.eqb_spec k name) as [->|Hne]; cbn; [split; [done|by intros [? _]]|].
  fold (lookup_field fields name). rewrite IH. split; [by split; [congruence|]|by intros [_ ?]].
Qed.

(** An order of an object's fields finds the same. *)
Lemma lookup_field_perm fields fields' name : NoDup (map fst fields) → fields' ≡ₚ fields →
  lookup_field fields' name = lookup_field fields name.
Proof.
  intros Hn Hp. assert (Hn' : NoDup (map fst fields')) by (unfold map in *; by rewrite Hp).
  destruct (lookup_field fields name) as [data|] eqn:H.
  - apply lookup_field_elem; [done|]. rewrite Hp. by apply lookup_field_elem.
  - apply lookup_field_none. apply lookup_field_none in H. unfold map in *. by rewrite Hp.
Qed.

Lemma read_log_spec entries : ∀ layout layout', NoDup (map fst entries) →
  read_log entries layout = Ret (Ok layout') →
  ∀ contract, (layout' !! contract =
    match layout !! contract with
    | Some text => Some text
    | None => lookup_field entries contract ≫= layout_text
    end) ∧ (is_Some (lookup_field entries contract) → is_Some (layout' !! contract)).
Proof.
  induction entries as [|[k v] entries IH]; intros layout layout' Hn H contract; cbn in H.
  { injection H as <-. split; [by destruct (layout !! contract)|by intros [? ?]]. }
  apply NoDup_cons in Hn as [Hk Hn]. unfold lookup_field. cbn [List.find fst].
  destruct (layout !! k) as [t|] eqn:Hl.
  - destruct (IH _ _ Hn H contract) as [H1 H2].
    destruct (String.eqb_spec k contract) as [->|]; [|by split]. rewrite Hl in H1 |- *. by rewrite H1.
  - destruct v as [| | | | |fields]; cbn [as_object mbind go_bind] in H; try done.
    destruct (json_Marshal (field fields "layout")) as [text|e] eqn:Hm; [|done].
    destruct (IH _ _ Hn H contract) as [H1 H2]. destruct (String.eqb_spec k contract) as [->|Hne].
    + rewrite lookup_insert_eq in H1. rewrite H1, Hl. cbn. by rewrite Hm.
    + rewrite lookup_insert_ne in H1 by done. by split.
Qed.

Lemma read_logs_spec logs : ∀ layout layout', ranges_objects → Forall distinct_keys logs →
  read_logs logs layout = Ret (Ok layout') →
  ∀ contract, layout' !! contract =
    match layout !! contract with
    | Some text => Some text
    | None => first_entry logs contract ≫= layout_text
    end.
Proof.
  induction logs as [|log logs IH]; intros layout layout' Hr Hd H contract; cbn in H.
  { injection H as <-. by destruct (layout !! contract). }
  apply Forall_cons in Hd as [Hl Hd]. destruct log as [| | | | |entries]; cbn [as_object mbind go_bind] in H; try done.
  specialize (Hl entries eq_refl).
  destruct (read_log (range entries) layout) as [[layout1|e]|w] eqn:H1; cbn [mbind go_bind] in H; [|done..].
  rewrite (IH _ _ Hr Hd H).
  assert (Hn : NoDup (map fst (range entries))) by (unfold map; by rewrite (Hr entries)).
  destruct (read_log_spec _ _ _ Hn H1 contract) as [H2 H3].
  rewrite (lookup_field_perm entries) in H2, H3 by done. cbn [first_entry].
  destruct (layout !! contract); [by rewrite H2|].
  destruct (lookup_field entries contract) as [data|]; [|by rewrite H2].
  destruct H3 as [text Ht]; [by eexists|]. rewrite Ht in H2 |- *. exact H2.
Qed.

(** The layout of a contract is the one of the first log entry that names it, in the order of
    the log and whatever the order of the objects; the others are not even looked at. *)
Theorem ReadStorageLayoutFromCacheValidations_first path layout : ranges_objects →
  (∀ text fields logs, json_Unmarshal_map text = Ok fields → field fields "log" = j_array logs → Forall distinct_keys logs) →
  ReadStorageLayoutFromCacheValidations path = Ret (Ok layout) →
  ∃ file fields logs, os_ReadFile path = Ok file ∧ json_Unmarshal_map file = Ok fields ∧ field fields "log" = j_array logs ∧
    ∀ contract, layout !! contract = first_entry logs contract ≫= layout_text.
Proof.
  intros Hr Hd. unfold ReadStorageLayoutFromCacheValidations. destruct (os_ReadFile path) as [file|e]; [|done].
  destruct (json_Unmarshal_map file) as [fields|e] eqn:Hu; [|done].
  destruct (field fields "log") as [| | | |logs|] eqn:Hf; try done. cbn [as_array mbind go_bind]. intros H.
  exists file, fields, logs. do 3 (split; [done|]). intros contract.
  rewrite (read_logs_spec logs ∅ layout Hr (Hd _ _ _ Hu Hf) H). by rewrite lookup_empty.
Qed.

End Cache.

(** ** A concrete cache *)
Module CacheSample.

#[export] Instance json_instance : Json := {
  json_Unmarshal_map _ := Ok [("solcVersion", j_string "0.8.4");
    ("log", j_array [j_object [("Token", j_object [("layout", j_string "first")])];
                     j_object [("Token", j_null); ("Box", j_object [])]])];
  json_Marshal v := Ok match v with j_string s => s | _ => "null" end
}.

Definition read : go (result (gmap string string)) :=
  ReadStorageLayoutFromCacheValidations (F := BindingsSample.files) (J := json_instance) id "cache.json".

Definition layouts : gmap string string := {[ "Token" := "first"; "Box" := "null" ]}.

Lemma read_layouts : read = Ret (Ok layouts).
Proof. reflexivity. Qed.

Lemma ReadStorageLayoutFromCacheValidations_first_witness : layouts !! "Token" = Some "first".
Proof.
  destruct (ReadStorageLayoutFromCacheValidations_first (F := BindingsSample.files) (J := json_instance) id "cache.json" layouts)
    as (file & fields & logs & _ & Hu & Hf & H).
  - intros fields. reflexivity.
  - intros text fields logs [= <-] [= <-]. apply Forall_cons. split; [|apply Forall_cons; split; [|apply Forall_nil; exact I]].
    all: intros fs [= <-]; apply (bool_decide_unpack _); vm_compute; exact I.
  - reflexivity.
  - injection Hu as <-. injection Hf as <-. rewrite H. reflexivity.
Defined.

End CacheSample.
