(* ===== verification/Broker.v ===== *)
(** * The publish/subscribe broker

    Models services/sidecar/utils/broker.go as a transition system: the broker's goroutine
    ([Start]), the goroutines of [SubscribeWithCallback], and the callers of [Publish],
    [Subscribe] and [Stop] take steps in any order, and a step that would block is not
    enabled.  The goroutine of [SubscribeMappedToMany] is a system of its own, at the end. *)

From S2P Require Import Prelude Errors.

Definition chanSize : nat := 8.

(** A goroutine of [SubscribeWithCallback]. *)
Inductive client_status : Type :=
| cl_waiting          (* in the select *)
| cl_unsubscribing    (* in the deferred Unsubscribe *)
| cl_gone.

(** A subscriber: its channel, its goroutine, and, to state what it has seen, the messages
    its callback was called with and the length of the broker's log when it was added. *)
Record client (T : Type) := mkClient {
  cl_buf : list T;
  cl_status : client_status;
  cl_handled : list T;
  cl_since : nat
}.
Arguments mkClient {T}.
Arguments cl_buf {T}.
Arguments cl_status {T}.
Arguments cl_handled {T}.
Arguments cl_since {T}.

(** Where the broker's goroutine is: in the select, in the loop over the subscribers with
    the ones left to send to, or returned. *)
Inductive loop_state (T : Type) : Type :=
| l_selecting
| l_sending (msg : T) (rest : list nat)
| l_returned (err : option error).
Arguments l_selecting {T}.
Arguments l_sending {T}.
Arguments l_returned {T}.

(** The broker.  [PubCh], [subCh] and [unsubCh] have one place each; [subErr] is what the
    error channel of the subscription holds (a closed channel gives nil); [log] is every
    message the broker has taken, in order. *)
Record Broker (T : Type) := mkBroker {
  PubCh : list T;
  subCh : list nat;
  unsubCh : list nat;
  stopCh : bool;
  ctxDone : bool;
  subErr : option (option error);
  subs : list nat;
  loop : loop_state T;
  clients : gmap nat (client T);
  log : list T
}.
Arguments mkBroker {T}.
Arguments PubCh {T}.
Arguments subCh {T}.
Arguments unsubCh {T}.
Arguments stopCh {T}.
Arguments ctxDone {T}.
Arguments subErr {T}.
Arguments subs {T}.
Arguments loop {T}.
Arguments clients {T}.
Arguments log {T}.

Definition NewBroker {T : Type} : Broker T :=
  mkBroker [] [] [] false false None [] l_selecting ∅ [].

Definition context_canceled : error := ErrorString "context canceled".

(** ** Steps *)

Inductive baction (T : Type) : Type :=
| b_publish (msg : T)             (* PubCh <- msg *)
| b_subscribe (c : nat)           (* SubscribeWithCallback, up to subCh <- msgCh *)
| b_stop                          (* Stop *)
| b_ctx_done
| b_sub_err (e : option error)
| b_take (order : list nat)       (* the loop takes a message; the order of its range *)
| b_send                          (* msgCh <- msg *)
| b_take_sub
| b_take_unsub
| b_take_stop
| b_take_err
| b_take_ctx
| b_recv (c : nat)                (* a client takes a message and runs its callback *)
| b_recv_ctx (c : nat)
| b_unsubscribe (c : nat).        (* unsubCh <- msgCh *)
Arguments b_publish {T}.
Arguments b_subscribe {T}.
Arguments b_stop {T}.
Arguments b_ctx_done {T}.
Arguments b_sub_err {T}.
Arguments b_take {T}.
Arguments b_send {T}.
Arguments b_take_sub {T}.
Arguments b_take_unsub {T}.
Arguments b_take_stop {T}.
Arguments b_take_err {T}.
Arguments b_take_ctx {T}.
Arguments b_recv {T}.
Arguments b_recv_ctx {T}.
Arguments b_unsubscribe {T}.

Section Broker.
Context {T H : Type}.
Implicit Types s : Broker T.

Definition set_loop (l : loop_state T) s : Broker T :=
  mkBroker (PubCh s) (subCh s) (unsubCh s) (stopCh s) (ctxDone s) (subErr s) (subs s) l (clients s) (log s).

Definition set_client (c : nat) (cl : client T) s : Broker T :=
  mkBroker (PubCh s) (subCh s) (unsubCh s) (stopCh s) (ctxDone s) (subErr s) (subs s) (loop s)
    (<[c := cl]> (clients s)) (log s).

(** The loop over the subscribers, or the select when none is left. *)
Definition sending (msg : T) (rest : list nat) : loop_state T :=
  match rest with [] => l_selecting | _ => l_sending msg rest end.

Definition is_selecting s : bool := match loop s with l_selecting => true | _ => false end.

(** The callers. *)
Definition Publish (msg : T) s : option (Broker T) :=
  match PubCh s with
  | [] => Some (mkBroker [msg] (subCh s) (unsubCh s) (stopCh s) (ctxDone s) (subErr s) (subs s) (loop s) (clients s) (log s))
  | _ => None
  end.

(** A fresh channel, and its goroutine. *)
Definition Subscribe (c : nat) s : option (Broker T) :=
  match subCh s, clients s !! c with
  | [], None =>
      Some (mkBroker (PubCh s) [c] (unsubCh s) (stopCh s) (ctxDone s) (subErr s) (subs s) (loop s)
              (<[c := mkClient [] cl_waiting [] 0]> (clients s)) (log s))
  | _, _ => None
  end.

(** A second [Stop] panics; it is not a step. *)
Definition Stop s : option (Broker T) :=
  if stopCh s then None
  else Some (mkBroker (PubCh s) (subCh s) (unsubCh s) true (ctxDone s) (subErr s) (subs s) (loop s) (clients s) (log s)).

(** The cases of the select in [Start]. *)
Definition take_msg (order : list nat) s : option (Broker T) :=
  match PubCh s with
  | msg :: ch =>
      if is_selecting s && bool_decide (order ≡ₚ subs s) then
        Some (mkBroker ch (subCh s) (unsubCh s) (stopCh s) (ctxDone s) (subErr s) (subs s)
                (sending msg order) (clients s) (log s ++ [msg]))
      else None
  | [] => None
  end.

(** [msgCh <- msg] blocks while the subscriber's channel is full. *)
Definition send_next s : option (Broker T) :=
  match loop s with
  | l_sending msg (c :: rest) =>
      cl ← clients s !! c;
      if (length (cl_buf cl) <? chanSize)%nat then
        Some (set_loop (sending msg rest)
                (set_client c (mkClient (cl_buf cl ++ [msg]) (cl_status cl) (cl_handled cl) (cl_since cl)) s))
      else None
  | _ => None
  end.

Definition take_sub s : option (Broker T) :=
  match subCh s with
  | c :: ch =>
      if is_selecting s then
        Some (mkBroker (PubCh s) ch (unsubCh s) (stopCh s) (ctxDone s) (subErr s) (c :: subs s) (loop s)
                (alter (fun cl => mkClient (cl_buf cl) (cl_status cl) (cl_handled cl) (length (log s))) c (clients s))
                (log s))
      else None
  | [] => None
  end.

Definition take_unsub s : option (Broker T) :=
  match unsubCh s with
  | c :: ch =>
      if is_selecting s then
        Some (mkBroker (PubCh s) (subCh s) ch (stopCh s) (ctxDone s) (subErr s)
                (filter (fun x => x ≠ c) (subs s)) (loop s) (clients s) (log s))
      else None
  | [] => None
  end.

Definition return_if (enabled : bool) (err : option error) s : option (Broker T) :=
  if is_selecting s && enabled then Some (set_loop (l_returned err) s) else None.

(** The goroutine of a client: the callback [fn] may change the handler's state. *)
Definition client_recv (fn : T → H → result unit * H) (c : nat) s (h : H) : option (Broker T * H) :=
  cl ← clients s !! c;
  match cl_status cl, cl_buf cl with
  | cl_waiting, head :: buf =>
      let '(err, h) := fn head h in
      let status := match err with Ok _ => cl_waiting | Err _ => cl_unsubscribing end in
      Some (set_client c (mkClient buf status (cl_handled cl ++ [head]) (cl_since cl)) s, h)
  | _, _ => None
  end.

Definition set_status (c : nat) (from to : client_status) s : option (Broker T) :=
  cl ← clients s !! c;
  match cl_status cl, from with
  | cl_waiting, cl_waiting | cl_unsubscribing, cl_unsubscribing =>
      Some (set_client c (mkClient (cl_buf cl) to (cl_handled cl) (cl_since cl)) s)
  | _, _ => None
  end.

Definition Unsubscribe (c : nat) s : option (Broker T) :=
  match unsubCh s with
  | [] =>
      s ← set_status c cl_unsubscribing cl_gone s;
      Some (mkBroker (PubCh s) (subCh s) [c] (stopCh s) (ctxDone s) (subErr s) (subs s) (loop s) (clients s) (log s))
  | _ => None
  end.

Definition broker_step (fn : T → H → result unit * H) (a : baction T) (sh : Broker T * H)
    : option (Broker T * H) :=
  let '(s, h) := sh in
  let keep r := match r with Some s => Some (s, h) | None => None end in
  match a with
  | b_publish msg => keep (Publish msg s)
  | b_subscribe c => keep (Subscribe c s)
  | b_stop => keep (Stop s)
  | b_ctx_done =>
      Some (mkBroker (PubCh s) (subCh s) (unsubCh s) (stopCh s) true (subErr s) (subs s) (loop s) (clients s) (log s), h)
  | b_sub_err e =>
      Some (mkBroker (PubCh s) (subCh s) (unsubCh s) (stopCh s) (ctxDone s) (Some e) (subs s) (loop s) (clients s) (log s), h)
  | b_take order => keep (take_msg order s)
  | b_send => keep (send_next s)
  | b_take_sub => keep (take_sub s)
  | b_take_unsub => keep (take_unsub s)
  | b_take_stop => keep (return_if (stopCh s) None s)
  | b_take_err => keep match subErr s with Some e => return_if true e s | None => None end
  | b_take_ctx => keep (return_if (ctxDone s) (Some context_canceled) s)
  | b_recv c => client_recv fn c s h
  | b_recv_ctx c => keep (if ctxDone s then set_status c cl_waiting cl_unsubscribing s else None)
  | b_unsubscribe c => keep (Unsubscribe c s)
  end.

(** A sequence of steps. *)
Fixpoint broker_run (fn : T → H → result unit * H) (as_ : list (baction T)) (sh : Broker T * H)
    : option (Broker T * H) :=
  match as_ with
  | [] => Some sh
  | a :: as_ => sh ← broker_step fn a sh; broker_run fn as_ sh
  end.

End Broker.

(** The cases of a broker's step, each with the new state written out. *)
Ltac broker_cases Hs :=
  unfold broker_step, Publish, Subscribe, Stop, take_msg, send_next, take_sub, take_unsub, return_if, client_recv, Unsubscribe,
    set_status, is_selecting in Hs;
  simplify_option_eq; repeat (case_match; simplify_option_eq; try done).

Section BrokerFacts.
Context {T H : Type}.
Implicit Types (s : Broker T) (fn : T → H → result unit * H).

(** ** Invariant *)

(** What the loop is about to send to a client. *)
Definition pending (c : nat) (l : loop_state T) : list T :=
  match l with
  | l_sending msg rest => if decide (c ∈ rest) then [msg] else []
  | _ => []
  end.

(** What a subscriber has been given, in order, is what the broker has taken since it was
    added. *)
Definition delivered (c : nat) s (cl : client T) : Prop :=
  (length (cl_buf cl) <= chanSize)%nat ∧ (cl_since cl <= length (log s))%nat ∧
  drop (cl_since cl) (log s) = cl_handled cl ++ cl_buf cl ++ pending c (loop s).

Record broker_inv s : Prop := {
  inv_NoDup : NoDup (subs s);
  inv_subs : ∀ c, c ∈ subs s → ∃ cl, clients s !! c = Some cl ∧ delivered c s cl;
  inv_rest : ∀ msg rest, loop s = l_sending msg rest → NoDup rest ∧ ∀ c, c ∈ rest → c ∈ subs s;
  inv_one : (length (subCh s) <= 1)%nat;
  inv_new : ∀ c, c ∈ subCh s → (c ∉ subs s) ∧
    (∃ cl, clients s !! c = Some cl ∧ cl_buf cl = [] ∧ cl_handled cl = [])
}.

Lemma broker_inv_init : broker_inv NewBroker.
Proof.
  split; cbn; [constructor|by intros c ?%elem_of_nil|done|lia|by intros c ?%elem_of_nil].
Qed.

(** A step that changes neither the loop, the subscribers, the channels nor the log. *)
Lemma broker_inv_same s s' :
  subs s' = subs s → loop s' = loop s → log s' = log s → clients s' = clients s →
  subCh s' = subCh s → broker_inv s → broker_inv s'.
Proof.
  intros Hsub Hl Hlog Hc Hch [H1 H2 H3 H5 H4]. split; unfold delivered in *; rewrite ?Hsub, ?Hl, ?Hlog, ?Hc, ?Hch; auto.
Qed.

(** A change of one client that keeps what it was given. *)
Lemma broker_inv_client s c cl cl' :
  clients s !! c = Some cl → cl_since cl' = cl_since cl → cl_handled cl' ++ cl_buf cl' = cl_handled cl ++ cl_buf cl →
  (length (cl_buf cl') <= length (cl_buf cl))%nat → broker_inv s → broker_inv (set_client c cl' s).
Proof.
  intros Hcl Hs Heq Hlen [H1 H2 H3 H5 H4]. split; cbn; [done| |done|done|].
  - intros d Hd. destruct (H2 d Hd) as (cld & Hcld & Hl & Hle & Hdel).
    destruct (decide (d = c)) as [->|Hne].
    + rewrite Hcl in Hcld. injection Hcld as <-. rewrite lookup_insert_eq. eexists. split; [done|].
      unfold delivered in *. cbn. rewrite Hs. split; [lia|]. split; [done|].
      rewrite Hdel, !app_assoc, Heq. done.
    + rewrite lookup_insert_ne by done. by exists cld.
  - intros d Hd. destruct (H4 d Hd) as (Hni & cld & Hcld & Hb & Hh). split; [done|].
    destruct (decide (d = c)) as [->|Hne].
    + rewrite Hcl in Hcld. injection Hcld as <-. rewrite lookup_insert_eq. exists cl'. split; [done|].
      rewrite Hb, Hh in Heq. by apply app_nil in Heq as [-> ->].
    + rewrite lookup_insert_ne by done. by exists cld.
Qed.

Lemma pending_sending c msg rest : pending c (sending msg rest) = if decide (c ∈ rest) then [msg] else [].
Proof. by destruct rest. Qed.

Lemma take_msg_inv order s s' : broker_inv s → take_msg order s = Some s' → broker_inv s'.
Proof.
  intros [H1 H2 H3 H5 H4]. unfold take_msg. destruct (PubCh s) as [|msg ch]; [done|].
  unfold is_selecting. destruct (loop s) eqn:Hl; cbn; [|done|done]. case_bool_decide as Hp; [|done]. intros [= <-].
  split; cbn; [done| | |done|done].
  - intros c Hc. destruct (H2 c Hc) as (cl & Hcl & Hlen & Hle & Hdel). exists cl. split; [done|].
    unfold delivered. cbn. rewrite pending_sending, length_app. split; [done|]. split; [lia|].
    rewrite decide_True by (by rewrite Hp). rewrite drop_app_le by done. rewrite Hdel, Hl. cbn.
    by rewrite app_nil_r, app_assoc.
  - intros m rest Hs. assert (rest = order) as -> by (destruct order; cbn in Hs; congruence).
    rewrite Hp. split; [done|]. intros c. by rewrite Hp.
Qed.

Lemma send_next_inv s s' : broker_inv s → send_next s = Some s' → broker_inv s'.
Proof.
  intros [H1 H2 H3 H5 H4]. unfold send_next. destruct (loop s) as [|msg [|c rest]|e] eqn:Hl; try done.
  destruct (clients s !! c) as [cl|] eqn:Hcl; cbn [mbind option_bind]; [|done].
  destruct (Nat.ltb_spec (length (cl_buf cl)) chanSize) as [Hlt|]; [|done]. intros [= <-].
  destruct (H3 msg (c :: rest) eq_refl) as [Hnd Hin]. apply NoDup_cons in Hnd as [Hni Hnd].
  split; cbn; [done| | |done|].
  - intros d Hd. destruct (H2 d Hd) as (cld & Hcld & Hlen & Hle & Hdel). unfold delivered. cbn.
    rewrite pending_sending. rewrite Hl in Hdel. cbn [pending] in Hdel.
    destruct (decide (d = c)) as [->|Hne].
    + rewrite lookup_insert_eq. eexists. split; [done|]. cbn. rewrite Hcl in Hcld. injection Hcld as <-.
      rewrite length_app. cbn. split; [unfold chanSize in *; lia|]. split; [done|].
      rewrite Hdel, decide_True by left. rewrite decide_False by done. by rewrite app_nil_r.
    + rewrite lookup_insert_ne by done. exists cld. split; [done|]. split; [done|]. split; [done|].
      rewrite Hdel. do 2 f_equal. destruct (decide (d ∈ rest)).
      * by rewrite decide_True by (by right).
      * by rewrite decide_False by (by intros [?|?]%elem_of_cons).
  - intros m r Hs. assert (r = rest) as -> by (destruct rest; cbn in Hs; congruence).
    split; [done|]. intros d Hd. apply Hin. by right.
  - intros d Hd. destruct (H4 d Hd) as (Hns & cld & Hcld & Hb). split; [done|].
    rewrite lookup_insert_ne; [by exists cld|]. intros <-. apply Hns, Hin. left.
Qed.

Lemma take_sub_inv s s' : broker_inv s → take_sub s = Some s' → broker_inv s'.
Proof.
  intros [H1 H2 H3 H5 H4]. unfold take_sub. destruct (subCh s) as [|c ch] eqn:Hch; [done|].
  unfold is_selecting. destruct (loop s) eqn:Hl; cbn; [|done|done]. intros [= <-].
  destruct ch; [|cbn in H5; lia].
  destruct (H4 c) as (Hni & cl & Hcl & Hb & Hh); [left|]. split; cbn; [by constructor| |done|lia|by intros d ?%elem_of_nil].
  intros d Hd. destruct (decide (d = c)) as [->|Hne].
  - rewrite lookup_alter_eq, Hcl. cbn. eexists. split; [done|]. unfold delivered. cbn.
    rewrite Hb, Hh, drop_all. cbn. split; [lia|]. by split.
  - apply elem_of_cons in Hd as [?|Hd]; [done|]. rewrite lookup_alter_ne by done.
    destruct (H2 d Hd) as (cld & Hcld & Hdel). exists cld. split; [done|]. unfold delivered in *. cbn. by rewrite Hl in Hdel.
Qed.

Lemma take_unsub_inv s s' : broker_inv s → take_unsub s = Some s' → broker_inv s'.
Proof.
  intros [H1 H2 H3 H5 H4]. unfold take_unsub. destruct (unsubCh s) as [|c ch]; [done|].
  unfold is_selecting. destruct (loop s) eqn:Hl; cbn; [|done|done]. intros [= <-].
  split; cbn; [by apply NoDup_filter| |done|done|].
  - intros d [_ Hd]%list_elem_of_filter. destruct (H2 d Hd) as (cld & Hcld & Hdel). exists cld.
    split; [done|]. unfold delivered in *. cbn. by rewrite Hl in Hdel.
  - intros d Hd. destruct (H4 d Hd) as [Hni Hcl]. split; [|done]. by intros [_ ?]%list_elem_of_filter.
Qed.

Lemma set_status_inv c from to s s' : broker_inv s → set_status c from to s = Some s' → broker_inv s'.
Proof.
  intros Hi. unfold set_status. destruct (clients s !! c) as [cl|] eqn:Hcl; cbn; [|done].
  intros Hs. destruct (cl_status cl), from; try done; injection Hs as <-; by eapply broker_inv_client.
Qed.

Lemma client_recv_inv fn c s h s' h' : broker_inv s → client_recv fn c s h = Some (s', h') → broker_inv s'.
Proof.
  intros Hi. unfold client_recv. destruct (clients s !! c) as [cl|] eqn:Hcl; cbn; [|done].
  destruct (cl_status cl); [|done..]. destruct (cl_buf cl) as [|head buf] eqn:Hb; [done|].
  destruct (fn head h) as [err h1]. intros [= <- _].
  eapply broker_inv_client; [exact Hcl|done| | |done]; cbn; rewrite Hb; [by rewrite <- app_assoc|cbn; lia].
Qed.

Lemma Subscribe_inv c s s' : broker_inv s → Subscribe c s = Some s' → broker_inv s'.
Proof.
  intros [H1 H2 H3 H5 H4]. unfold Subscribe. destruct (subCh s); [|done].
  destruct (clients s !! c) eqn:Hc; [done|]. intros [= <-].
  split; cbn; [done| |done|lia|].
  - intros d Hd. destruct (H2 d Hd) as (cld & Hcld & Hdel). exists cld.
    rewrite lookup_insert_ne by congruence. done.
  - intros d ->%list_elem_of_singleton. split.
    + intros Hd. destruct (H2 c Hd) as (cld & Hcld & _). congruence.
    + rewrite lookup_insert_eq. by eexists.
Qed.

(** Returning keeps the invariant, since nothing is pending in the select. *)
Lemma return_if_inv enabled err s s' : broker_inv s → return_if enabled err s = Some s' → broker_inv s'.
Proof.
  intros [H1 H2 H3 H5 H4]. unfold return_if, is_selecting. destruct (loop s) eqn:Hl; cbn; [|done|done].
  destruct enabled; [|done]. intros [= <-]. split; cbn; [done| |done|done|done].
  intros d Hd. destruct (H2 d Hd) as (cld & Hcld & Hdel). exists cld. split; [done|].
  unfold delivered in *. cbn. by rewrite Hl in Hdel.
Qed.

Lemma broker_step_inv fn a s h s' h' :
  broker_inv s → broker_step fn a (s, h) = Some (s', h') → broker_inv s'.
Proof.
  intros Hi H1.
  assert (Hkeep : ∀ r, match r with Some s => Some (s, h) | None => None end = Some (s', h') → r = Some s')
    by (intros [x|] [= <- _]; done).
  destruct a as [m|c| | |e|order| | | | | | |c|c|c]; cbn [broker_step] in H1; try apply Hkeep in H1.
  - unfold Publish in H1. destruct (PubCh s); [|done]. injection H1 as <-. by apply (broker_inv_same s).
  - by eapply Subscribe_inv.
  - unfold Stop in H1. destruct (stopCh s); [done|]. injection H1 as <-. by apply (broker_inv_same s).
  - injection H1 as <- _. by apply (broker_inv_same s).
  - injection H1 as <- _. by apply (broker_inv_same s).
  - by eapply take_msg_inv.
  - by eapply send_next_inv.
  - by eapply take_sub_inv.
  - by eapply take_unsub_inv.
  - by eapply return_if_inv.
  - destruct (subErr s); [|done]. by eapply return_if_inv.
  - by eapply return_if_inv.
  - by eapply client_recv_inv.
  - destruct (ctxDone s); [|done]. by eapply set_status_inv.
  - unfold Unsubscribe in H1. destruct (unsubCh s); [|done].
    destruct (set_status c cl_unsubscribing cl_gone s) as [s1|] eqn:Hs; cbn in H1; [|done]. injection H1 as <-.
    eapply (broker_inv_same s1); [done..|]. by eapply set_status_inv.
Qed.

Lemma broker_run_inv fn as_ : ∀ s h s' h',
  broker_inv s → broker_run fn as_ (s, h) = Some (s', h') → broker_inv s'.
Proof.
  induction as_ as [|a as_ IH]; intros s h s' h' Hi Hr; cbn [broker_run] in Hr; [by injection Hr as <- _|].
  destruct (broker_step fn a (s, h)) as [[s1 h1]|] eqn:Hs; cbn [mbind option_bind] in Hr; [|done].
  eapply IH; [|exact Hr]. by eapply broker_step_inv.
Qed.

(** ** Theorems *)

(** C22: Every subscriber is given, in order and without a gap, the messages the broker took
    since it was added: what its callback has seen, then what its channel holds, then the
    message being sent to it.  No channel ever holds more than eight. *)
Theorem messages_delivered_in_order fn as_ h s' h' c :
  broker_run fn as_ (NewBroker, h) = Some (s', h') → c ∈ subs s' →
  ∃ cl, clients s' !! c = Some cl ∧ (length (cl_buf cl) <= chanSize)%nat ∧
    drop (cl_since cl) (log s') = cl_handled cl ++ cl_buf cl ++ pending c (loop s').
Proof.
  intros Hr Hc. apply (broker_run_inv _ _ _ _ _ _ broker_inv_init) in Hr.
  destruct (inv_subs _ Hr c Hc) as (cl & Hcl & Hlen & _ & Hdel). by exists cl.
Qed.

(** ** The blocked broker *)

(** The broker is sending to a client that is gone and whose channel is full. *)
Definition blocked (msg : T) (c : nat) (rest : list nat) s : Prop :=
  loop s = l_sending msg (c :: rest) ∧
  ∃ cl, clients s !! c = Some cl ∧ cl_status cl = cl_gone ∧ (chanSize <= length (cl_buf cl))%nat.

Lemma broker_step_blocked fn a msg c rest s h s' h' :
  blocked msg c rest s → broker_step fn a (s, h) = Some (s', h') → blocked msg c rest s'.
Proof.
  intros [Hl (clc & Hc & Hg & Hfull)] H1. unfold blocked. destruct a; broker_cases H1. all: cbn.
  all: try (split; [done|]; exists clc; rewrite ?lookup_insert_ne by congruence; done).
  match goal with Hlt : (_ <? _)%nat = true |- _ => apply Nat.ltb_lt in Hlt; lia end.
Qed.

(** A broker that is sending to a full channel whose client has gone (its callback failed)
    never leaves that send: neither [Stop], nor the end of the context, nor any other step
    makes [Start] return or take another message. *)
Theorem full_channel_blocks_broker fn as_ msg c rest : ∀ s h s' h',
  blocked msg c rest s → broker_run fn as_ (s, h) = Some (s', h') → loop s' = l_sending msg (c :: rest).
Proof.
  induction as_ as [|a as_ IH]; intros s h s' h' Hb Hr; cbn [broker_run] in Hr; [injection Hr as <- _; apply Hb|].
  destruct (broker_step fn a (s, h)) as [[s1 h1]|] eqn:Hs; cbn [mbind option_bind] in Hr; [|done].
  eapply IH; [|exact Hr]. by eapply broker_step_blocked.
Qed.

(** A client that has left the select of its goroutine never runs its callback again. *)
Definition left_select (c : nat) s : Prop := ∃ cl, clients s !! c = Some cl ∧ cl_status cl ≠ cl_waiting.

Lemma left_insert (m : gmap nat (client T)) c d clc cld cl' :
  m !! c = Some clc → cl_status clc ≠ cl_waiting → m !! d = Some cld → (cl_status cld ≠ cl_waiting → cl_status cl' ≠ cl_waiting) →
  ∃ cl, <[d := cl']> m !! c = Some cl ∧ cl_status cl ≠ cl_waiting.
Proof.
  intros Hc Hw Hd Himp. destruct (decide (d = c)) as [->|Hne].
  - rewrite lookup_insert_eq. exists cl'. split; [done|]. apply Himp. congruence.
  - rewrite lookup_insert_ne by done. by exists clc.
Qed.

Lemma broker_step_left fn a c s h s' h' :
  left_select c s → broker_step fn a (s, h) = Some (s', h') → left_select c s'.
Proof.
  intros (clc & Hc & Hw) H1. unfold left_select. destruct a; broker_cases H1. all: cbn; try (by exists clc).
  all: try (exists clc; rewrite lookup_insert_ne by congruence; done).
  all: try (eapply left_insert; [exact Hc|exact Hw|eassumption|cbn; congruence]).
  destruct (decide (n = c)) as [->|Hne]; [|rewrite lookup_alter_ne by done; by exists clc].
  rewrite lookup_alter_eq, Hc. cbn. by eexists.
Qed.

(** The handler's state changes only when a client runs its callback. *)
Lemma broker_step_handler fn a s h s' h' :
  broker_step fn a (s, h) = Some (s', h') →
  h' = h ∨ ∃ c cl m, a = b_recv c ∧ clients s !! c = Some cl ∧ cl_status cl = cl_waiting ∧ h' = (fn m h).2.
Proof.
  intros H1. destruct a; broker_cases H1; try (by left).
  right. match goal with Hf : fn ?m _ = _ |- _ => exists c; eexists _, m; by rewrite Hf end.
Qed.

End BrokerFacts.

(** ** A concrete run *)
Module BrokerSample.

(** The callback counts the messages and fails on zero. *)
Definition callback (m : Z) (seen : Z) : result unit * Z :=
  if m =? 0 then (Err (Errorf "zero"), seen + 1) else (Ok tt, seen + 1).

(** Publish a message to the single subscriber. *)
Definition deliver (m : Z) : list (baction Z) := [b_publish m; b_take [0%nat]; b_send].

Definition start : list (baction Z) := [b_subscribe 0; b_take_sub].

Definition run (as_ : list (baction Z)) : option (Broker Z * Z) := broker_run callback as_ (NewBroker, 0).

Definition final (as_ : list (baction Z)) : Broker Z * Z := default (NewBroker, 0) (run as_).

Definition some_messages : list (baction Z) := start ++ deliver 5 ++ deliver 6 ++ [b_recv 0] ++ deliver 7.

Lemma messages_delivered_in_order_witness :
  ∃ cl, clients (final some_messages).1 !! 0%nat = Some cl ∧ cl_handled cl ++ cl_buf cl = [5; 6; 7].
Proof.
  destruct (messages_delivered_in_order callback some_messages 0 (final some_messages).1 (final some_messages).2 0)
    as (cl & H1 & _ & H2); [vm_compute; reflexivity|apply (bool_decide_unpack _); by vm_compute|].
  exists cl. split; [exact H1|]. vm_compute in H1. injection H1 as <-. reflexivity.
Defined.

(** The callback fails on the first message and its goroutine goes; eight more messages fill
    its channel before the broker reads [unsubCh], and it takes a ninth. *)
Definition fill : list (baction Z) :=
  start ++ deliver 0 ++ [b_recv 0; b_unsubscribe 0] ++
  concat (map deliver [1; 2; 3; 4; 5; 6; 7; 8]) ++ [b_publish 9; b_take [0%nat]].

(** Then it is stopped and the context ends. *)
Lemma full_channel_blocks_broker_witness :
  let s := (final fill).1 in
  loop (default (s, 0) (broker_run callback [b_stop; b_ctx_done; b_publish 10] (s, 1))).1 = l_sending 9 [0%nat].
Proof.
  cbn zeta.
  apply (full_channel_blocks_broker callback [b_stop; b_ctx_done; b_publish 10] 9 0 [] (final fill).1 1 _
    (default ((final fill).1, 0) (broker_run callback [b_stop; b_ctx_done; b_publish 10] ((final fill).1, 1))).2).
  - split; [vm_compute; reflexivity|]. eexists. split; [vm_compute; reflexivity|]. split; [reflexivity|]. vm_compute. lia.
  - vm_compute. reflexivity.
Defined.

End BrokerSample.

(** ** SubscribeMappedToMany

    The goroutine takes a message from its subscription, maps it to a list of events and puts
    them into the output channel, one after the other. *)

Inductive map_status (U : Type) : Type :=
| ms_selecting
| ms_pushing (event : U) (rest : list U)
| ms_returned.
Arguments ms_selecting {U}.
Arguments ms_pushing {U} event rest.
Arguments ms_returned {U}.

(** Both channels, the goroutine, and what was taken from the subscription and read from the
    output so far. *)
Record mapped (T U : Type) := mkMapped {
  mp_inCh : list T;
  mp_outCh : list U;
  mp_status : map_status U;
  mp_taken : list T;
  mp_read : list U
}.
Arguments mkMapped {T U}.
Arguments mp_inCh {T U}.
Arguments mp_outCh {T U}.
Arguments mp_status {T U}.
Arguments mp_taken {T U}.
Arguments mp_read {T U}.

Inductive map_action (T : Type) : Type :=
| m_send (msg : T)      (* the broker sends to the subscription *)
| m_map                 (* head := <-inCh, and mapFn *)
| m_push                (* outCh <- event *)
| m_read                (* the reader of the output *)
| m_done.               (* <-ctx.Done() *)
Arguments m_send {T} msg.
Arguments m_map {T}.
Arguments m_push {T}.
Arguments m_read {T}.
Arguments m_done {T}.

Section Mapped.
Context {T U : Type} (mapFn : T → result (list U)).
Implicit Types s : mapped T U.

Definition start_mapped : mapped T U := mkMapped [] [] ms_selecting [] [].

Definition pushing (events : list U) : map_status U :=
  match events with [] => ms_selecting | e :: es => ms_pushing e es end.

Definition SubscribeMappedToMany (a : map_action T) s : option (mapped T U) :=
  match a, mp_status s with
  | m_send msg, _ =>
      if (length (mp_inCh s) <? chanSize)%nat
      then Some (mkMapped (mp_inCh s ++ [msg]) (mp_outCh s) (mp_status s) (mp_taken s) (mp_read s)) else None
  | m_map, ms_selecting =>
      match mp_inCh s with
      | [] => None
      | head :: rest =>
          match mapFn head with
          | Err _ => Some (mkMapped rest (mp_outCh s) ms_returned (mp_taken s) (mp_read s))
          | Ok out => Some (mkMapped rest (mp_outCh s) (pushing out) (mp_taken s ++ [head]) (mp_read s))
          end
      end
  | m_push, ms_pushing event rest =>
      if (length (mp_outCh s) <? chanSize * chanSize)%nat
      then Some (mkMapped (mp_inCh s) (mp_outCh s ++ [event]) (pushing rest) (mp_taken s) (mp_read s)) else None
  | m_read, _ =>
      match mp_outCh s with
      | [] => None
      | event :: rest => Some (mkMapped (mp_inCh s) rest (mp_status s) (mp_taken s) (mp_read s ++ [event]))
      end
  | m_done, ms_selecting => Some (mkMapped (mp_inCh s) (mp_outCh s) ms_returned (mp_taken s) (mp_read s))
  | _, _ => None
  end.

Definition mapped_step s s' : Prop := ∃ a, SubscribeMappedToMany a s = Some s'.

(** The events of the messages taken. *)
Definition events_of (msgs : list T) : list U := concat (map (λ m, match mapFn m with Ok es => es | Err _ => [] end) msgs).

Definition to_push s : list U := match mp_status s with ms_pushing e es => e :: es | _ => [] end.

Lemma to_push_pushing es i o t r : to_push (mkMapped i o (pushing es) t r) = es.
Proof. by destruct es. Qed.

(** The reader is given the events of the messages taken, in order and without a gap: what it
    has read, the channel and what is still to be put into it are together all of them. *)
Theorem mapped_in_order s : rtc mapped_step start_mapped s →
  events_of (mp_taken s) = mp_read s ++ mp_outCh s ++ to_push s ∧
  (length (mp_outCh s) <= chanSize * chanSize)%nat ∧ (length (mp_inCh s) <= chanSize)%nat.
Proof.
  enough (Hg : ∀ s s', mapped_step s s' →
    events_of (mp_taken s) = mp_read s ++ mp_outCh s ++ to_push s ∧ (length (mp_outCh s) <= chanSize * chanSize)%nat ∧ (length (mp_inCh s) <= chanSize)%nat →
    events_of (mp_taken s') = mp_read s' ++ mp_outCh s' ++ to_push s' ∧ (length (mp_outCh s') <= chanSize * chanSize)%nat ∧ (length (mp_inCh s') <= chanSize)%nat).
  { intros Hr. assert (H0 : events_of (mp_taken start_mapped) = mp_read start_mapped ++ mp_outCh start_mapped ++ to_push start_mapped ∧
      (length (mp_outCh start_mapped) <= chanSize * chanSize)%nat ∧ (length (mp_inCh start_mapped) <= chanSize)%nat)
      by (split_and!; [done|cbn; lia..]).
    revert H0. induction Hr as [|s1 s2 s3 Hs _ IH]; [done|]. intros H. apply IH. by eapply Hg. }
  clear s. intros [i o st t r] s' [a Ha] (He & Ho & Hi). cbn [mp_taken mp_read mp_outCh mp_inCh] in He, Ho, Hi. unfold SubscribeMappedToMany in Ha. cbn [mp_status mp_taken mp_read mp_outCh mp_inCh] in Ha.
  destruct a as [msg| | | |].
  - destruct (length i <? chanSize)%nat eqn:Hl; [|done]. injection Ha as <-. cbn [mp_taken mp_read mp_outCh mp_inCh]. apply Nat.ltb_lt in Hl. rewrite length_app. cbn [length]. split_and!; [done|lia..].
  - destruct st; [|done..]. destruct i as [|m i]; [done|]. destruct (mapFn m) as [es|e] eqn:Hm; injection Ha as <-; cbn [mp_taken mp_read mp_outCh mp_inCh length] in He, Ho, Hi |- *.
    + rewrite to_push_pushing. unfold events_of in He |- *. rewrite map_app, concat_app, He. cbn. rewrite Hm, !app_nil_r, <- app_assoc. split_and!; [done|done|lia].
    + split_and!; [done|done|lia].
  - destruct st as [|e es|]; [done| |done]. destruct (length o <? chanSize * chanSize)%nat eqn:Hl; [|done]. injection Ha as <-. apply Nat.ltb_lt in Hl. cbn [mp_taken mp_read mp_outCh mp_inCh].
    rewrite to_push_pushing, length_app. cbn [length]. rewrite He, <- app_assoc. split_and!; [done|lia|done].
  - destruct o as [|u o]; [done|]. assert (Hs' : s' = mkMapped i o st t (r ++ [u])) by (destruct st; by injection Ha as <-). subst s'.
    cbn [mp_taken mp_read mp_outCh mp_inCh length] in Ho |- *. change (to_push (mkMapped i o st t (r ++ [u]))) with (to_push (mkMapped i (u :: o) st t r)). rewrite He, <- app_assoc. split_and!; [done|lia..].
  - destruct st; [|done..]. injection Ha as <-. split_and!; [done|done|done].
Qed.

(** A full output that nobody reads holds the goroutine for ever, whatever the context does. *)
Lemma mapped_stuck s s' e es : mp_status s = ms_pushing e es → length (mp_outCh s) = (chanSize * chanSize)%nat → 
  (∃ a, a ≠ m_read ∧ SubscribeMappedToMany a s = Some s') → mp_status s' = ms_pushing e es ∧ length (mp_outCh s') = (chanSize * chanSize)%nat.
Proof.
  intros Hst Hl (a & Hne & Ha). unfold SubscribeMappedToMany in Ha. rewrite Hst in Ha. destruct a; try done.
  - destruct (length (mp_inCh s) <? chanSize)%nat; [|done]. by injection Ha as <-.
  - by rewrite Hl, Nat.ltb_irrefl in Ha.
Qed.

End Mapped.

Module MappedSample.

Definition twice (n : Z) : result (list Z) := Ok [n; n].

Lemma mapped_in_order_witness : events_of twice [1] = [1; 1].
Proof.
  destruct (mapped_in_order twice (mkMapped [] [1] ms_selecting [1] [1])) as [H _]; [|exact H].
  apply rtc_l with (mkMapped [1] [] ms_selecting [] []); [exists (m_send 1); reflexivity|].
  apply rtc_l with (mkMapped [] [] (ms_pushing 1 [1]) [1] []); [exists m_map; reflexivity|].
  apply rtc_l with (mkMapped [] [1] (ms_pushing 1 []) [1] []); [exists m_push; reflexivity|].
  apply rtc_l with (mkMapped [] [] (ms_pushing 1 []) [1] [1]); [exists m_read; reflexivity|].
  apply rtc_once. exists m_push. reflexivity.
Defined.

End MappedSample.
