(* ===== verification/EthSync.v ===== *)
(** * Following the L1 chain

    Models services/sidecar/rollup/rpc/eth: the polling of utils.go, the three brokers of
    eth_syncer.go that feed [EthState], and the client of eth_client.go.  The RPC connection
    is a parameter.  The three levels' pollers, brokers and callbacks take steps in any order. *)

From S2P Require Import Prelude Errors Types EthState Broker.

Definition EthSlotInterval : Z := 12.      (* seconds *)
Definition EthEpochInterval : Z := 384.
Definition ethereum_NotFound : error := ErrorString "not found".

(** ** The client *)

(** [HeaderByTag], from the answer of the RPC call: a null header is an error. *)
Definition HeaderByTag (call : option Header * option error) : option Header * option error :=
  let '(header, err) := call in
  (header, match err, header with None, None => Some ethereum_NotFound | _, _ => err end).

(** [SuggestGasTipCap]: the gas price, when the node has no tip to suggest. *)
Definition SuggestGasTipCap (tipCap gasPrice : result Z) : result Z :=
  match tipCap with Err _ => gasPrice | Ok _ => tipCap end.

(** [LazyEthClient.EnsureDialed]: dials once; [dial] is [DialWithRetry]. *)
Record LazyEthClient (C : Type) := mkLazy { lazy_Client : option C; lazy_endpoint : string }.
Arguments mkLazy {C}.
Arguments lazy_Client {C}.
Arguments lazy_endpoint {C}.

Definition NewLazilyDialedEthClient {C : Type} (endpoint : string) : LazyEthClient C := mkLazy None endpoint.

Definition DialWithRetry {C : Type} (retry_Do : string → result C) (endpoint : string) : result C :=
  match retry_Do endpoint with
  | Err e => Err (Errorf_w "failed to connect to node" e)
  | Ok client => Ok client
  end.

Definition EnsureDialed {C : Type} (retry_Do : string → result C) (c : LazyEthClient C)
    : option error * LazyEthClient C :=
  match lazy_Client c with
  | Some _ => (None, c)
  | None =>
      match DialWithRetry retry_Do (lazy_endpoint c) with
      | Err e => (Some (Errorf_w "failed to connect to node" e), c)
      | Ok client => (None, mkLazy (Some client) (lazy_endpoint c))
      end
  end.

Lemma EnsureDialed_ok {C : Type} (retry_Do : string → result C) c c' :
  EnsureDialed retry_Do c = (None, c') → is_Some (lazy_Client c') ∧ lazy_endpoint c' = lazy_endpoint c.
Proof.
  unfold EnsureDialed. destruct (lazy_Client c) as [x|] eqn:Hx; [intros [= <-]; split; [by eexists|done]|].
  destruct (DialWithRetry _ _); [|done]. intros [= <-]. split; [by eexists|done].
Qed.

(** ** Polling *)

(** The producer of [SubscribeNewHeadByPolling]: in the select, blocked on [headCh <- header],
    or returned. *)
Inductive poller : Type :=
| p_ticking
| p_publishing (header : Header)
| p_returned (err : option error).

(** What [poll] makes of the client's answer: an error is only logged. *)
Definition poll (answer : option Header * option error) : poller :=
  match HeaderByTag answer with
  | (Some header, None) => p_publishing header
  | _ => p_ticking
  end.

(** ** The syncer *)

(** One commitment level: its polling, its broker and its callback's goroutine (number 0). *)
Record feed := mkFeed { f_poller : poller; f_broker : Broker Header }.

Record EthSyncer := mkSyncer {
  LatestHeader : feed;
  SafeHeader : feed;
  FinalizedHeader : feed;
  state : EthState
}.

(** [subscribeNewHead]: the polling starts with a poll, and the callback is subscribed. *)
Definition subscribeNewHead (answer : option Header * option error) : feed :=
  mkFeed (poll answer)
    (mkBroker [] [0%nat] [] false false None [] l_selecting {[ 0%nat := mkClient [] cl_waiting [] 0 ]} []).

Definition Start (latest safe finalized : option Header * option error) (s : EthState) : EthSyncer :=
  mkSyncer (subscribeNewHead latest) (subscribeNewHead safe) (subscribeNewHead finalized) s.

(** [Stop] closes two of the three brokers; it then waits for all of them. *)
Definition stop_feed (f : feed) : feed :=
  mkFeed (f_poller f) (default (f_broker f) (Broker.Stop (f_broker f))).

Definition Stop (s : EthSyncer) : EthSyncer :=
  mkSyncer (stop_feed (LatestHeader s)) (SafeHeader s) (stop_feed (FinalizedHeader s)) (state s).

(** [eg.Wait()] of [Stop]: every broker has returned. *)
Definition returned (f : feed) : bool :=
  match loop (f_broker f) with l_returned _ => true | _ => false end.

Definition wait_returns (s : EthSyncer) : bool :=
  returned (LatestHeader s) && returned (SafeHeader s) && returned (FinalizedHeader s).

Inductive level : Type := lv_latest | lv_safe | lv_finalized.

#[export] Instance level_eq_dec : EqDecision level.
Proof. solve_decision. Defined.

Definition handler (l : level) : Header → EthState → result unit * EthState :=
  match l with
  | lv_latest => OnLatest
  | lv_safe => OnSafe
  | lv_finalized => OnFinalized
  end.

(** A step of one level: a tick of its poller with the client's answer, the send of the
    polled header, the end of the poller, or a step of its broker (the broker has no other
    publisher and no other subscriber). *)
Inductive faction : Type :=
| f_tick (answer : option Header * option error)
| f_publish
| f_poller_done
| f_step (a : baction Header).

Definition internal (a : baction Header) : bool :=
  match a with b_publish _ | b_subscribe _ | b_stop => false | _ => true end.

Definition feed_step (fn : Header → EthState → result unit * EthState) (a : faction) (f : feed) (e : EthState)
    : option (feed * EthState) :=
  match a, f_poller f with
  | f_tick answer, p_ticking => Some (mkFeed (poll answer) (f_broker f), e)
  | f_publish, p_publishing header =>
      b ← Publish header (f_broker f); Some (mkFeed p_ticking b, e)
  | f_poller_done, p_ticking =>
      if ctxDone (f_broker f) then
        '(b, e) ← broker_step fn (b_sub_err (Some context_canceled)) (f_broker f, e);
        Some (mkFeed (p_returned (Some context_canceled)) b, e)
      else None
  | f_step a, _ =>
      if internal a then '(b, e) ← broker_step fn a (f_broker f, e); Some (mkFeed (f_poller f) b, e) else None
  | _, _ => None
  end.

Definition feed_of (l : level) (s : EthSyncer) : feed :=
  match l with lv_latest => LatestHeader s | lv_safe => SafeHeader s | lv_finalized => FinalizedHeader s end.

Definition set_feed (l : level) (f : feed) (e : EthState) (s : EthSyncer) : EthSyncer :=
  match l with
  | lv_latest => mkSyncer f (SafeHeader s) (FinalizedHeader s) e
  | lv_safe => mkSyncer (LatestHeader s) f (FinalizedHeader s) e
  | lv_finalized => mkSyncer (LatestHeader s) (SafeHeader s) f e
  end.

Definition sync_step (la : level * faction) (s : EthSyncer) : option EthSyncer :=
  let '(l, a) := la in
  '(f, e) ← feed_step (handler l) a (feed_of l s) (state s);
  Some (set_feed l f e s).

Fixpoint sync_run (as_ : list (level * faction)) (s : EthSyncer) : option EthSyncer :=
  match as_ with
  | [] => Some s
  | a :: as_ => s ← sync_step a s; sync_run as_ s
  end.

(** ** Lemmas *)

(** What a step does to the shared state: nothing, or one call of the level's handler, made
    by a client that is in its select. *)
Lemma feed_step_state fn a f e f' e' :
  feed_step fn a f e = Some (f', e') →
  e' = e ∨ ∃ c cl m, clients (f_broker f) !! c = Some cl ∧ cl_status cl = cl_waiting ∧ e' = (fn m e).2.
Proof.
  unfold feed_step. destruct a as [answer| | |a].
  - destruct (f_poller f); [|done..]. intros [= _ <-]. by left.
  - destruct (f_poller f); [done| |done]. destruct (Publish header _); [|done]. intros [= _ <-]. by left.
  - destruct (f_poller f); [|done..]. destruct (ctxDone _); [|done]. cbn. intros [= _ <-]. by left.
  - destruct (internal a); [|done].
    destruct (broker_step fn a (f_broker f, e)) as [[b e1]|] eqn:Hs; cbn [mbind option_bind]; [|done]. intros [= _ <-].
    apply broker_step_handler in Hs as [->|(c & cl & m & _ & Hc & Hw & ->)]; [by left|right]. by exists c, cl, m.
Qed.

(** The headers that the level's handler was called with. *)
Abbreviation calls b := (from_option cl_handled [] (clients b !! 0%nat)).

Definition handled (f : feed) : list Header := calls (f_broker f).

(** The level has the single client 0. *)
Definition single (b : Broker Header) : Prop := ∃ cl, clients b = {[ 0%nat := cl ]}.

(** ... and it has left its select. *)
Definition callback_gone (f : feed) : Prop := single (f_broker f) ∧ left_select 0 (f_broker f).

Lemma single_insert b n cl cl' : single b → clients b !! n = Some cl → ∃ cl0, <[n := cl']> (clients b) = {[ 0%nat := cl0 ]}.
Proof.
  intros [cl0 ->] Hn. apply lookup_singleton_Some in Hn as [<- _]. exists cl'. by rewrite insert_singleton_eq.
Qed.

Lemma single_alter b n g : single b → ∃ cl, alter g n (clients b) = {[ 0%nat := cl ]}.
Proof.
  intros [cl ->]. destruct (decide (n = 0%nat)) as [->|Hne]; [exists (g cl); by rewrite alter_singleton_eq|].
  exists cl. by rewrite alter_singleton_ne.
Qed.

Lemma broker_step_single fn a b (e : EthState) b' e' :
  internal a = true → single b → broker_step fn a (b, e) = Some (b', e') → single b'.
Proof.
  intros Hint Hb H1. destruct a; try done; broker_cases H1; try done. all: first [by eapply single_insert|by apply single_alter].
Qed.

Lemma calls_insert (m : gmap nat (client Header)) n cl cl' : m !! n = Some cl → cl_handled cl' = cl_handled cl →
  from_option cl_handled [] (<[n := cl']> m !! 0%nat) = from_option cl_handled [] (m !! 0%nat).
Proof.
  intros Hn Hh. destruct (decide (n = 0%nat)) as [->|Hne]; [by rewrite lookup_insert_eq, Hn|by rewrite lookup_insert_ne].
Qed.

Lemma calls_alter (m : gmap nat (client Header)) n g : (∀ cl, cl_handled (g cl) = cl_handled cl) →
  from_option cl_handled [] (alter g n m !! 0%nat) = from_option cl_handled [] (m !! 0%nat).
Proof.
  intros Hg. destruct (decide (n = 0%nat)) as [->|Hne]; [|by rewrite lookup_alter_ne].
  rewrite lookup_alter_eq. by destruct (m !! 0%nat); cbn.
Qed.

Lemma single_client b n cl : single b → clients b !! n = Some cl → n = 0%nat.
Proof. intros [cl0 ->] Hn. by apply lookup_singleton_Some in Hn as [<- _]. Qed.

(** A step calls the handler once, with a header of the callback's channel, or not at all. *)
Lemma broker_step_calls fn a b (e : EthState) b' e' : internal a = true → single b → broker_step fn a (b, e) = Some (b', e') →
  calls b' = calls b ∧ e' = e ∨
  ∃ h cl, clients b !! 0%nat = Some cl ∧ cl_status cl = cl_waiting ∧ cl_buf cl ≠ [] ∧
    calls b' = calls b ++ [h] ∧ e' = (fn h e).2.
Proof.
  intros Hi Hb Hs. destruct a; try done; broker_cases Hs. all: cbn.
  all: try (left; split; [|done]; first [done|by eapply calls_insert|by apply calls_alter]).
  all: right; match goal with
    | Hc : clients _ !! ?n = Some ?cl, Hbuf : cl_buf ?cl = ?h :: _, Hf : _ ?h _ = (_, _) |- _ =>
        assert (n = 0%nat) as -> by (by eapply single_client); exists h, cl; rewrite Hbuf, Hf, lookup_insert_eq, Hc
    end; done.
Qed.

(** A step of a level is a step of its broker, or leaves the clients and the shared state. *)
Lemma feed_step_cases fn a f e f' e' : feed_step fn a f e = Some (f', e') →
  clients (f_broker f') = clients (f_broker f) ∧ e' = e ∨
  ∃ b, a = f_step b ∧ internal b = true ∧ broker_step fn b (f_broker f, e) = Some (f_broker f', e').
Proof.
  unfold feed_step. destruct a as [answer| | |b].
  - destruct (f_poller f); [|done..]. intros [= <- <-]. by left.
  - destruct (f_poller f); [done| |done]. unfold Publish. destruct (PubCh _); [|done]. intros [= <- <-]. by left.
  - destruct (f_poller f); [|done..]. destruct (ctxDone _); [|done]. intros [= <- <-]. by left.
  - destruct (internal b) eqn:Hint; [|done].
    destruct (broker_step fn b (f_broker f, e)) as [[b1 e1]|] eqn:Hb; cbn [mbind option_bind]; [|done].
    intros [= <- <-]. right. by exists b.
Qed.

Lemma feed_step_single fn a f e f' e' :
  single (f_broker f) → feed_step fn a f e = Some (f', e') → single (f_broker f').
Proof.
  intros Hf [[Hc _]|(b & _ & Hint & Hb)]%feed_step_cases; [|by eapply broker_step_single].
  unfold single. by rewrite Hc.
Qed.

(** Once the callback has left its select, it is never called again. *)
Lemma feed_step_gone fn a f e f' e' : callback_gone f → feed_step fn a f e = Some (f', e') →
  callback_gone f' ∧ e' = e ∧ handled f' = handled f.
Proof.
  intros [Hf Hl] Hs. pose proof (feed_step_single _ _ _ _ _ _ Hf Hs) as Hf'. unfold callback_gone, handled.
  apply feed_step_cases in Hs as [[Hc ->]|(b & _ & Hint & Hb)].
  - unfold left_select. rewrite Hc. by split.
  - pose proof (broker_step_left _ _ _ _ _ _ _ Hl Hb) as Hl'.
    destruct (broker_step_calls _ _ _ _ _ _ Hint Hf Hb) as [[Hc He]|(h & cl & Hcl & Hw & _)]; [by repeat split|].
    exfalso. destruct Hl as (cl' & ? & ?). congruence.
Qed.

(** The head each handler writes. *)
Definition head_of (l : level) (e : EthState) : BlockID :=
  match l with lv_latest => Head e | lv_safe => Safe e | lv_finalized => Finalized e end.

(** A handler writes its own head only. *)
Lemma handler_other l l' h e : l ≠ l' → head_of l ((handler l' h e).2) = head_of l e.
Proof.
  intros Hne. pose proof (OnSafe_spec h e) as Hs. pose proof (OnFinalized_spec h e) as Hf. pose proof (OnLatest_spec h e) as Hl.
  destruct l, l'; try done; cbn [handler head_of];
    destruct (OnSafe h e), (OnFinalized h e), (OnLatest h e); cbn [snd]; intuition congruence.
Qed.

(** A handler that fails leaves the state. *)
Lemma handler_failed l h e err : (handler l h e).1 = Err err → (handler l h e).2 = e.
Proof.
  pose proof (OnSafe_spec h e) as Hs. pose proof (OnFinalized_spec h e) as Hf.
  destruct l; cbn [handler]; [done|destruct (OnSafe h e)|destruct (OnFinalized h e)]; cbn; intros ->; naive_solver.
Qed.

(** The safe and the finalized handler refuse the genesis block while their head is empty. *)
Lemma handler_genesis l h e : l ≠ lv_latest → head_of l e = EmptyBlockID →
  big_Uint64 (h_Number h) = 0 → h_Hash h ≠ 0 → ∃ err, (handler l h e).1 = Err err.
Proof.
  intros Hl He Hn Hh. apply Z.eqb_neq in Hh.
  destruct l; [done| |]; cbn [handler head_of] in *; [unfold OnSafe|unfold OnFinalized]; rewrite He, Hn; change (GetNumber EmptyBlockID) with 0; change (GetHash EmptyBlockID) with 0; rewrite Hh;
    by eexists.
Qed.

Lemma sync_step_frozen l la s s' : callback_gone (feed_of l s) → sync_step la s = Some s' →
  callback_gone (feed_of l s') ∧ head_of l (state s') = head_of l (state s) ∧
  handled (feed_of l s') = handled (feed_of l s).
Proof.
  intros Hg. destruct la as [l' a]. unfold sync_step.
  destruct (feed_step (handler l') a (feed_of l' s) (state s)) as [[f e]|] eqn:Hs; cbn; [|done]. intros [= <-].
  destruct (decide (l = l')) as [<-|Hne].
  - apply feed_step_gone in Hs as (Hg' & -> & Hh); [|done]. by destruct l.
  - assert (Hf : feed_of l (set_feed l' f e s) = feed_of l s) by (by destruct l, l').
    rewrite Hf. split; [done|]. split; [|done]. replace (state (set_feed l' f e s)) with e by (by destruct l').
    apply feed_step_state in Hs as [->|(c & cl & m & _ & _ & ->)]; [done|by apply handler_other].
Qed.

Lemma sync_run_frozen l as_ : ∀ s s', callback_gone (feed_of l s) → sync_run as_ s = Some s' →
  head_of l (state s') = head_of l (state s) ∧ handled (feed_of l s') = handled (feed_of l s).
Proof.
  induction as_ as [|a as_ IH]; intros s s' Hg Hr; cbn in Hr; [by injection Hr as <-|].
  destruct (sync_step a s) as [s1|] eqn:Hs; cbn in Hr; [|done].
  destruct (sync_step_frozen l a s s1 Hg Hs) as (Hg1 & <- & <-). by apply IH.
Qed.

Lemma sync_step_single l la s s' :
  single (f_broker (feed_of l s)) → sync_step la s = Some s' → single (f_broker (feed_of l s')).
Proof.
  intros Hg. destruct la as [l' a]. unfold sync_step.
  destruct (feed_step (handler l') a (feed_of l' s) (state s)) as [[f e]|] eqn:Hs; cbn; [|done]. intros [= <-].
  destruct (decide (l = l')) as [<-|Hne].
  - apply feed_step_single in Hs; [|done]. by destruct l.
  - by replace (feed_of l (set_feed l' f e s)) with (feed_of l s) by (by destruct l, l').
Qed.

Lemma sync_run_single l as_ : ∀ s s',
  single (f_broker (feed_of l s)) → sync_run as_ s = Some s' → single (f_broker (feed_of l s')).
Proof.
  induction as_ as [|a as_ IH]; intros s s' Hg Hr; cbn in Hr; [by injection Hr as <-|].
  destruct (sync_step a s) as [s1|] eqn:Hs; cbn in Hr; [|done].
  eapply IH; [|exact Hr]. by eapply sync_step_single.
Qed.

(** The callback of a level is in its select with this header first in its channel. *)
Definition delivered_next (l : level) (header : Header) (s : EthSyncer) : Prop :=
  ∃ cl rest, clients (f_broker (feed_of l s)) !! 0%nat = Some cl ∧
    cl_status cl = cl_waiting ∧ cl_buf cl = header :: rest.

(** The call of a handler that fails makes the goroutine of the callback leave its select. *)
Lemma failed_call l header err s s' :
  single (f_broker (feed_of l s)) → delivered_next l header s → (handler l header (state s)).1 = Err err →
  sync_step (l, f_step (b_recv 0)) s = Some s' →
  callback_gone (feed_of l s') ∧ state s' = state s ∧ handled (feed_of l s') = handled (feed_of l s) ++ [header].
Proof.
  intros Hone (cl & rest & Hc & Hw & Hbuf) Herr Hs. unfold sync_step in Hs.
  pose proof (handler_failed _ _ _ _ Herr) as Hsame.
  cbn [feed_step internal] in Hs. destruct (handler l header (state s)) as [r e] eqn:Hh. cbn in Herr, Hsame. subst r e.
  cbn [broker_step] in Hs. unfold client_recv in Hs. rewrite Hc in Hs. cbn [mbind option_bind] in Hs. rewrite Hw, Hbuf, Hh in Hs.
  cbn [mbind option_bind] in Hs. injection Hs as <-.
  set (cl' := mkClient rest cl_unsubscribing (cl_handled cl ++ [header]) (cl_since cl)).
  assert (Hf : feed_of l (set_feed l (mkFeed (f_poller (feed_of l s)) (set_client 0 cl' (f_broker (feed_of l s)))) (state s) s) =
    mkFeed (f_poller (feed_of l s)) (set_client 0 cl' (f_broker (feed_of l s)))) by (by destruct l).
  rewrite Hf. unfold callback_gone, single, left_select, handled. cbn. rewrite lookup_insert_eq, Hc. cbn.
  split; [|by destruct l]. split; [by eapply single_insert|by exists cl'].
Qed.

(** ** Theorems *)

(** C24: A level whose handler fails is frozen.  In any state reached from the start, let the
    callback be about to be called with a header: for the safe and the finalized level the
    call does fail when the header is the genesis block and no head was stored yet; and when
    it fails, then whatever is polled, published or delivered afterwards, the head stays what
    it was before the call and the handler is never called again. *)
Theorem failed_handler_freezes_head l latest safe finalized e0 before s header :
  sync_run before (Start latest safe finalized e0) = Some s → delivered_next l header s →
  (l ≠ lv_latest ∧ head_of l (state s) = EmptyBlockID ∧ big_Uint64 (h_Number header) = 0 ∧ h_Hash header ≠ 0 →
   ∃ err, (handler l header (state s)).1 = Err err) ∧
  (∀ err, (handler l header (state s)).1 = Err err →
   ∀ later s', sync_run ((l, f_step (b_recv 0)) :: later) s = Some s' →
   head_of l (state s') = head_of l (state s) ∧ handled (feed_of l s') = handled (feed_of l s) ++ [header]).
Proof.
  intros Hr Hnext. assert (Hone : single (f_broker (feed_of l s))).
  { eapply sync_run_single; [|exact Hr]. destruct l; by eexists. }
  split; [by intros (? & ? & ? & ?); eapply handler_genesis|]. intros err Herr later s' Hs. cbn [sync_run] in Hs.
  destruct (sync_step (l, f_step (b_recv 0)) s) as [s1|] eqn:H1; cbn [mbind option_bind] in Hs; [|done].
  destruct (failed_call l header err s s1 Hone Hnext Herr H1) as (Hg & He & Hh).
  destruct (sync_run_frozen l later s1 s' Hg Hs) as [-> ->]. by rewrite He, Hh.
Qed.

(** A broker that is running, and that nothing has told to end. *)
Definition running (f : feed) : Prop :=
  stopCh (f_broker f) = false ∧ ctxDone (f_broker f) = false ∧ subErr (f_broker f) = None ∧ returned f = false.

(** The steps that end the context or report the polling's failure. *)
Definition ends (a : faction) : bool :=
  match a with f_step b_ctx_done | f_step (b_sub_err _) => true | _ => false end.

Lemma broker_step_running fn a b (e : EthState) b' e' p :
  ends (f_step a) = false → internal a = true → running (mkFeed p b) →
  broker_step fn a (b, e) = Some (b', e') → running (mkFeed p b').
Proof.
  intros Hends Hint (H1 & H2 & H3 & H4) Hs. cbn in H1, H2, H3. unfold running, returned in *. cbn in H4 |- *.
  destruct a; try done; broker_cases Hs. all: cbn; try done; try congruence.
  all: match goal with Hr : sending _ ?r = _ |- _ => by destruct r end.
Qed.

Lemma feed_step_running fn a f e f' e' :
  ends a = false → running f → feed_step fn a f e = Some (f', e') → running f'.
Proof.
  intros Hends Hrun Hs. unfold feed_step in Hs. destruct a as [answer| | |a].
  - destruct (f_poller f); [|done..]. by injection Hs as <- _.
  - destruct (f_poller f); [done| |done]. unfold Publish in Hs. destruct (PubCh _); [|done]. by injection Hs as <- _.
  - destruct Hrun as (_ & H2 & _). rewrite H2 in Hs. by destruct (f_poller f).
  - destruct (internal a) eqn:Hint; [|done].
    destruct (broker_step fn a (f_broker f, e)) as [[b e1]|] eqn:Hb; cbn [mbind option_bind] in Hs; [|done].
    injection Hs as <- _. eapply (broker_step_running fn a (f_broker f)); [done|done| |exact Hb]. exact Hrun.
Qed.

(** [Stop] does not close the broker of the safe headers, so its wait does not return, whatever
    steps follow, until the context ends or the polling of the safe headers fails. *)
Theorem Stop_waits_for_safe_broker as_ : ∀ s s',
  running (SafeHeader s) → (∀ a, (lv_safe, a) ∈ as_ → ends a = false) →
  sync_run as_ (Stop s) = Some s' → wait_returns s' = false.
Proof.
  assert (Hgen : ∀ as_ s s', running (SafeHeader s) → (∀ a, (lv_safe, a) ∈ as_ → ends a = false) →
    sync_run as_ s = Some s' → running (SafeHeader s')).
  { clear as_. induction as_ as [|[l a] as_ IH]; intros s s' Hrun Hno Hr; cbn in Hr; [by injection Hr as <-|].
    destruct (feed_step (handler l) a (feed_of l s) (state s)) as [[f e]|] eqn:Hs; cbn in Hr; [|done].
    apply (IH _ s') in Hr; [done| |intros a' Ha'; apply Hno; by right].
    destruct l; [done| |done]. eapply feed_step_running; [|exact Hrun|exact Hs]. apply Hno. left. }
  intros s s' Hrun Hno Hr. apply (Hgen as_ (Stop s)) in Hr as (_ & _ & _ & Hret); [|done..].
  unfold wait_returns. by rewrite Hret, andb_false_r.
Qed.

(** ** A concrete run *)
Module EthSyncSample.

Definition header (n h : Z) : Header := sample_header n h.
Definition ok (n h : Z) : option Header * option error := (Some (header n h), None).

(** The node answers with its genesis block as the safe block. *)
Definition started : EthSyncer := Start (ok 3 30) (ok 0 7) (ok 0 7) NewEthState.

Definition safe (a : baction Header) : level * faction := (lv_safe, f_step a).

(** The safe header is published, taken and sent. *)
Definition sent_safe : list (level * faction) :=
  [(lv_safe, f_publish); safe b_take_sub; safe (b_take [0%nat]); safe b_send].

(** The callback refuses it; the next safe header is five. *)
Definition later : list (level * faction) :=
  [(lv_safe, f_tick (ok 5 50)); (lv_safe, f_publish); safe (b_take [0%nat]); safe b_send].

Definition after (as_ : list (level * faction)) (s : EthSyncer) : EthSyncer := default s (sync_run as_ s).

Lemma failed_handler_freezes_head_witness :
  (∃ err, (handler lv_safe (header 0 7) (state (after sent_safe started))).1 = Err err) ∧
  Safe (state (after (safe (b_recv 0) :: later) (after sent_safe started))) = EmptyBlockID ∧
  handled (SafeHeader (after (safe (b_recv 0) :: later) (after sent_safe started))) = [header 0 7].
Proof.
  destruct (failed_handler_freezes_head lv_safe (ok 3 30) (ok 0 7) (ok 0 7) NewEthState sent_safe (after sent_safe started) (header 0 7))
    as [Hg Hf]; [vm_compute; reflexivity| |].
  { eexists _, _. split; [vm_compute; reflexivity|]. split; reflexivity. }
  destruct Hg as [err Herr]; [by repeat split; vm_compute|]. split; [by exists err|].
  exact (Hf err Herr later (after (safe (b_recv 0) :: later) (after sent_safe started)) ltac:(vm_compute; reflexivity)).
Defined.

Lemma Stop_waits_for_safe_broker_witness :
  wait_returns (after [(lv_latest, f_step b_take_stop); (lv_finalized, f_step b_take_stop)] (Stop started)) = false.
Proof.
  apply (Stop_waits_for_safe_broker [(lv_latest, f_step b_take_stop); (lv_finalized, f_step b_take_stop)] started).
  - by repeat split.
  - intros a. rewrite !elem_of_cons, elem_of_nil. by intros [?|[?|[]]].
  - vm_compute. reflexivity.
Defined.

End EthSyncSample.
