(* ===== verification/EthHeads.v ===== *)
(** * From the polled headers to the heads

    Composes the polling and the brokers of [EthSync], the delivery of [Broker] and the
    handlers of [EthState]: the head of a level is what its handler makes of the headers the
    node answered with, in the order of the answers and without a gap. *)

From S2P Require Import Prelude Errors Types EthState Broker EthSync.

(** ** Specification *)

(** The header of a polled answer, if it has one. *)
Definition polled_header (answer : option Header * option error) : list Header :=
  match poll answer with p_publishing header => [header] | _ => [] end.

(** The headers polled for a level in a run. *)
Definition polled (l : level) (as_ : list (level * faction)) : list Header :=
  concat (map (λ la, match la.2 with f_tick answer => if decide (la.1 = l) then polled_header answer else [] | _ => [] end) as_).

(** Calling a level's handler with one header after the other. *)
Definition handle_all (l : level) (hs : list Header) (e : EthState) : EthState :=
  fold_left (λ e h, (handler l h e).2) hs e.

(** The level's callback is among the subscribers of its broker. *)
Definition subscribed (f : feed) : Prop := 0%nat ∈ subs (f_broker f).

(** Headers on their way: in the callback's channel, in the send of the broker, in the
    broker's channel, and held by the poller. *)
Definition publishing_header (p : poller) : list Header := match p with p_publishing h => [h] | _ => [] end.

Definition in_flight (f : feed) : list Header :=
  from_option cl_buf [] (clients (f_broker f) !! 0%nat) ++ pending 0 (loop (f_broker f)) ++
  PubCh (f_broker f) ++ publishing_header (f_poller f).

(** ** The handlers *)

(** A handler reads and writes the head of its level only. *)
Lemma handler_head l h e e' : head_of l e = head_of l e' → head_of l (handler l h e).2 = head_of l (handler l h e').2.
Proof.
  destruct l; cbn [head_of handler]; intros He.
  - pose proof (OnLatest_spec h e) as H1. pose proof (OnLatest_spec h e') as H2.
    destruct (OnLatest h e), (OnLatest h e'), H1 as (_ & H1 & _), H2 as (_ & H2 & _). cbn. congruence.
  - unfold OnSafe. rewrite <- He. destruct (_ <? _); [done|]. destruct (_ && _); [done|].
    unfold Safe, load_tag. cbn. by rewrite !Load_Store_eq.
  - unfold OnFinalized. rewrite <- He. destruct (_ <? _); [done|]. destruct (_ && _); [done|].
    unfold Finalized, load_tag. cbn. by rewrite !Load_Store_eq.
Qed.

Lemma handle_all_snoc l hs h e : handle_all l (hs ++ [h]) e = (handler l h (handle_all l hs e)).2.
Proof. unfold handle_all. by rewrite fold_left_app. Qed.

(** The latest head is the last header handled. *)
Lemma handle_all_latest hs h e : head_of lv_latest (handle_all lv_latest (hs ++ [h]) e) = NewBlockIDFromHeader h.
Proof.
  rewrite handle_all_snoc. pose proof (OnLatest_spec h (handle_all lv_latest hs e)) as H. cbn [handler head_of].
  destruct (OnLatest _ _), H as (_ & H & _). exact H.
Qed.

(** ** Invariant *)

(** Where the callback is: not yet added, added, or removed after having left its select. *)
Definition callback_at (b : Broker Header) : Prop :=
  0%nat ∈ subCh b ∧ calls b = [] ∨
  0%nat ∈ subs b ∨
  left_select 0 b ∧ ∃ before, before ++ calls b `prefix_of` log b.

Record feed_inv (hs : list Header) (f : feed) : Prop := {
  fi_broker : broker_inv (f_broker f);
  fi_single : single (f_broker f);
  fi_polled : hs = log (f_broker f) ++ PubCh (f_broker f) ++ publishing_header (f_poller f);
  fi_pub : (length (PubCh (f_broker f)) <= 1)%nat;
  fi_unsub : ∀ c, c ∈ unsubCh (f_broker f) → left_select 0 (f_broker f);
  fi_callback : callback_at (f_broker f)
}.

Lemma broker_step_queue fn a b (e : EthState) b' e' : internal a = true → broker_step fn a (b, e) = Some (b', e') →
  log b' ++ PubCh b' = log b ++ PubCh b ∧ (length (PubCh b') <= length (PubCh b))%nat ∧ log b `prefix_of` log b'.
Proof.
  intros Hi Hs. destruct a; try done; broker_cases Hs. all: cbn; rewrite <- ?app_assoc; split_and!; auto with lia.
  all: by apply prefix_app_r.
Qed.

(** [unsubCh] holds the callback's channel only after it has left its select. *)
Lemma broker_step_unsub fn a b (e : EthState) b' e' : internal a = true → single b → broker_step fn a (b, e) = Some (b', e') →
  ∀ c, c ∈ unsubCh b' → c ∈ unsubCh b ∨ left_select 0 b'.
Proof.
  intros Hi Hb Hs. destruct a; try done; broker_cases Hs. all: cbn; intros x Hx; try (by left).
  - left. by right.
  - right. assert (c = 0%nat) as -> by (by eapply single_client). eexists. cbn. by rewrite lookup_insert_eq.
Qed.

(** The subscribers change by what the two channels hold. *)
Lemma broker_step_subs fn a b (e : EthState) b' e' : internal a = true → broker_step fn a (b, e) = Some (b', e') →
  subs b' = subs b ∧ subCh b' = subCh b ∨
  (∃ c, subCh b = c :: subCh b' ∧ subs b' = c :: subs b) ∨
  (∃ c, c ∈ unsubCh b ∧ subs b' = filter (λ x, x ≠ c) (subs b) ∧ subCh b' = subCh b ∧ log b' = log b).
Proof.
  intros Hi Hs. destruct a; try done; broker_cases Hs. all: cbn; auto.
  - right. left. by eexists.
  - right. right. exists n. by split; [left|].
Qed.

Lemma broker_step_callback fn a b (e : EthState) b' e' :
  internal a = true → broker_inv b → single b → (∀ c, c ∈ unsubCh b → left_select 0 b) →
  broker_step fn a (b, e) = Some (b', e') → callback_at b → callback_at b'.
Proof.
  intros Hi Hinv Hb Hu Hs Hat. pose proof (broker_step_calls fn a b e b' e' Hi Hb Hs) as Hcalls.
  pose proof (broker_step_queue fn a b e b' e' Hi Hs) as (_ & _ & Hlog). destruct Hat as [[Hin Hc]|[Hin|(Hl & before & Hp)]].
  - assert (Hc' : calls b' = []).
    { destruct Hcalls as [[-> _]|(h & cl & Hcl & _ & Hne & _)]; [done|].
      destruct (inv_new _ Hinv 0%nat Hin) as (_ & cl' & Hcl' & Hbuf & _). congruence. }
    destruct (broker_step_subs fn a b e b' e' Hi Hs) as [[_ He]|[(c & He & Hs')|(c & _ & _ & He & _)]].
    + left. by rewrite He.
    + rewrite He in Hin. apply elem_of_cons in Hin as [<-|Hin]; [right; left; rewrite Hs'; by left|by left].
    + left. by rewrite He.
  - destruct (broker_step_subs fn a b e b' e' Hi Hs) as [[He _]|[(c & _ & He)|(c & Hcu & He & _ & Hlg)]].
    + right. left. by rewrite He.
    + right. left. rewrite He. by right.
    + destruct (decide (c = 0%nat)) as [->|Hne]; [|right; left; rewrite He; apply list_elem_of_filter; split; congruence].
      right. right. pose proof (Hu 0%nat Hcu) as Hl. split; [by eapply broker_step_left|].
      destruct (inv_subs _ Hinv 0%nat Hin) as (cl & Hcl & _ & _ & Hd). exists (take (cl_since cl) (log b)).
      destruct Hcalls as [[-> _]|(h & cl' & Hcl' & Hw & _)]; [|destruct Hl as (cl2 & ? & ?); congruence].
      rewrite Hlg, Hcl. cbn. rewrite <- (take_drop (cl_since cl) (log b)) at 2. rewrite Hd. apply prefix_app, prefix_app_r. done.
  - right. right. split; [by eapply broker_step_left|]. exists before.
    destruct Hcalls as [[-> _]|(h & cl & Hcl & Hw & _)]; [by etransitivity|].
    destruct Hl as (cl2 & ? & ?); congruence.
Qed.

(** What an action adds to the headers polled. *)
Definition polls (a : faction) : list Header := match a with f_tick answer => polled_header answer | _ => [] end.

Lemma feed_step_inv fn a f (e : EthState) f' e' hs : feed_inv hs f → feed_step fn a f e = Some (f', e') →
  feed_inv (hs ++ polls a) f' ∧
  (handled f' = handled f ∧ e' = e ∨ ∃ h, handled f' = handled f ++ [h] ∧ e' = (fn h e).2).
Proof.
  intros [Hb Hs Hp Hl Hu Hc] Hstep. destruct f as [p b]. cbn [f_broker f_poller] in *. unfold feed_step in Hstep.
  destruct a as [answer| | |a]; cbn [f_poller f_broker polls] in *.
  - destruct p; [|done..]. injection Hstep as <- <-. split; [|by left]. split; try done. cbn. by rewrite Hp, <- !app_assoc.
  - destruct p as [|h|]; [done| |done]. unfold Publish in Hstep. destruct (PubCh b) eqn:Hpub; [|done]. injection Hstep as <- <-.
    split; [|by left]. split; cbn; try done; [by eapply (broker_inv_same b)|by rewrite Hp, app_nil_r].
  - destruct p; [|done..]. destruct (ctxDone b); [|done]. injection Hstep as <- <-. split; [|by left].
    split; cbn; try done; [by eapply (broker_inv_same b)|by rewrite app_nil_r].
  - destruct (internal a) eqn:Hi; [|done]. assert (Hrun : ∃ b1, broker_step fn a (b, e) = Some (b1, e') ∧ f' = mkFeed p b1).
    { destruct p; destruct (broker_step fn a (b, e)) as [[b1 e1]|]; cbn in Hstep; try done; injection Hstep as <- <-; by exists b1. }
    destruct Hrun as (b1 & Hb1 & ->). split.
    + pose proof (broker_step_queue fn a b e b1 e' Hi Hb1) as (Hq & Hle & _). split; cbn.
      * by eapply broker_step_inv.
      * by eapply broker_step_single.
      * by rewrite app_nil_r, app_assoc, Hq, <- app_assoc.
      * lia.
      * intros c Hc'. destruct (broker_step_unsub fn a b e b1 e' Hi Hs Hb1 c Hc') as [H|H]; [|done].
        eapply broker_step_left; [by eapply Hu|exact Hb1].
      * by eapply broker_step_callback.
    + unfold handled. cbn. destruct (broker_step_calls fn a b e b1 e' Hi Hs Hb1) as [H|(h & cl & _ & _ & _ & H)]; [by left|right; by exists h].
Qed.

(** A level of the syncer, with the headers polled for it and the state it began with. *)
Definition level_inv (l : level) (e0 : EthState) (hs : list Header) (s : EthSyncer) : Prop :=
  feed_inv hs (feed_of l s) ∧ head_of l (state s) = head_of l (handle_all l (handled (feed_of l s)) e0).

Lemma feed_of_set l l' f e s : feed_of l (set_feed l' f e s) = if decide (l = l') then f else feed_of l s.
Proof. by destruct l, l'. Qed.

Lemma state_set l f e s : state (set_feed l f e s) = e.
Proof. by destruct l. Qed.

Lemma sync_step_inv l e0 hs la s s' : level_inv l e0 hs s → sync_step la s = Some s' → level_inv l e0 (hs ++ polled l [la]) s'.
Proof.
  intros [Hf Hh]. destruct la as [l' a]. unfold sync_step.
  destruct (feed_step (handler l') a (feed_of l' s) (state s)) as [[f e]|] eqn:Hs; cbn [mbind option_bind]; [|done]. intros [= <-].
  unfold level_inv. rewrite feed_of_set, state_set. unfold polled. cbn [map concat fst snd]. rewrite app_nil_r.
  destruct (decide (l = l')) as [<-|Hne].
  - destruct (feed_step_inv _ _ _ _ _ _ _ Hf Hs) as [Hf' Hcall]. split.
    + destruct a; try done. by rewrite decide_True.
    + destruct Hcall as [[-> ->]|(h & -> & ->)]; [done|]. rewrite handle_all_snoc. by apply handler_head.
  - assert (He : head_of l e = head_of l (state s)).
    { apply feed_step_state in Hs as [->|(c & cl & m & _ & _ & ->)]; [done|by apply handler_other]. }
    rewrite He. split; [|done]. destruct a; rewrite ?decide_False by done; by rewrite app_nil_r.
Qed.

Lemma sync_run_inv l e0 as_ : ∀ hs s s', level_inv l e0 hs s → sync_run as_ s = Some s' → level_inv l e0 (hs ++ polled l as_) s'.
Proof.
  induction as_ as [|a as_ IH]; intros hs s s' Hinv Hr; cbn [sync_run] in Hr.
  { injection Hr as <-. cbn. by rewrite app_nil_r. }
  destruct (sync_step a s) as [s1|] eqn:Hs; cbn [mbind option_bind] in Hr; [|done].
  apply (sync_step_inv l e0 hs a s s1) in Hinv; [|done]. apply (IH _ s1 s') in Hinv; [|done].
  unfold polled in Hinv |- *. cbn [map concat] in Hinv |- *. by rewrite app_nil_r, <- app_assoc in Hinv.
Qed.

(** The answer of the poll that a level starts with. *)
Definition first_answer (l : level) (latest safe finalized : option Header * option error) : option Header * option error :=
  match l with lv_latest => latest | lv_safe => safe | lv_finalized => finalized end.

Lemma level_inv_start l latest safe finalized e0 :
  level_inv l e0 (polled_header (first_answer l latest safe finalized)) (Start latest safe finalized e0).
Proof.
  assert (H : ∀ answer, feed_inv (polled_header answer) (subscribeNewHead answer) ∧ handled (subscribeNewHead answer) = []).
  { intros answer. split; [|done]. split; cbn; try done; [split; cbn| |lia|by intros c ?%elem_of_nil|].
    - constructor.
    - by intros c ?%elem_of_nil.
    - done.
    - lia.
    - intros c ->%list_elem_of_singleton. split; [by intros ?%elem_of_nil|]. by eexists.
    - by eexists.
    - left. split; [by left|done]. }
  split; [|by destruct l]. by destruct l; apply H.
Qed.

(** ** Theorems *)

(** C21: From the polls to the heads, over any interleaving of the pollers, the brokers and the
    callbacks: the headers a level's handler has been called with are a segment of the headers
    the node answered the polls of that level with, in order and without a gap, and the head is
    what the handler makes of them.  While the callback is subscribed, the headers after the
    segment are exactly those in the channels, at most eleven. *)
Theorem heads_follow_polls l latest safe finalized e0 as_ s :
  sync_run as_ (Start latest safe finalized e0) = Some s →
  ∃ before behind,
    polled_header (first_answer l latest safe finalized) ++ polled l as_ = before ++ handled (feed_of l s) ++ behind ∧
    head_of l (state s) = head_of l (handle_all l (handled (feed_of l s)) e0) ∧
    (subscribed (feed_of l s) → behind = in_flight (feed_of l s) ∧ (length behind <= chanSize + 3)%nat).
Proof.
  intros Hr. apply (sync_run_inv l e0 _ _ _ _ (level_inv_start l latest safe finalized e0)) in Hr as [[Hb Hs Hp Hl _ Hc] Hh].
  set (f := feed_of l s) in *. set (b := f_broker f) in *. rewrite Hp.
  assert (Hpl : (length (publishing_header (f_poller f)) <= 1)%nat) by (destruct (f_poller f); cbn; lia).
  destruct (decide (0%nat ∈ subs b)) as [Hin|Hin].
  - destruct (inv_subs _ Hb 0%nat Hin) as (cl & Hcl & Hlen & _ & Hd). exists (take (cl_since cl) (log b)), (in_flight f).
    split; [|split; [done|]].
    + unfold handled, in_flight. fold b. rewrite Hcl. cbn. rewrite <- (take_drop (cl_since cl) (log b)) at 1. rewrite Hd.
      by rewrite <- !app_assoc.
    + intros _. split; [done|]. unfold in_flight. fold b. rewrite Hcl. cbn. rewrite !length_app.
      assert (Hpe : (length (pending 0 (loop b)) <= 1)%nat) by (unfold pending; destruct (loop b); [cbn; lia|case_decide; cbn; lia|cbn; lia]).
      unfold chanSize in *. lia.
  - destruct Hc as [[_ Hc]|[Hc|(_ & before & behind & Hc)]]; [|done|].
    + exists [], (log b ++ PubCh b ++ publishing_header (f_poller f)). split; [by unfold handled; fold b; rewrite Hc|]. split; [done|]. by intros ?%Hin.
    + exists before, (behind ++ PubCh b ++ publishing_header (f_poller f)). split; [unfold handled; fold b; by rewrite Hc, <- !app_assoc|].
      split; [done|]. by intros ?%Hin.
Qed.

(** When nothing is on its way any more the latest head is the last header polled. *)
Lemma latest_head_settles latest safe finalized e0 as_ s before h :
  sync_run as_ (Start latest safe finalized e0) = Some s → subscribed (LatestHeader s) → in_flight (LatestHeader s) = [] →
  handled (LatestHeader s) ≠ [] → polled_header latest ++ polled lv_latest as_ = before ++ [h] → Head (state s) = NewBlockIDFromHeader h.
Proof.
  intros Hr Hsub Hf Hne Hp. destruct (sync_run_inv lv_latest e0 _ _ _ _ (level_inv_start lv_latest latest safe finalized e0) Hr)
    as [[Hb _ Hpo _ _ _] Hh]. cbn [feed_of first_answer] in *. rewrite Hp in Hpo. unfold subscribed in Hsub.
  destruct (inv_subs _ Hb 0%nat Hsub) as (cl & Hcl & _ & _ & Hd). unfold in_flight, handled in *. rewrite Hcl in Hf, Hne, Hh. cbn in Hf, Hne, Hh.
  apply app_nil in Hf as [Hbuf Hf]. apply app_nil in Hf as [Hpe Hf]. rewrite Hbuf, Hpe, !app_nil_r in Hd. rewrite Hf, app_nil_r in Hpo.
  destruct (exists_last Hne) as (hs & h' & Hlast). rewrite Hlast in Hd, Hh.
  assert (h' = h) as ->.
  { rewrite <- (take_drop (cl_since cl) (log (f_broker (LatestHeader s)))), Hd, app_assoc in Hpo. by apply app_inj_tail in Hpo as [_ ->]. }
  rewrite Hh. apply handle_all_latest.
Qed.

(** ** Concrete runs *)
Module EthHeadsSample.

Definition header (n h : Z) : Header := sample_header n h.
Definition ok (n h : Z) : option Header * option error := (Some (header n h), None).
Definition none : option Header * option error := (None, None).

Definition started : EthSyncer := Start (ok 3 30) none none NewEthState.

Definition latest (a : baction Header) : level * faction := (lv_latest, f_step a).

(** Two headers are polled; the second is still in the broker's channel. *)
Definition schedule : list (level * faction) :=
  [(lv_latest, f_publish); latest b_take_sub; latest (b_take [0%nat]); latest b_send; latest (b_recv 0);
   (lv_latest, f_tick none); (lv_latest, f_tick (ok 4 40)); (lv_latest, f_publish)].

Definition after (as_ : list (level * faction)) : EthSyncer := default started (sync_run as_ started).

Lemma heads_follow_polls_witness :
  Head (state (after schedule)) = mkBlockID 3 30 ∧
  ∃ before, [header 3 30; header 4 40] = before ++ [header 3 30] ++ [header 4 40].
Proof.
  destruct (heads_follow_polls lv_latest (ok 3 30) none none NewEthState schedule (after schedule)) as (before & behind & Hp & Hh & Hb);
    [vm_compute; reflexivity|].
  destruct Hb as [Hb _]; [apply (bool_decide_unpack _); by vm_compute|]. subst behind. split.
  - exact Hh.
  - exists before. exact Hp.
Defined.

(** The first header of a level is polled before its callback is subscribed: when the broker
    takes it first it is given to nobody, and the head stays empty until the next poll. *)
Example first_header_can_be_lost :
  let s := after [(lv_latest, f_publish); latest (b_take []); latest b_take_sub] in
  in_flight (LatestHeader s) = [] ∧ handled (LatestHeader s) = [] ∧ Head (state s) = EmptyBlockID.
Proof. vm_compute. by split_and!. Qed.

End EthHeadsSample.
