(* ===== verification/SidecarConfig.v ===== *)
(** * The configuration of the sidecar

    Models services/sidecar/rollup/services: rollup_config.go (the rollup's parameters and
    their checks) and config.go (the system configuration read from the command line), with
    the transaction manager's part of txmgr/config.go.  The command line, the file system,
    the JSON decoder and go-ethereum's key parser are parameters. *)

From S2P Require Import Prelude Errors Types TxMgr.

(** ** The rollup's parameters *)

(** [Bytes32] is a number below 2^256. *)
Record systemConfig := mkSystem {
  BatcherAddr : Address;
  Overhead : Z;
  Scalar : Z;
  GasLimit : Z
}.

Record RollupGenesis := mkRollupGenesis {
  rg_L1 : BlockID;
  rg_L2 : BlockID;
  rg_L2Time : Z;
  rg_SystemConfig : systemConfig
}.

(** A nil [*big.Int] is [None]. *)
Record RollupConfig := mkRollup {
  rc_Genesis : RollupGenesis;
  rc_BlockTime : Z;
  rc_MaxSequencerDrift : Z;
  rc_SeqWindowSize : Z;
  rc_L1ChainID : option Z;
  rc_L2ChainID : option Z;
  rc_BatchInboxAddress : Address
}.

Definition ErrBlockTimeZero := ErrorString "block time cannot be 0".
Definition ErrInvalidSeqWindowSize := ErrorString "sequencing window size must at least be 2".
Definition ErrMissingGenesisL1Hash := ErrorString "genesis L1 hash cannot be empty".
Definition ErrMissingGenesisL2Hash := ErrorString "genesis L2 hash cannot be empty".
Definition ErrGenesisHashesSame := ErrorString "achievement get! rollup inception: L1 and L2 genesis cannot be the same".
Definition ErrMissingGenesisL2Time := ErrorString "missing L2 genesis time".
Definition ErrMissingBatcherAddr := ErrorString "missing genesis system config batcher address".
Definition ErrMissingOverhead := ErrorString "missing genesis system config overhead".
Definition ErrMissingScalar := ErrorString "missing genesis system config scalar".
Definition ErrMissingGasLimit := ErrorString "missing genesis system config gas limit".
Definition ErrMissingBatchInboxAddress := ErrorString "missing batch inbox address".
Definition ErrMissingL1ChainID := ErrorString "L1 chain ID must not be nil".
Definition ErrMissingL2ChainID := ErrorString "L2 chain ID must not be nil".
Definition ErrChainIDsSame := ErrorString "L1 and L2 chain IDs must be different".
Definition ErrL1ChainIDNotPositive := ErrorString "L1 chain ID must be non-zero and positive".
Definition ErrL2ChainIDNotPositive := ErrorString "L2 chain ID must be non-zero and positive".

(** [Check]: the first condition that fails, in the order of the source. *)
Definition Check_config (cfg : RollupConfig) : option error :=
  let g := rc_Genesis cfg in
  let sys := rg_SystemConfig g in
  if rc_BlockTime cfg =? 0 then Some ErrBlockTimeZero
  else if rc_SeqWindowSize cfg <? 2 then Some ErrInvalidSeqWindowSize
  else if GetHash (rg_L1 g) =? zero_hash then Some ErrMissingGenesisL1Hash
  else if GetHash (rg_L2 g) =? zero_hash then Some ErrMissingGenesisL2Hash
  else if GetHash (rg_L2 g) =? GetHash (rg_L1 g) then Some ErrGenesisHashesSame
  else if rg_L2Time g =? 0 then Some ErrMissingGenesisL2Time
  else if BatcherAddr sys =? zero_address then Some ErrMissingBatcherAddr
  else if Overhead sys =? 0 then Some ErrMissingOverhead
  else if Scalar sys =? 0 then Some ErrMissingScalar
  else if GasLimit sys =? 0 then Some ErrMissingGasLimit
  else if rc_BatchInboxAddress cfg =? zero_address then Some ErrMissingBatchInboxAddress
  else
    match rc_L1ChainID cfg, rc_L2ChainID cfg with
    | None, _ => Some ErrMissingL1ChainID
    | _, None => Some ErrMissingL2ChainID
    | Some l1, Some l2 =>
        if l1 =? l2 then Some ErrChainIDsSame
        else if Z.sgn l1 <? 1 then Some ErrL1ChainIDNotPositive
        else if Z.sgn l2 <? 1 then Some ErrL2ChainIDNotPositive
        else None
    end.

(** [TargetBlockNumber], on [uint64]; a division by zero panics. *)
Definition TargetBlockNumber (cfg : RollupConfig) (timestamp : Z) : go (result Z) :=
  let genesisTimestamp := rg_L2Time (rc_Genesis cfg) in
  if timestamp <? genesisTimestamp then Ret (Err (Errorf "did not reach genesis time yet"))
  else
    let wallClockGenesisDiff := u64 (timestamp - genesisTimestamp) in
    if rc_BlockTime cfg =? 0 then Panic "integer divide by zero"
    else
      let blocksSinceGenesis := wallClockGenesisDiff / rc_BlockTime cfg in
      Ret (Ok (u64 (GetNumber (rg_L2 (rc_Genesis cfg)) + blocksSinceGenesis))).

(** ** The checks against the nodes *)

(** [L1Client] and [L2Client] of rollup_config.go. *)
Class ChainClient := {
  client_ChainID : result Z;
  client_HeaderByNumber : Z → result Header
}.

(** [CheckL1ChainID] and [CheckL2ChainID], which differ in the field; a nil field panics in
    [Cmp]. *)
Definition check_chain_id (expected : option Z) `{ChainClient} : go (option error) :=
  match client_ChainID with
  | Err e => Ret (Some (Errorf_w "failed to get chain ID" e))
  | Ok id =>
      match expected with
      | None => Panic nil_deref
      | Some x => Ret (if x =? id then None else Some (Errorf "incorrect RPC chain id"))
      end
  end.

Definition CheckL1ChainID (cfg : RollupConfig) `{ChainClient} : go (option error) := check_chain_id (rc_L1ChainID cfg).
Definition CheckL2ChainID (cfg : RollupConfig) `{ChainClient} : go (option error) := check_chain_id (rc_L2ChainID cfg).

Definition check_genesis_hash (id : BlockID) `{ChainClient} : option error :=
  match client_HeaderByNumber (GetNumber id) with
  | Err e => Some (Errorf_w "failed to get genesis blockhash" e)
  | Ok header => if h_Hash header =? GetHash id then None else Some (Errorf "incorrect genesis block hash")
  end.

Definition CheckL1GenesisBlockHash (cfg : RollupConfig) `{ChainClient} : option error :=
  check_genesis_hash (rg_L1 (rc_Genesis cfg)).
Definition CheckL2GenesisBlockHash (cfg : RollupConfig) `{ChainClient} : option error :=
  check_genesis_hash (rg_L2 (rc_Genesis cfg)).

Definition ValidateL1Config (cfg : RollupConfig) `{ChainClient} : go (option error) :=
  err ← CheckL1ChainID cfg;
  Ret match err with Some e => Some e | None => CheckL1GenesisBlockHash cfg end.

Definition ValidateL2Config (cfg : RollupConfig) `{ChainClient} : go (option error) :=
  err ← CheckL2ChainID cfg;
  Ret match err with Some e => Some e | None => CheckL2GenesisBlockHash cfg end.

(** ** The system configuration *)

(** The command line; the file system and decoder behind [NewRollupConfig]; the key parser. *)
Class Environment (K : Type) := {
  cli_String : string → string;
  cli_Bool : string → bool;
  cli_Uint : string → Z;
  cli_Uint64 : string → Z;
  cli_Duration : string → Z;
  os_ReadFile : string → result bytes;
  json_Decode : bytes → result RollupConfig;
  hex_Address : string → Address;
  HexToECDSA : string → result K
}.

Record ProtocolConfig := mkProtocol { Rollup : RollupConfig; RollupAddr : Address }.

Definition GetRollup (c : ProtocolConfig) : RollupConfig := Rollup c.
Definition GetRollupAddr (c : ProtocolConfig) : Address := RollupAddr c.
Definition GetSeqWindowSize (c : ProtocolConfig) : Z := rc_SeqWindowSize (Rollup c).
Definition GetSequencerInboxAddr (c : ProtocolConfig) : Address := rc_BatchInboxAddress (Rollup c).
Definition GetL1OracleAddr (c : ProtocolConfig) : Address := 0x2A00000000000000000000000000000000000010.

(** [Uint64] of a nil [*big.Int] panics. *)
Definition chain_id (x : option Z) : go Z := match x with Some n => Ret (big_Uint64 n) | None => Panic nil_deref end.
Definition GetL1ChainID (c : ProtocolConfig) : go Z := chain_id (rc_L1ChainID (Rollup c)).
Definition GetL2ChainID (c : ProtocolConfig) : go Z := chain_id (rc_L2ChainID (Rollup c)).

Record DisseminatorConfig (K : Type) := mkDisseminatorConfig {
  dc_IsEnabled : bool;
  dc_AccountAddr : Address;
  dc_PrivateKey : option K;
  dc_ClefEndpoint : string;
  dc_DisseminationInterval : Z;
  dc_SubSafetyMargin : Z;
  dc_TargetBatchSize : Z;
  dc_TxMgrCfg : TxMgr.Config
}.
Arguments mkDisseminatorConfig {K}.
Arguments dc_IsEnabled {K}.
Arguments dc_AccountAddr {K}.
Arguments dc_PrivateKey {K}.
Arguments dc_ClefEndpoint {K}.
Arguments dc_DisseminationInterval {K}.
Arguments dc_SubSafetyMargin {K}.
Arguments dc_TargetBatchSize {K}.
Arguments dc_TxMgrCfg {K}.

Record ValidatorConfig (K : Type) := mkValidatorConfig {
  vc_IsEnabled : bool;
  vc_AccountAddr : Address;
  vc_PrivateKey : option K;
  vc_ClefEndpoint : string;
  vc_ValidationInterval : Z;
  vc_TxMgrCfg : TxMgr.Config
}.
Arguments mkValidatorConfig {K}.
Arguments vc_IsEnabled {K}.
Arguments vc_AccountAddr {K}.
Arguments vc_PrivateKey {K}.
Arguments vc_ClefEndpoint {K}.
Arguments vc_ValidationInterval {K}.
Arguments vc_TxMgrCfg {K}.

Record SystemConfig (K : Type) := mkSystemConfig {
  sc_Protocol : ProtocolConfig;
  sc_L1Endpoint : string;
  sc_L2Endpoint : string;
  sc_Disseminator : DisseminatorConfig K;
  sc_Validator : ValidatorConfig K
}.
Arguments mkSystemConfig {K}.
Arguments sc_Protocol {K}.
Arguments sc_L1Endpoint {K}.
Arguments sc_L2Endpoint {K}.
Arguments sc_Disseminator {K}.
Arguments sc_Validator {K}.

Definition second : Z := 1000000000.

Section SystemConfig.
Context {K : Type} `{Env : Environment K}.

(** [validate] of the two service configurations. *)
Definition missing_key : error := Errorf "missing both private key and clef endpoint (require at least one)".

Definition signs (key : option K) (clef : string) : bool :=
  match key with None => negb (String.eqb clef "") | Some _ => true end.

Definition validate_disseminator (c : DisseminatorConfig K) : option error :=
  if negb (dc_IsEnabled c) then None
  else if negb (signs (dc_PrivateKey c) (dc_ClefEndpoint c)) then Some missing_key else None.

Definition validate_validator (c : ValidatorConfig K) : option error :=
  if negb (vc_IsEnabled c) then None
  else if negb (signs (vc_PrivateKey c) (vc_ClefEndpoint c)) then Some missing_key else None.

Definition validate (c : SystemConfig K) : option error :=
  if negb (dc_IsEnabled (sc_Disseminator c) || vc_IsEnabled (sc_Validator c))
  then Some (Errorf "at least one of disseminator and validator must be enabled")
  else
    match validate_disseminator (sc_Disseminator c) with
    | Some e => Some (Errorf_w "disseminator config invalid" e)
    | None =>
        match validate_validator (sc_Validator c) with
        | Some e => Some (Errorf_w "validator config invalid" e)
        | None => None
        end
    end.

Definition NewRollupConfig (path : string) : result RollupConfig :=
  match os_ReadFile path with
  | Err e => Err (Errorf_w "deploy config not found" e)
  | Ok file =>
      match json_Decode file with
      | Err e => Err (Errorf_w "cannot decode config" e)
      | Ok config => Ok config
      end
  end.

Definition newProtocolConfigFromCLI : result ProtocolConfig :=
  match NewRollupConfig (cli_String "protocol.rollup-cfg-path") with
  | Err e => Err e
  | Ok rollupCfg => Ok (mkProtocol rollupCfg (hex_Address (cli_String "protocol.rollup-addr")))
  end.

(** [txmgr.NewConfigFromCLI]; a nil chain id is zero in the transactions made from it. *)
Definition NewConfigFromCLI (namespace : string) (chainID : option Z) (from : Address) : TxMgr.Config :=
  mkConfig (default 0 chainID) from
    (cli_Uint64 (namespace ++ ".num-confirmations"))
    (cli_Uint64 (namespace ++ ".safe-abort-nonce-too-low-count"))
    (cli_Duration (namespace ++ ".not-in-mempool-timeout"))
    (cli_Duration (namespace ++ ".resubmission-timeout"))
    (cli_Duration (namespace ++ ".send-timeout"))
    (cli_Duration (namespace ++ ".network-timeout"))
    (cli_Duration (namespace ++ ".receipt-query-interval")).

(** [toPrivateKey]: the first two characters are dropped, whatever they are. *)
Definition toPrivateKey (keyStr : string) : go (option K) :=
  if String.eqb keyStr "" then Ret None
  else if (String.length keyStr <? 2)%nat then Panic "slice bounds out of range"
  else
    match HexToECDSA (String.substring 2 (String.length keyStr - 2) keyStr) with
    | Err _ => Panic "failed to parse secret key"
    | Ok key => Ret (Some key)
    end.

(** [time.Duration(n) * time.Second]. *)
Definition seconds (n : Z) : Z := s64 (s64 n * second).

Definition newDisseminatorConfigFromCLI (txMgrCfg : TxMgr.Config) : go (DisseminatorConfig K) :=
  key ← toPrivateKey (cli_String "disseminator.private-key");
  Ret (mkDisseminatorConfig (cli_Bool "disseminator") (cfg_From txMgrCfg) key
         (cli_String "disseminator.clef-endpoint") (seconds (cli_Uint "disseminator.interval"))
         (cli_Uint64 "disseminator.sub-safety-margin") (cli_Uint64 "disseminator.target-batch-size") txMgrCfg).

Definition newValidatorConfigFromCLI (txMgrCfg : TxMgr.Config) : go (ValidatorConfig K) :=
  key ← toPrivateKey (cli_String "validator.private-key");
  Ret (mkValidatorConfig (cli_Bool "validator") (cfg_From txMgrCfg) key
         (cli_String "validator.clef-endpoint") (seconds (cli_Uint "validator.validation-interval")) txMgrCfg).

Definition ParseSystemConfig : go (result (SystemConfig K)) :=
  match newProtocolConfigFromCLI with
  | Err e => Ret (Err (Errorf_w "failed to parse protocol config" e))
  | Ok protocolCfg =>
      let disseminatorAddr :=
        if String.eqb (cli_String "disseminator") "" then zero_address
        else BatcherAddr (rg_SystemConfig (rc_Genesis (Rollup protocolCfg))) in
      let validatorAddr :=
        if String.eqb (cli_String "validator") "" then zero_address
        else hex_Address (cli_String "validator.addr") in
      let l1ChainID := rc_L1ChainID (GetRollup protocolCfg) in
      let disseminatorTxMgrCfg := NewConfigFromCLI "disseminator.txmgr" l1ChainID disseminatorAddr in
      let validatorTxMgrCfg := NewConfigFromCLI "validator.txmgr" l1ChainID validatorAddr in
      d ← newDisseminatorConfigFromCLI disseminatorTxMgrCfg;
      v ← newValidatorConfigFromCLI validatorTxMgrCfg;
      let cfg := mkSystemConfig protocolCfg (cli_String "l1.endpoint") (cli_String "l2.endpoint") d v in
      Ret match validate cfg with
          | Some e => Err (Errorf_w "failed to validate config" e)
          | None => Ok cfg
          end
  end.

End SystemConfig.

(** ** Theorems *)

(** A rollup configuration that makes sense. *)
Definition valid_rollup (cfg : RollupConfig) : Prop :=
  let g := rc_Genesis cfg in
  let sys := rg_SystemConfig g in
  rc_BlockTime cfg ≠ 0 ∧ 2 <= rc_SeqWindowSize cfg ∧
  GetHash (rg_L1 g) ≠ zero_hash ∧ GetHash (rg_L2 g) ≠ zero_hash ∧ GetHash (rg_L2 g) ≠ GetHash (rg_L1 g) ∧
  rg_L2Time g ≠ 0 ∧ BatcherAddr sys ≠ zero_address ∧ Overhead sys ≠ 0 ∧ Scalar sys ≠ 0 ∧ GasLimit sys ≠ 0 ∧
  rc_BatchInboxAddress cfg ≠ zero_address ∧
  ∃ l1 l2, rc_L1ChainID cfg = Some l1 ∧ rc_L2ChainID cfg = Some l2 ∧ l1 ≠ l2 ∧ 0 < l1 ∧ 0 < l2.

(** One test of the list: the rest is reached when it does not fire. *)
Lemma check_cons (b : bool) (e : error) (rest : option error) (P Q : Prop) :
  (b = false ↔ P) → (rest = None ↔ Q) → (if b then Some e else rest) = None ↔ P ∧ Q.
Proof. intros HP HQ. destruct b; [split; [done|]; intros [H _]; by apply HP in H|]. rewrite <- HP, HQ. tauto. Qed.

(** [Check] accepts exactly the configurations that make sense. *)
Lemma Check_config_valid cfg : Check_config cfg = None ↔ valid_rollup cfg.
Proof.
  unfold Check_config, valid_rollup. cbv zeta.
  do 11 (apply check_cons; [first [apply Z.eqb_neq|apply Z.ltb_ge]|]).
  destruct (rc_L1ChainID cfg) as [l1|]; [|by split; [|intros (? & ? & ? & _)]].
  destruct (rc_L2ChainID cfg) as [l2|]; [|by split; [|intros (? & ? & _ & ? & _)]].
  rewrite (check_cons _ _ _ (l1 ≠ l2) (0 < l1 ∧ 0 < l2)).
  - split; [intros [? ?]; by exists l1, l2|by intros (? & ? & [= <-] & [= <-] & ?)].
  - apply Z.eqb_neq.
  - apply check_cons; [rewrite Z.ltb_ge; lia|]. rewrite <- (Z.sgn_pos_iff l2), <- (right_id True%type (∧) (Z.sgn l2 = 1)).
    apply check_cons; [rewrite Z.ltb_ge; lia|done].
Qed.

(** On a configuration that [Check] accepts, and a time from the genesis on,
    [TargetBlockNumber] is the number of the block whose slot the time falls in, unless that
    number is past 2^64; before the genesis it is an error. *)
Theorem TargetBlockNumber_correct cfg t :
  Check_config cfg = None → is_u64 t → is_u64 (rg_L2Time (rc_Genesis cfg)) → is_u64 (rc_BlockTime cfg) →
  let g := rc_Genesis cfg in
  (t < rg_L2Time g → ∃ e, TargetBlockNumber cfg t = Ret (Err e)) ∧
  (rg_L2Time g <= t → ∃ k, TargetBlockNumber cfg t = Ret (Ok (u64 (GetNumber (rg_L2 g) + k))) ∧
     0 <= k ∧ rg_L2Time g + k * rc_BlockTime cfg <= t < rg_L2Time g + (k + 1) * rc_BlockTime cfg).
Proof.
  intros (Hb & _)%Check_config_valid Ht Hg Hbt g. unfold TargetBlockNumber. fold g. split; intros Hlt.
  - rewrite (proj2 (Z.ltb_lt _ _) Hlt). by eexists.
  - rewrite (proj2 (Z.ltb_ge _ _) Hlt), (proj2 (Z.eqb_neq _ _) Hb).
    assert (0 < rc_BlockTime cfg) as HB by (unfold is_u64 in Hbt; lia).
    rewrite (u64_small (t - rg_L2Time g)) by (unfold is_u64 in *; subst g; lia).
    eexists. split; [reflexivity|]. set (d := t - rg_L2Time g).
    split; [apply Z.div_pos; unfold d; lia|].
    pose proof (Z.div_mod d (rc_BlockTime cfg) Hb). pose proof (Z.mod_pos_bound d (rc_BlockTime cfg) HB).
    unfold d in *. nia.
Qed.

(** What is accepted: the decoded rollup file, and services of which one is enabled and each
    enabled one can sign. *)
Lemma ParseSystemConfig_ok {K : Type} `{Environment K} cfg :
  ParseSystemConfig = Ret (Ok cfg) →
  NewRollupConfig (cli_String "protocol.rollup-cfg-path") = Ok (Rollup (sc_Protocol cfg)) ∧
  (dc_IsEnabled (sc_Disseminator cfg) || vc_IsEnabled (sc_Validator cfg) = true) ∧
  (dc_IsEnabled (sc_Disseminator cfg) = true →
     signs (dc_PrivateKey (sc_Disseminator cfg)) (dc_ClefEndpoint (sc_Disseminator cfg)) = true) ∧
  (vc_IsEnabled (sc_Validator cfg) = true →
     signs (vc_PrivateKey (sc_Validator cfg)) (vc_ClefEndpoint (sc_Validator cfg)) = true).
Proof.
  unfold ParseSystemConfig, newProtocolConfigFromCLI.
  destruct (NewRollupConfig _) as [r|e]; [|done]. set (p := mkProtocol r _).
  destruct (newDisseminatorConfigFromCLI _) as [d|w]; [|done].
  destruct (newValidatorConfigFromCLI _) as [v|w]; [|done]. cbn [mbind go_bind].
  destruct (validate _) eqn:Hv; [done|]. intros [= <-]. cbn [sc_Protocol sc_Disseminator sc_Validator].
  unfold validate in Hv. cbn [sc_Disseminator sc_Validator] in Hv.
  destruct (dc_IsEnabled d || vc_IsEnabled v) eqn:He; [|done]. cbn [negb] in Hv.
  destruct (validate_disseminator d) eqn:Hd; [done|]. destruct (validate_validator v) eqn:Hvv; [done|].
  split; [done|]. split; [done|]. split.
  - intros Hen. unfold validate_disseminator in Hd. rewrite Hen in Hd. cbn in Hd.
    by destruct (signs (dc_PrivateKey d) _).
  - intros Hen. unfold validate_validator in Hvv. rewrite Hen in Hvv. cbn in Hvv.
    by destruct (signs (vc_PrivateKey v) _).
Qed.

(** [ParseSystemConfig] accepts a configuration exactly when the rollup's file decodes, the
    keys parse, a service is enabled, and every enabled service can sign; it then holds the
    decoded rollup parameters, with which [Check] is never called: parameters without an L1
    chain id are accepted, and make the first use of the chain id panic. *)
Theorem ParseSystemConfig_unchecked {K : Type} `{Environment K} cfg :
  ParseSystemConfig = Ret (Ok cfg) →
  NewRollupConfig (cli_String "protocol.rollup-cfg-path") = Ok (Rollup (sc_Protocol cfg)) ∧
  (dc_IsEnabled (sc_Disseminator cfg) || vc_IsEnabled (sc_Validator cfg) = true) ∧
  (dc_IsEnabled (sc_Disseminator cfg) = true →
     signs (dc_PrivateKey (sc_Disseminator cfg)) (dc_ClefEndpoint (sc_Disseminator cfg)) = true) ∧
  (vc_IsEnabled (sc_Validator cfg) = true →
     signs (vc_PrivateKey (sc_Validator cfg)) (vc_ClefEndpoint (sc_Validator cfg)) = true) ∧
  (rc_L1ChainID (Rollup (sc_Protocol cfg)) = None →
     GetL1ChainID (sc_Protocol cfg) = Panic nil_deref ∧ is_Some (Check_config (Rollup (sc_Protocol cfg)))).
Proof.
  intros (H1 & H2 & H3 & H4)%ParseSystemConfig_ok. split_and!; try done.
  intros Hl1. split; [unfold GetL1ChainID; by rewrite Hl1|].
  destruct (Check_config (Rollup (sc_Protocol cfg))) eqn:Hc; [by eexists|]. apply Check_config_valid in Hc.
  destruct Hc as (?&?&?&?&?&?&?&?&?&?&?&l1&l2&Hsome&_). congruence.
Qed.

(** The checks against a node accept it exactly when it is on the configured chain and has
    the configured genesis block. *)
Theorem ValidateL1Config_correct cfg `{ChainClient} x :
  rc_L1ChainID cfg = Some x →
  ∃ r, ValidateL1Config cfg = Ret r ∧
    (r = None ↔ client_ChainID = Ok x ∧
       ∃ h, client_HeaderByNumber (GetNumber (rg_L1 (rc_Genesis cfg))) = Ok h ∧ h_Hash h = GetHash (rg_L1 (rc_Genesis cfg))).
Proof.
  intros Hx. unfold ValidateL1Config, CheckL1ChainID, check_chain_id. rewrite Hx.
  destruct client_ChainID as [id|e]; cbn; [|eexists; split; [done|]; split; [done|by intros [? _]]].
  destruct (Z.eqb_spec x id) as [->|Hne]; (eexists; split; [reflexivity|]).
  - unfold CheckL1GenesisBlockHash, check_genesis_hash.
    destruct (client_HeaderByNumber _) as [h|e]; [|split; [done|by intros (_ & h & ? & _)]].
    destruct (Z.eqb_spec (h_Hash h) (GetHash (rg_L1 (rc_Genesis cfg)))) as [Heq|Hne].
    + split; [|done]. intros _. split; [done|]. by exists h.
    + split; [done|]. intros (_ & h' & [= <-] & ?). done.
  - split; [done|]. intros [[= <-] _]. done.
Qed.

(** ** A concrete configuration *)
Module SidecarConfigSample.

Definition rollup : RollupConfig :=
  mkRollup (mkRollupGenesis (mkBlockID 9 77) (mkBlockID 0 78) 1700000000 (mkSystem 5 1 1 30000000)) 2 600 10 None (Some 13527) 6.

Definition checked : RollupConfig :=
  mkRollup (rc_Genesis rollup) 2 600 10 (Some 1) (Some 13527) 6.

Definition env : Environment Z := {|
  cli_String name := if String.eqb name "disseminator.private-key" then "0x01" else "";
  cli_Bool name := String.eqb name "disseminator";
  cli_Uint _ := 8;
  cli_Uint64 _ := 3;
  cli_Duration _ := 1000;
  os_ReadFile _ := Ok [];
  json_Decode _ := Ok rollup;
  hex_Address _ := 0;
  HexToECDSA _ := Ok 1
|}.

Lemma TargetBlockNumber_correct_witness : TargetBlockNumber checked 1700000005 = Ret (Ok 2).
Proof.
  destruct (TargetBlockNumber_correct checked 1700000005) as [_ H];
    [reflexivity|by split|by split|by split|].
  destruct H as (k & -> & Hk & Hslot); [cbn; lia|]. cbn in Hslot. replace k with 2 by lia. reflexivity.
Defined.

Definition parsed : SystemConfig Z :=
  match ParseSystemConfig (Env := env) with
  | Ret (Ok cfg) => cfg
  | _ => mkSystemConfig (mkProtocol checked 0) "" "" (mkDisseminatorConfig false 0 None "" 0 0 0 (mkConfig 0 0 0 0 0 0 0 0 0))
           (mkValidatorConfig false 0 None "" 0 (mkConfig 0 0 0 0 0 0 0 0 0))
  end.

Lemma ParseSystemConfig_unchecked_witness :
  ParseSystemConfig (Env := env) = Ret (Ok parsed) ∧ GetL1ChainID (sc_Protocol parsed) = Panic nil_deref.
Proof.
  assert (Hp : ParseSystemConfig (Env := env) = Ret (Ok parsed)) by (vm_compute; reflexivity).
  split; [exact Hp|].
  destruct (ParseSystemConfig_unchecked parsed Hp) as (_ & _ & _ & _ & Hc). apply Hc. reflexivity.
Defined.

Lemma ValidateL1Config_correct_witness :
  ValidateL1Config checked (H := {| client_ChainID := Ok 1; client_HeaderByNumber n := Ok (mkHeader n 77 0 None) |}) = Ret None.
Proof.
  destruct (ValidateL1Config_correct checked (H := {| client_ChainID := Ok 1; client_HeaderByNumber n := Ok (mkHeader n 77 0 None) |}) 1 eq_refl)
    as (r & -> & Hr). f_equal. apply Hr. split; [reflexivity|]. eexists. split; reflexivity.
Defined.

End SidecarConfigSample.
