(* ===== verification/Flags.v ===== *)
(** * Command-line flags

    Models services/sidecar/rollup/services/flags.go and the flags of
    services/sidecar/rollup/rpc/eth/txmgr/config.go: the tables, and what the configuration
    becomes when the optional flags are left out.  The command-line library is a parameter:
    a declared flag that is not given reads as its default. *)

From S2P Require Import Prelude Errors Types Bridge TxMgr SendState Retry SidecarConfig.

(** A flag by the type of its value, with its default. *)
Inductive flag_value : Type :=
| StringFlag (v : string)
| BoolFlag (v : bool)
| IntFlag (v : Z)
| UintFlag (v : Z)
| Uint64Flag (v : Z)
| DurationFlag (v : Z).

Record Flag := mkFlag { Name : string; Value : flag_value; Required : bool }.

(** ** txmgr/config.go *)

Definition ResubmissionTimeoutFlagName : string := "resubmission-timeout".
Definition TxSendTimeoutFlagName : string := "send-timeout".
Definition TxNotInMempoolTimeoutFlagName : string := "not-in-mempool-timeout".
Definition NetworkTimeoutFlagName : string := "network-timeout".
Definition ReceiptQueryIntervalFlagName : string := "receipt-query-interval".
Definition NumConfirmationsFlagName : string := "num-confirmations".
Definition SafeAbortNonceTooLowCountFlagName : string := "safe-abort-nonce-too-low-count".

(** [txmgr.CLIFlags]. *)
Definition txmgr_CLIFlags (namespace : string) : list Flag :=
  [mkFlag (namespace ++ "." ++ NumConfirmationsFlagName) (Uint64Flag 10) false;
   mkFlag (namespace ++ "." ++ SafeAbortNonceTooLowCountFlagName) (Uint64Flag 3) false;
   mkFlag (namespace ++ "." ++ ResubmissionTimeoutFlagName) (DurationFlag (48 * second)) false;
   mkFlag (namespace ++ "." ++ NetworkTimeoutFlagName) (DurationFlag (2 * second)) false;
   mkFlag (namespace ++ "." ++ TxSendTimeoutFlagName) (DurationFlag 0) false;
   mkFlag (namespace ++ "." ++ TxNotInMempoolTimeoutFlagName) (DurationFlag (120 * second)) false;
   mkFlag (namespace ++ "." ++ ReceiptQueryIntervalFlagName) (DurationFlag (12 * second)) false].

(** ** flags.go *)

(** go-ethereum's [log.LvlInfo]. *)
Definition LvlInfo : Z := 3.

Definition VerbosityFlag : Flag := mkFlag "verbosity" (IntFlag LvlInfo) false.
Definition l1EndpointFlag : Flag := mkFlag "l1.endpoint" (StringFlag "") true.
Definition l2EndpointFlag : Flag := mkFlag "l2.endpoint" (StringFlag "") true.
Definition protocolRollupCfgPathFlag : Flag := mkFlag "protocol.rollup-cfg-path" (StringFlag "") true.
Definition protocolRollupAddrFlag : Flag := mkFlag "protocol.rollup-addr" (StringFlag "") true.
Definition protocolL1OracleAddrFlag : Flag :=
  mkFlag "protocol.l1-oracle-addr" (StringFlag "0xff00000000000000000000000000000000000002") false.
Definition disseminatorEnableFlag : Flag := mkFlag "disseminator" (BoolFlag false) false.
Definition disseminatorPrivateKeyFlag : Flag := mkFlag "disseminator.private-key" (StringFlag "") false.
Definition disseminatorClefEndpointFlag : Flag := mkFlag "disseminator.clef-endpoint" (StringFlag "") false.
Definition disseminatorIntervalFlag : Flag := mkFlag "disseminator.interval" (UintFlag 8) false.
Definition disseminatorSubSafetyMarginFlag : Flag := mkFlag "disseminator.sub-safety-margin" (Uint64Flag 0) false.
Definition disseminatorTargetBatchSizeFlag : Flag := mkFlag "disseminator.target-batch-size" (Uint64Flag 0) false.
Definition validatorEnableFlag : Flag := mkFlag "validator" (BoolFlag false) false.
Definition validatorAddrFlag : Flag := mkFlag "validator.addr" (StringFlag "") false.
Definition validatorPrivateKeyFlag : Flag := mkFlag "validator.private-key" (StringFlag "") false.
Definition validatorClefEndpointFlag : Flag := mkFlag "validator.clef-endpoint" (StringFlag "") false.
Definition validatorValidationIntervalFlag : Flag := mkFlag "validator.validation-interval" (UintFlag 10) false.

Definition generalFlags : list Flag := [VerbosityFlag; l1EndpointFlag; l2EndpointFlag].
Definition protocolFlags : list Flag := [protocolRollupCfgPathFlag; protocolRollupAddrFlag; protocolL1OracleAddrFlag].
Definition disseminatorCLIFlags : list Flag :=
  [disseminatorEnableFlag; disseminatorPrivateKeyFlag; disseminatorClefEndpointFlag; disseminatorIntervalFlag;
   disseminatorSubSafetyMarginFlag; disseminatorTargetBatchSizeFlag].
Definition validatorCLIFlags : list Flag :=
  [validatorEnableFlag; validatorAddrFlag; validatorPrivateKeyFlag; validatorClefEndpointFlag; validatorValidationIntervalFlag].

Definition disseminatorTxMgrNamespace : string := "disseminator.txmgr".
Definition validatorTxMgrNamespace : string := "validator.txmgr".

Definition mergeFlagGroups (groups : list (list Flag)) : list Flag := fold_left (λ flags group, flags ++ group) groups [].

Definition CLIFlags : list Flag :=
  mergeFlagGroups
    [generalFlags; protocolFlags; disseminatorCLIFlags; txmgr_CLIFlags disseminatorTxMgrNamespace;
     validatorCLIFlags; txmgr_CLIFlags validatorTxMgrNamespace].

(** ** Defaults *)

Lemma mergeFlagGroups_concat groups : mergeFlagGroups groups = concat groups.
Proof.
  unfold mergeFlagGroups. assert (H : ∀ gs (l : list Flag), fold_left (λ flags group, flags ++ group) gs l = l ++ concat gs).
  { induction gs as [|g gs IH]; intros l; cbn; [by rewrite app_nil_r|]. by rewrite IH, app_assoc. }
  apply H.
Qed.

(** No two flags have the same name, so that a value on the command line is that of one flag. *)
Lemma flag_names_distinct : NoDup (map Name CLIFlags).
Proof. apply (bool_decide_unpack _). vm_compute. exact I. Qed.

(** What the command-line library documents: the getter of a declared flag that was not given
    returns the default. *)
Class CLIDefaults (K : Type) `{Environment K} (given : string → bool) := {
  flag_default f : f ∈ CLIFlags → given (Name f) = false →
    match Value f with
    | StringFlag v => cli_String (Name f) = v
    | BoolFlag v => cli_Bool (Name f) = v
    | UintFlag v => cli_Uint (Name f) = v
    | Uint64Flag v => cli_Uint64 (Name f) = v
    | DurationFlag v => cli_Duration (Name f) = v
    | IntFlag _ => True
    end
}.

Section Defaults.
Context {K : Type} `{Env : Environment K} (given : string → bool) `{D : !CLIDefaults K given}.

(** The transaction manager's configuration when none of its flags is given. *)
Lemma txmgr_defaults ns chainID from : ns = disseminatorTxMgrNamespace ∨ ns = validatorTxMgrNamespace →
  (∀ f, f ∈ txmgr_CLIFlags ns → given (Name f) = false) →
  NewConfigFromCLI ns chainID from =
    mkConfig (default 0 chainID) from 10 3 (120 * second) (48 * second) 0 (2 * second) (12 * second).
Proof.
  intros Hns Hg.
  assert (Hd : ∀ f, f ∈ txmgr_CLIFlags ns → f ∈ CLIFlags).
  { intros f Hf. unfold CLIFlags. rewrite mergeFlagGroups_concat. cbn [concat]. rewrite !elem_of_app. by destruct Hns as [-> | ->]; tauto. }
  assert (Hv : ∀ f, f ∈ txmgr_CLIFlags ns → match Value f with
      | Uint64Flag v => cli_Uint64 (Name f) = v | DurationFlag v => cli_Duration (Name f) = v | _ => True end).
  { intros f Hf. pose proof (flag_default f (Hd f Hf) (Hg f Hf)) as H. by destruct (Value f). }
  unfold txmgr_CLIFlags in Hv. rewrite <- Forall_forall in Hv. rewrite !Forall_cons in Hv. cbn in Hv.
  unfold NewConfigFromCLI. destruct Hv as (H1 & H2 & H3 & H4 & H5 & H6 & H7 & _).
  by rewrite <- H1, <- H2, <- H3, <- H4, <- H5, <- H6, <- H7.
Qed.

(** A disseminator started with nothing but the required flags and a key ticks every eight
    seconds, has a target batch size of zero, and a transaction manager whose bookkeeping does
    not panic at its creation. *)
Theorem disseminator_defaults cfg now : ParseSystemConfig = Ret (Ok cfg) →
  (∀ f, f ∈ disseminatorCLIFlags ++ txmgr_CLIFlags disseminatorTxMgrNamespace →
     Name f ≠ "disseminator"%string → Name f ≠ "disseminator.private-key"%string → given (Name f) = false) →
  let d := sc_Disseminator cfg in
  dc_DisseminationInterval d = 8 * second ∧ dc_SubSafetyMargin d = 0 ∧ dc_TargetBatchSize d = 0 ∧ dc_ClefEndpoint d = ""%string ∧
  cfg_NumConfirmations (dc_TxMgrCfg d) = 10 ∧ cfg_ResubmissionTimeout (dc_TxMgrCfg d) = 48 * second ∧
  ∃ s, NewSendStateWithNow (cfg_SafeAbortNonceTooLowCount (dc_TxMgrCfg d)) (cfg_TxNotInMempoolTimeout (dc_TxMgrCfg d)) now = Ret s.
Proof.
  unfold ParseSystemConfig. destruct newProtocolConfigFromCLI as [p|e]; [|done]. cbn zeta.
  set (addr := if String.eqb (cli_String "disseminator") "" then _ else _). intros H Hg.
  rewrite (txmgr_defaults "disseminator.txmgr" _ addr (or_introl eq_refl)) in H.
  2: { intros f Hf. assert (Hn : Forall (λ f, Name f ≠ "disseminator"%string ∧ Name f ≠ "disseminator.private-key"%string)
         (txmgr_CLIFlags "disseminator.txmgr")) by (by repeat constructor).
       rewrite Forall_forall in Hn. apply Hg; [by apply elem_of_app; right|by apply Hn..]. }
  unfold newDisseminatorConfigFromCLI in H. destruct (toPrivateKey _) as [key|]; cbn [mbind go_bind] in H; [|done].
  destruct (newValidatorConfigFromCLI _) as [v|]; cbn [mbind go_bind] in H; [|done].
  destruct (validate _); [done|]. injection H as <-. cbn.
  assert (Hd : ∀ f, f ∈ disseminatorCLIFlags → f ∈ CLIFlags).
  { intros f Hf. unfold CLIFlags. rewrite mergeFlagGroups_concat. cbn [concat]. rewrite !elem_of_app. tauto. }
  assert (Hv : ∀ f, f ∈ disseminatorCLIFlags → Name f ≠ "disseminator"%string → Name f ≠ "disseminator.private-key"%string →
    match Value f with
    | StringFlag v => cli_String (Name f) = v | UintFlag v => cli_Uint (Name f) = v
    | Uint64Flag v => cli_Uint64 (Name f) = v | _ => True end).
  { intros f Hf H1 H2. pose proof (flag_default f (Hd f Hf) (Hg f ltac:(by apply elem_of_app; left) H1 H2)) as H. by destruct (Value f). }
  unfold disseminatorCLIFlags in Hv. rewrite <- Forall_forall in Hv. rewrite !Forall_cons in Hv. cbn in Hv.
  destruct Hv as (_ & _ & Hc & Hi & Hm & Ht & _). rewrite Hc, Hi, Hm, Ht by done. split_and!; try done. by eexists.
Qed.

End Defaults.

Module FlagsSample.

(** A command line with a disseminator and its key. *)
Definition given (name : string) : bool :=
  bool_decide (name ∈ ["l1.endpoint"; "l2.endpoint"; "protocol.rollup-cfg-path"; "protocol.rollup-addr";
                       "disseminator"; "disseminator.private-key"]%string).

Definition table (name : string) : option Flag := List.find (λ f, String.eqb (Name f) name) CLIFlags.

Definition env : Environment Z := {|
  cli_String name := if String.eqb name "disseminator.private-key" then "0x01"%string
                     else match table name with Some (mkFlag _ (StringFlag v) _) => v | _ => ""%string end;
  cli_Bool name := if String.eqb name "disseminator" then true
                   else match table name with Some (mkFlag _ (BoolFlag v) _) => v | _ => false end;
  cli_Uint name := match table name with Some (mkFlag _ (UintFlag v) _) => v | _ => 0 end;
  cli_Uint64 name := match table name with Some (mkFlag _ (Uint64Flag v) _) => v | _ => 0 end;
  cli_Duration name := match table name with Some (mkFlag _ (DurationFlag v) _) => v | _ => 0 end;
  os_ReadFile _ := Ok [];
  json_Decode _ := Ok SidecarConfigSample.checked;
  hex_Address _ := 7;
  HexToECDSA _ := Ok 1
|}.

Lemma defaults : CLIDefaults (H := env) Z given.
Proof.
  split. assert (Hall : Forall (λ f, given (Name f) = false →
    match Value f with
    | StringFlag v => cli_String (Environment := env) (Name f) = v
    | BoolFlag v => cli_Bool (Environment := env) (Name f) = v
    | UintFlag v => cli_Uint (Environment := env) (Name f) = v
    | Uint64Flag v => cli_Uint64 (Environment := env) (Name f) = v
    | DurationFlag v => cli_Duration (Environment := env) (Name f) = v
    | IntFlag _ => True
    end) CLIFlags).
  { vm_compute CLIFlags. repeat constructor; intros H; vm_compute in H; try discriminate H; vm_compute; reflexivity. }
  intros f Hf. rewrite Forall_forall in Hall. by apply Hall.
Qed.

Definition parsed : SystemConfig Z :=
  match ParseSystemConfig (Env := env) with Ret (Ok cfg) => cfg | _ => SidecarConfigSample.parsed end.

Lemma disseminator_defaults_witness :
  dc_DisseminationInterval (sc_Disseminator parsed) = 8000000000 ∧ dc_TargetBatchSize (sc_Disseminator parsed) = 0.
Proof.
  destruct (disseminator_defaults (Env := env) given (D := defaults) parsed 0) as (H1 & _ & H3 & _).
  - vm_compute. reflexivity.
  - intros f Hf. assert (Hall : Forall (λ f, Name f ≠ "disseminator"%string → Name f ≠ "disseminator.private-key"%string → given (Name f) = false)
      (disseminatorCLIFlags ++ txmgr_CLIFlags disseminatorTxMgrNamespace)).
    { vm_compute disseminatorCLIFlags. vm_compute txmgr_CLIFlags. repeat constructor; intros H1 H2; vm_compute; try reflexivity;
        exfalso; (by apply H1) || (by apply H2). }
    rewrite Forall_forall in Hall. by apply Hall.
  - split; [exact H1|exact H3].
Defined.

End FlagsSample.
