(* ===== verification/BridgeClient.v ===== *)
(** * The client of the L1 rollup contracts

    Models services/sidecar/rollup/rpc/bridge/bridge_client.go: the reads of the rollup
    contract that the validator makes, over the generated binding, which is a parameter. *)

From S2P Require Import Prelude Errors Types Validator.

(** [bind.CallOpts], the field that is set. *)
Record CallOpts := mkCallOpts { Pending : bool }.

(** The generated binding of the rollup contract. *)
Class IRollup (W : Type) := {
  ir_RequireFirstUnresolvedAssertionIsConfirmable : CallOpts → W → option error * W;
  ir_GetStaker : CallOpts → Address → W → result IRollupStaker * W;
  ir_GetAssertion : CallOpts → Z → W → result IRollupAssertion * W;
  ir_GetLastConfirmedAssertionID : CallOpts → W → result Z * W;
  ir_CurrentRequiredStake : CallOpts → W → result Z * W;
  ir_Error_text : error → string
}.

Section BridgeClient.
Context {W : Type} `{I : IRollup W}.

(** Every read is made on the latest block. *)
Definition RequireFirstUnresolvedAssertionIsConfirmable (w : W) : option error * W :=
  ir_RequireFirstUnresolvedAssertionIsConfirmable (mkCallOpts false) w.
Definition GetStaker (addr : Address) (w : W) : result IRollupStaker * W := ir_GetStaker (mkCallOpts false) addr w.
Definition GetAssertion (assertionID : Z) (w : W) : result IRollupAssertion * W :=
  ir_GetAssertion (mkCallOpts false) assertionID w.
Definition GetLastConfirmedAssertionID (w : W) : result Z * W := ir_GetLastConfirmedAssertionID (mkCallOpts false) w.
Definition GetRequiredStakeAmount (w : W) : result Z * W := ir_CurrentRequiredStake (mkCallOpts false) w.

(** The client is what the validator asks for. *)
#[export] Instance IRollup_BridgeClient : Validator.BridgeClient W := {
  Validator.GetRequiredStakeAmount := GetRequiredStakeAmount;
  Validator.GetStaker := GetStaker;
  Validator.GetAssertion := GetAssertion;
  Validator.RequireFirstUnresolvedAssertionIsConfirmable := RequireFirstUnresolvedAssertionIsConfirmable;
  Validator.bc_Error_text := ir_Error_text
}.

(** The validator over this client reads the account's stake and the staker's assertion from
    the contract and takes that assertion for its own. *)
Lemma rollback_reads_contract `{T : ValidatorTxManager W} `{L2 : EthState.L2Client W} account (s : vstate (W := W)) staker w1 a w2 :
  ir_GetStaker (mkCallOpts false) account s.2 = (Ok staker, w1) →
  ir_GetAssertion (mkCallOpts false) (AssertionID staker) w1 = (Ok a, w2) →
  Validator.rollback account s = (Ok tt, (mkAttrs (big_Uint64 (BlockNum a)) (StateHash a), w2)).
Proof. intros H1 H2. unfold rollback. cbn. unfold GetStaker, GetAssertion. by rewrite H1, H2. Qed.

End BridgeClient.
