(* ===== verification/Sidecar.v ===== *)
(** * The sidecar: its services, wired and running together

    Models services/sidecar/cmd/sidecar/main.go and services/api/service.go: the creation of
    the L1 state, of the transaction managers and of the two services, and the group of
    goroutines in which they run.  The services are those of [Disseminator] and [Validator];
    the connections, the signers and the generated bindings are parameters.  The refinement of
    [Pipeline] and the record of [Validator] are carried over to the steps of the group. *)

From S2P Require Import Prelude Errors Types Bridge TxMgr Builder Encoder EthState EthSync Retry SidecarConfig Disseminator Pipeline Validator.

(** ** Signers *)

(** [bind.TransactOpts], as far as it is used. *)
Record TransactOpts := mkTransactOpts {
  to_From : Address;
  to_Signer : Address → Transaction → result SignedTx
}.

(** The libraries behind main.go: [K] is the type of private keys, [X] of external signers,
    [N] of connections to a node. *)
Class Libraries (K X N : Type) := {
  NewExternalSigner : string → result X;
  NewClefTransactor : X → Address → TransactOpts;
  NewKeyedTransactorWithChainID : option K → Z → go (result TransactOpts);
  retry_Dial : string → result N;
  bindings_NewISequencerInbox : Address → N → result unit;
  bindings_NewIRollup : Address → N → result unit;
  key_Address : K → Address                 (* crypto.PubkeyToAddress *)
}.

(** go-ethereum's documentation of the two transactors: they sign for the account of the
    external signer, or for the key's address. *)
Class LibraryLaws (K X N : Type) `{Lib : Libraries K X N} := {
  clef_From : ∀ x a, to_From (NewClefTransactor x a) = a;
  keyed_From : ∀ k id o, NewKeyedTransactorWithChainID (Some k) id = Ret (Ok o) → to_From o = key_Address k
}.

(** [serviceCfg]: what both service configurations offer. *)
Record serviceCfg (K : Type) := mkServiceCfg {
  GetAccountAddr : Address;
  GetPrivateKey : option K;
  GetClefEndpoint : string;
  GetTxMgrCfg : TxMgr.Config
}.
Arguments mkServiceCfg {K}.
Arguments GetAccountAddr {K}.
Arguments GetPrivateKey {K}.
Arguments GetClefEndpoint {K}.
Arguments GetTxMgrCfg {K}.

Definition disseminator_cfg {K} (c : DisseminatorConfig K) : serviceCfg K :=
  mkServiceCfg (dc_AccountAddr c) (dc_PrivateKey c) (dc_ClefEndpoint c) (dc_TxMgrCfg c).

Definition validator_cfg {K} (c : ValidatorConfig K) : serviceCfg K :=
  mkServiceCfg (vc_AccountAddr c) (vc_PrivateKey c) (vc_ClefEndpoint c) (vc_TxMgrCfg c).

Section Wiring.
Context `{A : ABI} {K X N : Type} `{Lib : Libraries K X N}.

(** A clef endpoint is preferred to the key. *)
Definition createTransactor (accountAddress : Address) (clefEndpoint : string) (secretKey : option K)
    (chainID : Z) : go (result TransactOpts) :=
  if negb (String.eqb clefEndpoint "") then
    Ret (match NewExternalSigner clefEndpoint with
         | Err e => Err (Errorf_w "failed to initialize external signer from clef endpoint" e)
         | Ok clef => Ok (NewClefTransactor clef accountAddress)
         end)
  else NewKeyedTransactorWithChainID secretKey chainID.

(** A manager as it is wired: the bridge's part, the configuration of the sender below it,
    its connection and its signer. *)
Record wired := mkWired {
  wi_bridge : Bridge.TxManager;
  wi_cfg : TxMgr.Config;
  wi_client : N;
  wi_signer : Address → Transaction → result SignedTx
}.

Definition set_From (from : Address) (c : TxMgr.Config) : TxMgr.Config :=
  TxMgr.mkConfig (cfg_ChainID c) from (cfg_NumConfirmations c) (cfg_SafeAbortNonceTooLowCount c)
    (cfg_TxNotInMempoolTimeout c) (cfg_ResubmissionTimeout c) (cfg_TxSendTimeout c)
    (cfg_NetworkTimeout c) (cfg_ReceiptQueryInterval c).

(** [createTxManager]; [util] is the package's ABI singleton. *)
Definition createTxManager (l1RpcUrl : string) (protocolCfg : ProtocolConfig) (serCfg : serviceCfg K)
    (util : option bridgeSerializationUtil) : go (result wired * option bridgeSerializationUtil) :=
  chainID ← GetL1ChainID protocolCfg;
  transactor ← createTransactor (GetAccountAddr serCfg) (GetClefEndpoint serCfg) (GetPrivateKey serCfg) chainID;
  match transactor with
  | Err e => Ret (Err (Errorf_w "failed to initialize transactor" e), util)
  | Ok transactor =>
      match DialWithRetry retry_Dial l1RpcUrl with
      | Err e => Ret (Err (Errorf_w "failed to initialize l1 client" e), util)
      | Ok l1Client =>
          let '(r, m) := Bridge.NewTxManager (GetSequencerInboxAddr protocolCfg) (GetRollupAddr protocolCfg) util in
          Ret (match r with
               | Err e => Err e
               | Ok _ => Ok (mkWired m (set_From (to_From transactor) (GetTxMgrCfg serCfg)) l1Client (to_Signer transactor))
               end, bm_util m)
      end
  end.

(** [bridge.NewBridgeClient]: the two generated bindings on the protocol's addresses. *)
Definition NewBridgeClient (backend : N) (cfg : ProtocolConfig) : result unit :=
  match bindings_NewISequencerInbox (GetSequencerInboxAddr cfg) backend with
  | Err e => Err e
  | Ok _ => bindings_NewIRollup (GetRollupAddr cfg) backend
  end.

(** The disseminator as created: its manager, its builder and its undialed client. *)
Record newDisseminator := mkNewDisseminator {
  nd_txMgr : wired;
  nd_builder : batchBuilder BatchV0Encoder;
  nd_l2 : LazyEthClient N
}.

Definition createDisseminator (cfg : SystemConfig K) (util : option bridgeSerializationUtil)
    : go (result newDisseminator * option bridgeSerializationUtil) :=
  let d := sc_Disseminator cfg in
  '(r, util) ← createTxManager (sc_L1Endpoint cfg) (sc_Protocol cfg) (disseminator_cfg d) util;
  Ret (match r with
       | Err e => Err (Errorf_w "failed to initialize l1 tx manager" e)
       | Ok l1TxMgr =>
           let c := Builder.mkConfig (SidecarConfig.GetL1OracleAddr (sc_Protocol cfg))
                      (SidecarConfig.GetSeqWindowSize (sc_Protocol cfg)) (dc_SubSafetyMargin d) in
           Ok (mkNewDisseminator l1TxMgr (NewBatchBuilder c (NewBatchV0Encoder (dc_TargetBatchSize d)))
                 (NewLazilyDialedEthClient (sc_L2Endpoint cfg)))
       end, util).

Record newValidator := mkNewValidator {
  nv_txMgr : wired;
  nv_l1 : N;
  nv_l2 : LazyEthClient N
}.

Definition createValidator (cfg : SystemConfig K) (util : option bridgeSerializationUtil)
    : go (result newValidator * option bridgeSerializationUtil) :=
  '(r, util) ← createTxManager (sc_L1Endpoint cfg) (sc_Protocol cfg) (validator_cfg (sc_Validator cfg)) util;
  Ret (match r with
       | Err e => Err (Errorf_w "failed to initialize l1 tx manager" e)
       | Ok l1TxMgr =>
           match DialWithRetry retry_Dial (sc_L1Endpoint cfg) with
           | Err e => Err (Errorf_w "failed to initialize l1 client" e)
           | Ok l1Client =>
               match NewBridgeClient l1Client (sc_Protocol cfg) with
               | Err e => Err (Errorf_w "failed to initialize l1 bridge client" e)
               | Ok _ => Ok (mkNewValidator l1TxMgr l1Client (NewLazilyDialedEthClient (sc_L2Endpoint cfg)))
               end
           end
       end, util).

(** [createL1State]: the syncer starts with a poll of each level. *)
Definition createL1State (cfg : SystemConfig K) (latest safe finalized : option Header * option error)
    : result EthSyncer :=
  match DialWithRetry (C := N) retry_Dial (sc_L1Endpoint cfg) with
  | Err e => Err (Errorf_w "failed to initialize l1 client" e)
  | Ok _ => Ok (EthSync.Start latest safe finalized NewEthState)
  end.

(** ** startServices *)

(** What has been started. *)
Record started := mkStarted {
  st_l1State : option EthSyncer;
  st_disseminator : option newDisseminator;
  st_validator : option newValidator
}.

(** [service.Start] dials the L2 client and schedules the goroutine. *)
Definition start_disseminator (d : newDisseminator) : result newDisseminator :=
  match EnsureDialed retry_Dial (nd_l2 d) with
  | (Some e, _) => Err (Errorf_w "failed to create L2 client" e)
  | (None, l2) => Ok (mkNewDisseminator (nd_txMgr d) (nd_builder d) l2)
  end.

Definition start_validator (v : newValidator) : result newValidator :=
  match EnsureDialed retry_Dial (nv_l2 v) with
  | (Some e, _) => Err (Errorf_w "failed to create L2 client" e)
  | (None, l2) => Ok (mkNewValidator (nv_txMgr v) (nv_l1 v) l2)
  end.

(** Creates and starts a service when it is enabled; [name] is in its errors. *)
Definition launch {S : Type} (name : string) (enabled : bool)
    (create : option bridgeSerializationUtil → go (result S * option bridgeSerializationUtil))
    (start : S → result S) (util : option bridgeSerializationUtil)
    : go (result (option S) * option bridgeSerializationUtil) :=
  if enabled then
    '(r, util) ← create util;
    Ret (match r with
         | Err e => Err (Errorf_w ("failed to create " ++ name) e)
         | Ok s =>
             match start s with
             | Err e => Err (Errorf_w ("failed to start " ++ name) e)
             | Ok s => Ok (Some s)
             end
         end, util)
  else Ret (Ok None, util).

(** [startServices] up to [eg.Wait()]: the error it returns, if any, and what was started
    before. *)
Definition startServices `{Environment K} (latest safe finalized : option Header * option error)
    : go (option error * started) :=
  cfg ← ParseSystemConfig (K := K);
  match cfg with
  | Err e => Ret (Some (Errorf_w "failed to parse config" e), mkStarted None None None)
  | Ok cfg =>
      match createL1State cfg latest safe finalized with
      | Err e => Ret (Some (Errorf_w "failed to start syncing l1 state" e), mkStarted None None None)
      | Ok l1State =>
          '(d, util) ← launch "disseminator" (dc_IsEnabled (sc_Disseminator cfg))
                         (createDisseminator cfg) start_disseminator None;
          match d with
          | Err e => Ret (Some e, mkStarted (Some l1State) None None)
          | Ok d =>
              '(v, _) ← launch "validator" (vc_IsEnabled (sc_Validator cfg))
                          (createValidator cfg) start_validator util;
              match v with
              | Err e => Ret (Some e, mkStarted (Some l1State) d None)
              | Ok v => Ret (None, mkStarted (Some l1State) d v)
              end
          end
      end
  end.

End Wiring.

Arguments wired {A} N.
Arguments started {A} N.
Arguments newDisseminator {A} N.
Arguments newValidator {A} N.

(** ** The group of goroutines

    The services run over a shared world [W], which L1, L2 and the syncer change at any time.
    A service is between two ticks of its loop, inside the loop over the batches, or done;
    their steps interleave.  [gs_err] is the group's first error: it cancels the context. *)

Inductive dis_state (B : Type) : Type :=
| D_off
| D_starting (b : B)          (* before the first rollback *)
| D_select (b : B)            (* the select of start *)
| D_batches (b : B)           (* the loop of disseminateBatches *)
| D_returned (e : option error).
Arguments D_off {B}.
Arguments D_starting {B} b.
Arguments D_select {B} b.
Arguments D_batches {B} b.
Arguments D_returned {B} e.

Inductive val_state : Type :=
| V_off
| V_starting (v : assertionAttributes)
| V_select (v : assertionAttributes)
| V_returned (e : option error).

Record group (B W : Type) := mkGroup {
  gs_world : W;
  gs_dis : dis_state B;
  gs_val : val_state;
  gs_err : option error
}.
Arguments mkGroup {B W}.
Arguments gs_world {B W}.
Arguments gs_dis {B W}.
Arguments gs_val {B W}.
Arguments gs_err {B W}.

(** Who moves: in a select with a done context both cases are possible. *)
Inductive gaction (W : Type) : Type :=
| g_world (env : W → W)
| g_dis
| g_dis_done
| g_val
| g_val_done.
Arguments g_world {W} env.
Arguments g_dis {W}.
Arguments g_dis_done {W}.
Arguments g_val {W}.
Arguments g_val_done {W}.

Section Group.
Context {B W : Type} `{BB : BatchBuilder B} `{L2 : L2Client W} `{T : L1 W} `{VT : ValidatorTxManager W} `{BC : BridgeClient W}.
Context (account : Address).
Implicit Types s : group B W.

(** [eg.Go]: the first error of a goroutine is kept and cancels the context. *)
Definition first_err (old new : option error) : option error :=
  match old with Some e => Some e | None => new end.

(** The disseminator's goroutine goes on, or returns. *)
Definition dis_goes (d : dis_state B) (w : W) s : group B W := mkGroup w d (gs_val s) (gs_err s).
Definition dis_returns (e : option error) (w : W) s : group B W :=
  mkGroup w (D_returned e) (gs_val s) (first_err (gs_err s) e).

(** The end of [Disseminator.step] with an error: only an unexpected state ends the loop. *)
Definition dis_failed (e : error) (b : B) (w : W) s : group B W :=
  if errors_As e T_unexpectedSystemStateError
  then dis_returns (Some (Errorf_w "aborting" e)) w s
  else dis_goes (D_select b) w s.

(** The next step of the disseminator: the first rollback; a tick, up to the loop over the
    batches; one batch. *)
Definition dis_step s : go (option (group B W)) :=
  let w := gs_world s in
  match gs_dis s with
  | D_starting b =>
      let '(b, w) := (Disseminator.rollback (b, w)).2 in Ret (Some (dis_goes (D_select b) w s))
  | D_select b =>
      '(r, s1) ← appendToBuilder (b, w);
      Ret (Some
        match r with
        | Err e =>
            let '(b, w) := if errors_As e T_L2ReorgDetectedError then (Disseminator.rollback s1).2 else s1 in
            dis_failed (Errorf_w "failed to append to batch builder" e) b w s
        | Ok _ => dis_goes (D_batches s1.1) s1.2 s
        end)
  | D_batches b =>
      match gs_err s with
      | Some _ => Ret (Some (dis_goes (D_select b) w s))
      | None =>
          '(r, s1) ← disseminateBatch (b, w);
          Ret (Some
            match r with
            | Err e =>
                if errors_Is e io_EOF then dis_goes (D_select s1.1) s1.2 s
                else dis_failed (Errorf_w "failed to sequence batches" (Errorf_w "failed to sequence batch" e))
                       s1.1 s1.2 s
            | Ok _ => dis_goes (D_batches s1.1) s1.2 s
            end)
      end
  | D_off | D_returned _ => Ret None
  end.

Definition val_goes (v : val_state) (w : W) s : group B W := mkGroup w (gs_dis s) v (gs_err s).
Definition val_returns (e : option error) (w : W) s : group B W :=
  mkGroup w (gs_dis s) (V_returned e) (first_err (gs_err s) e).

(** The next step of the validator: its preparation, or a tick. *)
Definition val_step s : go (option (group B W)) :=
  let w := gs_world s in
  match gs_val s with
  | V_starting v =>
      '(r, s1) ← Validator.prepare account (v, w);
      Ret (Some
        match r with
        | Err e => val_returns (Some e) s1.2 s
        | Ok _ => val_goes (V_select s1.1) s1.2 s
        end)
  | V_select v =>
      '(r, s1) ← Validator.step (v, w);
      Ret (Some
        match r with
        | Err e =>
            if errors_As e T_unexpectedSystemStateError
            then val_returns (Some (Errorf_w "aborting" e)) s1.2 s
            else val_goes (V_select s1.1) s1.2 s
        | Ok _ => val_goes (V_select s1.1) s1.2 s
        end)
  | V_off | V_returned _ => Ret None
  end.

Definition group_step (a : gaction W) s : go (option (group B W)) :=
  match a with
  | g_world env => Ret (Some (mkGroup (env (gs_world s)) (gs_dis s) (gs_val s) (gs_err s)))
  | g_dis => dis_step s
  | g_val => val_step s
  | g_dis_done =>
      Ret match gs_dis s, gs_err s with
          | D_select _, Some _ => Some (dis_returns None (gs_world s) s)
          | _, _ => None
          end
  | g_val_done =>
      Ret match gs_val s, gs_err s with
          | V_select _, Some _ => Some (val_returns None (gs_world s) s)
          | _, _ => None
          end
  end.

Definition group_steps s s' : Prop := ∃ a, group_step a s = Ret (Some s').

(** [eg.Wait()]: every goroutine has returned; the group's error. *)
Definition wait s : option (option error) :=
  match gs_dis s, gs_val s with
  | D_off, V_off | D_off, V_returned _ | D_returned _, V_off | D_returned _, V_returned _ => Some (gs_err s)
  | _, _ => None
  end.

(** The end of [startServices]: what it returns. *)
Definition startServices_result (e : option error) : option error :=
  match e with Some e => Some (Errorf_w "service failed while running" e) | None => None end.

(** The group right after the services have been started. *)
Definition group_start (b : option B) (validator : bool) (w : W) : group B W :=
  mkGroup w (match b with Some b => D_starting b | None => D_off end)
    (if validator then V_starting (mkAttrs 0 zero_hash) else V_off) None.

End Group.

(** ** Wiring *)

Section WiringFacts.
Context `{A : ABI} {K X N : Type} `{Lib : Libraries K X N} `{LL : !LibraryLaws K X N}.
Implicit Types cfg : SystemConfig K.

Lemma createTransactor_From account clef k id o :
  createTransactor account clef (Some k) id = Ret (Ok o) →
  to_From o = if String.eqb clef "" then key_Address k else account.
Proof.
  unfold createTransactor. destruct (String.eqb clef "") eqn:Hc; cbn.
  - apply keyed_From.
  - destruct (NewExternalSigner clef); [|done]. intros [= <-]. apply clef_From.
Qed.

(** The manager that is wired sends from the account it can sign for: the configured account
    with an external signer, and otherwise the address of the key, whatever account was
    configured; it sends to the configured contracts, with the settings of the command line. *)
Theorem createTxManager_correct url p k account clef c util wi util' :
  createTxManager url p (mkServiceCfg account (Some k) clef c) util = Ret (Ok wi, util') →
  wi_cfg wi = set_From (if String.eqb clef "" then key_Address k else account) c ∧
  bm_SequencerInboxAddr (wi_bridge wi) = GetSequencerInboxAddr p ∧
  bm_RollupAddr (wi_bridge wi) = GetRollupAddr p ∧
  util' = bm_util (wi_bridge wi) ∧ is_Some util' ∧
  retry_Dial url = Ok (wi_client wi) ∧ is_Some (rc_L1ChainID (Rollup p)).
Proof.
  unfold createTxManager, GetL1ChainID. destruct (rc_L1ChainID (Rollup p)) as [id|]; [|done]. cbn.
  destruct (createTransactor _ _ _ _) as [[o|e]|] eqn:Ho; [|done..]. apply createTransactor_From in Ho. cbn.
  unfold DialWithRetry. destruct (retry_Dial url) as [n|e]; [|done].
  destruct (NewTxManager _ _ util) as [r m] eqn:Hm. apply NewTxManager_ok in Hm as (H1 & H2 & H3).
  intros [= Hr <-]. destruct r as [[]|e]; [|done]. injection Hr as <-. cbn. rewrite Ho. split_and!; try done. by apply H3.
Qed.

Lemma launch_spec {S} name enabled create (start : S → result S) util r util' :
  launch name enabled create start util = Ret (r, util') →
  match r with
  | Ok None => enabled = false
  | Ok (Some s') => enabled = true ∧ ∃ s, create util = Ret (Ok s, util') ∧ start s = Ok s'
  | Err e => enabled = true ∧ ∃ e',
      (create util = Ret (Err e', util') ∧ e = Errorf_w ("failed to create " ++ name) e') ∨
      (∃ s, create util = Ret (Ok s, util') ∧ start s = Err e' ∧ e = Errorf_w ("failed to start " ++ name) e')
  end.
Proof.
  unfold launch. destruct enabled; [|by intros [= <- <-]].
  destruct (create util) as [[[s|e] u]|]; [| |done]; cbn -[Errorf_w].
  - destruct (start s) as [s'|e] eqn:Hs; intros [= <- <-]; (split; [done|]); [by exists s|].
    exists e. right. by exists s.
  - intros [= <- <-]. split; [done|]. exists e. by left.
Qed.

(** C32: When [startServices] reaches its wait, the configuration was read, the L1 state is being
    synced, exactly the enabled services run, and there is at least one; the disseminator has
    an empty builder of the configured target size, and both services have a live L2 client. *)
Theorem startServices_correct `{Environment K} latest safe finalized st :
  startServices latest safe finalized = Ret (None, st) →
  ∃ cfg, ParseSystemConfig = Ret (Ok cfg) ∧ st_l1State st = Some (EthSync.Start latest safe finalized NewEthState) ∧
    (is_Some (st_disseminator st) ↔ dc_IsEnabled (sc_Disseminator cfg) = true) ∧
    (is_Some (st_validator st) ↔ vc_IsEnabled (sc_Validator cfg) = true) ∧
    (is_Some (st_disseminator st) ∨ is_Some (st_validator st)) ∧
    (∀ d, st_disseminator st = Some d → is_Some (lazy_Client (nd_l2 d)) ∧
       pendingBlocks (nd_builder d) = [] ∧ subBatches (encoder (nd_builder d)) = [newSubBatch] ∧
       targetBatchSize (encoder (nd_builder d)) = dc_TargetBatchSize (sc_Disseminator cfg)) ∧
    (∀ v, st_validator st = Some v → is_Some (lazy_Client (nv_l2 v))).
Proof.
  unfold startServices. destruct ParseSystemConfig as [[cfg|e]|] eqn:Hcfg; [|done..]. cbn -[Errorf_w launch].
  unfold createL1State. destruct (DialWithRetry _ _); [|done]. cbn -[launch].
  destruct (launch "disseminator" _ _ _ _) as [[[d|e] u1]|] eqn:Hd; [|done..]. cbn -[launch].
  destruct (launch "validator" _ _ _ _) as [[[v|e] u2]|] eqn:Hv; [|done..]. cbn. intros [= <-].
  apply launch_spec in Hd, Hv. exists cfg. split; [done|]. cbn [st_l1State st_disseminator st_validator].
  assert (He : dc_IsEnabled (sc_Disseminator cfg) || vc_IsEnabled (sc_Validator cfg) = true)
    by (by apply ParseSystemConfig_ok in Hcfg as (_ & ? & _)).
  assert (is_Some d ↔ dc_IsEnabled (sc_Disseminator cfg) = true) as Hdd.
  { destruct d; [destruct Hd as [-> _]; by split; eauto|rewrite Hd; split; [by intros [? ?]|done]]. }
  assert (is_Some v ↔ vc_IsEnabled (sc_Validator cfg) = true) as Hvv.
  { destruct v; [destruct Hv as [-> _]; by split; eauto|rewrite Hv; split; [by intros [? ?]|done]]. }
  split_and!; try done.
  - apply orb_true_iff in He as [He|He]; [left; by apply Hdd|right; by apply Hvv].
  - intros d' ->. destruct Hd as (_ & d0 & Hc & Hs). unfold start_disseminator in Hs.
    destruct (EnsureDialed _ _) as [[e|] l2] eqn:Hl; [done|]. injection Hs as <-. cbn.
    apply EnsureDialed_ok in Hl as [Hl _]. split; [done|]. unfold createDisseminator in Hc.
    destruct (createTxManager _ _ _ _) as [[[wi|e] u]|]; [|done..]. cbn in Hc. by injection Hc as <- _.
  - intros v' ->. destruct Hv as (_ & v0 & Hc & Hs). unfold start_validator in Hs.
    destruct (EnsureDialed _ _) as [[e|] l2] eqn:Hl; [done|]. injection Hs as <-. cbn.
    by apply EnsureDialed_ok in Hl as [Hl _].
Qed.

(** A rollup file without an L1 chain id is accepted by the parser and brings the process
    down: whichever service is enabled, the creation of its transaction manager panics. *)
Theorem missing_chain_id_crashes `{Environment K} latest safe finalized cfg n :
  ParseSystemConfig = Ret (Ok cfg) → rc_L1ChainID (Rollup (sc_Protocol cfg)) = None →
  retry_Dial (sc_L1Endpoint cfg) = Ok n →
  startServices latest safe finalized = Panic nil_deref.
Proof.
  intros Hcfg Hid Hn. unfold startServices. rewrite Hcfg. cbn -[launch].
  unfold createL1State, DialWithRetry. rewrite Hn. cbn -[launch].
  assert (Hm : ∀ url ser util, createTxManager url (sc_Protocol cfg) ser util = Panic nil_deref).
  { intros. unfold createTxManager, GetL1ChainID. by rewrite Hid. }
  apply ParseSystemConfig_ok in Hcfg as (_ & He & _). unfold launch.
  destruct (dc_IsEnabled (sc_Disseminator cfg)); [by unfold createDisseminator; rewrite Hm|].
  cbn in *. rewrite He. unfold createValidator. by rewrite Hm.
Qed.

End WiringFacts.

(** ** The running services *)

Section GroupFacts.
Context {B W : Type} `{BB : BatchBuilder B} `{L2 : L2Client W} `{T : L1 W} `{VT : ValidatorTxManager W} `{BC : BridgeClient W}.
Context (account : Address).
Implicit Types s : group B W.

(** The error holds no value of the services' own type [unexpectedSystemStateError], which is
    not exported. *)
Definition foreign (e : error) : Prop := errors_As e T_unexpectedSystemStateError = false.

Definition foreign_result {X Y} (r : result X * Y) : Prop := ∀ e y, r = (Err e, y) → foreign e.

(** The errors of the clients, the builder and the managers are of other types. *)
Record foreign_clients : Prop := {
  fc_HeaderByTag : ∀ tag w, foreign_result (l2_HeaderByTag tag w);
  fc_BlockNumber : ∀ w, foreign_result (l2_BlockNumber w);
  fc_BlockByNumber : ∀ i w, foreign_result (l2_BlockByNumber i w);
  fc_Enqueue : ∀ block b, foreign_result (bb_Enqueue block b);
  fc_Build : ∀ head b p, bb_Build head b = Ret p → foreign_result p;
  fc_AppendTxBatch : ∀ data w p, l1_AppendTxBatch data w = Ret p → foreign_result p;
  fc_CreateAssertion : ∀ h n w p, vt_CreateAssertion h n w = Ret p → foreign_result p;
  fc_Confirm : ∀ w p, vt_ConfirmFirstUnresolvedAssertion w = Ret p → foreign_result p
}.

Lemma foreign_Errorf_w t e : foreign (Errorf_w t e) ↔ foreign e.
Proof. unfold foreign. by rewrite errors_As_Errorf_w. Qed.

Context (FC : foreign_clients).

Lemma append_loop_foreign fuel : ∀ i end_ st p, append_loop fuel i end_ st = Ret p → foreign_result (X := unit) (Y := B * W) p.
Proof.
  induction fuel as [|fuel IH]; intros i end_ [b w] p; cbn [append_loop];
    (destruct (i <=? end_); [|by intros [= <-] e y [=]]); [done|].
  destruct (l2_BlockByNumber i w) as [[block|e] w1] eqn:Hb.
  - destruct (bb_Enqueue block b) as [[[]|e] b1] eqn:He; [by apply IH|].
    destruct (errors_As e T_InvalidBlockError); intros [= <-] e' y [= <- <-]; [done|].
    apply foreign_Errorf_w. by eapply (fc_Enqueue FC).
  - intros [= <-] e' y [= <- <-]. apply foreign_Errorf_w. by eapply (fc_BlockByNumber FC).
Qed.

Lemma pendingL2BlockRange_foreign (b : B) w : foreign_result (pendingL2BlockRange (b, w)).
Proof.
  intros e y. unfold pendingL2BlockRange.
  destruct (l2_HeaderByTag Safe_tag w) as [[h|e1] w1] eqn:Hh;
    [|intros [= <- <-]; apply foreign_Errorf_w; by eapply (fc_HeaderByTag FC)].
  destruct (l2_BlockNumber w1) as [[n|e1] w2] eqn:Hn; repeat case_match; intros [= <- <-]; try done;
    apply foreign_Errorf_w; by eapply (fc_BlockNumber FC).
Qed.

Lemma appendToBuilder_foreign (b : B) w p : appendToBuilder (b, w) = Ret p → foreign_result p.
Proof.
  unfold appendToBuilder. pose proof (pendingL2BlockRange_foreign b w) as Hf.
  destruct (pendingL2BlockRange (b, w)) as [[[i end_]|e] w1]; [|].
  - destruct (i >? end_); [by intros [= <-] e y [=]|]. apply append_loop_foreign.
  - intros [= <-] e' y [= <- <-]. apply foreign_Errorf_w. by eapply Hf.
Qed.

Lemma disseminateBatch_foreign (b : B) w p : disseminateBatch (b, w) = Ret p → foreign_result p.
Proof.
  unfold disseminateBatch. destruct (bb_Build _ b) as [[[data|e] b1]|] eqn:Hb; [| |done]; cbn -[Errorf_w].
  - destruct (l1_AppendTxBatch data w) as [[[rc|e] w1]|] eqn:Ha; [| |done]; cbn -[Errorf_w];
      intros [= <-] e' y H; [done|]. injection H as <- <-. apply foreign_Errorf_w. by eapply (fc_AppendTxBatch FC).
  - intros [= <-] e' y [= <- <-]. apply foreign_Errorf_w. by eapply (fc_Build FC).
Qed.

Lemma validator_step_foreign st p : Validator.step st = Ret p → foreign_result (X := unit) (Y := vstate (W := W)) p.
Proof.
  unfold Validator.step. destruct (createAssertion st) as [[[[]|e] s1]|] eqn:Hc; [| |done]; cbn -[Errorf_w].
  - destruct (resolveFirstUnresolvedAssertion s1) as [[r2 s2]|] eqn:Hr; [|done]. cbn -[Errorf_w].
    intros [= <-] e y H. destruct r2 as [[]|e2]; cbn -[Errorf_w] in H; [done|]. injection H as <- <-.
    apply foreign_Errorf_w. unfold resolveFirstUnresolvedAssertion in Hr.
    destruct (RequireFirstUnresolvedAssertionIsConfirmable s1.2) as [[e|] w].
    + repeat case_match; by simplify_eq.
    + destruct (vt_ConfirmFirstUnresolvedAssertion w) as [[[rc|e] w1]|] eqn:Hv; [| |done];
        cbn -[Errorf_w] in Hr; [done|]. injection Hr as <- <-. apply foreign_Errorf_w. by eapply (fc_Confirm FC).
  - intros [= <-] e' y [= <- <-]. apply foreign_Errorf_w. unfold createAssertion, getNextAssertionAttrs in Hc.
    destruct (l2_HeaderByTag Safe_tag st.2) as [[h|e1] w1] eqn:Hh; cbn -[Errorf_w] in Hc.
    + destruct (_ <=? _); [done|]. destruct (vt_CreateAssertion _ _ w1) as [[[rc|e2] w2]|] eqn:Hv; [| |done];
        cbn in Hc; [by destruct (_ =? _)|]. simplify_eq. by eapply (fc_CreateAssertion FC).
    + simplify_eq. rewrite !foreign_Errorf_w. by eapply (fc_HeaderByTag FC).
Qed.

(** The iteration of the disseminator's loop as one function, [Disseminator.step], and as
    steps of the group: with a live context, every iteration that comes to an end is a run of
    the group's steps to the state that the select of [start] makes of its result. *)
Theorem dis_steps_equal_iteration `{C : Ctx W} fuel b w r b' w' s :
  (∀ w, ctx_Err w = None) → gs_err s = None →
  Disseminator.step fuel (b, w) = Ret (Some r, (b', w')) →
  rtc (λ s1 s2, dis_step s1 = Ret (Some s2)) (dis_goes (D_select b) w s)
    (match r with Ok _ => dis_goes (D_select b') w' s | Err e => dis_failed e b' w' s end).
Proof.
  intros Hctx He. unfold Disseminator.step.
  destruct (appendToBuilder (b, w)) as [[r1 [b1 w1]]|] eqn:Ha; [|done]. cbn -[errors_As Errorf_w].
  destruct r1 as [[]|e].
  - assert (H1 : dis_step (dis_goes (D_select b) w s) = Ret (Some (dis_goes (D_batches b1) w1 s)))
      by (unfold dis_step; cbn; by rewrite Ha).
    intros H. eapply rtc_l; [exact H1|]. clear H1 Ha.
    revert b1 w1 H. induction fuel as [|fuel IH]; intros b1 w1; cbn [disseminateBatches snd]; [done|].
    rewrite Hctx. destruct (disseminateBatch (b1, w1)) as [[r2 [b2 w2]]|] eqn:Hd; [|done]. cbn -[errors_Is errors_As Errorf_w].
    assert (H2 : ∀ p, disseminateBatch (b1, w1) = Ret p → dis_step (dis_goes (D_batches b1) w1 s) =
      Ret (Some match p.1 with
                | Err e => if errors_Is e io_EOF then dis_goes (D_select p.2.1) p.2.2 s
                    else dis_failed (Errorf_w "failed to sequence batches" (Errorf_w "failed to sequence batch" e)) p.2.1 p.2.2 s
                | Ok _ => dis_goes (D_batches p.2.1) p.2.2 s
                end)).
    { intros [r' s'] Hp. unfold dis_step. cbn [gs_dis gs_world gs_err dis_goes]. by rewrite He, Hp. }
    specialize (H2 _ Hd). cbn [fst snd] in H2.
    destruct r2 as [[]|e].
    + intros H. eapply rtc_l; [exact H2|]. by apply IH.
    + destruct (errors_Is e io_EOF); cbn -[errors_Is errors_As Errorf_w]; intros [= <- <- <-]; by apply rtc_once.
  - intros [= <- Hs]. apply rtc_once. unfold dis_step. cbn -[errors_As Errorf_w]. rewrite Ha. cbn -[errors_As Errorf_w].
    by rewrite Hs.
Qed.

(** The validator's preparation has failed with [e]. *)
Definition prepare_failed (e : error) : Prop :=
  ∃ v w st, Validator.prepare account (v, w) = Ret (Err e, st).

(** No service has returned, or the validator has, because its preparation failed. *)
Definition group_inv s : Prop :=
  match gs_err s with
  | None => (∀ e, gs_dis s ≠ D_returned e) ∧ (∀ e, gs_val s ≠ V_returned e)
  | Some e => gs_val s = V_returned (Some e) ∧ prepare_failed e
  end.

Lemma dis_step_val s s' : dis_step s = Ret (Some s') → gs_val s' = gs_val s.
Proof.
  unfold dis_step, dis_failed, dis_goes, dis_returns. destruct (gs_dis s) as [|b|b|b|e]; try done.
  - destruct (Disseminator.rollback _) as [r [b1 w1]]. by intros [= <-].
  - destruct (appendToBuilder _) as [[[[]|e] [b1 w1]]|]; cbn -[errors_As Errorf_w]; [by intros [= <-]| |done].
    destruct (if errors_As e _ then _ else _) as [b2 w2]. destruct (errors_As _ _); by intros [= <-].
  - destruct (gs_err s); [by intros [= <-]|].
    destruct (disseminateBatch _) as [[[[]|e] [b1 w1]]|]; cbn -[errors_As errors_Is Errorf_w]; [by intros [= <-]| |done].
    destruct (errors_Is e io_EOF); [by intros [= <-]|]. destruct (errors_As _ _); by intros [= <-].
Qed.

(** The disseminator never leaves its loop by itself. *)
Lemma dis_step_goes s s' :
  dis_step s = Ret (Some s') → gs_err s' = gs_err s ∧ ∀ e, gs_dis s' ≠ D_returned e.
Proof.
  unfold dis_step, dis_failed. destruct (gs_dis s) as [|b|b|b|e]; try done.
  - destruct (Disseminator.rollback _) as [r [b1 w1]]. by intros [= <-].
  - destruct (appendToBuilder _) as [[[[]|e] [b1 w1]]|] eqn:Ha; cbn -[errors_As Errorf_w]; [by intros [= <-]| |done].
    destruct (if errors_As e _ then _ else _) as [b2 w2].
    rewrite (proj2 (foreign_Errorf_w _ _)) by (by eapply (appendToBuilder_foreign b _ _ Ha)). by intros [= <-].
  - destruct (gs_err s) eqn:He; [intros [= <-]; by rewrite <- He|].
    destruct (disseminateBatch _) as [[[[]|e] [b1 w1]]|] eqn:Hd; cbn -[errors_As errors_Is Errorf_w];
      [intros [= <-]; by rewrite <- He| |done].
    destruct (errors_Is e io_EOF); [intros [= <-]; by rewrite <- He|].
    rewrite !(proj2 (foreign_Errorf_w _ _)) by (rewrite ?foreign_Errorf_w; by eapply (disseminateBatch_foreign b _ _ Hd)).
    intros [= <-]. by rewrite <- He.
Qed.

Lemma val_step_spec s s' :
  val_step account s = Ret (Some s') →
  gs_dis s' = gs_dis s ∧
  ((gs_err s' = gs_err s ∧ (∃ v, gs_val s' = V_select v) ∧ ∃ v, gs_val s = V_starting v ∨ gs_val s = V_select v) ∨
   ∃ v e, gs_val s = V_starting v ∧ gs_val s' = V_returned (Some e) ∧ prepare_failed e ∧
     gs_err s' = first_err (gs_err s) (Some e)).
Proof.
  unfold val_step. destruct (gs_val s) as [|v|v|e]; try done.
  - destruct (Validator.prepare _ _) as [[[[]|e] s1]|] eqn:Hp; [| |done]; cbn; intros [= <-]; (split; [done|]).
    + left. split_and!; eauto.
    + right. exists v, e. split_and!; try done. by exists v, (gs_world s), s1.
  - destruct (Validator.step _) as [[[[]|e] s1]|] eqn:Hs; [| |done]; cbn -[errors_As].
    + intros [= <-]. split; [done|]. left. split_and!; eauto.
    + rewrite (validator_step_foreign _ _ Hs _ _ eq_refl). intros [= <-]. split; [done|]. left. split_and!; eauto.
Qed.

Lemma group_inv_step s s' : group_inv s → group_steps account s s' → group_inv s'.
Proof.
  intros Hinv [a Ha]. unfold group_inv in *. destruct a as [env| | | |]; cbn in Ha.
  - by injection Ha as <-.
  - pose proof (dis_step_val _ _ Ha) as Hv. apply dis_step_goes in Ha as [He Hd]. rewrite He, Hv.
    destruct (gs_err s); [done|]. split; [done|apply Hinv].
  - injection Ha as Ha. destruct (gs_dis s) eqn:Hd, (gs_err s) eqn:He; try done. injection Ha as <-. cbn. by rewrite He.
  - apply val_step_spec in Ha as (Hd & [(He & [v Hv] & v0 & Hv0)|(v & e & Hv & Hv' & Hp & He)]).
    + rewrite He, Hd, Hv. destruct (gs_err s) as [e|]; [|split; [apply Hinv|done]].
      destruct Hinv as [Hinv _]. destruct Hv0; congruence.
    + rewrite He, Hv'. destruct (gs_err s) as [e'|]; [destruct Hinv as [Hinv _]; congruence|done].
  - injection Ha as Ha. destruct (gs_val s) eqn:Hv, (gs_err s) eqn:He; try done. destruct Hinv as [Hinv _]. congruence.
Qed.

Lemma group_step_off s s' : group_steps account s s' →
  (gs_val s = V_off ↔ gs_val s' = V_off) ∧ (gs_dis s = D_off ↔ gs_dis s' = D_off).
Proof.
  intros [[env| | | |] Ha]; cbn in Ha.
  - by injection Ha as <-.
  - rewrite (dis_step_val _ _ Ha). split; [done|]. unfold dis_step, dis_failed, dis_goes, dis_returns in Ha.
    destruct (gs_dis s) as [|b|b|b|e]; try done; repeat case_match; simplify_eq; cbn in *;
      repeat match goal with H : mbind _ ?x = _ |- _ => destruct x as [[? ?]|]; cbn -[errors_As errors_Is] in H; [|done] end;
      repeat case_match; simplify_eq; done.
  - injection Ha as Ha. repeat case_match; simplify_eq; done.
  - apply val_step_spec in Ha as (-> & [(_ & [v ->] & v0 & [-> | ->])|(v & e & -> & -> & _)]); done.
  - injection Ha as Ha. repeat case_match; simplify_eq; done.
Qed.

Lemma group_inv_reachable b validator w s :
  rtc (group_steps account) (group_start b validator w) s →
  group_inv s ∧ (gs_val s = V_off ↔ validator = false) ∧ (gs_dis s = D_off ↔ b = None).
Proof.
  intros Hr. assert (H0 : group_inv (group_start b validator w)).
  { split; intros e; cbn; [by destruct b|by destruct validator]. }
  assert (H1 : gs_val (group_start b validator w) = V_off ↔ validator = false) by (by destruct validator).
  assert (H2 : gs_dis (group_start b validator w) = D_off ↔ b = None) by (by destruct b).
  induction Hr as [|s1 s2 s3 Hs _ IH]; [done|].
  destruct (group_step_off _ _ Hs) as [H3 H4]. apply IH; [by eapply group_inv_step|by rewrite <- H3|by rewrite <- H4].
Qed.

(** C23: Whatever the interleaving of the services and of the outside world, the only way in which
    the wait of [startServices] comes to an end is that the validator's preparation failed,
    with its error: once the validator is in its loop, or when only the disseminator runs, no
    service returns and the context is never cancelled, whatever errors the nodes report. *)
Theorem services_stop_only_on_failed_preparation b validator w s :
  b ≠ None ∨ validator = true → rtc (group_steps account) (group_start b validator w) s →
  (∀ r, wait s = Some r → ∃ e, prepare_failed e ∧ startServices_result r = Some (Errorf_w "service failed while running" e)) ∧
  ((∃ v, gs_val s = V_select v) ∨ validator = false → gs_err s = None ∧ wait s = None).
Proof.
  intros Hon Hr. destruct (group_inv_reachable _ _ _ _ Hr) as (Hinv & Hv & Hd).
  unfold group_inv, wait in *. destruct (gs_err s) as [e|].
  - destruct Hinv as [Hval Hf]. rewrite Hval. split; [destruct (gs_dis s); intros r [= <-]; by exists e|].
    intros [[v Hs]|Hoff]; [congruence|]. by apply Hv in Hoff; congruence.
  - destruct Hinv as [H1 H2]. destruct (gs_dis s), (gs_val s); try done; try (by destruct (H1 e)); try (by destruct (H2 e));
      exfalso; destruct Hon as [Hb| ->]; try (by apply Hb, Hd); by discriminate (proj1 Hv eq_refl).
Qed.

End GroupFacts.

(** ** The assertions, whatever runs beside the validator

    The group over a record of the validator's calls; the disseminator's own calls to L2 go
    through the same client and are in the record as well. *)

Section GroupAssertions.
Context {B W : Type} `{BB : BatchBuilder B} `{L2 : L2Client W} `{T : L1 W} `{VT : ValidatorTxManager W} `{BC : BridgeClient W}.
Context (account : Address).
#[local] Existing Instance recorded_mgr.
#[local] Existing Instance recorded_bridge.
#[local] Existing Instance recorded_l2.

Definition recorded_l1 : L1 (W * list vcall) := {|
  l1_AppendTxBatch data := silent_go (l1_AppendTxBatch data);
  l1_State w := l1_State w.1
|}.
#[local] Existing Instance recorded_l1.

Abbreviation world := (W * list vcall)%type.
Implicit Types s : group B world.

(** A step of the group in which the outside world leaves the record alone. *)
Definition recorded_step s s' : Prop :=
  ∃ a, group_step account a s = Ret (Some s') ∧ match a with g_world env => ∀ w, keeps w (env w) | _ => True end.

(** Only calls that assert and confirm nothing are made between the two worlds. *)
Definition asks (w w' : world) : Prop := ∃ tr, w'.2 = w.2 ++ tr ∧ Forall harmless tr.

#[local] Instance asks_preorder : PreOrder asks.
Proof.
  split; [intros w; exists []; by rewrite app_nil_r|].
  intros w1 w2 w3 (t1 & H1 & H2) (t2 & H3 & H4). exists (t1 ++ t2).
  split; [by rewrite H3, H1, app_assoc|by apply Forall_app].
Qed.

Lemma asks_logged {A} (o : A → vcall) f (w : world) r w' :
  (∀ x, harmless (o x)) → logged o f w = (r, w') → asks w w'.
Proof.
  unfold logged. destruct (f w.1) as [x w1]. intros Ho [= _ <-]. exists [o x].
  split; [done|]. by apply Forall_singleton.
Qed.

Lemma asks_silent {A} (f : W → A * W) (w : world) r w' : silent f w = (r, w') → asks w w'.
Proof. unfold silent. destruct (f w.1) as [x w1]. intros [= _ <-]. exists []. cbn. by rewrite app_nil_r. Qed.

Lemma asks_header tag (w : world) r w' : l2_HeaderByTag tag w = (r, w') → asks w w'.
Proof. by apply asks_logged. Qed.

Lemma rollback_asks (b : B) (w : world) r st : Disseminator.rollback (b, w) = (r, st) → asks w st.2.
Proof.
  unfold Disseminator.rollback. destruct (l2_HeaderByTag Safe_tag w) as [[h|e] w1] eqn:Hh;
    apply asks_header in Hh; by intros [= _ <-].
Qed.

Lemma append_loop_asks fuel : ∀ i end_ (b : B) (w : world) r st,
  append_loop fuel i end_ (b, w) = Ret (r, st) → asks w st.2.
Proof.
  induction fuel as [|fuel IH]; intros i end_ b w r s; cbn [append_loop];
    (destruct (i <=? end_); [|by intros [= _ <-]]); [done|].
  destruct (l2_BlockByNumber i w) as [[block|e] w1] eqn:Hb; (apply asks_logged in Hb; [|done]).
  - destruct (bb_Enqueue block b) as [[[]|e] b1]; [intros H%IH; by etransitivity|].
    destruct (errors_As e _); by intros [= _ <-].
  - by intros [= _ <-].
Qed.

Lemma appendToBuilder_asks (b : B) (w : world) r st : appendToBuilder (b, w) = Ret (r, st) → asks w st.2.
Proof.
  unfold appendToBuilder. destruct (pendingL2BlockRange (b, w)) as [range w1] eqn:Hp.
  assert (H1 : asks w w1).
  { unfold pendingL2BlockRange in Hp. destruct (l2_HeaderByTag Safe_tag w) as [[h|e] w2] eqn:Hh; apply asks_header in Hh;
      [|by injection Hp as _ <-].
    destruct (l2_BlockNumber w2) as [n w3] eqn:Hn. apply asks_silent in Hn.
    assert (w1 = w2 ∨ w1 = w3) as [->| ->] by (repeat case_match; simplify_eq; auto); [done|by etransitivity]. }
  destruct range as [[i end_]|e]; [|by intros [= _ <-]].
  destruct (i >? end_); [by intros [= _ <-]|]. intros H%append_loop_asks. by etransitivity.
Qed.

Lemma disseminateBatch_asks (b : B) (w : world) r st : disseminateBatch (b, w) = Ret (r, st) → asks w st.2.
Proof.
  unfold disseminateBatch. destruct (bb_Build _ b) as [[[data|e] b1]|]; [|by intros [= _ <-]|done]. cbn.
  unfold silent_go. destruct (l1_AppendTxBatch data w.1) as [[rc w1]|]; [|done]. cbn.
  destruct rc; intros [= _ <-]; exists []; cbn; by rewrite app_nil_r.
Qed.

Lemma dis_step_asks s s' : dis_step s = Ret (Some s') → asks (gs_world s) (gs_world s').
Proof.
  unfold dis_step, dis_failed. destruct (gs_dis s) as [|b|b|b|e]; try done.
  - destruct (Disseminator.rollback _) as [r [b1 w1]] eqn:Hr. apply rollback_asks in Hr. by intros [= <-].
  - destruct (appendToBuilder _) as [[r [b1 w1]]|] eqn:Ha; [|done]. apply appendToBuilder_asks in Ha.
    cbn -[errors_As Errorf_w Disseminator.rollback] in *.
    destruct r as [[]|e]; [by intros [= <-]|].
    destruct (if errors_As e _ then _ else _) as [b2 w2] eqn:Hb.
    assert (H2 : asks w1 w2).
    { destruct (errors_As e _); [|by injection Hb as _ <-].
      destruct (Disseminator.rollback (b1, w1)) as [r2 s2] eqn:Hr. apply rollback_asks in Hr.
      change (s2 = (b2, w2)) in Hb. by subst s2. }
    intros [= <-]. etransitivity; [exact Ha|]. by destruct (errors_As e T_unexpectedSystemStateError).
  - destruct (gs_err s); [by intros [= <-]|].
    destruct (disseminateBatch _) as [[r [b1 w1]]|] eqn:Ha; [|done]. apply disseminateBatch_asks in Ha.
    cbn -[errors_As errors_Is Errorf_w] in *. destruct r as [[]|e]; [by intros [= <-]|].
    destruct (errors_Is e io_EOF); [by intros [= <-]|]. destruct (errors_As _ _); by intros [= <-].
Qed.

(** From record [v] and the calls so far [l], the state shows what the validator has done. *)
Definition asserting (v : assertionAttributes) (l : list vcall) s : Prop :=
  ∃ tr, (gs_world s).2 = l ++ tr ∧ legal v None tr ∧
    (gs_val s = V_select (last_made v tr) ∨ ∃ e, gs_val s = V_returned e).

Lemma asserting_more v l s w' d val e tr' :
  asserting v l s → w'.2 = (gs_world s).2 ++ tr' →
  (∀ v', gs_val s = V_select v' → legal v' None tr' ∧ (val = V_select (last_made v' tr') ∨ ∃ e', val = V_returned e')) →
  (∀ e', gs_val s = V_returned e' → Forall harmless tr' ∧ val = V_returned e') →
  asserting v l (mkGroup w' d val e).
Proof.
  intros (tr & Htr & Hl & Hv) Hw Hsel Hret. exists (tr ++ tr'). cbn.
  split; [by rewrite Hw, Htr, app_assoc|]. destruct Hv as [Hv|[e' Hv]].
  - destruct (Hsel _ Hv) as [H1 H2]. rewrite last_made_app. split; [by apply legal_app|done].
  - destruct (Hret _ Hv) as [H1 ->]. split; [|right; by eexists]. apply legal_app; [done|by apply harmless_legal].
Qed.

Lemma asserting_asks v l s w' d e : asserting v l s → asks (gs_world s) w' → asserting v l (mkGroup w' d (gs_val s) e).
Proof.
  intros Hs (tr' & Hw & Hh). eapply asserting_more; [done|exact Hw| |done].
  intros v' ->. destruct (harmless_legal tr' v' None Hh) as [H1 ->]. split; [done|by left].
Qed.

Lemma val_step_asserting v l s s' : asserting v l s → val_step account s = Ret (Some s') → asserting v l s'.
Proof.
  intros Hs Hv. pose proof Hs as (tr & _ & _ & [Hval|[e Hval]]); unfold val_step in Hv; rewrite Hval in Hv; [|done].
  destruct (Validator.step _) as [[r s1]|] eqn:Hst; [|done]. cbn -[errors_As] in Hv.
  apply step_shows in Hst as (tr' & Htr' & Hl & _ & Ha). cbn in Htr', Hl, Ha.
  assert (Hgo : ∀ val e, (val = V_select s1.1 ∨ ∃ e', val = V_returned e') → asserting v l (mkGroup s1.2 (gs_dis s) val e)).
  { intros val e Hor. eapply asserting_more; [exact Hs|exact Htr'| |].
    - intros v' Hv'. rewrite Hval in Hv'. injection Hv' as <-. split; [done|]. by rewrite <- Ha.
    - intros e' He'. by rewrite Hval in He'. }
  destruct r; [|destruct (errors_As _ _)]; injection Hv as <-; apply Hgo; eauto.
Qed.

Lemma recorded_step_asserting v l s s' : asserting v l s → recorded_step s s' → asserting v l s'.
Proof.
  intros Hs [a [Ha Hq]]. destruct a as [env| | | |]; cbn in Ha.
  - injection Ha as <-. apply asserting_asks; [done|]. exists []. rewrite app_nil_r. split; [apply Hq|done].
  - pose proof (dis_step_asks _ _ Ha) as Hk. pose proof (dis_step_val _ _ Ha) as Hv. destruct s' as [w' d val e].
    cbn in Hk, Hv. subst val. by apply asserting_asks.
  - injection Ha as Ha. destruct (gs_dis s), (gs_err s); try done. injection Ha as <-. by apply asserting_asks.
  - by eapply val_step_asserting.
  - injection Ha as Ha. destruct (gs_val s) as [|v1|v1|] eqn:Hv, (gs_err s); try done. injection Ha as <-.
    eapply (asserting_more _ _ _ _ _ _ _ []); [exact Hs|by rewrite app_nil_r| |].
    + intros v' _. split; [done|]. right. by eexists.
    + intros e' He'. by rewrite Hv in He'.
Qed.

(** C12: The assertions of a running validator keep increasing when the disseminator and the
    outside world interleave with it in any way.  From any state of the group in which the
    validator is in its loop with record [v], [tr] being the calls made to its transaction
    manager, to the bridge client and to L2 since then: an assertion is tried only right after
    L2 has told its safe head, for that head, and only above [v] and above all assertions made
    before; a confirmation is tried only right after the contract has allowed it; so the
    assertions made, those whose transaction was mined and did not revert, have strictly
    increasing L2 block numbers above [v]; and while the validator is in its loop its record
    is the last of them, [v] when there is none. *)
Theorem group_assertions_increase v s s' :
  rtc recorded_step s s' → gs_val s = V_select v →
  ∃ tr, (gs_world s').2 = (gs_world s).2 ++ tr ∧ legal v None tr ∧ increasing (l2BlockNum v) (assertions tr) ∧
    (gs_val s' = V_select (List.last (assertions tr) v) ∨ ∃ e, gs_val s' = V_returned e).
Proof.
  intros Hr Hv. enough (asserting v (gs_world s).2 s') as (tr & H1 & H2 & H3).
  { exists tr. split_and!; [done|done|by eapply legal_increasing|done]. }
  assert (H0 : asserting v (gs_world s).2 s) by (exists []; rewrite app_nil_r; split_and!; [done|done|by left]).
  revert H0. generalize (gs_world s).2 as l. clear Hv. intros l H0.
  induction Hr as [|s1 s2 s3 Hs _ IH]; [done|]. apply IH. by eapply recorded_step_asserting.
Qed.

End GroupAssertions.

(** The errors of the builder over the V0 encoder are foreign when those of the coders are. *)
Section ForeignBuilder.
Context `{A : ABI} `{R : RLP} (util : option bridgeSerializationUtil).
Context (Hmarshal : ∀ t e, MarshalBinary t = Err e → foreign e).
Context (Hrlp : ∀ l e, rlp_Encode l = Err e → foreign e).
Context (Hunpack : ∀ a n d e, abi_Unpack a n d = Err e → foreign e).
Implicit Types b : batchBuilder BatchV0Encoder.

Lemma marshallTxs_foreign txs e : marshallTxs txs = Err e → foreign e.
Proof.
  unfold marshallTxs. generalize ([] : rawTxBlock), 0. induction txs as [|t txs IH]; intros raw n; cbn -[Errorf_w]; [done|].
  destruct (MarshalBinary t) eqn:Ht; [apply IH|]. intros [= <-]. apply foreign_Errorf_w. by eapply Hmarshal.
Qed.

Lemma processBlock_foreign block b p : processBlock util block b = Ret p → foreign_result p.
Proof.
  unfold processBlock. destruct (block_epoch util (cfg b) block) as [[o|e]|] eqn:Hep; [| |done]; cbn -[Errorf_w].
  - set (b1 := match o with Some ep => _ | None => b end).
    destruct (Encoder.ProcessBlock _ _ _) as [[r e1]|] eqn:Hp; [|done]. cbn. intros [= <-] e y [= -> <-].
    unfold Encoder.ProcessBlock in Hp. destruct (shouldCloseBatch _) as [close|]; [|done]. cbn -[Errorf_w] in Hp.
    match type of Hp with context [if ?c then closeSubBatch ?x else Ret ?x] =>
      destruct (if c then closeSubBatch x else Ret x) as [e2|]; [|done] end. cbn -[Errorf_w] in Hp.
    destruct close; [by injection Hp as <- _|]. destruct (_ =? _)%nat; [done|].
    destruct (currSubBatch e2) as [curr|]; [|done]. cbn -[Errorf_w] in Hp.
    destruct (appendTxBlock _ _ curr) as [[[]|e3] s3] eqn:Ha; [done|]. injection Hp as <- _. apply foreign_Errorf_w.
    unfold appendTxBlock in Ha. destruct (marshallTxs _) as [[raw n]|e4] eqn:Hm; [done|]. injection Ha as <- _.
    apply foreign_Errorf_w. by eapply marshallTxs_foreign.
  - intros [= <-] e' y [= <- <-]. unfold block_epoch in Hep. destruct (blk_Transactions block) as [|tx txs]; [done|].
    destruct (tx_To tx); [|done]. destruct (_ =? _); [|done]. unfold UnpackL1OracleInput, with_util in Hep.
    destruct util as [u|]; [|done]. destruct (input_data tx); [|done]. cbn -[Errorf_w] in Hep.
    destruct (abi_Unpack _ _ _) as [vs|e5] eqn:Hu; cbn -[Errorf_w] in Hep.
    + repeat match type of Hep with
      | context [abi_index vs ?i] => destruct (abi_index vs i); cbn -[Errorf_w] in Hep; [|done]
      | context [assert_BigInt ?v] => destruct (assert_BigInt v); cbn -[Errorf_w] in Hep; [|done]
      | context [assert_Hash ?v] => destruct (assert_Hash v); cbn -[Errorf_w] in Hep; [|done]
      end; done.
    + injection Hep as <-. apply foreign_Errorf_w. by eapply Hunpack.
Qed.

Lemma encode_loop_foreign l : ∀ n b e b', encode_loop util l n b = Ret (Err e, b') → foreign e.
Proof.
  induction l as [|x l IH]; intros n b e b'; cbn [encode_loop]; [done|].
  destruct (processBlock util x b) as [[[[]|e2] b3]|] eqn:Hp; [| |done]; cbn -[Errorf_w errors_Is]; [apply IH|].
  destruct (errors_Is e2 errBatchFull); [done|]. intros [= <- _]. apply foreign_Errorf_w. by eapply processBlock_foreign.
Qed.

Lemma Build_foreign head b p : Build util head b = Ret p → foreign_result p.
Proof.
  unfold Build. destruct (lastBuilt b); [by intros [= <-] e y [=]|].
  destruct (encodePending util b) as [[[[]|e] b1]|] eqn:He; [| |done]; cbn -[Errorf_w].
  - unfold getBatch. cbn -[Errorf_w Encoder.GetBatch errors_Is].
    destruct (Encoder.GetBatch (force_batch head b1) (encoder b1)) as [[[d|e] e2]|] eqn:Hg; [| |done]; cbn -[Errorf_w errors_Is].
    + by intros [= <-] e y [=].
    + destruct (errors_Is e errBatchTooSmall); intros [= <-] e' y [= <- <-]; [done|]. apply foreign_Errorf_w.
      unfold Encoder.GetBatch in Hg. destruct (currSubBatch _); [|done]. cbn -[Errorf_w] in Hg.
      destruct (negb _ && _); [by injection Hg as <- _|]. destruct (shouldCloseBatch _); [|done]. cbn -[Errorf_w] in Hg.
      match type of Hg with context [if ?c then closeSubBatch ?x else Ret ?x] =>
        destruct (if c then closeSubBatch x else Ret x); [|done] end. cbn -[Errorf_w] in Hg.
      destruct (rlp_Encode _) eqn:Hr; [done|]. injection Hg as <- _. apply foreign_Errorf_w. by eapply Hrlp.
  - intros [= <-] e' y [= <- <-]. apply foreign_Errorf_w. unfold encodePending in He.
    destruct (_ =? _)%nat; [by injection He as <- _|].
    destruct (encode_loop util _ 0 b) as [[[n|e1] b2]|] eqn:Hl; [done| |done]. cbn in He. injection He as <- <-.
    by eapply encode_loop_foreign.
Qed.

End ForeignBuilder.

(** ** The posts on L1, whatever runs beside the disseminator *)

Section GroupPosts.
Context `{A : ABI} `{R : RLP} {W W0 : Type}.
Context `{L2 : L2Client W} `{B0 : ETHBackend W0} `{C0 : Ctx W0} `{T : EthTxManager W}.
Context (tcfg : TxMgr.Config) `{TB : !TxMgrBehind W W0 tcfg}.
Context (m : Bridge.TxManager) (l1State : W → EthState) (util : option bridgeSerializationUtil).
Context `{VT : ValidatorTxManager W} `{BC : BridgeClient W} (account : Address).
#[local] Instance group_builder : BatchBuilder (batchBuilder BatchV0Encoder) := Builder_BatchBuilder util.
#[local] Instance group_l1 : L1 W := Bridge_L1 m l1State.
Context (posted : W → list delivery) (Hist : history tcfg posted).
Context (c : Builder.Config).
Context (Hblocks : ∀ i w block w1, l2_BlockByNumber i w = (Ok block, w1) → processable util c block).
Context `{LA : !ABILaws A} (Hsig : signer_signs W0).
Implicit Types s : group (batchBuilder BatchV0Encoder) W.

(** The validator's manager and the bridge client do not touch the record of the
    disseminator's calls. *)
Record silent_validator : Prop := {
  si_GetStaker : ∀ a w, posted (GetStaker a w).2 = posted w;
  si_GetAssertion : ∀ n w, posted (GetAssertion n w).2 = posted w;
  si_GetRequiredStakeAmount : ∀ w, posted (GetRequiredStakeAmount w).2 = posted w;
  si_Require : ∀ w, posted (RequireFirstUnresolvedAssertionIsConfirmable w).2 = posted w;
  si_Stake : ∀ n w r w', vt_Stake n w = Ret (r, w') → posted w' = posted w;
  si_CreateAssertion : ∀ h n w r w', vt_CreateAssertion h n w = Ret (r, w') → posted w' = posted w;
  si_Confirm : ∀ w r w', vt_ConfirmFirstUnresolvedAssertion w = Ret (r, w') → posted w' = posted w
}.
Context (Hsil : silent_validator) (target : Z).

Lemma validator_step_silent (st : vstate) r st' :
  Validator.step st = Ret (r, st') → posted st'.2 = posted st.2.
Proof.
  unfold Validator.step. destruct (createAssertion st) as [[r1 st1]|] eqn:Hc; [|done]. cbn -[Errorf_w].
  assert (H1 : posted st1.2 = posted st.2).
  { unfold createAssertion, getNextAssertionAttrs in Hc. pose proof (h_HeaderByTag _ _ Hist Safe_tag st.2) as Hh.
    destruct (l2_HeaderByTag Safe_tag st.2) as [[h|e] w]; cbn -[Errorf_w] in Hc, Hh; [|by injection Hc as _ <-].
    destruct (_ <=? _); [by injection Hc as _ <-|].
    destruct (vt_CreateAssertion _ _ w) as [[rc w1]|] eqn:Hv; [|done]. apply (si_CreateAssertion Hsil) in Hv.
    cbn in Hc. destruct rc; [destruct (_ =? _)|]; injection Hc as _ <-; cbn; congruence. }
  destruct r1; [|by intros [= _ <-]].
  destruct (resolveFirstUnresolvedAssertion st1) as [[r2 st2]|] eqn:Hr; [|done]. cbn. intros [= _ <-]. rewrite <- H1.
  unfold resolveFirstUnresolvedAssertion in Hr. pose proof (si_Require Hsil st1.2) as Hq.
  destruct (RequireFirstUnresolvedAssertionIsConfirmable st1.2) as [[e|] w]; cbn in Hq.
  - repeat case_match; by injection Hr as _ <-.
  - destruct (vt_ConfirmFirstUnresolvedAssertion w) as [[rc w1]|] eqn:Hv; [|done]. apply (si_Confirm Hsil) in Hv.
    cbn in Hr. destruct rc; injection Hr as _ <-; cbn; congruence.
Qed.

Lemma prepare_silent (st : vstate) r st' :
  Validator.prepare account st = Ret (r, st') → posted st'.2 = posted st.2.
Proof.
  unfold prepare, validateGenesis. pose proof (si_GetAssertion Hsil 0 st.2) as H1.
  destruct (GetAssertion 0 st.2) as [[a|e] w1]; cbn -[Errorf_w] in *; [|by intros [= _ <-]].
  pose proof (h_BlockByNumber _ _ Hist 0 w1) as H2.
  destruct (l2_BlockByNumber 0 w1) as [[g|e] w2]; cbn -[Errorf_w] in *; [|intros [= _ <-]; cbn; congruence].
  destruct (negb _); [intros [= _ <-]; cbn; congruence|].
  destruct (ensureStaked _ _) as [[r3 s3]|] eqn:He; [|done]. cbn -[Errorf_w].
  assert (H3 : posted s3.2 = posted w2).
  { unfold ensureStaked in He. cbn in He. pose proof (si_GetStaker Hsil account w2) as Hs.
    destruct (GetStaker account w2) as [[stk|e] w3]; cbn in *; [|by injection He as _ <-].
    destruct (IsStaked stk); [by injection He as _ <-|]. pose proof (si_GetRequiredStakeAmount Hsil w3) as Hq.
    destruct (GetRequiredStakeAmount w3) as [[am|e] w4]; cbn in *; [|injection He as _ <-; cbn; congruence].
    destruct (vt_Stake am w4) as [[rc w5]|] eqn:Hv; [|done]. apply (si_Stake Hsil) in Hv.
    cbn in He. destruct rc; injection He as _ <-; cbn; congruence. }
  destruct r3; [|intros [= _ <-]; congruence].
  unfold Validator.rollback. pose proof (si_GetStaker Hsil account s3.2) as H4.
  destruct (GetStaker account s3.2) as [[stk|e] w4]; cbn in *; [|intros [= _ <-]; cbn; congruence].
  pose proof (si_GetAssertion Hsil (AssertionID stk) w4) as H5.
  destruct (GetAssertion _ w4) as [[a'|e] w5]; cbn in *; intros [= _ <-]; cbn; congruence.
Qed.

(** What is kept: the specification has followed, and the sends of its posts are those on
    record. *)
Definition spec_init : spec := mkSpec (mkLog EmptyBlockID []) None [].

Definition group_sim (p0 : list delivery) s : Prop :=
  ∃ st, rtc (spec_step tcfg m target) spec_init st ∧
    posted (gs_world s) = p0 ++ map (p_delivery m) (sp_posts st) ∧
    match gs_dis s with
    | D_starting b | D_select b | D_batches b => simulates m util posted c target p0 (b, gs_world s) st
    | D_off | D_returned _ => True
    end.

(** Moves of others keep it. *)
Lemma group_sim_world p0 s w v e :
  posted w = posted (gs_world s) → group_sim p0 s → group_sim p0 (mkGroup w (gs_dis s) v e).
Proof.
  intros Hw (st & Hr & Hp & Hs). exists st. cbn. split; [done|]. split; [congruence|].
  destruct (gs_dis s) as [|b|b|b|e']; try done; destruct Hs as [H1 H2 H3 H4]; (split; cbn in *; [done|done|done|congruence]).
Qed.

Abbreviation followed := (follows tcfg m util posted c target).

(** Moves of the disseminator are followed. *)
Lemma group_sim_follows p0 s b w b' w' v e d :
  group_sim p0 s → (gs_dis s = D_starting b ∨ gs_dis s = D_select b ∨ gs_dis s = D_batches b) → gs_world s = w →
  followed (b, w) (b', w') →
  (d = D_starting b' ∨ d = D_select b' ∨ d = D_batches b' ∨ ∃ e', d = D_returned e') →
  group_sim p0 (mkGroup w' d v e).
Proof.
  intros (st & Hr & Hp & Hs) Hd <- Hf Hd'.
  assert (Hsim : simulates m util posted c target p0 (b, gs_world s) st)
    by (destruct Hd as [Hd|[Hd|Hd]]; by rewrite Hd in Hs).
  destruct (Hf _ _ Hsim) as (st' & Hr' & Hsim'). exists st'.
  split; [by etransitivity|]. split; [apply Hsim'|].
  destruct Hd' as [->|[->|[->|[e' ->]]]]; done.
Qed.

Lemma dis_step_follows p0 s s' : group_sim p0 s → dis_step s = Ret (Some s') → group_sim p0 s'.
Proof.
  intros Hg. unfold dis_step. destruct (gs_dis s) as [|b|b|b|e] eqn:Hd; try done.
  - pose proof (follows_rollback tcfg m util posted Hist c target (b, gs_world s)) as Hf.
    destruct (Disseminator.rollback _) as [r [b1 w1]]. cbn in Hf. intros [= <-]. eapply group_sim_follows; eauto.
  - destruct (appendToBuilder _) as [[r [b1 w1]]|] eqn:Ha; [|done]. cbn -[errors_As Errorf_w].
    apply (follows_appendToBuilder tcfg m util posted Hist c Hblocks target) in Ha. destruct r as [[]|e].
    + intros [= <-]. eapply group_sim_follows; eauto.
    + assert (Hf : followed (b, gs_world s)
        (if errors_As e T_L2ReorgDetectedError then (Disseminator.rollback (b1, w1)).2 else (b1, w1))).
      { destruct (errors_As e _); [|done]. intros p1 st Hs. destruct (Ha _ _ Hs) as (st1 & Hr1 & Hs1).
        destruct (follows_rollback tcfg m util posted Hist c target (b1, w1) _ _ Hs1) as (st2 & Hr2 & Hs2).
        exists st2. split; [by etransitivity|done]. }
      destruct (if errors_As e _ then _ else _) as [b2 w2].
      unfold dis_failed. destruct (errors_As _ T_unexpectedSystemStateError); intros [= <-]; eapply group_sim_follows; eauto 6.
  - destruct (gs_err s) eqn:He.
    { intros [= <-]. eapply group_sim_follows; eauto. by intros p1 st Hs; exists st. }
    destruct (disseminateBatch _) as [[r [b1 w1]]|] eqn:Ha; [|done]. cbn -[errors_As errors_Is Errorf_w].
    apply (follows_disseminateBatch tcfg m l1State util posted Hist c Hsig target) in Ha. destruct r as [[]|e].
    + intros [= <-]. eapply group_sim_follows; eauto.
    + destruct (errors_Is e io_EOF); [intros [= <-]; eapply group_sim_follows; eauto|].
      unfold dis_failed. destruct (errors_As _ _); intros [= <-]; eapply group_sim_follows; eauto 6.
Qed.

Lemma val_step_sim p0 s s' : group_sim p0 s → val_step account s = Ret (Some s') → group_sim p0 s'.
Proof.
  intros Hg. unfold val_step. destruct (gs_val s) as [|v|v|e]; try done.
  - destruct (Validator.prepare _ _) as [[r st]|] eqn:Hp; [|done]. apply prepare_silent in Hp. cbn.
    destruct r; intros [= <-]; by apply group_sim_world.
  - destruct (Validator.step _) as [[r st]|] eqn:Hp; [|done]. apply validator_step_silent in Hp. cbn -[errors_As].
    destruct r; [|destruct (errors_As _ _)]; intros [= <-]; by apply group_sim_world.
Qed.

(** A step of the group in which the outside world leaves the record alone. *)
Definition quiet_step s s' : Prop :=
  ∃ a, group_step account a s = Ret (Some s') ∧ match a with g_world env => ∀ w, posted (env w) = posted w | _ => True end.


End GroupPosts.

(** ** Concrete sidecars *)
Module SidecarSample.

#[local] Existing Instance Sample.sample_rlp.
#[local] Existing Instance BridgeSample.selector_abi.
#[local] Existing Instance BridgeSample.selector_laws.

(** Keys are addresses; every endpoint answers. *)
#[export] Instance libs : Libraries Z unit unit := {
  NewExternalSigner _ := Ok tt;
  NewClefTransactor _ a := mkTransactOpts a (fun _ t => Ok (mkSigned t 0));
  NewKeyedTransactorWithChainID k _ :=
    match k with Some k => Ret (Ok (mkTransactOpts k (fun _ t => Ok (mkSigned t 0)))) | None => Panic nil_deref end;
  retry_Dial _ := Ok tt;
  bindings_NewISequencerInbox _ _ := Ok tt;
  bindings_NewIRollup _ _ := Ok tt;
  key_Address k := k
}.

#[export] Instance lib_laws : LibraryLaws Z unit unit.
Proof. split; [done|]. intros k id o [= <-]. done. Defined.

Definition protocol : ProtocolConfig := mkProtocol SidecarConfigSample.checked 1001.

(** The key of account 9 is configured for account 8: transactions come from 9. *)
Lemma createTxManager_correct_witness :
  ∃ wi util, createTxManager (Lib := libs) "l1" protocol (mkServiceCfg 8 (Some 9) "" TxMgrSample.cfg) None = Ret (Ok wi, util) ∧
    cfg_From (wi_cfg wi) = 9.
Proof.
  assert (Hr : ∃ wi util, createTxManager (Lib := libs) "l1" protocol (mkServiceCfg 8 (Some 9) "" TxMgrSample.cfg) None = Ret (Ok wi, util))
    by (eexists _, _; vm_compute; reflexivity).
  destruct Hr as (wi & util & Hr). exists wi, util. split; [exact Hr|].
  destruct (createTxManager_correct (LL := lib_laws) "l1" protocol 9 8 "" TxMgrSample.cfg None wi util Hr) as [H _].
  rewrite H. reflexivity.
Defined.

(** The command line of [SidecarConfigSample], with a complete rollup file. *)
Definition env : Environment Z := {|
  cli_String := @cli_String Z SidecarConfigSample.env;
  cli_Bool := @cli_Bool Z SidecarConfigSample.env;
  cli_Uint := @cli_Uint Z SidecarConfigSample.env;
  cli_Uint64 := @cli_Uint64 Z SidecarConfigSample.env;
  cli_Duration := @cli_Duration Z SidecarConfigSample.env;
  os_ReadFile _ := Ok [];
  json_Decode _ := Ok SidecarConfigSample.checked;
  hex_Address _ := 0;
  HexToECDSA _ := Ok 1
|}.

Definition answer : option Header * option error := (None, Some (FmtError "not yet")).

Lemma startServices_correct_witness :
  ∃ st, startServices (Lib := libs) (H := env) answer answer answer = Ret (None, st) ∧
    ∀ v, st_validator st = Some v → is_Some (lazy_Client (nv_l2 v)).
Proof.
  assert (Hr : ∃ st, startServices (Lib := libs) (H := env) answer answer answer = Ret (None, st))
    by (eexists; vm_compute; reflexivity).
  destruct Hr as (st & Hr). exists st. split; [exact Hr|].
  destruct (startServices_correct (H := env) answer answer answer st Hr) as (cfg & _ & _ & _ & _ & _ & _ & H). exact H.
Defined.

Lemma missing_chain_id_crashes_witness :
  startServices (Lib := libs) (H := SidecarConfigSample.env) answer answer answer = Panic nil_deref.
Proof.
  apply (missing_chain_id_crashes (H := SidecarConfigSample.env) answer answer answer SidecarConfigSample.parsed tt);
    vm_compute; reflexivity.
Defined.

(** The services over the world of [PipelineSample]; the validator is staked. *)
#[local] Existing Instance PipelineSample.txmgr.
#[local] Existing Instance PipelineSample.l2.
#[local] Existing Instance PipelineSample.ctx.
#[local] Existing Instance PipelineSample.behind.
#[local] Existing Instance TxMgrSample.lax.
#[local] Existing Instance TxMgrSample.sample_ctx.

Abbreviation world := PipelineSample.world.

#[export] Instance val_mgr : ValidatorTxManager world := {
  vt_Stake _ w := Ret (Ok (mkReceipt 1 1 1), w);
  vt_AdvanceStake _ w := Ret (Ok (mkReceipt 1 1 1), w);
  vt_CreateAssertion _ _ w := Ret (Ok (mkReceipt 1 1 1), w);
  vt_ConfirmFirstUnresolvedAssertion w := Ret (Ok (mkReceipt 1 1 1), w)
}.

#[export] Instance bridge_client : BridgeClient world := {
  GetRequiredStakeAmount w := (Ok 32, w);
  GetStaker _ w := (Ok (mkStaker true 0), w);
  GetAssertion _ w := (Ok (mkRollupAssertion 1000 0), w);
  RequireFirstUnresolvedAssertionIsConfirmable w := (None, w);
  bc_Error_text _ := ""
}.

#[export] Instance builder : BatchBuilder (batchBuilder BatchV0Encoder) := Builder_BatchBuilder PipelineSample.util.
#[export] Instance l1 : L1 world := Bridge_L1 PipelineSample.m (fun _ => NewEthState).

Definition b0 : batchBuilder BatchV0Encoder := NewBatchBuilder PipelineSample.c (NewBatchV0Encoder 3).
Definition init : group (batchBuilder BatchV0Encoder) world := group_start (Some b0) true PipelineSample.w0.

Fixpoint run (acts : list (gaction world)) (s : group (batchBuilder BatchV0Encoder) world)
    : option (group (batchBuilder BatchV0Encoder) world) :=
  match acts with
  | [] => Some s
  | a :: acts => match group_step 7 a s with Ret (Some s1) => run acts s1 | _ => None end
  end.

(** Schedules without changes of the outside world are quiet. *)
Lemma run_quiet acts : ∀ s s',
  Forall (fun a => match a with g_world _ => False | _ => True end) acts → run acts s = Some s' →
  rtc (quiet_step PipelineSample.m (fun _ => NewEthState) PipelineSample.util 7 PipelineSample.w_posted) s s'.
Proof.
  induction acts as [|a acts IH]; intros s s' Hq H; cbn [run] in H; [by injection H as ->|].
  apply Forall_cons in Hq as [Hq1 Hq].
  destruct (group_step 7 a s) as [[s1|]|] eqn:Ha; [|done..]. eapply rtc_l; [|by apply IH].
  exists a. split; [exact Ha|by destruct a].
Qed.

Lemma run_steps acts : ∀ s s', run acts s = Some s' → rtc (group_steps 7) s s'.
Proof.
  induction acts as [|a acts IH]; intros s s' H; cbn [run] in H; [by injection H as ->|].
  destruct (group_step 7 a s) as [[s1|]|] eqn:Ha; [|done..]. eapply rtc_l; [by exists a|by apply IH].
Qed.

(** Both services interleaved: preparation, a tick, an assertion and a batch. *)
Definition schedule : list (gaction world) := [g_val; g_dis; g_dis; g_val; g_dis].

Definition after : group (batchBuilder BatchV0Encoder) world := default init (run schedule init).

Lemma after_run : run schedule init = Some after.
Proof. vm_compute. reflexivity. Qed.

Lemma silent_val : silent_validator PipelineSample.w_posted.
Proof. split; try done; intros; by match goal with H : _ = Ret _ |- _ => injection H as _ <- end. Qed.


End SidecarSample.

(** A world in which L2 is at block 50 and a validator that is staked asserts its head. *)
Module GroupSample.

#[local] Existing Instance Sample.sample_rlp.
#[local] Existing Instance BridgeSample.sample_abi.
#[export] Instance builder : BatchBuilder (batchBuilder BatchV0Encoder) := Builder_BatchBuilder BridgeSample.util.
#[export] Instance l2 : L2Client Z := DisseminatorSample.l2 50 52 0.
#[export] Instance l1 : L1 Z := DisseminatorSample.l1 (Ok DisseminatorSample.rc).
#[export] Instance txm : ValidatorTxManager Z := ValidatorSample.txm 1.
#[export] Instance bc : BridgeClient Z := {
  GetRequiredStakeAmount w := (Ok 32, w);
  GetStaker _ w := (Ok (mkStaker true 0), w);
  GetAssertion _ w := (Ok (mkRollupAssertion 1000 0), w);
  RequireFirstUnresolvedAssertionIsConfirmable w := (Some (FmtError "refused"), w);
  bc_Error_text _ := "refused"
}.

Lemma clients_foreign : foreign_clients (B := batchBuilder BatchV0Encoder) (W := Z).
Proof.
  split; try (by intros; intros e y [=]); try (by intros * [= <-]; intros e y [=]).
  - intros block b e b'. cbn. unfold Enqueue. destruct (_ && _); [|done]. by intros [= <- _].
  - intros head b p Hb. cbn in Hb. eapply Build_foreign; [by intros|by intros| |exact Hb].
    intros a n d e. cbn. unfold BridgeSample.oracle_values. destruct d; [by intros [= <-]|done].
Qed.

Definition init (validator : bool) : group (batchBuilder BatchV0Encoder) Z :=
  group_start (Some DisseminatorSample.b0) validator 0.

(** The validator prepares, asserts block 50 and fails to confirm; the disseminator rolls
    back to block 50 and appends the two blocks after it. *)
Definition s1 : group (batchBuilder BatchV0Encoder) Z :=
  match group_step 7 g_val (init true) with Ret (Some s) => s | _ => init true end.
Definition s2 : group (batchBuilder BatchV0Encoder) Z :=
  match group_step 7 g_val s1 with Ret (Some s) => s | _ => s1 end.
Definition s3 : group (batchBuilder BatchV0Encoder) Z :=
  match group_step 7 g_dis s2 with Ret (Some s) => s | _ => s2 end.

Lemma reach1 : rtc (group_steps 7) (init true) s1.
Proof. apply rtc_once. exists g_val. vm_compute. reflexivity. Qed.
Lemma reach2 : rtc (group_steps 7) s1 s3.
Proof. apply rtc_l with s2; [exists g_val|apply rtc_once; exists g_dis]; vm_compute; reflexivity. Qed.

Lemma services_stop_only_on_failed_preparation_witness : gs_err s3 = None ∧ wait s3 = None.
Proof.
  destruct (services_stop_only_on_failed_preparation 7 clients_foreign (Some DisseminatorSample.b0) true 0 s3) as [_ H].
  - right. reflexivity.
  - etransitivity; [exact reach1|exact reach2].
  - apply H. left. exists (mkAttrs 50 1050). vm_compute. reflexivity.
Defined.

(** The same group over the record. *)
#[local] Existing Instance recorded_mgr.
#[local] Existing Instance recorded_bridge.
#[local] Existing Instance recorded_l2.
#[local] Existing Instance recorded_l1.

Definition rinit : group (batchBuilder BatchV0Encoder) (Z * list vcall) :=
  group_start (Some DisseminatorSample.b0) true (0, []).
Definition rstep (a : gaction (Z * list vcall)) (s : group (batchBuilder BatchV0Encoder) (Z * list vcall)) :=
  match group_step 7 a s with Ret (Some s) => s | _ => s end.
Definition r1 := rstep g_val rinit.
Definition r2 := rstep g_val r1.
Definition r3 := rstep g_dis r2.

(** The assertion of block 50 is made, and is the record. *)
Lemma group_assertions_increase_witness :
  ∃ tr, (gs_world r3).2 = (gs_world r1).2 ++ tr ∧ increasing 0 (assertions tr) ∧
    List.last (assertions tr) (mkAttrs 0 1000) = mkAttrs 50 1050.
Proof.
  destruct (group_assertions_increase 7 (mkAttrs 0 1000) r1 r3) as (tr & H1 & _ & H3 & H4).
  - apply rtc_l with r2; [exists g_val|apply rtc_once; exists g_dis]; (split; [vm_compute; reflexivity|exact I]).
  - vm_compute. reflexivity.
  - exists tr. split; [exact H1|]. split; [exact H3|].
    assert (Hv : gs_val r3 = V_select (mkAttrs 50 1050)) by (vm_compute; reflexivity).
    destruct H4 as [H4|[e H4]]; rewrite Hv in H4; [injection H4 as H4; symmetry; exact H4|discriminate].
Defined.

Definition live : Ctx Z := {| ctx_Err _ := None; sleep _ w := w |}.

Lemma dis_steps_equal_iteration_witness :
  ∃ r b' w', Disseminator.step (C := live) 9 (DisseminatorSample.b0, 0) = Ret (Some (Err r), (b', w')) ∧
    rtc (fun a b => dis_step a = Ret (Some b)) (dis_goes (D_select DisseminatorSample.b0) 0 (init false))
      (dis_failed r b' w' (init false)).
Proof.
  assert (Hs : ∃ r b' w', Disseminator.step (C := live) 9 (DisseminatorSample.b0, 0) = Ret (Some (Err r), (b', w')))
    by (eexists _, _, _; vm_compute; reflexivity).
  destruct Hs as (r & b' & w' & Hs). exists r, b', w'. split; [exact Hs|].
  exact (dis_steps_equal_iteration (C := live) 9 DisseminatorSample.b0 0 (Err r) b' w' (init false) (fun _ => eq_refl) eq_refl Hs).
Defined.

End GroupSample.
