(* ===== verification/Prover.v ===== *)
(** * Execution states and one-step proofs

    Models services/sidecar/proof: the generation of execution states and of one-step proofs
    (prover.go), the tracers (prover/), the proofs (proof/proof.go) and the chain context
    (api.go).  go-ethereum's EVM, state database and backend are parameters: an execution
    gives the new state, its error and the calls it makes to the tracer, in order. *)

From S2P Require Import Prelude Errors Types GoStrings.

Open Scope list_scope.
Open Scope Z_scope.

(** ** prover/: tracers *)

(** The calls of [vm.EVMLogger]; of their arguments only the ones that are read. *)
Inductive capture : Type :=
| CaptureTxStart (gasLimit : Z)
| CaptureTxEnd (restGas : Z)
| CaptureStart
| CaptureState (pc op gas cost : Z)
| CaptureEnter
| CaptureExit
| CaptureFault
| CaptureEnd.

Class Tracer (T : Type) := { on_capture : capture → T → T }.

(** What a tracer holds after an execution. *)
Definition traced {T} `{Tracer T} (calls : list capture) (t : T) : T := fold_left (fun t c => on_capture c t) calls t.

Record GeneratedState := mkGenerated { gs_VMHash : Hash; gs_Gas : Z }.

(** A step is recorded with its gas and an empty hash. *)
Record StateGenerator := mkStateGenerator { sg_states : list GeneratedState }.

Definition NewStateGenerator : StateGenerator := mkStateGenerator [].

#[export] Instance StateGenerator_Tracer : Tracer StateGenerator := {
  on_capture c l :=
    match c with
    | CaptureState _ _ gas _ => mkStateGenerator (sg_states l ++ [mkGenerated zero_hash gas])
    | _ => l
    end
}.

Definition GetGeneratedStates (l : StateGenerator) : result (list GeneratedState) := Ok (sg_states l).

(** [DebugProver]: no call does anything. *)
Inductive DebugProver : Type := NewDebugProver.
#[export] Instance DebugProver_Tracer : Tracer DebugProver := { on_capture c l := l }.

(** ** proof/proof.go *)

Class Proof (P : Type) := { proof_Encode : P → bytes }.

Record OneStepProof (P : Type) := mkOneStepProof { Proofs : list P }.
Arguments mkOneStepProof {P}.
Arguments Proofs {P}.

Definition EmptyProof {P} : OneStepProof P := mkOneStepProof [].
Definition AddProof {P} (proof : P) (p : OneStepProof P) : OneStepProof P := mkOneStepProof (Proofs p ++ [proof]).

(** [copy(dst[offset:], src)]: as many bytes as fit. *)
Definition copy_at (offset : nat) (src dst : bytes) : bytes :=
  let n := Nat.min (List.length src) (List.length dst - offset) in
  take offset dst ++ take n src ++ drop (offset + n) dst.

Fixpoint encode_into (encodedProofs : list bytes) (offset : nat) (encoded : bytes) : bytes :=
  match encodedProofs with
  | [] => encoded
  | e :: es => encode_into es (offset + List.length e) (copy_at offset e encoded)
  end.

Definition Encode {P} `{Proof P} (p : OneStepProof P) : bytes :=
  match Proofs p with
  | [] => []
  | ps =>
      let encodedProofs := map proof_Encode ps in
      let encodedLen := fold_left (fun n e => n + List.length e)%nat encodedProofs O in
      encode_into encodedProofs O (replicate encodedLen Byte.x00)
  end.

(** ** prover/one_step_prover.go *)

Inductive PlaceHolderProof : Type := NewPlaceHolderProof.
#[export] Instance PlaceHolderProof_Proof : Proof PlaceHolderProof :=
  { proof_Encode _ := [Byte.x70; Byte.x72; Byte.x6f; Byte.x6f; Byte.x66] }.

Record OneStepProver := mkOneStepProver { target : Hash; step : Z }.
Definition NewProver (target : Hash) (step : Z) : OneStepProver := mkOneStepProver target step.
#[export] Instance OneStepProver_Tracer : Tracer OneStepProver := { on_capture c l := l }.

Definition GetProof (l : OneStepProver) : result (OneStepProof PlaceHolderProof) :=
  Ok (AddProof NewPlaceHolderProof EmptyProof).

(** ** go-ethereum *)

(** Blocks, transactions, messages, block contexts and states are opaque. *)
Class EVM (Blk Tx Msg BlockCtx S : Type) := {
  blk_Transactions : Blk → list Tx;
  blk_Root : Blk → Hash;
  blk_Hash : Blk → Hash;
  blk_Number : Blk → Z;
  IsEIP158 : Z → bool;
  TransactionToMessage : Tx → Blk → Msg * option error;      (* with the signer and base fee of the block *)
  NewEVMBlockContext : Blk → BlockCtx;
  IntermediateRoot : bool → S → Hash * S;
  Prepare : BlockCtx → Msg → S → S;
  msg_GasLimit : Msg → Z;
  ApplyMessage : BlockCtx → Msg → Z → S → option error * S * list capture
}.

(** [Backend], as far as it is called. *)
Class Backend (Blk Tx Msg BlockCtx S : Type) `{V : EVM Blk Tx Msg BlockCtx S} := {
  BlockByNumber : Z → result (option Blk);                    (* rpc.BlockNumber, an int64 *)
  StateAtBlock : option Blk → Z → option S → bool → bool → result S;
  StateAtTransaction : Blk → Z → Z → result (Msg * BlockCtx * S)
}.

(** ** api.go *)

(** The header lookups of [Backend]; the hash of a missing header is that of nothing. *)
Class HeaderBackend (H : Type) := {
  HeaderByNumber : Z → result (option H);
  HeaderByHash : Hash → result (option H);
  header_Hash : option H → Hash
}.

(** [chainContext.GetHeader]: the canonical header of the number when it has the hash,
    otherwise the one found by hash. *)
Definition GetHeader {H} `{HeaderBackend H} (hash : Hash) (number : Z) : option H :=
  match HeaderByNumber (s64 number) with
  | Err _ => None
  | Ok header =>
      if header_Hash header =? hash then header
      else match HeaderByHash hash with Err _ => None | Ok header => header end
  end.

(** [ProveTransaction] is not implemented: it answers with no bytes. *)
Definition ProveTransaction (hash target : Hash) : result bytes := Ok [].

(** [APIs]: one private service. *)
Record rpcAPI := mkAPI { Namespace : string; Version : string; Public : bool }.
Definition APIs : list rpcAPI := [mkAPI "proof" "1.0" false].

(** ** prover.go *)

Definition defaultProveReexec : Z := 128.

Record ProverConfig := mkProverConfig { Reexec : option Z }.

Definition reexec_of (config : option ProverConfig) : Z :=
  match config with
  | Some c => match Reexec c with Some r => r | None => defaultProveReexec end
  | None => defaultProveReexec
  end.

Section Prover.
Context {Blk Tx Msg BlockCtx S : Type} `{V : EVM Blk Tx Msg BlockCtx S} `{K : !Backend Blk Tx Msg BlockCtx S}.

Record ExecutionState := mkExecutionState {
  VMHash : Hash;
  es_Block : option Blk;
  TransactionIdx : Z;
  StepIdx : Z
}.

(** The fields that [MarshalJson] writes; the gas used is never set. *)
Record stateJson := mkStateJson { j_vmHash : Hash; j_l2GasUsed : option Z; j_blockHash : Hash; j_txnIdx : Z; j_stepIdx : Z }.

Definition MarshalJson (s : ExecutionState) : go stateJson :=
  match es_Block s with
  | None => Panic nil_deref
  | Some b => Ret (mkStateJson (VMHash s) None (blk_Hash b) (TransactionIdx s) (StepIdx s))
  end.

Definition ExecutionState_Hash (s : ExecutionState) : Hash := VMHash s.

(** The states of a traced transaction, numbered from 1. *)
Definition intra_states (block : Blk) (i : Z) (generated : list GeneratedState) : list ExecutionState :=
  imap (fun idx s => mkExecutionState (gs_VMHash s) (Some block) i (u64 (Z.of_nat idx + 1))) generated.

(** The range over the transactions of a block, from index [i]. *)
Fixpoint tx_loop (block : Blk) (txs : list Tx) (i : Z) (statedb : S) (states : list ExecutionState)
    : result (S * list ExecutionState) :=
  match txs with
  | [] => Ok (statedb, states)
  | tx :: txs =>
      let blockCtx := NewEVMBlockContext block in
      let '(root, statedb) := IntermediateRoot (IsEIP158 (blk_Number block)) statedb in
      let states := states ++ [mkExecutionState root (Some block) i 0] in
      let '(msg, _) := TransactionToMessage tx block in
      let statedb := Prepare blockCtx msg statedb in
      let '(err, statedb, calls) := ApplyMessage blockCtx msg (msg_GasLimit msg) statedb in
      match err with
      | Some e => Err (Errorf_w "tracing failed" e)
      | None =>
          match GetGeneratedStates (traced calls NewStateGenerator) with
          | Err e => Err (Errorf_w "tracing failed" e)
          | Ok generated => tx_loop block txs (i + 1) statedb (states ++ intra_states block i generated)
          end
      end
  end.

(** The loop over the block numbers; [None] when the fuel is out. *)
Fixpoint block_loop (fuel : nat) (num endNum reexec : Z) (statedb : S) (states : list ExecutionState)
    (block : option Blk) : option (result (list ExecutionState * option Blk)) :=
  if num <? endNum then
    match fuel with
    | O => None
    | Datatypes.S fuel =>
        match BlockByNumber (s64 num) with
        | Err e => Some (Err e)
        | Ok None => Some (Err (Errorf ("block #" ++ Itoa num ++ " not found")%string))
        | Ok (Some block) =>
            match tx_loop block (blk_Transactions block) 0 statedb states with
            | Err e => Some (Err e)
            | Ok (statedb, states) =>
                if num <? u64 (endNum - 1) then
                  match StateAtBlock (Some block) reexec (Some statedb) true false with
                  | Err e => Some (Err e)
                  | Ok statedb => block_loop fuel (u64 (num + 1)) endNum reexec statedb states (Some block)
                  end
                else block_loop fuel (u64 (num + 1)) endNum reexec statedb states (Some block)
            end
        end
    end
  else Some (Ok (states, block)).

Definition GenerateStates (fuel : nat) (startNum endNum : Z) (config : option ProverConfig)
    : go (option (result (list ExecutionState))) :=
  match BlockByNumber (s64 (u64 (startNum - 1))) with
  | Err e => Ret (Some (Err e))
  | Ok parent =>
      let reexec := reexec_of config in
      match StateAtBlock parent reexec None true false with
      | Err e => Ret (Some (Err e))
      | Ok statedb =>
          match block_loop fuel startNum endNum reexec statedb [] None with
          | None => Ret None
          | Some (Err e) => Ret (Some (Err e))
          | Some (Ok (_, None)) => Panic nil_deref
          | Some (Ok (states, Some block)) =>
              Ret (Some (Ok (states ++
                [mkExecutionState (blk_Root block) (Some block) (Z.of_nat (List.length (blk_Transactions block))) 0])))
          end
      end
  end.

Definition GenerateProof (startState : ExecutionState) (config : option ProverConfig)
    : result (OneStepProof PlaceHolderProof) :=
  match es_Block startState with
  | None => Err (Errorf "bad start state")
  | Some block =>
      if Z.of_nat (List.length (blk_Transactions block)) <=? TransactionIdx startState
      then Err (Errorf "bad start state")
      else
        match StateAtTransaction block (s64 (TransactionIdx startState)) (reexec_of config) with
        | Err e => Err e
        | Ok (msg, vmctx, statedb) =>
            let prover := NewProver (VMHash startState) (StepIdx startState) in
            let statedb := Prepare vmctx msg statedb in
            let '(err, _, calls) := ApplyMessage vmctx msg (msg_GasLimit msg) statedb in
            match err with
            | Some e => Err (Errorf_w "tracing failed" e)
            | None => GetProof (traced calls prover)
            end
        end
  end.

End Prover.

(** ** Encoding of a proof *)

Lemma fold_length es n : fold_left (fun n (e : bytes) => n + List.length e)%nat es n = (n + List.length (concat es))%nat.
Proof.
  revert n. induction es as [|e es IH]; intros n; cbn; [lia|]. rewrite IH, length_app. lia.
Qed.

Lemma encode_into_concat es : ∀ done n,
  List.length (concat es) = n → encode_into es (List.length done) (done ++ replicate n Byte.x00) = done ++ concat es.
Proof.
  induction es as [|e es IH]; intros done n Hn; cbn [encode_into concat] in *; [by subst n|].
  rewrite length_app in Hn. assert (E : copy_at (List.length done) e (done ++ replicate n Byte.x00) =
    (done ++ e) ++ replicate (n - List.length e) Byte.x00).
  { unfold copy_at. rewrite length_app, length_replicate, Nat.min_l by lia.
    rewrite take_app_length, firstn_all, drop_app_ge by lia. replace (_ - List.length done)%nat with (List.length e) by lia.
    by rewrite drop_replicate, app_assoc. }
  rewrite E, <- length_app, IH by lia. by rewrite app_assoc.
Qed.

(** The buffer that [Encode] fills at running offsets is the concatenation of the encodings of
    the proofs, in order. *)
Theorem Encode_concat {P} `{Proof P} (p : OneStepProof P) : Encode p = concat (map proof_Encode (Proofs p)).
Proof.
  unfold Encode. destruct (Proofs p) as [|q ps]; [done|]. generalize (map proof_Encode (q :: ps)). intros es.
  rewrite fold_length. exact (encode_into_concat es [] _ eq_refl).
Qed.

(** ** The generated states *)

(** The steps that the tracer records: one for each instruction, with its gas. *)
Definition step_gas (c : capture) : option Z := match c with CaptureState _ _ gas _ => Some gas | _ => None end.

Lemma generator_steps calls l :
  sg_states (traced calls l) = sg_states l ++ map (mkGenerated zero_hash) (omap step_gas calls).
Proof.
  unfold traced. revert l. induction calls as [|c calls IH]; intros l; cbn [fold_left omap list_omap].
  - by rewrite app_nil_r.
  - rewrite IH. destruct c; cbn; try done. by rewrite <- app_assoc.
Qed.

Section ProverFacts.
Context {Blk Tx Msg BlockCtx S : Type} `{V : EVM Blk Tx Msg BlockCtx S} `{K : !Backend Blk Tx Msg BlockCtx S}.

(** The transactions of a block, run in order from a state: before each of them the root of
    the state, and the gas at each of its instructions. *)
Inductive tx_runs (block : Blk) : S → list Tx → S → list (Hash * list Z) → Prop :=
| tr_nil s : tx_runs block s [] s []
| tr_cons s tx txs root s1 msg e s2 calls s3 rs :
    IntermediateRoot (IsEIP158 (blk_Number block)) s = (root, s1) →
    TransactionToMessage tx block = (msg, e) →
    ApplyMessage (NewEVMBlockContext block) msg (msg_GasLimit msg) (Prepare (NewEVMBlockContext block) msg s1) = (None, s2, calls) →
    tx_runs block s2 txs s3 rs →
    tx_runs block s (tx :: txs) s3 ((root, omap step_gas calls) :: rs).

(** The states of a transaction: the one before it, then one for each instruction. *)
Definition tx_states (block : Blk) (i : nat) (r : Hash * list Z) : list ExecutionState :=
  mkExecutionState r.1 (Some block) (Z.of_nat i) 0 ::
  imap (fun j _ => mkExecutionState zero_hash (Some block) (Z.of_nat i) (u64 (Z.of_nat j + 1))) r.2.

Definition block_states (b : Blk * list (Hash * list Z)) : list ExecutionState := concat (imap (tx_states b.1) b.2).

(** The blocks from [num] up to [endNum]; the state of the backend is fetched between two of them. *)
Inductive block_runs (endNum reexec : Z) : Z → S → list (Blk * list (Hash * list Z)) → Prop :=
| br_last num s block s' rs :
    num = endNum - 1 → BlockByNumber (s64 num) = Ok (Some block) →
    tx_runs block s (blk_Transactions block) s' rs → block_runs endNum reexec num s [(block, rs)]
| br_next num s block s' rs s1 bs :
    num < endNum - 1 → BlockByNumber (s64 num) = Ok (Some block) →
    tx_runs block s (blk_Transactions block) s' rs → StateAtBlock (Some block) reexec (Some s') true false = Ok s1 →
    block_runs endNum reexec (num + 1) s1 bs → block_runs endNum reexec num s ((block, rs) :: bs).

Lemma intra_states_eq (block : Blk) i gs :
  intra_states block (Z.of_nat i) (map (mkGenerated zero_hash) gs) =
  imap (fun j _ => mkExecutionState zero_hash (Some block) (Z.of_nat i) (u64 (Z.of_nat j + 1))) gs.
Proof. unfold intra_states. by rewrite imap_fmap. Qed.

Lemma tx_loop_runs block txs : ∀ (i : nat) (s : S) states s' states',
  tx_loop block txs (Z.of_nat i) s states = Ok (s', states') →
  ∃ rs, tx_runs block s txs s' rs ∧ states' = states ++ concat (imap (λ k, tx_states block (i + k)) rs).
Proof.
  induction txs as [|tx txs IH]; intros i s states s' states' H; cbn [tx_loop] in H.
  - injection H as <- <-. exists []. split; [constructor|]. by rewrite app_nil_r.
  - destruct (IntermediateRoot _ s) as [root s1] eqn:Hr. destruct (TransactionToMessage tx block) as [msg e] eqn:Hm.
    destruct (ApplyMessage _ _ _ _) as [[[er|] s2] calls] eqn:Ha; [done|]. unfold GetGeneratedStates in H.
    rewrite generator_steps in H. cbn [NewStateGenerator sg_states app] in H. rewrite intra_states_eq in H.
    replace (Z.of_nat i + 1) with (Z.of_nat (Datatypes.S i)) in H by lia. apply IH in H as (rs & Hrs & ->).
    exists ((root, omap step_gas calls) :: rs). split; [by econstructor|]. cbn [imap]. rewrite <- !app_assoc.
    f_equal. unfold tx_states at 2. rewrite Nat.add_0_r. cbn. do 2 f_equal. f_equal. apply imap_ext. intros k x _. cbn.
    by rewrite Nat.add_succ_r.
Qed.

Lemma block_loop_runs fuel : ∀ num endNum reexec (s : S) states block states' block',
  is_u64 num → is_u64 endNum → num < endNum →
  block_loop fuel num endNum reexec s states block = Some (Ok (states', block')) →
  ∃ bs, block_runs endNum reexec num s bs ∧ states' = states ++ concat (map block_states bs) ∧
    block' = fst <$> last bs.
Proof.
  induction fuel as [|fuel IH]; intros num endNum reexec s states block states' block' Hn He Hlt H;
    cbn [block_loop] in H; rewrite (proj2 (Z.ltb_lt _ _) Hlt) in H; [done|].
  destruct (BlockByNumber (s64 num)) as [[b|]|e] eqn:Hb; [|done..].
  destruct (tx_loop _ _ _ _ _) as [[s1 st1]|e] eqn:Ht; [|done]. apply (tx_loop_runs _ _ O) in Ht as (rs & Hrs & ->).
  unfold is_u64 in *. rewrite !u64_small in H by (unfold is_u64; lia). destruct (num <? endNum - 1) eqn:Hl; zbool.
  - destruct (StateAtBlock _ _ _ _ _) as [s2|e] eqn:Hs; [|done].
    apply IH in H as (bs & Hbs & -> & ->); [|unfold is_u64; lia..].
    exists ((b, rs) :: bs). split; [by eapply br_next|]. cbn [map concat]. rewrite <- app_assoc. split; [done|].
    by destruct Hbs.
  - assert (num = endNum - 1) as -> by lia. exists [(b, rs)]. split; [by eapply br_last|].
    cbn [map concat]. rewrite app_nil_r. replace (endNum - 1 + 1) with endNum in H by lia.
    destruct fuel; cbn [block_loop] in H; rewrite Z.ltb_irrefl in H; by injection H as <- <-.
Qed.

Lemma block_runs_length endNum reexec num (s : S) bs : block_runs endNum reexec num s bs → Z.of_nat (List.length bs) = endNum - num.
Proof. induction 1; cbn [List.length]; lia. Qed.

(** C28: The states between [startNum] and [endNum] are the documented sequence: for each block and
    each of its transactions the root before it and one state for each instruction, and at the
    end the root of the last block; the transactions run one after the other from the state of
    the parent of the first block.  The states inside a transaction have no hash. *)
Theorem GenerateStates_sequence fuel startNum endNum config states :
  is_u64 startNum → is_u64 endNum → GenerateStates fuel startNum endNum config = Ret (Some (Ok states)) →
  ∃ parent s bs block rs,
    BlockByNumber (s64 (u64 (startNum - 1))) = Ok parent ∧
    StateAtBlock parent (reexec_of config) None true false = Ok s ∧
    block_runs endNum (reexec_of config) startNum s (bs ++ [(block, rs)]) ∧
    Z.of_nat (List.length bs) + 1 = endNum - startNum ∧
    states = concat (map block_states (bs ++ [(block, rs)])) ++
             [mkExecutionState (blk_Root block) (Some block) (Z.of_nat (List.length (blk_Transactions block))) 0].
Proof.
  intros Ha Hb H. unfold GenerateStates in H. destruct (BlockByNumber _) as [parent|e] eqn:Hp; [|done].
  destruct (StateAtBlock _ _ _ _ _) as [s|e] eqn:Hs; [|done].
  destruct (block_loop _ _ _ _ _ _ _) as [[[st [b|]]|e]|] eqn:Hl; [|done..]. injection H as <-.
  destruct (decide (startNum < endNum)) as [Hlt|Hge].
  - apply block_loop_runs in Hl as (bs & Hbs & -> & Hb'); [|done..].
    destruct (last bs) as [[b' rs]|] eqn:Hlast; [|done]. injection Hb' as ->.
    apply last_Some in Hlast as [bs' ->]. exists parent, s, bs', b', rs. split_and!; try done.
    apply block_runs_length in Hbs. rewrite length_app in Hbs. cbn in Hbs. lia.
  - destruct fuel; cbn [block_loop] in Hl; rewrite (proj2 (Z.ltb_ge _ _)) in Hl by lia; discriminate Hl.
Qed.

(** More fuel than there are blocks changes nothing. *)
Lemma block_loop_fuel fuel : ∀ num endNum reexec (s : S) states block,
  is_u64 num → is_u64 endNum → (Z.to_nat (endNum - num) <= fuel)%nat →
  block_loop fuel num endNum reexec s states block =
    block_loop (Z.to_nat (endNum - num)) num endNum reexec s states block ∧
  block_loop fuel num endNum reexec s states block ≠ None.
Proof.
  induction fuel as [|fuel IH]; intros num endNum reexec s states block Hn He Hf.
  { replace (Z.to_nat (endNum - num)) with O by lia. split; [done|]. cbn [block_loop].
    by rewrite (proj2 (Z.ltb_ge _ _)) by lia. }
  destruct (decide (num < endNum)) as [Hlt|Hge].
  2: { replace (Z.to_nat (endNum - num)) with O by lia. cbn [block_loop]. by rewrite (proj2 (Z.ltb_ge _ _)) by lia. }
  replace (Z.to_nat (endNum - num)) with (Datatypes.S (Z.to_nat (endNum - (num + 1)))) by lia.
  cbn [block_loop]. rewrite (proj2 (Z.ltb_lt _ _) Hlt). unfold is_u64 in *. rewrite !u64_small by (unfold is_u64; lia).
  destruct (BlockByNumber _) as [[b|]|e]; [|done..]. destruct (tx_loop _ _ _ _ _) as [[s1 st1]|e]; [|done].
  destruct (num <? endNum - 1); [destruct (StateAtBlock _ _ _ _ _); [|done]|]; apply IH; unfold is_u64; lia.
Qed.

(** C29: Generating states terminates: as many turns of the loop as there are numbers in the range
    are enough, for every backend and every range, and the counter does not wrap. *)
Theorem GenerateStates_terminates fuel startNum endNum config :
  is_u64 startNum → is_u64 endNum → (Z.to_nat (endNum - startNum) <= fuel)%nat →
  GenerateStates fuel startNum endNum config = GenerateStates (Z.to_nat (endNum - startNum)) startNum endNum config ∧
  GenerateStates fuel startNum endNum config ≠ Ret None.
Proof.
  intros Ha Hb Hf. unfold GenerateStates. destruct (BlockByNumber _) as [parent|e]; [|done].
  destruct (StateAtBlock _ _ _ _ _) as [s|e]; [|done].
  destruct (block_loop_fuel fuel startNum endNum (reexec_of config) s [] None Ha Hb Hf) as [<- Hne].
  split; [done|]. by destruct (block_loop _ _ _ _ _ _ _) as [[[? [?|]]|?]|].
Qed.

(** An empty range is not refused: the block that the final state is read from is nil. *)
Theorem empty_range_panics fuel startNum endNum config parent (s : S) :
  endNum <= startNum → BlockByNumber (s64 (u64 (startNum - 1))) = Ok parent →
  StateAtBlock parent (reexec_of config) None true false = Ok s →
  GenerateStates fuel startNum endNum config = Panic nil_deref.
Proof.
  intros H Hp Hs. unfold GenerateStates. rewrite Hp, Hs.
  destruct fuel; cbn [block_loop]; by rewrite (proj2 (Z.ltb_ge _ _)).
Qed.

(** From block 0 the parent is looked up under the number -1, which go-ethereum reserves for
    the pending block. *)
Lemma genesis_parent_number : s64 (u64 (0 - 1)) = -1.
Proof. reflexivity. Qed.

(** A proof does not depend on the state it starts from: it is the placeholder for every hash
    and every step of the transaction. *)
Theorem proof_ignores_state h h' block i step step' config :
  GenerateProof (mkExecutionState h (Some block) i step) config = GenerateProof (mkExecutionState h' (Some block) i step') config ∧
  ∀ p, GenerateProof (mkExecutionState h (Some block) i step) config = Ok p → Encode p = proof_Encode NewPlaceHolderProof.
Proof.
  unfold GenerateProof. cbn [es_Block TransactionIdx VMHash StepIdx]. destruct (_ <=? _); [done|].
  destruct (StateAtTransaction _ _ _) as [[[msg ctx] s]|e]; [|done].
  destruct (ApplyMessage _ _ _ _) as [[[e|] s'] calls]; [done|]. split; [done|]. by intros p [= <-].
Qed.

End ProverFacts.

Lemma GetHeader_hash {H} `{HeaderBackend H} hash number h :
  (∀ h', HeaderByHash hash = Ok h' → header_Hash h' = hash) → GetHeader hash number = Some h → header_Hash (Some h) = hash.
Proof.
  intros Hb. unfold GetHeader. destruct (HeaderByNumber _) as [h'|]; [|done].
  destruct (Z.eqb_spec (header_Hash h') hash) as [Hh|_]; [by intros ->|].
  destruct (HeaderByHash hash) as [h''|] eqn:E; [|done]. intros ->. by apply Hb.
Qed.

(** A chain of blocks 1, 2 and 3 with two, no and one transactions; a transaction adds its
    number to the state and takes two instructions. *)
Module ProverSample.

#[export] Instance evm : EVM Z Z Z unit Z := {
  blk_Transactions b := if b =? 1 then [10; 20] else if b =? 3 then [30] else [];
  blk_Root b := 1000 + b;
  blk_Hash b := b;
  blk_Number b := b;
  IsEIP158 _ := true;
  TransactionToMessage tx _ := (tx, None);
  NewEVMBlockContext _ := tt;
  IntermediateRoot _ s := (s, s);
  Prepare _ _ s := s;
  msg_GasLimit _ := 21000;
  ApplyMessage _ msg gas s :=
    (None, s + msg, [CaptureTxStart gas; CaptureStart; CaptureState 0 96 gas 3; CaptureState 2 0 (gas - 3) 0; CaptureEnd; CaptureTxEnd 0])
}.

#[export] Instance backend : Backend Z Z Z unit Z := {
  BlockByNumber n := if n <=? 3 then Ok (Some n) else Ok None;
  StateAtBlock b _ base _ _ := match b with Some b => Ok (100 * b) | None => Err (FmtError "nil") end;
  StateAtTransaction b i _ := Ok (i, tt, 0)
}.

Definition states : list ExecutionState :=
  [mkExecutionState 0 (Some 1) 0 0; mkExecutionState 0 (Some 1) 0 1; mkExecutionState 0 (Some 1) 0 2;
   mkExecutionState 10 (Some 1) 1 0; mkExecutionState 0 (Some 1) 1 1; mkExecutionState 0 (Some 1) 1 2;
   mkExecutionState 200 (Some 3) 0 0; mkExecutionState 0 (Some 3) 0 1; mkExecutionState 0 (Some 3) 0 2;
   mkExecutionState 1003 (Some 3) 1 0].

Lemma runs : GenerateStates 3 1 4 None = Ret (Some (Ok states)).
Proof. vm_compute. reflexivity. Qed.

Lemma GenerateStates_sequence_witness :
  ∃ (s : Z) (bs : list (Z * list (Hash * list Z))), block_runs 4 128 1 s bs ∧ List.length bs = 3%nat ∧
    concat (map block_states bs) ++ [mkExecutionState 1003 (Some 3) 1 0] = states.
Proof.
  destruct (GenerateStates_sequence 3 1 4 None states) as (parent & s & bs & b & rs & Hp & Hs & Hb & Hl & He);
    [split; vm_compute; congruence|split; vm_compute; congruence|exact runs|].
  exists s, (bs ++ [(b, rs)]). split; [exact Hb|]. split.
  - rewrite length_app. cbn [List.length]. lia.
  - pose proof He as He'. apply (f_equal last) in He'. rewrite last_snoc in He'. vm_compute in He'.
    injection He' as H1 H2. rewrite He. f_equal. rewrite <- H2. reflexivity.
Defined.

Lemma GenerateStates_terminates_witness : GenerateStates 50 1 4 None = GenerateStates 3 1 4 None.
Proof.
  destruct (GenerateStates_terminates 50 1 4 None) as [H _];
    [split; vm_compute; congruence|split; vm_compute; congruence|vm_compute; lia|exact H].
Defined.

Lemma empty_range_panics_witness : GenerateStates 5 2 2 None = Panic nil_deref.
Proof. apply (empty_range_panics 5 2 2 None (Some 1) 100); [lia|reflexivity|reflexivity]. Defined.

Lemma proof_ignores_state_witness : Encode (P := PlaceHolderProof) (mkOneStepProof [NewPlaceHolderProof]) = [Byte.x70; Byte.x72; Byte.x6f; Byte.x6f; Byte.x66].
Proof. exact (proj2 (proof_ignores_state 7 8 1 0 3 4 None) (mkOneStepProof [NewPlaceHolderProof]) eq_refl). Defined.

End ProverSample.
