(* ===== verification/SimulatedBackend.v ===== *)
(** * The simulated backend

    Models ops/backends/simulated.go: the chain on which the predeploys are deployed.  The
    blockchain, its database, the state and the EVM are go-ethereum's: class [Geth].  This
    file covers the pending block, the state readers, contract calls, gas estimation, sending
    and the clock; [SimulatedReaders] has the rest. *)

From S2P Require Import Prelude Errors Types Bridge FeeHook.

Definition errBlockNumberUnsupported := ErrorString "simulatedBackend cannot access blocks other than the latest block".
Definition errBlockDoesNotExist := ErrorString "block does not exist in blockchain".
Definition errTransactionDoesNotExist := ErrorString "transaction does not exist".
Definition ErrInsufficientFundsForTransfer := ErrorString "insufficient funds for transfer".
Definition ErrIntrinsicGas := ErrorString "intrinsic gas too low".
Definition vm_ErrOutOfGas := ErrorString "out of gas".
Definition both_prices := FmtError "both gasPrice and (maxFeePerGas or maxPriorityFeePerGas) specified".

(** go-ethereum's [params.TxGas]. *)
Definition TxGas : Z := 21000.

(** A block as far as it is read. *)
Record SimBlock := mkSimBlock {
  bk_Hash : Hash;
  bk_ParentHash : Hash;
  bk_Number : Z;
  bk_Root : Hash;
  bk_GasLimit : Z;
  bk_BaseFee : option Z;
  bk_Transactions : list Transaction;
  bk_Time : Z
}.

(** [ethereum.CallMsg]. *)
Record CallMsg := mkCall {
  call_From : Address;
  call_To : option Address;
  call_Gas : Z;
  call_GasPrice : option Z;
  call_GasFeeCap : option Z;
  call_GasTipCap : option Z;
  call_Value : option Z;
  call_Data : bytes
}.

(** [core.Message], as [callContract] fills it in. *)
Record Message := mkMessage {
  msg_From : Address;
  msg_To : option Address;
  msg_Value : Z;
  msg_GasLimit : Z;
  msg_GasPrice : Z;
  msg_GasFeeCap : Z;
  msg_GasTipCap : Z;
  msg_Data : bytes
}.

(** [core.ExecutionResult]: the EVM's error, the return data, the revert data. *)
Record ExecutionResult := mkResult {
  res_Err : option error;
  res_Return : bytes;
  res_Revert : bytes
}.

Definition Failed (r : ExecutionResult) : bool := match res_Err r with Some _ => true | None => false end.

(** The blockchain with its database [CH] and a state [S].  The current block is also the
    current header.  [ApplyMessage] executes a message
    on a state in which the sender's balance was set.  [GenerateChain] makes one block on a
    parent with the given transactions and shift of the clock, in seconds, and the receipts of
    the transactions; adding an invalid one panics. *)
Class Geth (CH S : Type) := {
  CurrentBlock : CH → SimBlock;
  GetBlockByHash : Hash → CH → option SimBlock;
  GetBlockByNumber : Z → CH → option SimBlock;
  InsertChain : SimBlock → CH → result CH;
  StateAt : Hash → CH → result S;
  IsLondon : Z → bool;
  WriteTxLookupEntriesByBlock : SimBlock → CH → CH;
  GenerateChain : SimBlock → list Transaction → Z → CH → go (SimBlock * list Receipt);
  Sender : Transaction → SimBlock → result Address;
  st_GetBalance : Address → S → Z;
  st_GetNonce : Address → S → Z;
  st_GetCode : Address → S → bytes;
  st_GetState : Address → Hash → S → Hash;
  SetBalance : Address → Z → S → S;
  ApplyMessage : Message → SimBlock → S → result ExecutionResult * S;
  UnpackRevert : bytes → result string
}.

Definition MaxBig256 : Z := 2 ^ 256 - 1.

(** [SimulatedBackend]: the chain, the pending block, the state after it (nil when it could
    not be opened) and the receipts that go with it. *)
Record SimulatedBackend (CH S : Type) := mkBackend {
  blockchain : CH;
  pendingBlock : SimBlock;
  pendingState : option S;
  pendingReceipts : list Receipt
}.
Arguments mkBackend {CH S}.
Arguments blockchain {CH S}.
Arguments pendingBlock {CH S}.
Arguments pendingState {CH S}.
Arguments pendingReceipts {CH S}.

Section SimulatedBackend.
Context {CH S : Type} `{G : Geth CH S}.
Implicit Types b : SimulatedBackend CH S.

(** An error that is dropped with a nil result. *)
Definition drop_err {A : Type} (r : result A) : option A := match r with Ok a => Some a | Err _ => None end.

(** ** The pending block *)

(** The receipts stay as they are. *)
Definition rollback (parent : SimBlock) b : go (SimulatedBackend CH S) :=
  '(block, _) ← GenerateChain parent [] 0 (blockchain b);
  Ret (mkBackend (blockchain b) block (drop_err (StateAt (bk_Root block) (blockchain b))) (pendingReceipts b)).

(** [NewSimulatedBackendWithOpts], from the chain that holds the genesis block. *)
Definition NewSimulatedBackend (chain : CH) : go (SimulatedBackend CH S) :=
  rollback (CurrentBlock chain) (mkBackend chain (CurrentBlock chain) None []).

(** [Commit]: a failing import panics. *)
Definition Commit b : go (Hash * SimulatedBackend CH S) :=
  match InsertChain (pendingBlock b) (blockchain b) with
  | Err _ => Panic "import of the pending block"
  | Ok chain =>
      let chain := WriteTxLookupEntriesByBlock (pendingBlock b) chain in
      b' ← rollback (pendingBlock b) (mkBackend chain (pendingBlock b) (pendingState b) (pendingReceipts b));
      Ret (bk_Hash (pendingBlock b), b')
  end.

Definition Rollback b : go (SimulatedBackend CH S) := rollback (CurrentBlock (blockchain b)) b.

Definition blockByHash (hash : Hash) b : result SimBlock :=
  if hash =? bk_Hash (pendingBlock b) then Ok (pendingBlock b)
  else
    match GetBlockByHash hash (blockchain b) with
    | Some block => Ok block
    | None => Err errBlockDoesNotExist
    end.

Definition Fork (parent : Hash) b : go (option error * SimulatedBackend CH S) :=
  if negb (length (bk_Transactions (pendingBlock b)) =? 0)%nat then Ret (Some (FmtError "pending block dirty"), b)
  else
    match blockByHash parent b with
    | Err e => Ret (Some e, b)
    | Ok block => b' ← rollback block b; Ret (None, b')
    end.

(** ** Readers *)

(** A nil number, or the pending one, is the current block. *)
Definition blockByNumber (number : option Z) b : result SimBlock :=
  let current := blockByHash (bk_Hash (CurrentBlock (blockchain b))) b in
  match number with
  | None => current
  | Some n =>
      if n =? bk_Number (pendingBlock b) then current
      else
        match GetBlockByNumber (u64 (s64 n)) (blockchain b) with
        | Some block => Ok block
        | None => Err errBlockDoesNotExist
        end
  end.

Definition stateByBlockNumber (blockNumber : option Z) b : result S :=
  let current := StateAt (bk_Root (CurrentBlock (blockchain b))) (blockchain b) in
  match blockNumber with
  | None => current
  | Some n =>
      if n =? bk_Number (CurrentBlock (blockchain b)) then current
      else
        match blockByNumber blockNumber b with
        | Err e => Err e
        | Ok block => StateAt (bk_Root block) (blockchain b)
        end
  end.

Definition read_state {A : Type} (f : S → A) (blockNumber : option Z) b : result A :=
  match stateByBlockNumber blockNumber b with Err e => Err e | Ok st => Ok (f st) end.

Definition CodeAt (contract : Address) := read_state (st_GetCode contract).
Definition BalanceAt (contract : Address) := read_state (st_GetBalance contract).
Definition NonceAt (contract : Address) := read_state (st_GetNonce contract).
Definition StorageAt (contract : Address) (key : Hash) := read_state (st_GetState contract key).

Definition TransactionCount (blockHash : Hash) b : result Z :=
  match blockByHash blockHash b with
  | Err e => Err e
  | Ok block => Ok (Z.of_nat (length (bk_Transactions block)))
  end.

(** The index is a [uint]: adding one to the largest wraps around, and the slice is then
    indexed out of its range. *)
Definition TransactionInBlock (blockHash : Hash) (index : Z) b : go (result Transaction) :=
  match blockByHash blockHash b with
  | Err e => Ret (Err e)
  | Ok block =>
      let transactions := bk_Transactions block in
      if Z.of_nat (length transactions) <? u64 (index + 1) then Ret (Err errTransactionDoesNotExist)
      else
        match transactions !! Z.to_nat index with
        | Some tx => Ret (Ok tx)
        | None => Panic index_out_of_range
        end
  end.

(** [GetOrNewStateObject]: an object that is created here is empty and has no nonce. *)
Definition PendingNonceAt (account : Address) b : go Z :=
  match pendingState b with None => Panic nil_deref | Some st => Ret (st_GetNonce account st) end.

Definition SuggestGasPrice b : Z := default 1 (bk_BaseFee (pendingBlock b)).
Definition SuggestGasTipCap : Z := 1.

(** ** Calls *)

Definition newRevertError (r : ExecutionResult) : error :=
  match UnpackRevert (res_Revert r) with
  | Ok reason => FmtError ("execution reverted: " ++ reason)
  | Err _ => FmtError "execution reverted"
  end.

Definition is_set (x : option Z) : bool := match x with Some _ => true | None => false end.

(** The gas prices of a message: before London the fee fields follow the price; after it
    they follow it when it is given, and it is filled in from them otherwise. *)
Definition call_prices (call : CallMsg) (head : SimBlock) : go (Z * Z * Z) :=
  if negb (IsLondon (bk_Number head)) then
    let price := default 0 (call_GasPrice call) in Ret (price, price, price)
  else
    match call_GasPrice call with
    | Some price => Ret (price, price, price)
    | None =>
        let feeCap := default 0 (call_GasFeeCap call) in
        let tipCap := default 0 (call_GasTipCap call) in
        if (feeCap =? 0) && (tipCap =? 0) then Ret (0, feeCap, tipCap)
        else
          match bk_BaseFee head with
          | None => Panic nil_deref
          | Some baseFee => Ret (Z.min (tipCap + baseFee) feeCap, feeCap, tipCap)
          end
    end.

Definition callContract (call : CallMsg) (header : SimBlock) (stateDB : S) b : go (result ExecutionResult) :=
  if is_set (call_GasPrice call) && (is_set (call_GasFeeCap call) || is_set (call_GasTipCap call))
  then Ret (Err both_prices)
  else
    '(price, feeCap, tipCap) ← call_prices call (CurrentBlock (blockchain b));
    let gas := if call_Gas call =? 0 then 50000000 else call_Gas call in
    let st := SetBalance (call_From call) MaxBig256 stateDB in
    Ret (ApplyMessage (mkMessage (call_From call) (call_To call) (default 0 (call_Value call)) gas
                         price feeCap tipCap (call_Data call)) header st).1.

(** What both calls make of the result. *)
Definition call_result (r : result ExecutionResult) : result bytes :=
  match r with
  | Err e => Err e
  | Ok res =>
      if (0 <? length (res_Revert res))%nat then Err (newRevertError res)
      else match res_Err res with Some e => Err e | None => Ok (res_Return res) end
  end.

Definition CallContract (call : CallMsg) (blockNumber : option Z) b : go (result bytes) :=
  let current := CurrentBlock (blockchain b) in
  if match blockNumber with Some n => negb (n =? bk_Number current) | None => false end
  then Ret (Err errBlockNumberUnsupported)
  else
    match StateAt (bk_Root current) (blockchain b) with
    | Err e => Ret (Err e)
    | Ok stateDB => r ← callContract call current stateDB b; Ret (call_result r)
    end.

(** The state is reverted to its snapshot afterwards. *)
Definition PendingCallContract (call : CallMsg) b : go (result bytes) :=
  match pendingState b with
  | None => Panic nil_deref
  | Some stateDB => r ← callContract call (pendingBlock b) stateDB b; Ret (call_result r)
  end.

(** ** Gas estimation *)

Definition with_gas (call : CallMsg) (gas : Z) : CallMsg :=
  mkCall (call_From call) (call_To call) gas (call_GasPrice call) (call_GasFeeCap call) (call_GasTipCap call)
    (call_Value call) (call_Data call).

(** [executable]: whether the execution with this much gas fails, with its result. *)
Definition executable (call : CallMsg) (stateDB : S) b (gas : Z) : go (result (bool * option ExecutionResult)) :=
  res ← callContract (with_gas call gas) (pendingBlock b) stateDB b;
  Ret match res with
      | Err e => if errors_Is e ErrIntrinsicGas then Ok (true, None) else Err e
      | Ok res => Ok (Failed res, Some res)
      end.

(** The binary search; [None] when it has not ended in [fuel] steps. *)
Fixpoint gas_search (exec : Z → go (result (bool * option ExecutionResult))) (fuel : nat) (lo hi : Z)
    : go (option (result Z)) :=
  match fuel with
  | O => Ret None
  | Datatypes.S fuel =>
      if u64 (lo + 1) <? hi then
        let mid := u64 (hi + lo) / 2 in
        r ← exec mid;
        match r with
        | Err e => Ret (Some (Err e))
        | Ok (failed, _) => if failed : bool then gas_search exec fuel mid hi else gas_search exec fuel lo mid
        end
      else Ret (Some (Ok hi))
  end.

(** [big.Int.Div] of a number that is not negative. *)
Definition big_Div (x y : Z) : Z := if 0 <? y then x / y else - (x / - y).

(** The highest gas allowance: the call's gas or the block's limit, capped by the funds. *)
Definition gas_cap (call : CallMsg) b : go (result Z) :=
  let hi := if TxGas <=? call_Gas call then call_Gas call else bk_GasLimit (pendingBlock b) in
  if is_set (call_GasPrice call) && (is_set (call_GasFeeCap call) || is_set (call_GasTipCap call))
  then Ret (Err both_prices)
  else
    let feeCap := default (default 0 (call_GasFeeCap call)) (call_GasPrice call) in
    if feeCap =? 0 then Ret (Ok hi)
    else
      match pendingState b with
      | None => Panic nil_deref
      | Some stateDB =>
          let balance := st_GetBalance (call_From call) stateDB in
          Ret (if match call_Value call with Some v => balance <=? v | None => false end
               then Err ErrInsufficientFundsForTransfer
               else
                 let allowance := big_Div (balance - default 0 (call_Value call)) feeCap in
                 Ok (if bool_decide (is_u64 allowance) && (allowance <? hi) then allowance else hi))
      end.

(** The last test, at the highest allowance. *)
Definition gas_check (exec : Z → go (result (bool * option ExecutionResult))) (cap hi : Z) : go (result Z) :=
  if hi =? cap then
    r ← exec hi;
    Ret match r with
        | Err e => Err e
        | Ok (true, Some res) =>
            if match res_Err res with Some e => iface_eqb e vm_ErrOutOfGas | None => false end
            then Err (FmtError "gas required exceeds allowance")
            else if (0 <? length (res_Revert res))%nat then Err (newRevertError res)
            else match res_Err res with Some e => Err e | None => Ok 0 end
        | Ok (true, None) => Err (FmtError "gas required exceeds allowance")
        | Ok (false, _) => Ok hi
        end
  else Ret (Ok hi).

Definition EstimateGas (fuel : nat) (call : CallMsg) b : go (option (result Z)) :=
  cap ← gas_cap call b;
  match cap, pendingState b with
  | Err e, _ => Ret (Some (Err e))
  | Ok _, None => Panic nil_deref
  | Ok cap, Some stateDB =>
      let exec := executable call stateDB b in
      r ← gas_search exec fuel (TxGas - 1) cap;
      match r with
      | None => Ret None
      | Some (Err e) => Ret (Some (Err e))
      | Some (Ok hi) => r ← gas_check exec cap hi; Ret (Some r)
      end
  end.

(** ** Sending *)

(** The new pending block and its state, which is opened on the database of the head's state:
    a nil pointer when that one cannot be opened. *)
Definition set_pending (next : SimBlock) (receipts : list Receipt) b : go (SimulatedBackend CH S) :=
  match StateAt (bk_Root (CurrentBlock (blockchain b))) (blockchain b) with
  | Err _ => Panic nil_deref
  | Ok _ => Ret (mkBackend (blockchain b) next (drop_err (StateAt (bk_Root next) (blockchain b))) receipts)
  end.

(** [SendTransaction]: the pending block is made again with the transaction added. *)
Definition SendTransaction (tx : Transaction) b : go (option error * SimulatedBackend CH S) :=
  match blockByHash (bk_ParentHash (pendingBlock b)) b with
  | Err _ => Ret (Some (FmtError "could not fetch parent"), b)
  | Ok block =>
      match Sender tx block with
      | Err _ => Ret (Some (FmtError "invalid transaction"), b)
      | Ok sender =>
          match pendingState b with
          | None => Panic nil_deref
          | Some stateDB =>
              if negb (tx_Nonce tx =? st_GetNonce sender stateDB)
              then Ret (Some (FmtError "invalid transaction nonce"), b)
              else
                '(next, receipts) ← GenerateChain block (bk_Transactions (pendingBlock b) ++ [tx]) 0 (blockchain b);
                b' ← set_pending next receipts b; Ret (None, b')
          end
      end
  end.

(** ** The clock *)

(** [int64(d.Seconds())]: the seconds of a duration in nanoseconds, through a [float64]. *)
Definition whole_seconds (d : Z) : Z :=
  let sec := Z.quot d 1000000000 in
  let frac := round_ratio 53 (Z.abs (Z.rem d 1000000000)) 1000000000 in
  let sum := round_ratio 53 (Z.abs sec * pow_down (exp frac) + mant frac * pow_up (exp frac)) (pow_down (exp frac)) in
  Z.sgn d * Float_Int sum.

(** [AdjustTime]: the empty pending block is made again with a shift of its time; the receipts
    stay. *)
Definition AdjustTime (adjustment : Z) b : go (option error * SimulatedBackend CH S) :=
  if negb (length (bk_Transactions (pendingBlock b)) =? 0)%nat
  then Ret (Some (FmtError "could not adjust time on non-empty block"), b)
  else
    match GetBlockByHash (bk_ParentHash (pendingBlock b)) (blockchain b) with
    | None => Ret (Some (FmtError "could not find parent"), b)
    | Some block =>
        '(next, _) ← GenerateChain block [] (whole_seconds adjustment) (blockchain b);
        b' ← set_pending next (pendingReceipts b) b; Ret (None, b')
    end.

End SimulatedBackend.

(** ** Gas estimation: theorems *)

Section Search.
Context (exec : Z → go (result (bool * option ExecutionResult))) (failed : Z → bool).
Hypothesis exec_runs : ∀ g, ∃ r, exec g = Ret (Ok (failed g, r)).

(** The search keeps a failing lower and a working upper end; it halves the interval, so that
    one step more than the interval's binary logarithm is enough. *)
Lemma gas_search_spec k : ∀ fuel lo hi,
  (k < fuel)%nat → 0 <= lo < two63 → 0 <= hi < two63 → hi - lo <= 2 ^ Z.of_nat k →
  ∃ g, gas_search exec fuel lo hi = Ret (Some (Ok g)) ∧ g <= hi ∧ (g = hi ∨ failed g = false) ∧
    (lo + 1 < g → failed (g - 1) = true) ∧ (lo < hi → lo < g).
Proof.
  induction k as [|k IH]; intros [|fuel] lo hi Hf Hlo Hhi Hk; try lia; cbn [gas_search];
    rewrite (u64_small (lo + 1)) by (unfold is_u64, two63, two64 in *; lia).
  - rewrite (proj2 (Z.ltb_ge _ _)) by (cbn in Hk; lia). exists hi. split; [done|]. split; [lia|].
    split; [by left|]. split; [cbn in Hk; lia|]. done.
  - destruct (Z.ltb_spec (lo + 1) hi) as [Hlt|Hge].
    2: { exists hi. split; [done|]. split; [lia|]. split; [by left|]. split; [lia|done]. }
    rewrite (u64_small (hi + lo)) by (unfold is_u64, two63, two64 in *; lia).
    set (mid := (hi + lo) / 2). assert (Hmid : lo < mid < hi ∧ mid - lo <= 2 ^ Z.of_nat k ∧ hi - mid <= 2 ^ Z.of_nat k).
    { rewrite Nat2Z.inj_succ, Z.pow_succ_r in Hk by lia. unfold mid. Z.div_mod_to_equations. lia. }
    destruct (exec_runs mid) as [r ->]. cbn [mbind go_bind]. destruct (failed mid) eqn:Hfail.
    + destruct (IH fuel mid hi) as (g & -> & H1 & H2 & H3 & H4); [lia..|]. exists g.
      split; [done|]. split; [done|]. split; [done|]. split; [|lia]. intros _.
      destruct (decide (g = mid + 1)) as [->|Hne]; [by replace (mid + 1 - 1) with mid by lia|]. apply H3. lia.
    + destruct (IH fuel lo mid) as (g & -> & H1 & H2 & H3 & H4); [lia..|]. exists g.
      split; [done|]. split; [lia|]. split; [|split; [done|lia]].
      right. destruct H2 as [->|]; done.
Qed.

(** With the largest uint64 as upper end the sum of the two wraps around: as long as the
    executions fail, the lower end never comes near the upper one. *)
Lemma gas_search_wraps fuel : (∀ g, 0 <= g < two63 → failed g = true) →
  ∀ lo, 0 <= lo < two63 → gas_search exec fuel lo (two64 - 1) = Ret None.
Proof.
  intros Hfail. induction fuel as [|fuel IH]; intros lo Hlo; [done|]. cbn [gas_search].
  rewrite (u64_small (lo + 1)) by (unfold is_u64, two63, two64 in *; lia).
  rewrite (proj2 (Z.ltb_lt _ _)) by (unfold two63, two64 in *; lia).
  assert (Hmid : 0 <= u64 (two64 - 1 + lo) / 2 < two63).
  { unfold u64, two63, two64 in *. Z.div_mod_to_equations. lia. }
  destruct (exec_runs (u64 (two64 - 1 + lo) / 2)) as [r ->]. cbn [mbind go_bind]. rewrite Hfail by done. by apply IH.
Qed.

End Search.

Section Claims.
Context {CH S : Type} `{G : Geth CH S}.
Implicit Types b : SimulatedBackend CH S.

(** A failing execution comes with the EVM's error, or with no result. *)
Lemma executable_result call st b g r :
  executable call st b g = Ret (Ok r) → r.1 = true → ∀ res, r.2 = Some res → is_Some (res_Err res).
Proof.
  unfold executable. destruct (callContract _ _ _ _) as [[res|e]|w]; cbn; [| |done].
  - intros [= <-]. cbn. unfold Failed. intros Hf res' [= <-]. destruct (res_Err res); [by eexists|done].
  - destruct (errors_Is e ErrIntrinsicGas); [|done]. by intros [= <-] _ res.
Qed.

(** C33: For a highest allowance below 2^63, and when no amount of gas is refused outright (the
    execution fails or works, but is no error other than too little intrinsic gas),
    [EstimateGas] ends within 64 steps of the search.  An estimate is within the allowance,
    the execution succeeds with it, and fails with one unit less (unless it is the 21000 of a
    plain transfer); when more gas never makes an execution fail it is the least that is
    enough.  An error means the execution fails at the allowance.  At an allowance of 2^64-1
    the search need not end: [EstimateGas_never_ends]. *)
Theorem EstimateGas_correct call b st cap failed fuel :
  pendingState b = Some st → gas_cap call b = Ret (Ok cap) → 0 <= cap < two63 → (64 <= fuel)%nat →
  (∀ g, ∃ r, executable call st b g = Ret (Ok (failed g, r))) →
  ∃ r, EstimateGas fuel call b = Ret (Some r) ∧
    match r with
    | Ok g => g <= cap ∧ failed g = false ∧ (TxGas < g → failed (g - 1) = true) ∧
        ((∀ x y, x <= y → failed x = false → failed y = false) → ∀ x, TxGas <= x < g → failed x = true)
    | Err _ => failed cap = true
    end.
Proof.
  intros Hst Hcap Hrange Hfuel Hexec. unfold EstimateGas. rewrite Hcap. cbn [mbind go_bind]. rewrite Hst.
  destruct (gas_search_spec (executable call st b) failed Hexec 63 fuel (TxGas - 1) cap)
    as (g & -> & H1 & H2 & H3 & _); [lia|unfold TxGas, two63; lia|done|unfold TxGas, two63 in *; cbn; lia|].
  assert (Hgood : failed g = false → g <= cap ∧ failed g = false ∧ (TxGas < g → failed (g - 1) = true) ∧
    ((∀ x y, x <= y → failed x = false → failed y = false) → ∀ x, TxGas <= x < g → failed x = true)).
  { intros Hg. split; [done|]. split; [done|]. assert (Hm : TxGas < g → failed (g - 1) = true) by (intros; apply H3; lia).
    split; [done|]. intros Hmono x Hx. destruct (failed x) eqn:Hfx; [done|].
    assert (Hf1 : failed (g - 1) = false) by (apply (Hmono x); [lia|done]). rewrite Hm in Hf1 by lia. done. }
  cbn [mbind go_bind]. unfold gas_check. destruct (Z.eqb_spec g cap) as [->|Hne].
  - destruct (Hexec cap) as [res Hc]. rewrite Hc. cbn [mbind go_bind]. pose proof (executable_result _ _ _ _ _ Hc) as Hres.
    cbn in Hres. destruct (failed cap) eqn:Hf; [|eexists; split; [reflexivity|]; cbv beta iota; rewrite Hf; exact (Hgood eq_refl)].
    destruct res as [res|]; [|by eexists]. destruct (Hres eq_refl res eq_refl) as [e He]. rewrite He.
    eexists. split; [reflexivity|]. destruct (iface_eqb e vm_ErrOutOfGas); [done|].
    by destruct (_ <? _)%nat.
  - eexists. split; [reflexivity|]. apply Hgood. by destruct H2.
Qed.

(** C27: A call that asks for the largest gas there is, and that fails with any, is never answered:
    the sum of the two ends wraps around, and the search goes on for ever. *)
Theorem EstimateGas_never_ends call b st :
  pendingState b = Some st → gas_cap call b = Ret (Ok (two64 - 1)) →
  (∀ g, ∃ r, executable call st b g = Ret (Ok (true, r))) →
  ∀ fuel, EstimateGas fuel call b = Ret None.
Proof.
  intros Hst Hcap Hexec fuel. unfold EstimateGas. rewrite Hcap. cbn [mbind go_bind]. rewrite Hst.
  by rewrite (gas_search_wraps (executable call st b) (λ _, true) Hexec) by (unfold TxGas, two63; lia).
Qed.

(** ** The pending block *)

(** What go-ethereum promises: a generated block has its parent and its transactions, its own
    hash, ten seconds more than its parent and the shift, and a receipt for each transaction;
    blocks are found by their hash. *)
Class GethLaws := {
  generated p txs off ch blk rs : GenerateChain p txs off ch = Ret (blk, rs) →
    bk_ParentHash blk = bk_Hash p ∧ bk_Transactions blk = txs ∧ bk_Hash blk ≠ bk_Hash p ∧
    bk_Time blk = bk_Time p + 10 + off ∧ length rs = length txs;
  found h ch blk : GetBlockByHash h ch = Some blk → bk_Hash blk = h
}.

Inductive sim_op : Type :=
| sim_send (tx : Transaction)
| sim_commit
| sim_rollback
| sim_fork (parent : Hash)
| sim_adjust (adjustment : Z).

(** One operation, and what it does to a specification that only remembers the parent of the
    pending block and the transactions accepted since; a shift of the clock does nothing to it. *)
Definition sim_apply (o : sim_op) (bs : SimulatedBackend CH S * (Hash * list Transaction))
    : go (SimulatedBackend CH S * (Hash * list Transaction)) :=
  let '(b, (parent, txs)) := bs in
  match o with
  | sim_send tx =>
      '(err, b') ← SendTransaction tx b;
      Ret (b', (parent, match err with None => txs ++ [tx] | Some _ => txs end))
  | sim_commit => '(hash, b') ← Commit b; Ret (b', (hash, []))
  | sim_rollback => b' ← Rollback b; Ret (b', (bk_Hash (CurrentBlock (blockchain b)), []))
  | sim_fork h =>
      '(err, b') ← Fork h b;
      Ret (b', match err with None => (h, []) | Some _ => (parent, txs) end)
  | sim_adjust d => '(_, b') ← AdjustTime d b; Ret (b', (parent, txs))
  end.

Fixpoint sim_run (os : list sim_op) (bs : SimulatedBackend CH S * (Hash * list Transaction))
    : go (SimulatedBackend CH S * (Hash * list Transaction)) :=
  match os with
  | [] => Ret bs
  | o :: os => bs ← sim_apply o bs; sim_run os bs
  end.

Definition pending_is b (spec : Hash * list Transaction) : Prop :=
  bk_ParentHash (pendingBlock b) = spec.1 ∧ bk_Transactions (pendingBlock b) = spec.2 ∧
  bk_ParentHash (pendingBlock b) ≠ bk_Hash (pendingBlock b).

Context `{L : !GethLaws}.

Lemma rollback_pending parent b b' : rollback parent b = Ret b' → pending_is b' (bk_Hash parent, []).
Proof.
  unfold rollback. destruct (GenerateChain parent [] 0 (blockchain b)) as [[blk rs]|w] eqn:Hg; cbn; [|done].
  intros [= <-]. apply generated in Hg as (H1 & H2 & H3 & _). split; [done|]. split; [done|]. cbn. congruence.
Qed.

Lemma set_pending_fields next rs b b' : set_pending next rs b = Ret b' →
  pendingBlock b' = next ∧ pendingReceipts b' = rs ∧ blockchain b' = blockchain b.
Proof. unfold set_pending. destruct (StateAt _ _); [|done]. by intros [= <-]. Qed.

Lemma blockByHash_hash h b blk : blockByHash h b = Ok blk → bk_Hash blk = h.
Proof.
  unfold blockByHash. destruct (Z.eqb_spec h (bk_Hash (pendingBlock b))) as [->|_]; [by intros [= <-]|].
  destruct (GetBlockByHash h (blockchain b)) eqn:Hf; [|done]. intros [= <-]. by eapply found.
Qed.

Lemma sim_apply_pending o b spec b' spec' :
  pending_is b spec → sim_apply o (b, spec) = Ret (b', spec') → pending_is b' spec'.
Proof.
  destruct spec as [parent txs]. intros (H1 & H2 & H3). cbn in H1, H2. destruct o as [tx| | |h|d]; cbn [sim_apply].
  - unfold SendTransaction. destruct (blockByHash _ b) as [block|e] eqn:Hb; cbn [mbind go_bind]; [|by intros [= <- <-]].
    apply blockByHash_hash in Hb. destruct (Sender tx block); cbn [mbind go_bind]; [|by intros [= <- <-]].
    destruct (pendingState b); [|done]. destruct (negb _); cbn [mbind go_bind]; [by intros [= <- <-]|].
    destruct (GenerateChain _ _ _ _) as [[blk rs]|w] eqn:Hg; cbn [mbind go_bind]; [|done].
    destruct (set_pending _ _ _) as [b1|w] eqn:Hp; cbn [mbind go_bind]; [|done]. intros [= <- <-].
    apply set_pending_fields in Hp as (Hp & _). apply generated in Hg as (G1 & G2 & G3 & _).
    unfold pending_is. cbn [fst snd]. rewrite Hp, G1, G2, Hb, H1, H2.
    split; [done|]. split; [done|]. congruence.
  - unfold Commit. destruct (InsertChain _ _) as [ch|e]; cbn [mbind go_bind]; [|done].
    destruct (rollback _ _) as [b1|w] eqn:Hr; cbn [mbind go_bind]; [|done]. intros [= <- <-].
    by apply rollback_pending in Hr.
  - unfold Rollback. destruct (rollback _ _) as [b1|w] eqn:Hr; cbn [mbind go_bind]; [|done]. intros [= <- <-].
    by apply rollback_pending in Hr.
  - unfold Fork. destruct (negb _); cbn [mbind go_bind]; [by intros [= <- <-]|].
    destruct (blockByHash h b) as [block|e] eqn:Hb; cbn [mbind go_bind]; [|by intros [= <- <-]].
    destruct (rollback block b) as [b1|w] eqn:Hr; cbn [mbind go_bind]; [|done]. intros [= <- <-].
    apply rollback_pending in Hr. apply blockByHash_hash in Hb. by rewrite Hb in Hr.
  - unfold AdjustTime. destruct (length _ =? 0)%nat eqn:Hl; cbn [negb]; [|by intros [= <- <-]].
    destruct (GetBlockByHash _ _) as [block|] eqn:Hb; cbn [mbind go_bind]; [|by intros [= <- <-]].
    destruct (GenerateChain _ _ _ _) as [[blk rs]|w] eqn:Hg; cbn [mbind go_bind]; [|done].
    destruct (set_pending _ _ _) as [b1|w] eqn:Hp; cbn [mbind go_bind]; [|done]. intros [= <- <-].
    apply set_pending_fields in Hp as (Hp & _).
    apply generated in Hg as (G1 & G2 & G3 & _). apply found in Hb. unfold pending_is. cbn [fst snd].
    rewrite Hp, G1, G2, Hb, H1. apply Nat.eqb_eq, nil_length_inv in Hl. rewrite <- H2, Hl. split_and!; try done. congruence.
Qed.

(** C34: After any operations from a new backend, the pending block holds exactly the
    transactions accepted since the last commit, rollback or fork, in order, on the block
    that operation left as parent; a refused transaction or fork changes nothing. *)
Theorem pending_block_refines chain b0 os b parent txs :
  NewSimulatedBackend chain = Ret b0 →
  sim_run os (b0, (bk_Hash (CurrentBlock chain), [])) = Ret (b, (parent, txs)) →
  bk_ParentHash (pendingBlock b) = parent ∧ bk_Transactions (pendingBlock b) = txs.
Proof.
  intros H0. apply rollback_pending in H0. revert H0. generalize (bk_Hash (CurrentBlock chain), @nil Transaction).
  revert b0. induction os as [|o os IH]; intros b0 spec Hp Hr; cbn [sim_run] in Hr.
  { injection Hr as <- ->. by destruct Hp as (? & ? & _). }
  destruct (sim_apply o (b0, spec)) as [[b1 spec1]|w] eqn:Ha; cbn [mbind go_bind] in Hr; [|done].
  eapply IH; [|exact Hr]. by eapply sim_apply_pending.
Qed.

(** A transaction out of turn is refused and leaves the backend as it is. *)
Theorem SendTransaction_nonce tx b block sender st :
  blockByHash (bk_ParentHash (pendingBlock b)) b = Ok block → Sender tx block = Ok sender →
  pendingState b = Some st → tx_Nonce tx ≠ st_GetNonce sender st →
  ∃ e, SendTransaction tx b = Ret (Some e, b).
Proof.
  intros H1 H2 H3 H4. unfold SendTransaction. rewrite H1, H2, H3, (proj2 (Z.eqb_neq _ _) H4). by eexists.
Qed.

(** The index of [TransactionInBlock] wraps: the largest one passes the range test and the
    slice access panics, in every block. *)
Theorem TransactionInBlock_wraps h b block :
  blockByHash h b = Ok block → Z.of_nat (length (bk_Transactions block)) < two63 →
  TransactionInBlock h (two64 - 1) b = Panic index_out_of_range.
Proof.
  intros Hb Hlen. unfold TransactionInBlock. rewrite Hb.
  replace (u64 (two64 - 1 + 1)) with 0 by reflexivity.
  rewrite (proj2 (Z.ltb_ge _ _)) by lia.
  rewrite lookup_ge_None_2; [done|]. unfold two63, two64 in *. lia.
Qed.

End Claims.

(** ** A concrete chain *)
Module SimulatedBackendSample.

(** The chain is the list of its blocks, latest first; a message needs 30000 gas; nonces are
    all zero. *)
Definition genesis : SimBlock := mkSimBlock 1000 0 0 0 15000000 (Some 7) [] 0.

Definition chain_head (ch : list SimBlock) : SimBlock := default genesis (head ch).

Definition run_message (m : Message) : ExecutionResult :=
  if msg_GasLimit m <? 30000 then mkResult (Some vm_ErrOutOfGas) [] [] else mkResult None [] [].

Definition geth_with (run_message : Message → ExecutionResult) : Geth (list SimBlock) unit := {|
  CurrentBlock := chain_head;
  GetBlockByHash h ch := List.find (fun b => bk_Hash b =? h) ch;
  GetBlockByNumber n ch := List.find (fun b => bk_Number b =? n) ch;
  InsertChain b ch := Ok (b :: ch);
  StateAt _ _ := Ok tt;
  IsLondon _ := true;
  WriteTxLookupEntriesByBlock _ ch := ch;
  GenerateChain p txs off ch :=
    Ret (mkSimBlock (bk_Hash p + 1 + Z.of_nat (length txs)) (bk_Hash p) (bk_Number p + 1) 0 15000000 (Some 7) txs (bk_Time p + 10 + off),
         map (fun tx => mkReceipt 1 (tx_Nonce tx) (bk_Number p + 1)) txs);
  Sender _ _ := Ok 5;
  st_GetBalance _ _ := 1000000;
  st_GetNonce _ _ := 0;
  st_GetCode _ _ := [];
  st_GetState _ _ _ := 0;
  SetBalance _ _ s := s;
  ApplyMessage m _ s := (Ok (run_message m), s);
  UnpackRevert _ := Err (FmtError "no reason")
|}.

Definition geth : Geth (list SimBlock) unit := geth_with run_message.

(** A backend on which every message fails. *)
Definition reverting : Geth (list SimBlock) unit := geth_with (fun _ => mkResult (Some (FmtError "execution reverted")) [] []).

Lemma laws : GethLaws (G := geth).
Proof.
  split.
  - intros p txs off ch blk rs [= <- <-]. cbn. rewrite length_map. split_and!; try done. lia.
  - intros h ch blk Hf. apply List.find_some in Hf as [_ Hf]. cbn in Hf. by apply Z.eqb_eq in Hf.
Qed.

Definition b0 : SimulatedBackend (list SimBlock) unit :=
  match NewSimulatedBackend (G := geth) [genesis] with Ret b => b | Panic _ => mkBackend [] genesis None [] end.

Definition call : CallMsg := mkCall 5 (Some 6) 0 None (Some 10) None (Some 100) [].

Lemma EstimateGas_correct_witness : EstimateGas (G := geth) 64 call b0 = Ret (Some (Ok 30000)).
Proof.
  destruct (EstimateGas_correct (G := geth) call b0 tt 99990 (fun g => if g =? 0 then false else g <? 30000) 64)
    as (r & H & Hr); [reflexivity|vm_compute; reflexivity|unfold two63; lia|lia| |].
  - intros g. unfold executable, callContract. cbn. destruct (g =? 0) eqn:Hg; cbn; [by eexists|].
    unfold run_message, Failed. cbn. destruct (g <? 30000); by eexists.
  - rewrite H. destruct r as [g|e]; [|discriminate]. destruct Hr as (H1 & H2 & H3 & _).
    do 3 f_equal. destruct (Z.eqb_spec g 0) as [->|H0]; [vm_compute in H; discriminate|].
    apply Z.ltb_ge in H2. destruct (decide (g = 30000)) as [|Hne]; [done|].
    assert (Hlt : TxGas < g) by (unfold TxGas; lia). specialize (H3 Hlt).
    destruct (Z.eqb_spec (g - 1) 0); [lia|]. apply Z.ltb_lt in H3. lia.
Defined.

(** It is asked with the largest gas and no price; a million turns do not end. *)
Lemma EstimateGas_never_ends_witness :
  EstimateGas (G := reverting) (1000 * 1000) (mkCall 5 (Some 6) (two64 - 1) None None None None []) b0 = Ret None.
Proof.
  apply (EstimateGas_never_ends (G := reverting) _ b0 tt); [reflexivity|vm_compute; reflexivity|].
  intros g. by eexists.
Defined.

Definition tx : Transaction := mkTx 1337 0 1 1 21000 (Some 6) None [].

Lemma pending_block_refines_witness :
  ∃ b parent, sim_run (G := geth) [sim_send tx; sim_commit; sim_send tx; sim_send (mkTx 1337 1 1 1 21000 None None [])]
      (b0, (1000, [])) = Ret (b, (parent, [tx])) ∧ bk_Transactions (pendingBlock b) = [tx].
Proof.
  do 2 eexists. assert (Hr : sim_run (G := geth)
    [sim_send tx; sim_commit; sim_send tx; sim_send (mkTx 1337 1 1 1 21000 None None [])] (b0, (1000, [])) =
    Ret (mkBackend [mkSimBlock 1002 1000 1 0 15000000 (Some 7) [tx] 10; genesis]
           (mkSimBlock 1004 1002 2 0 15000000 (Some 7) [tx] 20) (Some tt) [mkReceipt 1 0 2], (1002, [tx]))) by (vm_compute; reflexivity).
  split; [exact Hr|].
  apply (pending_block_refines (G := geth) (L := laws) [genesis] b0 _ _ _ _ eq_refl Hr).
Defined.

Lemma SendTransaction_nonce_witness :
  ∃ e, SendTransaction (G := geth) (mkTx 1337 1 1 1 21000 None None []) b0 = Ret (Some e, b0).
Proof.
  apply (SendTransaction_nonce (G := geth) _ b0 genesis 5 tt); [vm_compute; reflexivity|reflexivity|reflexivity|discriminate].
Defined.

Lemma TransactionInBlock_wraps_witness :
  TransactionInBlock (G := geth) 1000 (two64 - 1) b0 = Panic index_out_of_range.
Proof.
  apply (TransactionInBlock_wraps (G := geth) 1000 b0 genesis); [vm_compute; reflexivity|vm_compute; reflexivity].
Defined.

End SimulatedBackendSample.
