(* ===== verification/SimulatedReaders.v ===== *)
(** * The simulated backend: options, lookups, logs and subscriptions

    Models the rest of ops/backends/simulated.go: the options of a new backend, receipts,
    transactions and headers, log filters, the subscriptions and the backend of the filter
    system.  go-ethereum's database readers and filters are parameters. *)

From S2P Require Import Prelude Errors Types Bridge FeeHook SimulatedBackend.

Definition ethereum_NotFound := ErrorString "not found".

(** ** Options *)

(** [params.ChainConfig]: the forks, by block or by time; nil when one is not scheduled. *)
Record ChainConfig := mkChainConfig {
  cc_ChainID : Z;
  cc_DAOForkBlock : option Z;
  cc_forkBlocks : list (string * Z);
  cc_ShanghaiTime : option Z;
  cc_CancunTime : option Z;
  cc_TerminalTotalDifficulty : option Z;
  cc_TerminalTotalDifficultyPassed : bool
}.

(** [core.Genesis], the fields that are set; [A] is the type of the accounts. *)
Record SimGenesis (A : Type) := mkSimGenesis {
  sg_Config : ChainConfig;
  sg_Timestamp : Z;
  sg_Difficulty : option Z;
  sg_GasLimit : Z;
  sg_Alloc : A
}.
Arguments mkSimGenesis {A}.
Arguments sg_Config {A}.
Arguments sg_Timestamp {A}.
Arguments sg_Difficulty {A}.
Arguments sg_GasLimit {A}.
Arguments sg_Alloc {A}.

Section Options.
Context {A Cache Db Vm Engine : Type}.

Record simulatedBackendConfig := mkSimConfig {
  genesis : SimGenesis A;
  cacheConfig : option Cache;
  database : Db;
  vmConfig : Vm;
  consensus : Engine
}.

Definition SimulatedBackendOpt : Type := simulatedBackendConfig → simulatedBackendConfig.

Definition WithDatabase (db : Db) : SimulatedBackendOpt := λ s,
  mkSimConfig (genesis s) (cacheConfig s) db (vmConfig s) (consensus s).
Definition WithGasLimit (gasLimit : Z) : SimulatedBackendOpt := λ s,
  mkSimConfig (mkSimGenesis (sg_Config (genesis s)) (sg_Timestamp (genesis s)) (sg_Difficulty (genesis s)) gasLimit (sg_Alloc (genesis s))) (cacheConfig s) (database s) (vmConfig s) (consensus s).
Definition WithAlloc (alloc : A) : SimulatedBackendOpt := λ s,
  mkSimConfig (mkSimGenesis (sg_Config (genesis s)) (sg_Timestamp (genesis s)) (sg_Difficulty (genesis s)) (sg_GasLimit (genesis s)) alloc) (cacheConfig s) (database s) (vmConfig s) (consensus s).
Definition WithCacheConfig (c : option Cache) : SimulatedBackendOpt := λ s,
  mkSimConfig (genesis s) c (database s) (vmConfig s) (consensus s).
Definition WithGenesis (g : SimGenesis A) : SimulatedBackendOpt := λ s,
  mkSimConfig g (cacheConfig s) (database s) (vmConfig s) (consensus s).
Definition WithVMConfig (v : Vm) : SimulatedBackendOpt := λ s,
  mkSimConfig (genesis s) (cacheConfig s) (database s) v (consensus s).
Definition WithConsensus (e : Engine) : SimulatedBackendOpt := λ s,
  mkSimConfig (genesis s) (cacheConfig s) (database s) (vmConfig s) e.

(** The default configuration, given go-ethereum's [AllEthashProtocolChanges], its memory
    database and its fake engine. *)
Definition default_config (ethash : ChainConfig) (noAlloc : A) (memory : Db) (vm : Vm) (faker : Engine) : simulatedBackendConfig :=
  mkSimConfig (mkSimGenesis ethash 0 None 100000000 noAlloc) None memory vm faker.

(** The options are applied in order; [open] commits the genesis and opens the chain. *)
Definition NewSimulatedBackendWithOpts {CH S : Type} `{Geth CH S} (open : simulatedBackendConfig → CH)
    (default : simulatedBackendConfig) (opts : list SimulatedBackendOpt) : go (SimulatedBackend CH S) :=
  let config := fold_left (λ c opt, opt c) opts default in
  SimulatedBackend.NewSimulatedBackend (open config).

Definition NewSimulatedBackendWithDatabase {CH S : Type} `{Geth CH S} (open : simulatedBackendConfig → CH)
    (default : simulatedBackendConfig) (db : Db) (alloc : A) (gasLimit : Z) : go (SimulatedBackend CH S) :=
  NewSimulatedBackendWithOpts open default [WithDatabase db; WithAlloc alloc; WithGasLimit gasLimit].

Definition NewSimulatedBackend {CH S : Type} `{Geth CH S} (open : simulatedBackendConfig → CH)
    (default : simulatedBackendConfig) (alloc : A) (gasLimit : Z) : go (SimulatedBackend CH S) :=
  NewSimulatedBackendWithOpts open default [WithGasLimit gasLimit; WithAlloc alloc].

End Options.
Arguments simulatedBackendConfig : clear implicits.

(** ** ops/deployer: the backend of the L2 deployments *)

Definition ChainID : Z := 1337.
Definition ether : Z := 10 ^ 18.
Definition thousandETH : Z := ether * 1000.

(** The chain configuration; [shanghai] schedules that fork at the genesis. *)
Definition deployer_config (shanghai : bool) : ChainConfig :=
  mkChainConfig ChainID None
    (map (λ name, (name, 0))
       ["Homestead"; "EIP150"; "EIP155"; "EIP158"; "Byzantium"; "Constantinople"; "Petersburg"; "Istanbul";
        "MuirGlacier"; "Berlin"; "London"; "ArrowGlacier"; "GrayGlacier"; "MergeNetsplit"]%string)
    (if shanghai then Some 0 else None) None (Some 0) true.

(** [NewBackendWithGenesisTimestamp]: a cache with preimages, a genesis with one rich account,
    and the proof-of-stake engine of go-ethereum. *)
Definition NewBackendWithGenesisTimestamp {Cache Db Vm Engine CH S : Type} `{Geth CH S}
    (open : simulatedBackendConfig (gmap Address Z) Cache Db Vm Engine → CH)
    (default : simulatedBackendConfig (gmap Address Z) Cache Db Vm Engine)
    (preimages : Cache) (beacon : Engine) (TestAddress : Address) (ts : Z) (shanghai : bool)
    : go (SimulatedBackend CH S) :=
  NewSimulatedBackendWithOpts open default
    [WithCacheConfig (Some preimages);
     WithGenesis (mkSimGenesis (deployer_config shanghai) ts (Some 0) 15000000 {[ TestAddress := thousandETH ]});
     WithConsensus beacon].

Definition NewL2Backend {Cache Db Vm Engine CH S : Type} `{Geth CH S}
    (open : simulatedBackendConfig (gmap Address Z) Cache Db Vm Engine → CH)
    (default : simulatedBackendConfig (gmap Address Z) Cache Db Vm Engine)
    (preimages : Cache) (beacon : Engine) (TestAddress : Address) : go (SimulatedBackend CH S) :=
  NewBackendWithGenesisTimestamp open default preimages beacon TestAddress 0 false.

(** ** Transactions, receipts and headers *)

(** The readers of the database, and the hash of a transaction. *)
Class Rawdb (CH : Type) := {
  tx_Hash : Transaction → Hash;
  ReadReceipt : Hash → CH → option Receipt;
  ReadTransaction : Hash → CH → option Transaction;
  GetHeaderByHash : Hash → CH → option SimBlock;
  GetHeaderByNumber : Z → CH → option SimBlock;
  CurrentFinalBlock : CH → option SimBlock;
  CurrentSafeBlock : CH → option SimBlock;
  GetBody : Hash → CH → option (list Transaction);
  ReadHeaderNumber : Hash → CH → option Z;
  ReadHeader : Hash → Z → CH → option SimBlock;
  ReadReceipts : Hash → Z → Z → CH → list Receipt;
  ReadLogs : Hash → Z → CH → list (list Z)
}.

(** [rpc.BlockNumber]'s reserved values. *)
Definition SafeBlockNumber : Z := -4.
Definition FinalizedBlockNumber : Z := -3.
Definition LatestBlockNumber : Z := -2.
Definition PendingBlockNumber : Z := -1.

Section Readers.
Context {CH S : Type} `{G : Geth CH S} `{R : Rawdb CH}.
Implicit Types b : SimulatedBackend CH S.

(** [Block.Transaction]: the first one with the hash. *)
Definition block_Transaction (hash : Hash) (block : SimBlock) : option Transaction :=
  List.find (λ tx, tx_Hash tx =? hash) (bk_Transactions block).

Definition TransactionReceipt (txHash : Hash) b : result Receipt :=
  match ReadReceipt txHash (blockchain b) with
  | None => Err ethereum_NotFound
  | Some receipt => Ok receipt
  end.

(** The transaction, and whether it is pending. *)
Definition TransactionByHash (txHash : Hash) b : result (Transaction * bool) :=
  match block_Transaction txHash (pendingBlock b) with
  | Some tx => Ok (tx, true)
  | None =>
      match ReadTransaction txHash (blockchain b) with
      | Some tx => Ok (tx, false)
      | None => Err ethereum_NotFound
      end
  end.

Definition BlockByHash (hash : Hash) b : result SimBlock := blockByHash hash b.
Definition BlockByNumber (number : option Z) b : result SimBlock := blockByNumber number b.

Definition HeaderByHash (hash : Hash) b : result SimBlock :=
  if hash =? bk_Hash (pendingBlock b) then Ok (pendingBlock b)
  else
    match GetHeaderByHash hash (blockchain b) with
    | None => Err errBlockDoesNotExist
    | Some header => Ok header
    end.

(** A missing header is nil, without an error. *)
Definition HeaderByNumber (block : option Z) b : result (option SimBlock) :=
  match block with
  | None => Ok (Some (CurrentBlock (blockchain b)))
  | Some n =>
      if n =? bk_Number (pendingBlock b) then Ok (Some (CurrentBlock (blockchain b)))
      else Ok (GetHeaderByNumber (u64 (s64 n)) (blockchain b))
  end.

Definition PendingCodeAt (contract : Address) b : go bytes :=
  match pendingState b with None => Panic nil_deref | Some st => Ret (st_GetCode contract st) end.

Definition Blockchain b : CH := blockchain b.

(** ** Logs *)

(** [ethereum.FilterQuery]. *)
Record FilterQuery := mkQuery {
  q_BlockHash : option Hash;
  q_FromBlock : option Z;
  q_ToBlock : option Z;
  q_Addresses : list Address;
  q_Topics : list (list Hash)
}.

(** The two filters of the filter system. *)
Inductive Filter : Type :=
| BlockFilter (hash : Hash) (addresses : list Address) (topics : list (list Hash))
| RangeFilter (from to : Z) (addresses : list Address) (topics : list (list Hash)).

Definition filter_of (query : FilterQuery) : Filter :=
  match q_BlockHash query with
  | Some h => BlockFilter h (q_Addresses query) (q_Topics query)
  | None =>
      let from := match q_FromBlock query with Some n => s64 n | None => 0 end in
      let to := match q_ToBlock query with Some n => s64 n | None => -1 end in
      RangeFilter from to (q_Addresses query) (q_Topics query)
  end.

(** [FilterLogs]; [Logs] runs a filter. *)
Definition FilterLogs {Log : Type} (Logs : Filter → result (list Log)) (query : FilterQuery) : result (list Log) :=
  match Logs (filter_of query) with Err e => Err e | Ok logs => Ok logs end.

(** ** The backend of the filter system *)

Definition fb_HeaderByNumber (number : Z) b : option SimBlock :=
  if number =? PendingBlockNumber then Some (pendingBlock b)
  else if number =? LatestBlockNumber then Some (CurrentBlock (blockchain b))
  else if number =? FinalizedBlockNumber then CurrentFinalBlock (blockchain b)
  else if number =? SafeBlockNumber then CurrentSafeBlock (blockchain b)
  else GetHeaderByNumber (u64 number) (blockchain b).

Definition fb_HeaderByHash (hash : Hash) b : option SimBlock := GetHeaderByHash hash (blockchain b).

Definition fb_GetBody (hash : Hash) b : result (list Transaction) :=
  match GetBody hash (blockchain b) with
  | Some body => Ok body
  | None => Err (FmtError "block body not found")
  end.

Definition PendingBlockAndReceipts b : SimBlock * list Receipt := (pendingBlock b, pendingReceipts b).

Definition GetReceipts (hash : Hash) b : list Receipt :=
  match ReadHeaderNumber hash (blockchain b) with
  | None => []
  | Some number =>
      match ReadHeader hash number (blockchain b) with
      | None => []
      | Some header => ReadReceipts hash number (bk_Time header) (blockchain b)
      end
  end.

Definition GetLogs (hash : Hash) (number : Z) b : list (list Z) := ReadLogs hash number (blockchain b).

Definition BloomStatus : Z * Z := (4096, 0).

(** The methods that are not supported: EventMux, ServiceFilter, ChainConfig, CurrentHeader. *)
Definition EventMux : go unit := Panic "not supported".
Definition ServiceFilter : go unit := Panic "not supported".
Definition fb_ChainConfig : go unit := Panic "not supported".
Definition fb_CurrentHeader : go unit := Panic "not supported".

End Readers.

(** ** Subscriptions

    The goroutine of a subscription takes items from the event system and hands them to the
    subscriber, until the subscription fails or is ended.  The events decide what happens
    next: the select is free when several cases are ready. *)

Inductive sub_event (A : Type) : Type :=
| ev_sink (items : list A)     (* the event system sends a batch *)
| ev_take                      (* the subscriber takes the next item *)
| ev_err (e : option error)    (* the error channel, or its end *)
| ev_quit.
Arguments ev_sink {A} items.
Arguments ev_take {A}.
Arguments ev_err {A} e.
Arguments ev_quit {A}.

(** Waiting, handing out the items of a batch, or done with an error. *)
Inductive sub_state (A : Type) : Type :=
| ss_waiting
| ss_sending (item : A) (rest : list A)
| ss_done (e : option error).
Arguments ss_waiting {A}.
Arguments ss_sending {A} item rest.
Arguments ss_done {A} e.

Definition sending {A} (items : list A) : sub_state A :=
  match items with [] => ss_waiting | x :: xs => ss_sending x xs end.

(** One step: the new state and the item delivered; [None] when the event cannot happen. *)
Definition sub_step {A} (ev : sub_event A) (s : sub_state A) : option (sub_state A * list A) :=
  match s, ev with
  | ss_waiting, ev_sink items => Some (sending items, [])
  | ss_sending x xs, ev_take => Some (sending xs, [x])
  | ss_waiting, ev_err e | ss_sending _ _, ev_err e => Some (ss_done e, [])
  | ss_waiting, ev_quit | ss_sending _ _, ev_quit => Some (ss_done None, [])
  | _, _ => None
  end.

(** [SubscribeFilterLogs]: batches of logs. *)
Definition SubscribeFilterLogs {Log : Type} : sub_event Log → sub_state Log → option (sub_state Log * list Log) := sub_step.

(** [SubscribeNewHead]: one header at a time. *)
Definition SubscribeNewHead (ev : sub_event SimBlock) (s : sub_state SimBlock) : option (sub_state SimBlock * list SimBlock) :=
  match ev with
  | ev_sink [_] | ev_take | ev_err _ | ev_quit => sub_step ev s
  | ev_sink _ => None
  end.

(** [nullSubscription]: waits for its end. *)
Definition nullSubscription (ev : sub_event unit) (s : sub_state unit) : option (sub_state unit * list unit) :=
  match s, ev with ss_waiting, ev_quit => Some (ss_done None, []) | _, _ => None end.

(** A run of a subscription: what was received from the event system and what was delivered. *)
Fixpoint sub_run {A} (step : sub_event A → sub_state A → option (sub_state A * list A))
    (evs : list (sub_event A)) (s : sub_state A) : option (sub_state A * list A * list A) :=
  match evs with
  | [] => Some (s, [], [])
  | ev :: evs =>
      match step ev s with
      | None => None
      | Some (s1, out) =>
          match sub_run step evs s1 with
          | None => None
          | Some (s2, received, delivered) =>
              Some (s2, (match ev with ev_sink items => items | _ => [] end) ++ received, out ++ delivered)
          end
      end
  end.

(** ** Theorems *)

(** Both short constructors set the accounts and the gas limit of the default configuration. *)
Lemma constructors_agree {A Cache Db Vm Engine CH S : Type} `{Geth CH S}
    (open : simulatedBackendConfig A Cache Db Vm Engine → CH) default alloc gasLimit :
  NewSimulatedBackend open default alloc gasLimit =
  NewSimulatedBackendWithDatabase open default (database default) alloc gasLimit.
Proof. done. Qed.

(** A genesis given after the accounts replaces them. *)
Lemma genesis_after_alloc {A Cache Db Vm Engine CH S : Type} `{Geth CH S}
    (open : simulatedBackendConfig A Cache Db Vm Engine → CH) default alloc g :
  NewSimulatedBackendWithOpts open default [WithAlloc alloc; WithGenesis g] =
  NewSimulatedBackendWithOpts open default [WithGenesis g].
Proof. done. Qed.

(** Without bounds a query runs from the genesis to the pending block, not to the head. *)
Lemma unset_bounds q : q_BlockHash q = None → q_FromBlock q = None → q_ToBlock q = None →
  filter_of q = RangeFilter 0 PendingBlockNumber (q_Addresses q) (q_Topics q).
Proof. unfold filter_of. by intros -> -> ->. Qed.

Section ReaderFacts.
Context {CH S : Type} `{G : Geth CH S} `{R : Rawdb CH} `{L : !GethLaws}.
Implicit Types b : SimulatedBackend CH S.

(** Hashes identify transactions; the entries written for an inserted block are read back. *)
Class RawdbLaws := {
  tx_Hash_inj tx tx' : tx_Hash tx = tx_Hash tx' → tx = tx';
  lookup_written blk ch ch' tx : InsertChain blk ch = Ok ch' → tx ∈ bk_Transactions blk →
    ReadTransaction (tx_Hash tx) (WriteTxLookupEntriesByBlock blk ch') = Some tx
}.

Lemma rollback_fields parent b b' : rollback parent b = Ret b' →
  bk_Transactions (pendingBlock b') = [] ∧ bk_ParentHash (pendingBlock b') = bk_Hash parent ∧
  blockchain b' = blockchain b ∧ pendingReceipts b' = pendingReceipts b.
Proof.
  unfold rollback. destruct (GenerateChain _ _ _ _) as [[blk rs]|] eqn:Hg; cbn; [|done]. intros [= <-].
  by apply generated in Hg as (H1 & H2 & _).
Qed.

Lemma SendTransaction_fields tx b b' : SendTransaction tx b = Ret (None, b') →
  bk_Transactions (pendingBlock b') = bk_Transactions (pendingBlock b) ++ [tx] ∧ blockchain b' = blockchain b ∧
  length (pendingReceipts b') = Datatypes.S (length (bk_Transactions (pendingBlock b))).
Proof.
  unfold SendTransaction. destruct (blockByHash _ b); [|done]. destruct (Sender _ _); [|done]. destruct (pendingState b); [|done].
  destruct (negb _); [done|]. destruct (GenerateChain _ _ _ _) as [[blk rs]|] eqn:Hg; cbn; [|done].
  destruct (set_pending _ _ _) as [b1|] eqn:Hp; cbn; [|done]. intros [= <-]. apply set_pending_fields in Hp as (-> & -> & ->).
  apply generated in Hg as (_ & H2 & _ & _ & H5). rewrite H2, H5, length_app. cbn. split_and!; [done|done|lia].
Qed.

(** A refused transaction changes nothing. *)
Lemma SendTransaction_refused tx b e b' : SendTransaction tx b = Ret (Some e, b') → b' = b.
Proof.
  unfold SendTransaction. destruct (blockByHash _ b); [|by intros [= _ <-]]. destruct (Sender _ _); [|by intros [= _ <-]].
  destruct (pendingState b); [|done]. destruct (negb _); [by intros [= _ <-]|].
  destruct (GenerateChain _ _ _ _) as [[blk rs]|]; cbn; [|done]. by destruct (set_pending _ _ _).
Qed.

Lemma Commit_fields b h b' : Commit b = Ret (h, b') →
  h = bk_Hash (pendingBlock b) ∧ bk_Transactions (pendingBlock b') = [] ∧ bk_ParentHash (pendingBlock b') = h ∧
  pendingReceipts b' = pendingReceipts b ∧
  ∃ ch, InsertChain (pendingBlock b) (blockchain b) = Ok ch ∧ blockchain b' = WriteTxLookupEntriesByBlock (pendingBlock b) ch.
Proof.
  unfold Commit. destruct (InsertChain _ _) as [ch|]; [|done].
  destruct (rollback _ _) as [b1|] eqn:Hr; cbn; [|done]. intros [= <- <-]. apply rollback_fields in Hr as (H1 & H2 & H3 & H4).
  split_and!; try done. by exists ch.
Qed.

Lemma find_hash tx l : RawdbLaws → tx ∈ l → List.find (λ t, tx_Hash t =? tx_Hash tx) l = Some tx.
Proof.
  intros HL. induction l as [|t l IH]; intros Hin; [by apply elem_of_nil in Hin|]. cbn.
  destruct (Z.eqb_spec (tx_Hash t) (tx_Hash tx)) as [E|E]; [by rewrite (tx_Hash_inj _ _ E)|].
  apply IH. apply elem_of_cons in Hin as [->|Hin]; done.
Qed.

(** The operations that do not end the pending block: everything but a commit and a rollback. *)
Definition keeps_pending (o : sim_op) : bool := match o with sim_commit | sim_rollback => false | _ => true end.

(** On a pending block with transactions, a fork and a shift of the clock are refused. *)
Lemma sim_apply_keeps o b b' s s' : keeps_pending o = true → bk_Transactions (pendingBlock b) ≠ [] →
  sim_apply o (b, s) = Ret (b', s') →
  blockchain b' = blockchain b ∧ bk_Transactions (pendingBlock b) `prefix_of` bk_Transactions (pendingBlock b').
Proof.
  destruct s as [parent txs]. intros Ho Hne. destruct o as [tx| | |h|d]; try done; cbn [sim_apply].
  - destruct (SendTransaction tx b) as [[[e|] b1]|] eqn:Hs; cbn [mbind go_bind]; [| |done].
    + intros [= <- _]. apply SendTransaction_refused in Hs as ->. done.
    + intros [= <- _]. apply SendTransaction_fields in Hs as (-> & -> & _). split; [done|]. by eexists.
  - unfold Fork. destruct (bk_Transactions (pendingBlock b)) as [|t ts] eqn:Ht; [done|]. cbn.
    intros [= <- _]. by rewrite Ht.
  - unfold AdjustTime. destruct (bk_Transactions (pendingBlock b)) as [|t ts] eqn:Ht; [done|]. cbn.
    intros [= <- _]. by rewrite Ht.
Qed.

Lemma sim_run_keeps os : ∀ b b' s s', forallb keeps_pending os = true → bk_Transactions (pendingBlock b) ≠ [] →
  sim_run os (b, s) = Ret (b', s') →
  blockchain b' = blockchain b ∧ bk_Transactions (pendingBlock b) `prefix_of` bk_Transactions (pendingBlock b').
Proof.
  induction os as [|o os IH]; intros b b' s s' Ho Hne Hr; cbn [sim_run] in Hr; [by injection Hr as <- _|].
  cbn [forallb] in Ho. apply andb_true_iff in Ho as [Ho Hos].
  destruct (sim_apply o (b, s)) as [[b1 s1]|] eqn:H1; cbn [mbind go_bind] in Hr; [|done].
  apply sim_apply_keeps in H1 as [Hc Hp]; [|done..].
  assert (Hne1 : bk_Transactions (pendingBlock b1) ≠ []) by (intros E; rewrite E in Hp; by apply prefix_nil_inv in Hp).
  destruct (IH _ _ _ _ Hos Hne1 Hr) as [-> Hp']. split; [done|by etransitivity].
Qed.

(** C35: The life of a transaction that was accepted.  Whatever follows that is neither a commit
    nor a rollback (further transactions, accepted or not, forks, shifts of the clock), it is
    found as pending; a commit then puts it in the block whose hash is returned, and right
    after it the transaction is found as mined; a rollback instead leaves what the database
    knew about it before it was sent. *)
Theorem transaction_lifecycle `{RL : !RawdbLaws} tx b b1 os b2 s s' :
  SendTransaction tx b = Ret (None, b1) → forallb keeps_pending os = true → sim_run os (b1, s) = Ret (b2, s') →
  TransactionByHash (tx_Hash tx) b2 = Ok (tx, true) ∧
  (∀ h b3, Commit b2 = Ret (h, b3) →
     h = bk_Hash (pendingBlock b2) ∧ tx ∈ bk_Transactions (pendingBlock b2) ∧
     TransactionByHash (tx_Hash tx) b3 = Ok (tx, false)) ∧
  (∀ b3, Rollback b2 = Ret b3 → TransactionByHash (tx_Hash tx) b3 =
     match ReadTransaction (tx_Hash tx) (blockchain b) with Some t => Ok (t, false) | None => Err ethereum_NotFound end).
Proof.
  intros (Htx & Hch & _)%SendTransaction_fields Hos Hr.
  assert (Hin1 : tx ∈ bk_Transactions (pendingBlock b1)) by (rewrite Htx; apply elem_of_app; right; by constructor).
  apply sim_run_keeps in Hr as [Hch2 Hp]; [|done|by intros E; rewrite E in Hin1; apply elem_of_nil in Hin1].
  assert (Hin : tx ∈ bk_Transactions (pendingBlock b2)) by (destruct Hp as [l ->]; apply elem_of_app; by left).
  unfold TransactionByHash, block_Transaction. split; [by rewrite find_hash|]. split.
  - intros h b3 (-> & Hp3 & _ & _ & ch & Hi & Hc)%Commit_fields. split; [done|]. split; [done|].
    rewrite Hp3, Hc. cbn. by rewrite (lookup_written _ _ _ _ Hi Hin).
  - intros b3 Hroll. apply rollback_fields in Hroll as (Hp3 & _ & Hc & _). by rewrite Hp3, Hc, Hch2, Hch.
Qed.

(** The receipts of the pending block survive it: after a commit, a rollback or a shift of the
    clock the filter system is given the new empty block with the receipts of the old one. *)
Theorem pending_receipts_stale tx b b1 b2 : SendTransaction tx b = Ret (None, b1) →
  (∃ h, Commit b1 = Ret (h, b2)) ∨ Rollback b1 = Ret b2 →
  bk_Transactions (PendingBlockAndReceipts b2).1 = [] ∧
  (PendingBlockAndReceipts b2).2 = pendingReceipts b1 ∧ (PendingBlockAndReceipts b2).2 ≠ [].
Proof.
  intros (_ & _ & Hl)%SendTransaction_fields H. cbn.
  assert (Hf : bk_Transactions (pendingBlock b2) = [] ∧ pendingReceipts b2 = pendingReceipts b1).
  { destruct H as [[h Hc]|Hr]; [by apply Commit_fields in Hc as (_ & ? & _ & ? & _)|by apply rollback_fields in Hr as (? & _ & _ & ?)]. }
  destruct Hf as [-> ->]. split_and!; try done. by destruct (pendingReceipts b1).
Qed.

Lemma AdjustTime_fields d b b' : AdjustTime d b = Ret (None, b') →
  ∃ parent, GetBlockByHash (bk_ParentHash (pendingBlock b)) (blockchain b) = Some parent ∧
    bk_Time (pendingBlock b') = bk_Time parent + 10 + whole_seconds d ∧
    bk_ParentHash (pendingBlock b') = bk_ParentHash (pendingBlock b) ∧ blockchain b' = blockchain b.
Proof.
  unfold AdjustTime. destruct (negb _); [done|]. destruct (GetBlockByHash _ _) as [parent|] eqn:Hf; [|done].
  destruct (GenerateChain _ _ _ _) as [[blk rs]|] eqn:Hg; cbn; [|done].
  destruct (set_pending _ _ _) as [b1|] eqn:Hp; cbn; [|done]. intros [= <-]. apply set_pending_fields in Hp as (-> & _ & ->).
  apply generated in Hg as (H1 & _ & _ & H4 & _). apply found in Hf as Hh. exists parent. by rewrite H4, H1, Hh.
Qed.

(** A second shift of the clock replaces the first one. *)
Theorem adjustments_do_not_add d1 d2 b b1 b2 : AdjustTime d1 b = Ret (None, b1) → AdjustTime d2 b1 = Ret (None, b2) →
  bk_Time (pendingBlock b2) = bk_Time (pendingBlock b1) - whole_seconds d1 + whole_seconds d2.
Proof.
  intros (p1 & F1 & T1 & P1 & C1)%AdjustTime_fields (p2 & F2 & T2 & _)%AdjustTime_fields.
  rewrite P1, C1, F1 in F2. injection F2 as <-. lia.
Qed.

End ReaderFacts.

(** The items of a state that are not delivered yet. *)
Definition undelivered {A} (s : sub_state A) : list A := match s with ss_sending x xs => x :: xs | _ => [] end.

Lemma sub_step_inv {A} (ev : sub_event A) s s' out : sub_step ev s = Some (s', out) →
  (∃ e, s' = ss_done e ∧ out = []) ∨
  undelivered s ++ match ev with ev_sink items => items | _ => [] end = out ++ undelivered s' ∧ (∀ e, s' ≠ ss_done e).
Proof.
  destruct s, ev; cbn; intros H; try done; injection H as <- <-; try (left; by eexists); right.
  - split; [|intros e]; by destruct items.
  - rewrite app_nil_r. split; [|intros e]; by destruct rest.
Qed.

(** Whatever the schedule, a subscriber is given the items of the event system in order and
    without a gap; while the subscription is alive only those of the batch at hand are missing,
    and none when it waits for the next one. *)
Theorem subscription_in_order {A} (evs : list (sub_event A)) s received delivered :
  sub_run sub_step evs ss_waiting = Some (s, received, delivered) →
  (∃ rest, received = delivered ++ rest ∧ ((∃ e, s = ss_done e) ∨ rest = undelivered s)).
Proof.
  assert (Hg : ∀ evs (s0 : sub_state A) s received delivered, sub_run sub_step evs s0 = Some (s, received, delivered) →
    ∃ rest, undelivered s0 ++ received = delivered ++ rest ∧ ((∃ e, s = ss_done e) ∨ rest = undelivered s)).
  { clear. induction evs as [|ev evs IH]; intros s0 s received delivered H; cbn [sub_run] in H.
    { injection H as <- <- <-. exists (undelivered s0). rewrite app_nil_r. split; [done|by right]. }
    destruct (sub_step ev s0) as [[s1 out]|] eqn:Hs; [|done]. destruct (sub_run _ evs s1) as [[[s2 r] d]|] eqn:Hr; [|done].
    injection H as <- <- <-. apply sub_step_inv in Hs as [(e & -> & ->)|[Hu _]].
    - destruct evs as [|ev' evs]; [|by destruct ev']. injection Hr as <- <- <-.
      eexists. split; [reflexivity|]. left. by exists e.
    - apply IH in Hr as (rest & Hr & Hend). exists rest. split; [|done]. by rewrite app_assoc, Hu, <- !app_assoc, Hr. }
  intros H. apply Hg in H as (rest & H & Hend). by exists rest.
Qed.

Module SimulatedReadersSample.
Import SimulatedBackendSample.

#[local] Existing Instance geth.

(** A hash is the encoding of all the fields. *)
Definition fields (t : Transaction) : Z * Z * Z * Z * Z * option Z * option Z * list N :=
  (tx_ChainID t, tx_Nonce t, tx_GasTipCap t, tx_GasFeeCap t, tx_Gas t, tx_To t, tx_Value t, map Byte.to_N (tx_Data t)).

Definition hash (t : Transaction) : Hash := Zpos (encode (fields t)).

(** The database looks through the blocks of the chain. *)
#[export] Instance rawdb : Rawdb (list SimBlock) := {
  tx_Hash := hash;
  ReadReceipt _ _ := None;
  ReadTransaction h ch := List.find (λ t, hash t =? h) (concat (map bk_Transactions ch));
  GetHeaderByHash h ch := List.find (λ b, bk_Hash b =? h) ch;
  GetHeaderByNumber n ch := List.find (λ b, bk_Number b =? n) ch;
  CurrentFinalBlock ch := None;
  CurrentSafeBlock ch := None;
  GetBody h ch := bk_Transactions <$> List.find (λ b, bk_Hash b =? h) ch;
  ReadHeaderNumber h ch := bk_Number <$> List.find (λ b, bk_Hash b =? h) ch;
  ReadHeader h n ch := List.find (λ b, bk_Hash b =? h) ch;
  ReadReceipts h n t ch := [];
  ReadLogs h n ch := []
}.

Lemma hash_inj t t' : hash t = hash t' → t = t'.
Proof.
  unfold hash. intros [= H%(inj encode)]. destruct t, t'. unfold fields in H. cbn in H. injection H as -> -> -> -> -> -> -> Hd.
  f_equal. revert Hd. generalize tx_Data0. induction tx_Data as [|x l IH]; intros [|y l'] Hd; try done. cbn in Hd.
  injection Hd as Hxy Hd. f_equal; [|by apply IH].
  pose proof (Byte.of_to_N x) as Hx. pose proof (Byte.of_to_N y) as Hy. rewrite Hxy in Hx. congruence.
Qed.

Lemma rawdb_laws : RawdbLaws (CH := list SimBlock).
Proof.
  split; [exact hash_inj|]. intros blk ch ch' t [= <-] Hin. cbn -[hash].
  generalize (concat (map bk_Transactions ch)). intros l. revert Hin. generalize (bk_Transactions blk). intros ts.
  induction ts as [|t' ts IH]; intros Hin; [by apply elem_of_nil in Hin|]. cbn -[hash].
  destruct (Z.eqb_spec (hash t') (hash t)) as [E|E]; [by rewrite (hash_inj _ _ E)|].
  apply IH. by apply elem_of_cons in Hin as [->|Hin].
Qed.

Definition b1 : SimulatedBackend (list SimBlock) unit :=
  match SendTransaction tx b0 with Ret (_, b) => b | Panic _ => b0 end.
Definition b2 : SimulatedBackend (list SimBlock) unit := match Commit b1 with Ret (_, b) => b | Panic _ => b1 end.

Lemma sent : SendTransaction tx b0 = Ret (None, b1).
Proof. vm_compute. reflexivity. Qed.

Lemma committed : Commit b1 = Ret (bk_Hash (pendingBlock b1), b2).
Proof. vm_compute. reflexivity. Qed.

(** After it a transaction with a wrong nonce, a fork to the genesis and a shift of the clock,
    all refused, and one more transaction, accepted. *)
Definition tx' : Transaction := mkTx 1337 0 1 1 21000 (Some 7) None [].
Definition meanwhile : list sim_op :=
  [sim_send (mkTx 1337 9 1 1 21000 None None []); sim_fork 1000; sim_adjust 5; sim_send tx'].
Definition m2 : SimulatedBackend (list SimBlock) unit :=
  match sim_run meanwhile (b1, (0, [])) with Ret (b, _) => b | Panic _ => b1 end.
Definition m3 : SimulatedBackend (list SimBlock) unit := match Commit m2 with Ret (_, b) => b | Panic _ => m2 end.
Definition r3 : SimulatedBackend (list SimBlock) unit := match Rollback m2 with Ret b => b | Panic _ => m2 end.

Lemma transaction_lifecycle_witness :
  bk_Transactions (pendingBlock m2) = [tx; tx'] ∧ TransactionByHash (hash tx) m2 = Ok (tx, true) ∧
  TransactionByHash (hash tx) m3 = Ok (tx, false) ∧ TransactionByHash (hash tx) r3 = Err ethereum_NotFound.
Proof.
  split; [vm_compute; reflexivity|].
  destruct (transaction_lifecycle (L := laws) (RL := rawdb_laws) tx b0 b1 meanwhile m2 (0, []) (0, [tx'])) as (H1 & H2 & H3);
    [exact sent|reflexivity|vm_compute; reflexivity|].
  split; [exact H1|]. split.
  - apply (H2 (bk_Hash (pendingBlock m2)) m3). vm_compute. reflexivity.
  - assert (Hr : Rollback m2 = Ret r3) by (vm_compute; reflexivity).
    etransitivity; [exact (H3 r3 Hr)|vm_compute; reflexivity].
Defined.

Lemma pending_receipts_stale_witness :
  PendingBlockAndReceipts b2 = (mkSimBlock 1003 1002 2 0 15000000 (Some 7) [] 20, [mkReceipt 1 0 1]).
Proof.
  destruct (pending_receipts_stale (L := laws) tx b0 b1 b2 sent (or_introl (ex_intro _ _ committed))) as (H1 & H2 & _).
  rewrite (surjective_pairing (PendingBlockAndReceipts b2)), H2. vm_compute. reflexivity.
Defined.

Definition hour : Z := 3600 * 1000000000.

Definition a1 : SimulatedBackend (list SimBlock) unit := match AdjustTime hour b0 with Ret (_, b) => b | Panic _ => b0 end.
Definition a2 : SimulatedBackend (list SimBlock) unit := match AdjustTime (2 * hour) a1 with Ret (_, b) => b | Panic _ => a1 end.

Lemma adjustments_do_not_add_witness : bk_Time (pendingBlock a2) = bk_Time (pendingBlock a1) + 3600.
Proof.
  rewrite (adjustments_do_not_add (L := laws) hour (2 * hour) b0 a1 a2); vm_compute; reflexivity.
Defined.

(** A duration just below a second boundary may be counted one second longer. *)
Lemma whole_seconds_rounds_up : whole_seconds hour = 3600 ∧ whole_seconds (-1500000000) = -1 ∧
  whole_seconds (9000000000 * 1000000000 + 999999999) = 9000000001.
Proof. vm_compute. done. Qed.

Lemma subscription_in_order_witness : ∃ rest, [1; 2; 3] = [1; 2] ++ rest.
Proof.
  destruct (subscription_in_order [ev_sink [1; 2]; ev_take; ev_take; ev_sink [3]] (ss_sending 3 []) [1; 2; 3] [1; 2] eq_refl)
    as (rest & H & _). by exists rest.
Defined.

End SimulatedReadersSample.
